(** * ACSE association services of the COSEM stack (csm_association.c)

    A shallow embedding of the AARQ decoder, the authorization step, the
    AARE encoder and the top-level dispatcher, followed by the properties
    of the association layer that are stated about them. *)

From Stdlib Require Import ZArith List Bool Lia.
Import ListNotations.
Open Scope Z_scope.

(* ====================================================================== *)
(** * Bytes and byte buffers *)
(* ====================================================================== *)

(** Conversion to [uint8_t]: the value is reduced modulo 2^8. *)
Definition uint8 (v : Z) : Z := v mod 256.

(** [buffer[i] = v] on a list; nothing happens when [i] is out of range. *)
Fixpoint list_set (l : list Z) (i : nat) (v : Z) : list Z :=
  match l, i with
  | [], _ => []
  | _ :: t, O => v :: t
  | h :: t, S j => h :: list_set t j v
  end.

(** [memcpy (&buffer[i], src, length src)]. *)
Fixpoint list_blit (l : list Z) (i : nat) (src : list Z) : list Z :=
  match src with
  | [] => l
  | b :: bs => list_blit (list_set l i b) (S i) bs
  end.

(** Modelled from the spec: the byte-buffer cursor [csm_array] (csm_array.c
    is not part of the sources at hand).  The spec describes it as a
    bounded byte buffer with position tracking: a read position, a write
    position, bounds-checked reads and writes, and patching of a byte at a
    recorded offset.  [buff] is the whole storage, its length is the
    capacity ([size] in C); the bytes between [rd_index] and [wr_index] are
    the ones still to be read. *)
Record csm_array : Type := mk_array
  { buff : list Z;
    rd_index : nat;
    wr_index : nat }.

Definition array_size (array : csm_array) : nat := length (buff array).

Definition set_rd_index (array : csm_array) (i : nat) : csm_array :=
  {| buff := buff array; rd_index := i; wr_index := wr_index array |}.

Definition set_wr_index (array : csm_array) (i : nat) : csm_array :=
  {| buff := buff array; rd_index := rd_index array; wr_index := i |}.

(** Modelled from the spec: [csm_array_unread], the number of bytes left
    between the read and the write position. *)
Definition csm_array_unread (array : csm_array) : nat :=
  (wr_index array - rd_index array)%nat.

(** Modelled from the spec: [csm_array_get (array, index, &byte)], a
    bounds-checked read at an absolute offset.  The out-parameter keeps its
    previous value when the call fails. *)
Definition csm_array_get (array : csm_array) (index : nat) (byte : Z)
  : bool * Z :=
  match nth_error (buff array) index with
  | Some b => (true, b)
  | None => (false, byte)
  end.

(** Modelled from the spec: [csm_array_set (array, index, byte)], patching
    of one byte at an absolute offset inside the storage. *)
Definition csm_array_set (array : csm_array) (index : nat) (byte : Z)
  : bool * csm_array :=
  if (index <? array_size array)%nat
  then (true, {| buff := list_set (buff array) index (uint8 byte);
                 rd_index := rd_index array;
                 wr_index := wr_index array |})
  else (false, array).

(** Modelled from the spec: [csm_array_read_u8 (array, &byte)], one byte at
    the read position; fails on underrun, leaving cursor and out-parameter
    as they were. *)
Definition csm_array_read_u8 (array : csm_array) (byte : Z)
  : bool * Z * csm_array :=
  if (rd_index array <? wr_index array)%nat
  then match nth_error (buff array) (rd_index array) with
       | Some b => (true, b, set_rd_index array (S (rd_index array)))
       | None => (false, byte, array)
       end
  else (false, byte, array).

(** Modelled from the spec: [csm_array_read_u16], a 2-byte big-endian
    integer at the read position. *)
Definition csm_array_read_u16 (array : csm_array) (value : Z)
  : bool * Z * csm_array :=
  if (2 <=? csm_array_unread array)%nat
  then match nth_error (buff array) (rd_index array),
             nth_error (buff array) (S (rd_index array)) with
       | Some hi, Some lo =>
           (true, Z.shiftl hi 8 + lo, set_rd_index array (2 + rd_index array))
       | _, _ => (false, value, array)
       end
  else (false, value, array).

(** Modelled from the spec: [csm_array_read_buff (array, dst, size)], a raw
    byte range copied out of the cursor; [dst] is returned with its first
    [size] bytes replaced. *)
Definition csm_array_read_buff (array : csm_array) (dst : list Z) (size : nat)
  : bool * list Z * csm_array :=
  if ((size <=? csm_array_unread array)
      && (rd_index array + size <=? array_size array))%nat
  then (true,
        firstn size (skipn (rd_index array) (buff array)) ++ skipn size dst,
        set_rd_index array (rd_index array + size))
  else (false, dst, array).

(** Modelled from the spec: [csm_array_reader_jump (array, nb_bytes)], the
    read position moved forward over bytes that are not looked at. *)
Definition csm_array_reader_jump (array : csm_array) (nb_bytes : nat)
  : bool * csm_array :=
  if (nb_bytes <=? csm_array_unread array)%nat
  then (true, set_rd_index array (rd_index array + nb_bytes))
  else (false, array).

(** Modelled from the spec: [csm_array_write_u8 (array, byte)], one byte
    appended at the write position when the storage has room for it. *)
Definition csm_array_write_u8 (array : csm_array) (byte : Z)
  : bool * csm_array :=
  if (wr_index array <? array_size array)%nat
  then (true, {| buff := list_set (buff array) (wr_index array) (uint8 byte);
                 rd_index := rd_index array;
                 wr_index := S (wr_index array) |})
  else (false, array).

(** Modelled from the spec: [csm_array_write_buff (array, buffer, size)], a
    byte range appended at the write position; nothing is written when the
    range does not fit. *)
Definition csm_array_write_buff (array : csm_array) (buffer : list Z)
  (size : nat) : bool * csm_array :=
  if (wr_index array + size <=? array_size array)%nat
  then (true, {| buff := list_blit (buff array) (wr_index array)
                           (map uint8 (firstn size buffer));
                 rd_index := rd_index array;
                 wr_index := (wr_index array + size)%nat |})
  else (false, array).

(** [valid = valid && f (array)]: the call is not made once [valid] is 0. *)
Definition and_then (va : bool * csm_array)
  (f : csm_array -> bool * csm_array) : bool * csm_array :=
  if fst va then f (snd va) else (false, snd va).

Notation "va '&&>' f" := (and_then va f) (at level 55, left associativity).

(* ====================================================================== *)
(** * BER and A-XDR primitives *)
(* ====================================================================== *)

(** Modelled from the spec: the constants of csm_ber.h, which is not part
    of the sources at hand: the BER universal types INTEGER, OCTET STRING
    and OBJECT IDENTIFIER and the context-specific class bit. *)
Definition BER_TYPE_INTEGER : Z := 2.
Definition BER_TYPE_OCTET_STRING : Z := 4.
Definition BER_TYPE_OBJECT_IDENTIFIER : Z := 6.
Definition TAG_CONTEXT_SPECIFIC : Z := 0x80.

(** Modelled from the spec: the constants of csm_axdr_codec.h, which is
    not part of the sources at hand: the A-XDR null marker (the encoder
    below writes it as [0U], "null, no QoS") and the discriminators of the
    InitiateRequest and InitiateResponse APDUs. *)
Definition AXDR_TAG_NULL : Z := 0.
Definition AXDR_INITIATE_REQUEST : Z := 1.
Definition AXDR_INITIATE_RESPONSE : Z := 8.

(** Modelled from the spec: the decoded TLV header [csm_ber] (tag, length
    and primitive flag), with the fields the association layer reads:
    [ber->tag.tag], [ber->tag.id], [ber->tag.ext], [ber->tag.isPrimitive]
    and [ber->length.length]. *)
Record csm_ber : Type := mk_ber
  { tag_tag : Z;
    tag_id : Z;
    tag_ext : Z;
    tag_isPrimitive : bool;
    length_length : Z }.

(** Big-endian accumulation of [n] bytes from the cursor. *)
Fixpoint read_be (n : nat) (acc : Z) (array : csm_array)
  : bool * Z * csm_array :=
  match n with
  | O => (true, acc, array)
  | S m =>
      let '(ok, b, array1) := csm_array_read_u8 array 0 in
      if ok then read_be m (acc * 256 + b) array1 else (false, acc, array1)
  end.

(** Modelled from the spec: [csm_ber_decode (ber, array)], the TLV header
    decoder (csm_ber.c is not part of the sources at hand).  Given a cursor
    it produces the tag, the length and the primitive flag, or fails on
    truncation or on a malformed length.  The tag byte is kept whole in
    [tag_tag], its low five bits are the tag number [tag_id]; the number 31
    announces one more tag byte, kept in [tag_ext] (the "application-tag-31
    form" 0x5F 0x1F of the conformance block).  A length byte below 0x80 is
    the length itself; otherwise its low seven bits count the length bytes
    that follow, one to four, big-endian.  Fields decoded before a failure
    stay written. *)
Definition csm_ber_decode (ber : csm_ber) (array : csm_array)
  : bool * csm_ber * csm_array :=
  let '(ok, b, array1) := csm_array_read_u8 array 0 in
  if negb ok then (false, ber, array1) else
  let ber1 := {| tag_tag := b;
                 tag_id := Z.land b 0x1F;
                 tag_ext := tag_ext ber;
                 tag_isPrimitive := negb (Z.testbit b 5);
                 length_length := length_length ber |} in
  let '(ok_ext, ber2, array2) :=
    if tag_id ber1 =? 0x1F
    then let '(ok2, e, a2) := csm_array_read_u8 array1 0 in
         if ok2
         then (true, {| tag_tag := tag_tag ber1; tag_id := tag_id ber1;
                        tag_ext := e;
                        tag_isPrimitive := tag_isPrimitive ber1;
                        length_length := length_length ber1 |}, a2)
         else (false, ber1, a2)
    else (true, ber1, array1) in
  if negb ok_ext then (false, ber2, array2) else
  let '(ok_len, l, array3) := csm_array_read_u8 array2 0 in
  if negb ok_len then (false, ber2, array3) else
  let with_length (n : Z) :=
    {| tag_tag := tag_tag ber2; tag_id := tag_id ber2; tag_ext := tag_ext ber2;
       tag_isPrimitive := tag_isPrimitive ber2; length_length := n |} in
  if l <? 0x80 then (true, with_length l, array3)
  else
    let n := Z.land l 0x7F in
    if (n =? 0) || (4 <? n) then (false, ber2, array3)
    else
      let '(ok_be, v, array4) := read_be (Z.to_nat n) 0 array3 in
      if ok_be then (true, with_length v, array4) else (false, ber2, array4).

(** Modelled from the spec: [csm_ber_write_len (array, len)], the BER
    length writer: one byte for a length below 128 (the only form this
    profile produces), 0x81 or 0x82 and the big-endian length above. *)
Definition csm_ber_write_len (array : csm_array) (len : Z)
  : bool * csm_array :=
  if len <? 128 then csm_array_write_u8 array len
  else if len <? 256
       then csm_array_write_u8 array 0x81
              &&> (fun a => csm_array_write_u8 a len)
       else csm_array_write_u8 array 0x82
              &&> (fun a => csm_array_write_u8 a (Z.shiftr len 8))
              &&> (fun a => csm_array_write_u8 a len).

(** Modelled from the spec: [csm_ber_write_integer (array, value)], a
    one-byte INTEGER wrapped in its length: 03 02 01 value.  (The
    result-source-diagnostic encoder declares 5 bytes for one tag byte
    followed by this encoding.) *)
Definition csm_ber_write_integer (array : csm_array) (value : Z)
  : bool * csm_array :=
  csm_ber_write_len array 3
    &&> (fun a => csm_array_write_u8 a BER_TYPE_INTEGER)
    &&> (fun a => csm_ber_write_len a 1)
    &&> (fun a => csm_array_write_u8 a value).

(** Modelled from the spec: [ber_object_identifier], with the fields the
    association layer uses: the expected prefix and its size, the decoded
    name-selector and id. *)
Record ber_object_identifier : Type := mk_oid
  { oid_header : list Z;
    oid_size : nat;
    oid_name : Z;
    oid_id : Z }.

(** Modelled from the spec: [csm_ber_decode_object_identifier (oid,
    array)], the object identifier matcher: the next [oid->size] bytes are
    compared byte for byte with the expected prefix, a mismatch or an
    underrun fails; the two bytes after the prefix are the name-selector
    and the id. *)
Definition csm_ber_decode_object_identifier (oid : ber_object_identifier)
  (array : csm_array) : bool * ber_object_identifier * csm_array :=
  let '(ok, prefix, array1) := csm_array_read_buff array [] (oid_size oid) in
  if negb ok then (false, oid, array1) else
  if negb (if list_eq_dec Z.eq_dec prefix (firstn (oid_size oid) (oid_header oid))
           then true else false)
  then (false, oid, array1) else
  let '(ok_name, name, array2) := csm_array_read_u8 array1 (oid_name oid) in
  if negb ok_name then (false, oid, array2) else
  let '(ok_id, id, array3) := csm_array_read_u8 array2 (oid_id oid) in
  if negb ok_id then (false, oid, array3) else
  (true,
   {| oid_header := oid_header oid; oid_size := oid_size oid;
      oid_name := name; oid_id := id |},
   array3).

(** Modelled from the spec: [csm_axdr_rd_null (array)], reading one A-XDR
    marker that is expected to be null. *)
Definition csm_axdr_rd_null (array : csm_array) : bool * csm_array :=
  let '(ok, b, array1) := csm_array_read_u8 array 0 in
  if ok then (b =? AXDR_TAG_NULL, array1) else (false, array1).

(* ====================================================================== *)
(** * Association state *)
(* ====================================================================== *)

(** [cOidHeader] and the two object identifier names. *)
Definition cOidHeader : list Z := [0x60; 0x85; 0x74; 0x05; 0x08].
Definition APP_CONTEXT_NAME : Z := 1.
Definition SECURITY_MECHANISM_NAME : Z := 2.

Inductive csm_acse_code : Type :=
  | CSM_ACSE_ERR   (* Encoding/decoding is NOT good, stop here if it is required *)
  | CSM_ACSE_OK.   (* Encoding/decoding is good, we can continue *)

(** The integer value of a code, as the decoding loop tests it. *)
Definition acse_code_true (c : csm_acse_code) : bool :=
  match c with CSM_ACSE_ERR => false | CSM_ACSE_OK => true end.

Definition acse_code_of (valid : bool) : csm_acse_code :=
  if valid then CSM_ACSE_OK else CSM_ACSE_ERR.

Inductive acse_context : Type :=
  | ACSE_NONE  (* Never decode/encode *)
  | ACSE_ANY   (* Always decode/encode *)
  | ACSE_OPT   (* Optional, skiped if not exists *)
  | ACSE_SEC.  (* When use ciphered authentication *)

Definition acse_context_eqb (a b : acse_context) : bool :=
  match a, b with
  | ACSE_NONE, ACSE_NONE | ACSE_ANY, ACSE_ANY
  | ACSE_OPT, ACSE_OPT | ACSE_SEC, ACSE_SEC => true
  | _, _ => false
  end.

(** Modelled from the spec: the connection state of the data model,
    [state_cf] (csm_association.h is not part of the sources at hand). *)
Inductive csm_asso_cf : Type :=
  | CF_IDLE
  | CF_ASSOCIATION_PENDING
  | CF_ASSOCIATED.

Definition cf_eqb (a b : csm_asso_cf) : bool :=
  match a, b with
  | CF_IDLE, CF_IDLE | CF_ASSOCIATION_PENDING, CF_ASSOCIATION_PENDING
  | CF_ASSOCIATED, CF_ASSOCIATED => true
  | _, _ => false
  end.

(** Modelled from the spec: the referencing modes, the authentication
    levels and the handshake results of the data model.  These
    enumerations travel on the wire and are kept as the integers they are
    in C: the code compares them with decoded bytes and writes them with a
    [uint8_t] cast.  The values are those of the object identifiers quoted
    in [acse_oid_decoder] (context 1 to 4, mechanism 0, 1 and 5) and of the
    Associate-source-diagnostic listed before
    [acse_result_src_diag_encoder] (null 0, authentication-failure 13,
    authentication-required 14). *)
Definition NO_REF : Z := 0.
Definition LN_REF : Z := 1.
Definition SN_REF : Z := 2.
Definition LN_REF_WITH_CYPHERING : Z := 3.
Definition SN_REF_WITH_CYPHERING : Z := 4.

Definition CSM_AUTH_LOWEST_LEVEL : Z := 0.
Definition CSM_AUTH_LOW_LEVEL : Z := 1.
Definition CSM_AUTH_HIGH_LEVEL_GMAC : Z := 5.

Definition CSM_ASSO_ERR_NULL : Z := 0.
Definition CSM_ASSO_ERR_AUTH_FAILURE : Z := 13.
Definition CSM_ASSO_AUTH_REQUIRED : Z := 14.

(** Modelled from the spec: a challenge of the handshake, [value] and
    [size]. *)
Record csm_challenge : Type := mk_challenge
  { chal_value : list Z;
    chal_size : Z }.

(** Modelled from the spec: the handshake scratch of the data model,
    [state->handshake]. *)
Record csm_asso_handshake : Type := mk_handshake
  { ctos : csm_challenge;
    stoc : csm_challenge;
    result : Z;
    proposed_conformance : Z;
    client_max_receive_pdu_size : Z }.

(** Modelled from the spec: the configuration [state->config], shared and
    read-only, with the fields the association layer reads: the conformance
    block offered by the server and the destination access point
    [llc.dsap]. *)
Record csm_asso_config : Type := mk_config
  { conformance : Z;
    llc_dsap : Z }.

(** Modelled from the spec: the association state of the data model,
    [csm_asso_state]. *)
Record csm_asso_state : Type := mk_state
  { state_cf : csm_asso_cf;
    ref : Z;
    auth_level : Z;
    client_app_title : list Z;
    handshake : csm_asso_handshake;
    config : csm_asso_config }.

Definition set_state_cf (s : csm_asso_state) (v : csm_asso_cf) :=
  {| state_cf := v; ref := ref s; auth_level := auth_level s;
     client_app_title := client_app_title s; handshake := handshake s;
     config := config s |}.

Definition set_ref (s : csm_asso_state) (v : Z) :=
  {| state_cf := state_cf s; ref := v; auth_level := auth_level s;
     client_app_title := client_app_title s; handshake := handshake s;
     config := config s |}.

Definition set_auth_level (s : csm_asso_state) (v : Z) :=
  {| state_cf := state_cf s; ref := ref s; auth_level := v;
     client_app_title := client_app_title s; handshake := handshake s;
     config := config s |}.

Definition set_client_app_title (s : csm_asso_state) (v : list Z) :=
  {| state_cf := state_cf s; ref := ref s; auth_level := auth_level s;
     client_app_title := v; handshake := handshake s; config := config s |}.

Definition set_handshake (s : csm_asso_state) (v : csm_asso_handshake) :=
  {| state_cf := state_cf s; ref := ref s; auth_level := auth_level s;
     client_app_title := client_app_title s; handshake := v;
     config := config s |}.

Definition set_ctos (s : csm_asso_state) (v : csm_challenge) :=
  set_handshake s
    {| ctos := v; stoc := stoc (handshake s); result := result (handshake s);
       proposed_conformance := proposed_conformance (handshake s);
       client_max_receive_pdu_size :=
         client_max_receive_pdu_size (handshake s) |}.

Definition set_stoc (s : csm_asso_state) (v : csm_challenge) :=
  set_handshake s
    {| ctos := ctos (handshake s); stoc := v; result := result (handshake s);
       proposed_conformance := proposed_conformance (handshake s);
       client_max_receive_pdu_size :=
         client_max_receive_pdu_size (handshake s) |}.

Definition set_result (s : csm_asso_state) (v : Z) :=
  set_handshake s
    {| ctos := ctos (handshake s); stoc := stoc (handshake s); result := v;
       proposed_conformance := proposed_conformance (handshake s);
       client_max_receive_pdu_size :=
         client_max_receive_pdu_size (handshake s) |}.

Definition set_proposed_conformance (s : csm_asso_state) (v : Z) :=
  set_handshake s
    {| ctos := ctos (handshake s); stoc := stoc (handshake s);
       result := result (handshake s);
       proposed_conformance := v;
       client_max_receive_pdu_size :=
         client_max_receive_pdu_size (handshake s) |}.

Definition set_client_max_receive_pdu_size (s : csm_asso_state) (v : Z) :=
  set_handshake s
    {| ctos := ctos (handshake s); stoc := stoc (handshake s);
       result := result (handshake s);
       proposed_conformance := proposed_conformance (handshake s);
       client_max_receive_pdu_size := v |}.

(** What a field decoder or encoder leaves behind: its return code, the
    association state, the TLV header and the cursor. *)
Definition acse_result : Type :=
  (csm_acse_code * csm_asso_state * csm_ber * csm_array)%type.

(** [extract_param] and [insert_param]. *)
Definition extract_param : Type :=
  csm_asso_state -> csm_ber -> csm_array -> acse_result.
Definition insert_param : Type :=
  csm_asso_state -> csm_ber -> csm_array -> acse_result.

(** [csm_asso_codec]; a NULL function pointer is [None]. *)
Record csm_asso_codec : Type := mk_codec
  { codec_tag : Z;
    context : acse_context;
    extract_func : option extract_param;
    insert_func : option insert_param }.

(** Modelled from the spec: the tags of the four APDUs (0x60 to 0x63), and
    the field tags of csm_association.h, numbered as in the AARQ and AARE
    grammars quoted in the source (context-specific class, constructed
    when the field is explicit). *)
Definition CSM_ASSO_AARQ : Z := 0x60.
Definition CSM_ASSO_AARE : Z := 0x61.
Definition CSM_ASSO_RLRQ : Z := 0x62.
Definition CSM_ASSO_RLRE : Z := 0x63.

Definition CSM_ASSO_PROTO_VER : Z := 0x80.
Definition CSM_ASSO_APP_CONTEXT_NAME : Z := 0xA1.
Definition CSM_ASSO_CALLED_AP_TITLE : Z := 0xA2.
Definition CSM_ASSO_CALLED_AE_QUALIFIER : Z := 0xA3.
Definition CSM_ASSO_CALLED_AP_INVOC_ID : Z := 0xA4.
Definition CSM_ASSO_CALLED_AE_INVOC_ID : Z := 0xA5.
Definition CSM_ASSO_CALLING_AP_TITLE : Z := 0xA6.
Definition CSM_ASSO_CALLING_AE_QUALIFIER : Z := 0xA7.
Definition CSM_ASSO_CALLING_AP_INVOC_ID : Z := 0xA8.
Definition CSM_ASSO_CALLING_AE_INVOC_ID : Z := 0xA9.
Definition CSM_ASSO_SENDER_ACSE_REQU : Z := 0x8A.
Definition CSM_ASSO_REQ_MECHANISM_NAME : Z := 0x8B.
Definition CSM_ASSO_CALLING_AUTH_VALUE : Z := 0xAC.
Definition CSM_ASSO_IMPLEMENTATION_INFO : Z := 0xBD.
Definition CSM_ASSO_USER_INFORMATION : Z := 0xBE.

Definition CSM_ASSO_RESULT_FIELD : Z := 0xA2.
Definition CSM_ASSO_RESULT_SRC_DIAG : Z := 0xA3.
Definition CSM_ASSO_RESP_AP_TITLE : Z := 0xA4.
Definition CSM_ASSO_RESPONDER_ACSE_REQ : Z := 0x88.
Definition CSM_ASSO_RESP_MECHANISM_NAME : Z := 0x89.
Definition CSM_ASSO_RESP_AUTH_VALUE : Z := 0xAA.
Definition CSM_ASSO_RESULT_SERVICE_USER : Z := 0xA1.

(* ====================================================================== *)
(** * Sample data *)
(* ====================================================================== *)

(** A header that was never decoded, an association at rest, packets, and
    system services to run the association layer on: an 8-byte system
    title, a source of bytes, and a password table with one entry, for the
    access point 1. *)
Definition sample_ber : csm_ber := mk_ber 0 0 0 false 0.

Definition sample_config : csm_asso_config := mk_config 0x00501F 1.

Definition sample_handshake : csm_asso_handshake :=
  mk_handshake (mk_challenge (repeat 0 64%nat) 0) (mk_challenge (repeat 0 64%nat) 0)
    CSM_ASSO_ERR_NULL 0 0.

Definition sample_idle : csm_asso_state :=
  mk_state CF_IDLE NO_REF CSM_AUTH_LOWEST_LEVEL (repeat 0 8%nat)
    sample_handshake sample_config.

Definition sample_packet (bytes : list Z) (capacity : nat) : csm_array :=
  mk_array (bytes ++ repeat 0 (capacity - length bytes)) 0 (length bytes).

Definition sample_title : list Z := [0x4D; 0x4D; 0x4D; 0; 0; 0; 0; 1].

Definition sample_random (i : nat) : Z := Z.of_nat (7 * i + 3).

Definition sample_password (dsap : Z) (value : list Z) (size : Z) : bool :=
  (dsap =? 1) && (size =? 8)
  && (if list_eq_dec Z.eq_dec (firstn 8 value)
           [0x31; 0x32; 0x33; 0x34; 0x35; 0x36; 0x37; 0x38]
      then true else false).

(** An InitiateRequest inside its user-information field, with the given
    dedicated-key marker. *)
Definition sample_user_information (marker : Z) : list Z :=
  [0xBE; 0x10; 0x04; 0x0E; 0x01; marker; 0x00; 0x00; 0x06;
   0x5F; 0x1F; 0x04; 0x00; 0x00; 0x7E; 0x1F; 0x04; 0xB0].

(** An AARQ without authentication, logical-name referencing. *)
Definition sample_aarq : list Z :=
  [0x60; 0x1D; 0xA1; 0x09; 0x06; 0x07; 0x60; 0x85; 0x74; 0x05; 0x08; 0x01; 0x01]
    ++ sample_user_information 0.

(** An AARQ made of the user-information field alone: the
    application-context-name, a field that is always required, is
    missing. *)
Definition sample_aarq_no_context : list Z :=
  [0x60; 0x12] ++ sample_user_information 0.

(** A packet that is not an AARQ. *)
Definition sample_not_aarq : list Z := [0x61; 0x00].

(** A release request. *)
Definition sample_rlrq : list Z := [0x62; 0x00].

(** A mechanism-name field declared 8 bytes long, one more than an object
    identifier of the DLMS UA: its header once decoded, and the cursor on
    its 8 bytes, low-level security followed by a stray byte. *)
Definition sample_oversized_header : csm_ber :=
  mk_ber CSM_ASSO_REQ_MECHANISM_NAME 11 0 true 8.

Definition sample_oversized_oid : csm_array :=
  mk_array (cOidHeader ++ [SECURITY_MECHANISM_NAME; CSM_AUTH_LOW_LEVEL; 0xFF])
    0 8.

(** An association whose client asked for low-level security with a
    password that is not the one of the table, and one that asked for
    high-level security with an 8-byte challenge. *)
Definition sample_low_level : csm_asso_state :=
  set_ctos (set_auth_level sample_idle CSM_AUTH_LOW_LEVEL)
    (mk_challenge
       ([0x30; 0x30; 0x30; 0x30; 0x30; 0x30; 0x30; 0x30] ++ repeat 0 56%nat) 8).

Definition sample_high_level : csm_asso_state :=
  set_ctos (set_auth_level sample_idle CSM_AUTH_HIGH_LEVEL_GMAC)
    (mk_challenge
       ([0x4B; 0x35; 0x36; 0x69; 0x56; 0x61; 0x67; 0x59] ++ repeat 0 56%nat) 8).


(** An AARQ with low-level security and the password of the table, and one
    with high-level security and an 8-byte challenge; both in logical-name
    referencing. *)
Definition sample_password_value : list Z :=
  [0x31; 0x32; 0x33; 0x34; 0x35; 0x36; 0x37; 0x38].

Definition sample_challenge_value : list Z :=
  [0x4B; 0x35; 0x36; 0x69; 0x56; 0x61; 0x67; 0x59].

Definition sample_aarq_low_level : list Z :=
  [0x60; 0x36; 0xA1; 0x09; 0x06; 0x07; 0x60; 0x85; 0x74; 0x05; 0x08; 0x01; 0x01;
   0x8A; 0x02; 0x07; 0x80;
   0x8B; 0x07; 0x60; 0x85; 0x74; 0x05; 0x08; 0x02; 0x01;
   0xAC; 0x0A; 0x80; 0x08]
    ++ sample_password_value ++ sample_user_information 0.

Definition sample_aarq_high_level : list Z :=
  [0x60; 0x36; 0xA1; 0x09; 0x06; 0x07; 0x60; 0x85; 0x74; 0x05; 0x08; 0x01; 0x01;
   0x8A; 0x02; 0x07; 0x80;
   0x8B; 0x07; 0x60; 0x85; 0x74; 0x05; 0x08; 0x02; 0x05;
   0xAC; 0x0A; 0x80; 0x08]
    ++ sample_challenge_value ++ sample_user_information 0.

(** An AARQ that ends with its application-context-name, and one without
    any field. *)
Definition sample_aarq_context_only : list Z :=
  [0x60; 0x0B; 0xA1; 0x09; 0x06; 0x07; 0x60; 0x85; 0x74; 0x05; 0x08; 0x01; 0x01].

Definition sample_aarq_empty : list Z := [0x60; 0x00].

(** The content of a user-information field whose InitiateRequest declares
    [u] unused bits in its conformance block. *)
Definition sample_initiate_request (u : Z) : list Z :=
  [0x04; 0x0E; 0x01; 0x00; 0x00; 0x00; 0x06; 0x5F; 0x1F; 0x04; u;
   0x00; 0x7E; 0x1F; 0x04; 0xB0].

(** An association whose authentication level is none of the three that
    the server knows. *)
Definition sample_unknown_level : csm_asso_state :=
  set_auth_level sample_idle 7.



Section Association.

(** Build-time sizes of csm_config.h and the one result code whose value
    the source does not show; they are left open. *)
Variable CSM_DEF_APP_TITLE_SIZE : Z.
Variable CSM_DEF_LLS_SIZE : Z.
Variable CSM_DEF_CHALLENGE_SIZE : Z.
Variable CSM_DEF_PDU_SIZE : Z.
Variable CSM_ASSO_AUTH_UNKNOWN : Z.

(** System services: the system title of the device, the successive
    results of the random byte generator, and the check of a low-level
    password for an access point. *)
Variable csm_sys_get_system_title : list Z.
Variable csm_sys_get_random_u8 : nat -> Z.
Variable csm_sys_test_lls_password : Z -> list Z -> Z -> bool.

(* ---------------------------------------------------------------------- *)
(** ** Decoders *)
(* ---------------------------------------------------------------------- *)

Definition acse_proto_version_decoder (state : csm_asso_state)
  (ber : csm_ber) (array : csm_array) : acse_result :=
  (* we support only version1 of the protocol *)
  if length_length ber =? 2 then
    let '(ok1, unused_bytes, array1) := csm_array_read_u8 array 0 in
    if ok1 then
      let '(ok2, version, array2) := csm_array_read_u8 array1 0 in
      if ok2 then
        if (unused_bytes =? 7) && (version =? 0x80)
        then (CSM_ACSE_OK, state, ber, array2)
        else (CSM_ACSE_ERR, state, ber, array2)
      else (CSM_ACSE_ERR, state, ber, array2)
    else (CSM_ACSE_ERR, state, ber, array1)
  else (CSM_ACSE_ERR, state, ber, array).

Definition acse_app_context_decoder (state : csm_asso_state)
  (ber : csm_ber) (array : csm_array) : acse_result :=
  (* the length of the object identifier must be 7 bytes + 2 bytes for the
     BER header = 9 bytes *)
  if length_length ber =? 9
  then (CSM_ACSE_OK, state, ber, array)
  else (CSM_ACSE_ERR, state, ber, array).

Definition acse_oid_decoder (state : csm_asso_state)
  (ber : csm_ber) (array : csm_array) : acse_result :=
  let oid := {| oid_header := cOidHeader; oid_size := 5;
                oid_name := 0; oid_id := 0 |} in
  let '(ok, oid1, array1) := csm_ber_decode_object_identifier oid array in
  if ok then
    if oid_name oid1 =? APP_CONTEXT_NAME then
      if oid_id oid1 =? LN_REF
      then (CSM_ACSE_OK, set_ref state LN_REF, ber, array1)
      else if oid_id oid1 =? SN_REF
      then (CSM_ACSE_OK, set_ref state SN_REF, ber, array1)
      else if oid_id oid1 =? LN_REF_WITH_CYPHERING
      then (CSM_ACSE_OK, set_ref state LN_REF_WITH_CYPHERING, ber, array1)
      else if oid_id oid1 =? SN_REF_WITH_CYPHERING
      then (CSM_ACSE_OK, set_ref state SN_REF_WITH_CYPHERING, ber, array1)
      else (CSM_ACSE_ERR, state, ber, array1)
    else if oid_name oid1 =? SECURITY_MECHANISM_NAME then
      if oid_id oid1 =? CSM_AUTH_LOW_LEVEL
      then (CSM_ACSE_OK, set_auth_level state CSM_AUTH_LOW_LEVEL, ber, array1)
      else if oid_id oid1 =? CSM_AUTH_HIGH_LEVEL_GMAC
      then (CSM_ACSE_OK, set_auth_level state CSM_AUTH_HIGH_LEVEL_GMAC,
            ber, array1)
      else (CSM_ACSE_ERR, state, ber, array1)
    else (CSM_ACSE_ERR, state, ber, array1)
  else (CSM_ACSE_ERR, state, ber, array1).

Definition acse_req_decoder (state : csm_asso_state)
  (ber : csm_ber) (array : csm_array) : acse_result :=
  if length_length ber =? 2 then
    let '(ok1, byte, array1) := csm_array_read_u8 array 0 in
    if ok1 then
      (* encoding of the number of unused bits in the last byte of the
         BIT STRING *)
      if byte =? 0x07 then
        let '(ok2, byte, array2) := csm_array_read_u8 array1 byte in
        if ok2 then
          if byte =? 0x80
          then (CSM_ACSE_OK, state, ber, array2)
          else (CSM_ACSE_ERR, state, ber, array2)
        else (CSM_ACSE_ERR, state, ber, array2)
      else (CSM_ACSE_ERR, state, ber, array1)
    else (CSM_ACSE_ERR, state, ber, array1)
  else (CSM_ACSE_ERR, state, ber, array).

Definition acse_auth_value_decoder (state : csm_asso_state)
  (ber : csm_ber) (array : csm_array) : acse_result :=
  let '(ok, ber1, array1) := csm_ber_decode ber array in
  if ok then
    (* Can be a challenge or a LLS *)
    if (CSM_DEF_LLS_SIZE <=? length_length ber1)
       && (length_length ber1 <=? CSM_DEF_CHALLENGE_SIZE)
    then
      if tag_tag ber1 =? TAG_CONTEXT_SPECIFIC then
        (* It is a GraphicString, the size is dynamic *)
        let '(okb, value, array2) :=
          csm_array_read_buff array1 (chal_value (ctos (handshake state)))
            (Z.to_nat (length_length ber1)) in
        if okb
        then (CSM_ACSE_OK,
              set_ctos state {| chal_value := value;
                                chal_size := length_length ber1 |},
              ber1, array2)
        else (CSM_ACSE_ERR, state, ber1, array2)
      else (CSM_ACSE_ERR, state, ber1, array1)
    else (CSM_ACSE_ERR, state, ber1, array1)
  else (CSM_ACSE_ERR, state, ber1, array1).

(** [valid = valid && csm_array_read_u8 (array, &byte)]. *)
Definition and_read_u8 (valid : bool) (byte : Z) (array : csm_array)
  : bool * Z * csm_array :=
  if valid then csm_array_read_u8 array byte else (false, byte, array).

(** The InitiateRequest after its dedicated-key marker: response-allowed,
    proposed-quality-of-service, proposed-dlms-version-number, the
    conformance block and client-max-receive-pdu-size.  [byte] is the local
    variable of that name, holding what the last successful read left. *)
Definition initiate_request_tail (state : csm_asso_state) (ber : csm_ber)
  (array : csm_array) (byte : Z) : acse_result :=
  let '(valid, array1) := csm_axdr_rd_null array in (* response-allowed *)
  let '(valid, array2) :=
    (valid, array1) &&> csm_axdr_rd_null in (* proposed_quality_of_service *)
  (* proposed-dlms-version-number: always 6 *)
  let '(valid, byte, array3) := and_read_u8 valid byte array2 in
  let valid := valid && (byte =? 6) in
  (* conformance, [APPLICATION 31] IMPLICIT BIT STRING *)
  let '(valid, ber1, array4) :=
    if valid then csm_ber_decode ber array3 else (false, ber, array3) in
  if (tag_tag ber1 =? 0x5F) && (tag_ext ber1 =? 31) then
    if length_length ber1 =? 4 then
      let '(valid, byte, array5) := and_read_u8 valid byte array4 in
      let valid := valid && (byte =? 0) in (* unused bits in the bitstring *)
      let state1 := set_proposed_conformance state (Z.shiftl byte 16) in
      let '(valid, byte, array6) := and_read_u8 valid byte array5 in
      let state2 :=
        set_proposed_conformance state1
          (proposed_conformance (handshake state1) + Z.shiftl byte 8) in
      let '(valid, byte, array7) := and_read_u8 valid byte array6 in
      let state3 :=
        set_proposed_conformance state2
          (proposed_conformance (handshake state2) + byte) in
      let '(valid, pdu_size, array8) :=
        if valid
        then csm_array_read_u16 array7
               (client_max_receive_pdu_size (handshake state3))
        else (false, client_max_receive_pdu_size (handshake state3), array7) in
      (acse_code_of valid,
       set_client_max_receive_pdu_size state3 pdu_size, ber1, array8)
    else (acse_code_of valid, state, ber1, array4)
  else (CSM_ACSE_ERR, state, ber1, array4).

Definition acse_user_info_decoder (state : csm_asso_state)
  (ber : csm_ber) (array : csm_array) : acse_result :=
  let '(ok, ber1, array1) := csm_ber_decode ber array in
  if ok then
    if tag_id ber1 =? BER_TYPE_OCTET_STRING then
      (* Now decode the A-XDR encoded packet *)
      let '(ok1, byte, array2) := csm_array_read_u8 array1 0 in
      if ok1 then
        if byte =? AXDR_INITIATE_REQUEST then
          (* dedicated-key: the marker is read, a key is not copied *)
          let '(_, byte, array3) := csm_array_read_u8 array2 byte in
          initiate_request_tail state ber1 array3 byte
        else (CSM_ACSE_ERR, state, ber1, array2)
      else (CSM_ACSE_ERR, state, ber1, array2)
    else (CSM_ACSE_ERR, state, ber1, array1)
  else (CSM_ACSE_ERR, state, ber1, array1).

Definition acse_client_system_title_decoder (state : csm_asso_state)
  (ber : csm_ber) (array : csm_array) : acse_result :=
  let '(ok, ber1, array1) := csm_ber_decode ber array in
  if ok then
    if length_length ber1 =? CSM_DEF_APP_TITLE_SIZE then
      if tag_id ber1 =? BER_TYPE_OCTET_STRING then
        (* Store the AP-Title in the association context *)
        let '(okb, title, array2) :=
          csm_array_read_buff array1 (client_app_title state)
            (Z.to_nat CSM_DEF_APP_TITLE_SIZE) in
        if okb
        then (CSM_ACSE_OK, set_client_app_title state title, ber1, array2)
        else (CSM_ACSE_ERR, state, ber1, array2)
      else (CSM_ACSE_ERR, state, ber1, array1)
    else (CSM_ACSE_ERR, state, ber1, array1)
  else (CSM_ACSE_ERR, state, ber1, array1).

Definition acse_skip_decoder (state : csm_asso_state)
  (ber : csm_ber) (array : csm_array) : acse_result :=
  if tag_isPrimitive ber
  then
    (* This BER contains data that is not managed: advance the pointer to
       the next BER header *)
    (CSM_ACSE_OK, state, ber,
     snd (csm_array_reader_jump array (Z.to_nat (length_length ber))))
  else (CSM_ACSE_OK, state, ber, array).

Definition aarq_codec_chain : list csm_asso_codec :=
  [ mk_codec CSM_ASSO_PROTO_VER ACSE_NONE (Some acse_proto_version_decoder) None;
    mk_codec CSM_ASSO_APP_CONTEXT_NAME ACSE_ANY (Some acse_app_context_decoder) None;
    mk_codec BER_TYPE_OBJECT_IDENTIFIER ACSE_ANY (Some acse_oid_decoder) None;
    mk_codec CSM_ASSO_CALLED_AP_TITLE ACSE_NONE (Some acse_skip_decoder) None;
    mk_codec CSM_ASSO_CALLED_AE_QUALIFIER ACSE_NONE (Some acse_skip_decoder) None;
    mk_codec CSM_ASSO_CALLED_AP_INVOC_ID ACSE_NONE (Some acse_skip_decoder) None;
    mk_codec BER_TYPE_INTEGER ACSE_NONE (Some acse_skip_decoder) None;
    mk_codec CSM_ASSO_CALLED_AE_INVOC_ID ACSE_NONE (Some acse_skip_decoder) None;
    mk_codec BER_TYPE_INTEGER ACSE_NONE (Some acse_skip_decoder) None;
    mk_codec CSM_ASSO_CALLING_AP_TITLE ACSE_OPT (Some acse_client_system_title_decoder) None;
    mk_codec CSM_ASSO_CALLING_AE_QUALIFIER ACSE_NONE (Some acse_skip_decoder) None;
    mk_codec CSM_ASSO_CALLING_AP_INVOC_ID ACSE_NONE (Some acse_skip_decoder) None;
    mk_codec BER_TYPE_INTEGER ACSE_NONE (Some acse_skip_decoder) None;
    mk_codec CSM_ASSO_CALLING_AE_INVOC_ID ACSE_NONE (Some acse_skip_decoder) None;
    mk_codec BER_TYPE_INTEGER ACSE_NONE (Some acse_skip_decoder) None;
    mk_codec CSM_ASSO_SENDER_ACSE_REQU ACSE_OPT (Some acse_req_decoder) None;
    mk_codec CSM_ASSO_REQ_MECHANISM_NAME ACSE_OPT (Some acse_oid_decoder) None;
    mk_codec CSM_ASSO_CALLING_AUTH_VALUE ACSE_OPT (Some acse_auth_value_decoder) None;
    mk_codec CSM_ASSO_IMPLEMENTATION_INFO ACSE_OPT (Some acse_skip_decoder) None;
    mk_codec CSM_ASSO_USER_INFORMATION ACSE_OPT (Some acse_user_info_decoder) None ].

Definition CSM_ACSE_AARQ_CHAIN_SIZE : nat := length aarq_codec_chain.

(* ---------------------------------------------------------------------- *)
(** ** Encoders *)
(* ---------------------------------------------------------------------- *)

Definition acse_proto_version_encoder (state : csm_asso_state)
  (ber : csm_ber) (array : csm_array) : acse_result :=
  let '(ret, array1) :=
    csm_ber_write_len array 2
      &&> (fun a => csm_array_write_u8 a 7)      (* unused bytes in the bit string *)
      &&> (fun a => csm_array_write_u8 a 0x80)   (* version1 *) in
  (acse_code_of ret, state, ber, array1).

Definition acse_app_context_encoder (state : csm_asso_state)
  (ber : csm_ber) (array : csm_array) : acse_result :=
  (* the length of the object identifier must be 7 bytes + 2 bytes for the
     BER header = 9 bytes *)
  let '(ret, array1) := csm_ber_write_len array 9 in
  (acse_code_of ret, state, ber, array1).

Definition acse_oid_encoder (array : csm_array) (name id : Z)
  : bool * csm_array :=
  (* the length of the object identifier must be 7 bytes *)
  csm_ber_write_len array 7
    &&> (fun a => csm_array_write_buff a cOidHeader 5)
    &&> (fun a => csm_array_write_u8 a name)
    &&> (fun a => csm_array_write_u8 a id).

Definition acse_oid_context_encoder (state : csm_asso_state)
  (ber : csm_ber) (array : csm_array) : acse_result :=
  let '(ret, array1) := acse_oid_encoder array APP_CONTEXT_NAME (ref state) in
  (acse_code_of ret, state, ber, array1).

Definition acse_result_encoder (state : csm_asso_state)
  (ber : csm_ber) (array : csm_array) : acse_result :=
  let result := if cf_eqb (state_cf state) CF_IDLE
                then 1   (* rejected-permanent *)
                else 0   (* accepted *) in
  let '(ret, array1) := csm_ber_write_integer array result in
  (acse_code_of ret, state, ber, array1).

Definition acse_result_src_diag_encoder (state : csm_asso_state)
  (ber : csm_ber) (array : csm_array) : acse_result :=
  let '(ret, array1) :=
    csm_ber_write_len array 5
      &&> (fun a => csm_array_write_u8 a CSM_ASSO_RESULT_SERVICE_USER)
      &&> (fun a => csm_ber_write_integer a (result (handshake state))) in
  (acse_code_of ret, state, ber, array1).

Definition acse_resp_system_title_encoder (state : csm_asso_state)
  (ber : csm_ber) (array : csm_array) : acse_result :=
  let '(valid, array1) :=
    csm_ber_write_len array (CSM_DEF_APP_TITLE_SIZE + 2)
      &&> (fun a => csm_array_write_u8 a BER_TYPE_OCTET_STRING)
      &&> (fun a => csm_array_write_u8 a CSM_DEF_APP_TITLE_SIZE)
      &&> (fun a => csm_array_write_buff a csm_sys_get_system_title
                      (Z.to_nat CSM_DEF_APP_TITLE_SIZE)) in
  (acse_code_of valid, state, ber, array1).

Definition acse_responder_requirements_encoder (state : csm_asso_state)
  (ber : csm_ber) (array : csm_array) : acse_result :=
  let '(valid, array1) :=
    csm_ber_write_len array 2
      &&> (fun a => csm_array_write_u8 a 7)   (* unused bits in the bit-string *)
      &&> (fun a => csm_array_write_u8 a 0x80) in
  (acse_code_of valid, state, ber, array1).

Definition acse_oid_mechanism_encoder (state : csm_asso_state)
  (ber : csm_ber) (array : csm_array) : acse_result :=
  let '(ret, array1) :=
    acse_oid_encoder array SECURITY_MECHANISM_NAME (auth_level state) in
  (acse_code_of ret, state, ber, array1).

(** The loop of [acse_responder_auth_value_encoder]: [n] iterations are
    left, [i] is the loop counter; each draws a random byte, writes it
    while [valid] holds, and keeps it in [stoc.value[i]]. *)
Fixpoint stoc_challenge_loop (n i : nat) (va : bool * csm_array)
  (value : list Z) : bool * csm_array * list Z :=
  match n with
  | O => (va, value)
  | S m =>
      let byte := uint8 (csm_sys_get_random_u8 i) in
      stoc_challenge_loop m (S i)
        (va &&> (fun a => csm_array_write_u8 a byte))
        (list_set value i byte)
  end.

Definition acse_responder_auth_value_encoder (state : csm_asso_state)
  (ber : csm_ber) (array : csm_array) : acse_result :=
  (* Generate the same challenge size than the client *)
  let size := uint8 (chal_size (ctos (handshake state))) in
  let va :=
    csm_ber_write_len array (size + 2)
      &&> (fun a => csm_array_write_u8 a TAG_CONTEXT_SPECIFIC) (* GraphicsString *)
      &&> (fun a => csm_array_write_u8 a size) in
  let '(valid, array1, value) :=
    stoc_challenge_loop (Z.to_nat size) 0 va
      (chal_value (stoc (handshake state))) in
  (acse_code_of valid,
   set_stoc state {| chal_value := value; chal_size := size |},
   ber, array1).

Definition acse_user_info_encoder (state : csm_asso_state)
  (ber : csm_ber) (array : csm_array) : acse_result :=
  (* save the location of the UserInfo structure size *)
  let saved_index := wr_index array in
  let va :=
    csm_array_write_u8 array 0   (* size of the structure, updated at the end *)
      &&> (fun a => csm_array_write_u8 a BER_TYPE_OCTET_STRING)
      &&> (fun a => csm_array_write_u8 a 0) (* size of the octet-string, updated at the end *)
      (* Now encode the A-XDR encoded packet *)
      &&> (fun a => csm_array_write_u8 a AXDR_INITIATE_RESPONSE)
      &&> (fun a => csm_array_write_u8 a 0)   (* null, no QoS *)
      &&> (fun a => csm_array_write_u8 a 6)   (* negotiated-dlms-version-number *)
      (* Conformance block *)
      &&> (fun a => csm_array_write_u8 a 0x5F)
      &&> (fun a => csm_array_write_u8 a 0x1F)
      &&> (fun a => csm_array_write_u8 a 4)   (* Size of the conformance block data *)
      &&> (fun a => csm_array_write_u8 a 0)   (* unused bits in the bit-string *)
      (* Serialize the conformance block (3 bytes) *)
      &&> (fun a => csm_array_write_u8 a
                      (Z.land (Z.shiftr (conformance (config state)) 16) 0xFF))
      &&> (fun a => csm_array_write_u8 a
                      (Z.land (Z.shiftr (conformance (config state)) 8) 0xFF))
      &&> (fun a => csm_array_write_u8 a
                      (Z.land (conformance (config state)) 0xFF))
      (* server-max-receive-pdu-size *)
      &&> (fun a => csm_array_write_u8 a
                      (Z.land (Z.shiftr CSM_DEF_PDU_SIZE 8) 0xFF))
      &&> (fun a => csm_array_write_u8 a (Z.land CSM_DEF_PDU_SIZE 0xFF)) in
  let va :=
    if (ref state =? LN_REF) || (ref state =? LN_REF_WITH_CYPHERING)
    then va &&> (fun a => csm_array_write_u8 a 0)
            &&> (fun a => csm_array_write_u8 a 7)
    else va &&> (fun a => csm_array_write_u8 a 0xFA)
            &&> (fun a => csm_array_write_u8 a 0) in
  (* Update the size of the initiate response elements *)
  let size := Z.of_nat (wr_index (snd va)) - Z.of_nat saved_index in
  let '(valid, array1) :=
    va &&> (fun a => csm_array_set a saved_index (size - 1))
          (* minus the size byte field *)
       &&> (fun a => csm_array_set a (saved_index + 2) (size - 3))
          (* minus whole header (BER size + Octet-String tag + length) *) in
  (acse_code_of valid, state, ber, array1).

Definition aare_codec_chain : list csm_asso_codec :=
  [ mk_codec CSM_ASSO_PROTO_VER ACSE_NONE None (Some acse_proto_version_encoder);
    mk_codec CSM_ASSO_APP_CONTEXT_NAME ACSE_ANY None (Some acse_app_context_encoder);
    mk_codec BER_TYPE_OBJECT_IDENTIFIER ACSE_ANY None (Some acse_oid_context_encoder);
    mk_codec CSM_ASSO_RESULT_FIELD ACSE_ANY None (Some acse_result_encoder);
    mk_codec CSM_ASSO_RESULT_SRC_DIAG ACSE_ANY None (Some acse_result_src_diag_encoder);
    (* Additional fields specific when cyphered authentication is required *)
    mk_codec CSM_ASSO_RESP_AP_TITLE ACSE_SEC None (Some acse_resp_system_title_encoder);
    mk_codec CSM_ASSO_RESPONDER_ACSE_REQ ACSE_SEC None (Some acse_responder_requirements_encoder);
    mk_codec CSM_ASSO_RESP_MECHANISM_NAME ACSE_SEC None (Some acse_oid_mechanism_encoder);
    mk_codec CSM_ASSO_RESP_AUTH_VALUE ACSE_SEC None (Some acse_responder_auth_value_encoder);
    (* Final field *)
    mk_codec CSM_ASSO_USER_INFORMATION ACSE_ANY None (Some acse_user_info_encoder) ].

Definition CSM_ACSE_AARE_CHAIN_SIZE : nat := length aare_codec_chain.

(* ---------------------------------------------------------------------- *)
(** ** Association main functions *)
(* ---------------------------------------------------------------------- *)

Definition csm_asso_init (state : csm_asso_state) : csm_asso_state :=
  set_result
    (set_ref (set_auth_level (set_state_cf state CF_IDLE) CSM_AUTH_LOWEST_LEVEL)
       NO_REF)
    CSM_ASSO_ERR_NULL.

(** Check is association is granted. *)
Definition csm_asso_is_granted (state : csm_asso_state)
  : bool * csm_asso_state :=
  if cf_eqb (state_cf state) CF_IDLE then
    (* Test the password if required *)
    if auth_level state =? CSM_AUTH_LOWEST_LEVEL then
      (true, set_result (set_state_cf state CF_ASSOCIATED) CSM_ASSO_ERR_NULL)
    else if auth_level state =? CSM_AUTH_LOW_LEVEL then
      if csm_sys_test_lls_password (llc_dsap (config state))
           (chal_value (ctos (handshake state)))
           (chal_size (ctos (handshake state)))
      then (true,
            set_result (set_state_cf state CF_ASSOCIATED) CSM_ASSO_ERR_NULL)
      else (false, set_result state CSM_ASSO_ERR_AUTH_FAILURE)
    else if auth_level state =? CSM_AUTH_HIGH_LEVEL_GMAC then
      (true,
       set_result (set_state_cf state CF_ASSOCIATION_PENDING)
         CSM_ASSO_AUTH_REQUIRED)
    else
      (* Failure, other cases are not managed *)
      (false, set_result state CSM_ASSO_AUTH_UNKNOWN)
  else (false, state).

(** One pass through the body of the decoding loop, for the table entry
    [codec = &aarq_codec_chain[decoder_index]]; [more] tells whether
    [decoder_index < CSM_ACSE_AARQ_CHAIN_SIZE] still holds once the index
    has been incremented. *)
Definition decoder_body (codec : csm_asso_codec) (more : bool) (ret : bool)
  (state : csm_asso_state) (ber : csm_ber) (array : csm_array)
  : bool * csm_asso_state * csm_ber * csm_array :=
  if ret then
    if tag_tag ber =? codec_tag codec then
      let '(ret1, state1, ber1, array1) :=
        match extract_func codec with
        | Some extract =>
            let '(code, s, b, a) := extract state ber array in
            (acse_code_true code, s, b, a)
        | None => (false, state, ber, array)
        end in
      let ret2 :=
        if acse_context_eqb (context codec) ACSE_OPT && negb ret1
        then true   (* normal error (optional field) *)
        else ret1 in
      if ret2 && more then
        (* Continue decoding BER *)
        let '(ret3, ber2, array2) := csm_ber_decode ber1 array1 in
        (ret3, state1, ber2, array2)
      else (ret2, state1, ber1, array1)
    else (ret, state, ber, array)
  else (ret, state, ber, array).

(** The do-while loop of [csm_asso_decoder]; [chain] holds the entries from
    [decoder_index] to the end of the table. *)
Fixpoint decoder_loop (chain : list csm_asso_codec) (ret : bool)
  (state : csm_asso_state) (ber : csm_ber) (array : csm_array)
  : bool * csm_asso_state * csm_ber * csm_array :=
  match chain with
  | [] => (ret, state, ber, array)
  | codec :: rest =>
      let '(ret1, state1, ber1, array1) :=
        decoder_body codec (negb (Nat.eqb (length rest) 0)) ret state ber array in
      if negb ret1 then (ret1, state1, ber1, array1)
      else decoder_loop rest ret1 state1 ber1 array1
  end.

(** [ber] stands for the local header of the function, which C leaves
    uninitialised. *)
Definition csm_asso_decoder (state : csm_asso_state) (ber : csm_ber)
  (array : csm_array) : bool * csm_asso_state * csm_array :=
  (* Decode first bytes *)
  let '(_, ber1, array1) := csm_ber_decode ber array in
  if negb (length_length ber1 =? Z.of_nat (csm_array_unread array1))
     || negb (tag_tag ber1 =? CSM_ASSO_AARQ)
  then (false, state, array1)
  else
    (* Main decoding loop *)
    let '(ret, ber2, array2) := csm_ber_decode ber1 array1 in
    let '(ret1, state1, _, array3) :=
      decoder_loop aarq_codec_chain ret state ber2 array2 in
    (ret1, state1, array3).

(** The for loop of [csm_asso_encoder] over the entries from [i] to the end
    of the table; the boolean tells whether the loop ran to its end
    ([i >= CSM_ACSE_AARE_CHAIN_SIZE]) rather than leaving by [break]. *)
Fixpoint encoder_loop (chain : list csm_asso_codec)
  (state : csm_asso_state) (ber : csm_ber) (array : csm_array)
  : bool * csm_asso_state * csm_ber * csm_array :=
  match chain with
  | [] => (true, state, ber, array)
  | codec :: rest =>
      match insert_func codec with
      | Some insert =>
          (* Don't encode optional data *)
          if negb (acse_context_eqb (context codec) ACSE_NONE) then
            (* Don't encode some fields when no security is required *)
            if negb (auth_level state =? CSM_AUTH_HIGH_LEVEL_GMAC)
               && acse_context_eqb (context codec) ACSE_SEC
            then encoder_loop rest state ber array
            else
              (* Insert codec tag identifier *)
              let '(ok, array1) := csm_array_write_u8 array (codec_tag codec) in
              if ok then
                let '(code, state1, ber1, array2) := insert state ber array1 in
                if negb (acse_code_true code)
                then (false, state1, ber1, array2)   (* Exit on error *)
                else encoder_loop rest state1 ber1 array2
              else encoder_loop rest state ber array1
          else encoder_loop rest state ber array
      | None => encoder_loop rest state ber array
      end
  end.

Definition csm_asso_encoder (state : csm_asso_state) (ber : csm_ber)
  (array : csm_array) : bool * csm_asso_state * csm_array :=
  let array0 := set_wr_index array 0 in   (* Reinit write pointer *)
  let '(ok1, array1) := csm_array_write_u8 array0 CSM_ASSO_AARE in
  if ok1 then
    (* Write dummy size, it will be updated later *)
    let '(ok2, array2) := csm_array_write_u8 array1 0 in
    if ok2 then
      let '(completed, state1, _, array3) :=
        encoder_loop aare_codec_chain state ber array2 in
      if completed then
        (* Update the size: skip the BER header (tag+length = 2 bytes) *)
        (true, state1,
         snd (csm_array_set array3 1 (Z.of_nat (wr_index array3) - 2)))
      else (false, state1, array3)
    else (false, state, array2)
  else (false, state, array1).

(** The minimal fixed raw RLRE reply. *)
Definition rlre : list Z := [CSM_ASSO_RLRE; 3; 0x80; 0x01; 0x00].

(** [ber_dec] and [ber_enc] stand for the uninitialised local headers of
    the decoder and of the encoder. *)
Definition csm_asso_execute (asso : csm_asso_state) (ber_dec ber_enc : csm_ber)
  (packet : csm_array) : Z * csm_asso_state * csm_array :=
  if cf_eqb (state_cf asso) CF_IDLE then
    let '(decoded, asso1, packet1) := csm_asso_decoder asso ber_dec packet in
    if decoded then
      let '(_, asso2) := csm_asso_is_granted asso1 in
      (* Send AARE, success or failure *)
      let '(encoded, asso3, packet2) := csm_asso_encoder asso2 ber_enc packet1 in
      if encoded
      then (Z.of_nat (wr_index packet2), asso3, packet2)
      else (0, asso3, packet2)
    else (0, asso1, packet1)
  else if cf_eqb (state_cf asso) CF_ASSOCIATED then
    (* Associated, so maybe it is an RLRQ disconnection packet *)
    let '(ok, byte) := csm_array_get packet 0 0 in
    if ok then
      if byte =? CSM_ASSO_RLRQ then
        (5, set_state_cf asso CF_IDLE,
         snd (csm_array_write_buff (set_wr_index packet 0) rlre 5))
      else (0, asso, packet)
    else (0, asso, packet)
  else (0, asso, packet).

(* ---------------------------------------------------------------------- *)
(** ** Notions used to state what the codecs do *)
(* ---------------------------------------------------------------------- *)

(** The results of a field codec or of a loop, by name. *)
Definition res_code {A : Type}
  (r : A * csm_asso_state * csm_ber * csm_array) : A := fst (fst (fst r)).
Definition res_state {A : Type}
  (r : A * csm_asso_state * csm_ber * csm_array) : csm_asso_state :=
  snd (fst (fst r)).
Definition res_ber {A : Type}
  (r : A * csm_asso_state * csm_ber * csm_array) : csm_ber := snd (fst r).
Definition res_array {A : Type}
  (r : A * csm_asso_state * csm_ber * csm_array) : csm_array := snd r.

(** [wrote a bs a']: from [a] to [a'] exactly the bytes [bs] were appended
    at the write position, and nothing else changed. *)
Definition wrote (a : csm_array) (bs : list Z) (a' : csm_array) : Prop :=
  buff a' = firstn (wr_index a) (buff a) ++ bs
              ++ skipn (wr_index a + length bs) (buff a)
  /\ wr_index a' = (wr_index a + length bs)%nat
  /\ rd_index a' = rd_index a
  /\ (wr_index a + length bs <= array_size a)%nat.

(** [emits f bs]: given room for them, the writer [f] succeeds and appends
    exactly [bs]. *)
Definition emits (f : csm_array -> bool * csm_array) (bs : list Z) : Prop :=
  forall a, (wr_index a + length bs <= array_size a)%nat ->
            fst (f a) = true /\ wrote a bs (snd (f a)).

(** [grows k a a']: from [a] to [a'] at most [k] bytes were appended; the
    bytes before the write position of [a] and the capacity are as they
    were.  It holds of a writer whether it succeeds or not. *)
Definition grows (k : nat) (a a' : csm_array) : Prop :=
  array_size a' = array_size a
  /\ (wr_index a <= wr_index a' <= wr_index a + k)%nat
  /\ rd_index a' = rd_index a
  /\ firstn (wr_index a) (buff a') = firstn (wr_index a) (buff a).

(** The bytes [csm_ber_write_len] produces. *)
Definition ber_len_bytes (len : Z) : list Z :=
  if len <? 128 then [uint8 len]
  else if len <? 256 then [0x81; uint8 len]
  else [0x82; uint8 (Z.shiftr len 8); uint8 len].

(** The three bytes of a conformance block and the two of a PDU size, most
    significant first, as the encoder serializes them. *)
Definition conformance_bytes (c : Z) : list Z :=
  [Z.land (Z.shiftr c 16) 0xFF; Z.land (Z.shiftr c 8) 0xFF; Z.land c 0xFF].

Definition pdu_size_bytes (p : Z) : list Z :=
  [Z.land (Z.shiftr p 8) 0xFF; Z.land p 0xFF].

(** The object name that closes the InitiateResponse. *)
Definition vaa_name_bytes (r : Z) : list Z :=
  if (r =? LN_REF) || (r =? LN_REF_WITH_CYPHERING) then [0; 7] else [0xFA; 0].

(** What a field encoder appends when there is room. *)
Definition field_emits (f : insert_param) (state : csm_asso_state)
  (state' : csm_asso_state) (bs : list Z) : Prop :=
  forall ber a, (wr_index a + length bs <= array_size a)%nat ->
    res_code (f state ber a) = CSM_ACSE_OK
    /\ res_state (f state ber a) = state'
    /\ res_ber (f state ber a) = ber
    /\ wrote a bs (res_array (f state ber a)).


(** The fields of the AARE that are always present: application context
    name with its object identifier, association result, result source
    diagnostic. *)
Definition aare_kernel_bytes (state : csm_asso_state) : list Z :=
  [CSM_ASSO_APP_CONTEXT_NAME; 9;
   BER_TYPE_OBJECT_IDENTIFIER; 7; 0x60; 0x85; 0x74; 0x05; 0x08;
     APP_CONTEXT_NAME; uint8 (ref state);
   CSM_ASSO_RESULT_FIELD; 3; BER_TYPE_INTEGER; 1;
     (if cf_eqb (state_cf state) CF_IDLE then 1 else 0);
   CSM_ASSO_RESULT_SRC_DIAG; 5; CSM_ASSO_RESULT_SERVICE_USER;
     3; BER_TYPE_INTEGER; 1; uint8 (result (handshake state))].

(** The user-information field that closes the AARE. *)
Definition aare_user_info_bytes (pdu_size : Z) (state : csm_asso_state)
  : list Z :=
  [CSM_ASSO_USER_INFORMATION;
   16; BER_TYPE_OCTET_STRING; 14; AXDR_INITIATE_RESPONSE; 0; 6;
   0x5F; 0x1F; 4; 0]
    ++ conformance_bytes (conformance (config state))
    ++ pdu_size_bytes pdu_size
    ++ vaa_name_bytes (ref state).

(** The whole AARE when the authentication is not the high-level GMAC one:
    43 bytes. *)
Definition aare_plain_bytes (pdu_size : Z) (state : csm_asso_state) : list Z :=
  [CSM_ASSO_AARE; 41] ++ aare_kernel_bytes state
    ++ aare_user_info_bytes pdu_size state.

(** The fields added under the high-level GMAC authentication: system
    title of the responder, its ACSE requirements, the mechanism name and
    the server-to-client challenge of [size] random bytes. *)
Definition aare_security_bytes (title_size : Z) (title : list Z)
  (random : nat -> Z) (size : Z) (state : csm_asso_state) : list Z :=
  (CSM_ASSO_RESP_AP_TITLE :: ber_len_bytes (title_size + 2))
    ++ [BER_TYPE_OCTET_STRING; uint8 title_size]
    ++ map uint8 (firstn (Z.to_nat title_size) title)
    ++ [CSM_ASSO_RESPONDER_ACSE_REQ; 2; 7; 0x80]
    ++ [CSM_ASSO_RESP_MECHANISM_NAME; 7; 0x60; 0x85; 0x74; 0x05; 0x08;
        SECURITY_MECHANISM_NAME; uint8 (auth_level state)]
    ++ (CSM_ASSO_RESP_AUTH_VALUE :: ber_len_bytes (size + 2))
    ++ [TAG_CONTEXT_SPECIFIC; uint8 size]
    ++ map (fun i => uint8 (random i)) (seq 0 (Z.to_nat size)).

(** The fields of the AARE under the high-level GMAC authentication, after
    its tag and length byte. *)
Definition aare_secure_fields (title_size : Z) (title : list Z)
  (random : nat -> Z) (pdu_size : Z) (state : csm_asso_state) : list Z :=
  aare_kernel_bytes state
    ++ aare_security_bytes title_size title random
         (uint8 (chal_size (ctos (handshake state)))) state
    ++ aare_user_info_bytes pdu_size state.

(** The challenge kept in [stoc] by the encoder. *)
Fixpoint stoc_value (random : nat -> Z) (n i : nat) (value : list Z)
  : list Z :=
  match n with
  | O => value
  | S m => stoc_value random m (S i) (list_set value i (uint8 (random i)))
  end.

(** Two association states that differ at most in the server-to-client
    challenge. *)
Definition same_core (s s' : csm_asso_state) : Prop :=
  s' = set_stoc s (stoc (handshake s')).

(** A field encoder, whatever its outcome, appends at most [k state]
    bytes, and changes at most the server-to-client challenge. *)
Definition insert_grows (k : csm_asso_state -> nat) (f : insert_param)
  : Prop :=
  forall state ber a,
    same_core state (res_state (f state ber a))
    /\ grows (k state) a (res_array (f state ber a)).

(** [reads a a']: between [a] and [a'] only the read position moved. *)
Definition reads (a a' : csm_array) : Prop :=
  buff a' = buff a /\ wr_index a' = wr_index a.

(** A field decoder reads from the cursor and leaves the connection state
    and the configuration of the association alone. *)
Definition extract_frame (f : extract_param) : Prop :=
  forall state ber a,
    reads a (res_array (f state ber a))
    /\ state_cf (res_state (f state ber a)) = state_cf state
    /\ config (res_state (f state ber a)) = config state.

(** [advanced n a va]: when the writer whose outcome is [va] succeeded
    from [a], it moved the write position by exactly [n], inside the
    storage. *)
Definition advanced (n : nat) (a : csm_array) (va : bool * csm_array) : Prop :=
  fst va = true ->
  wr_index (snd va) = (wr_index a + n)%nat
  /\ (wr_index a + n <= array_size a)%nat
  /\ array_size (snd va) = array_size a.

(** For every entry of the AARE table, a bound on what its encoder
    appends. *)
Definition aare_field_bounds (title_size : Z)
  : list (csm_asso_state -> nat) :=
  [ (fun _ => 3%nat);
    (fun _ => 1%nat);
    (fun _ => 8%nat);
    (fun _ => 4%nat);
    (fun _ => 6%nat);
    (fun _ => (length (ber_len_bytes (title_size + 2)) + 2
               + Z.to_nat title_size)%nat);
    (fun _ => 3%nat);
    (fun _ => 8%nat);
    (fun s => let size := uint8 (chal_size (ctos (handshake s))) in
              (length (ber_len_bytes (size + 2)) + 2 + Z.to_nat size)%nat);
    (fun _ => 17%nat) ].

(** The bytes a run through a table can append at most: for each entry its
    tag byte and the bound of its encoder. *)
Fixpoint sum_bounds (state : csm_asso_state)
  (ks : list (csm_asso_state -> nat)) : nat :=
  match ks with
  | [] => 0
  | k :: rest => (S (k state) + sum_bounds state rest)%nat
  end.

(** The bytes still to be read from the cursor, in order. *)
Definition unread_bytes (a : csm_array) : list Z :=
  firstn (csm_array_unread a) (skipn (rd_index a) (buff a)).

(** Two cursors with the same bytes still to be read. *)
Definition agree (a a' : csm_array) : Prop :=
  unread_bytes a = unread_bytes a'.

(** The (name-selector, id) pairs the object identifier decoder knows:
    the four application contexts and the two security mechanisms. *)
Definition oid_recognized (name id : Z) : bool :=
  ((name =? APP_CONTEXT_NAME)
   && ((id =? LN_REF) || (id =? SN_REF) || (id =? LN_REF_WITH_CYPHERING)
       || (id =? SN_REF_WITH_CYPHERING)))
  || ((name =? SECURITY_MECHANISM_NAME)
      && ((id =? CSM_AUTH_LOW_LEVEL) || (id =? CSM_AUTH_HIGH_LEVEL_GMAC))).

(** The contents of the field whose header is [ber]: as many of the bytes
    to be read as the header declares. *)
Definition field_content (ber : csm_ber) (a : csm_array) : list Z :=
  firstn (Z.to_nat (length_length ber)) (unread_bytes a).

(** The conformance block of an encoded InitiateResponse: the nine bytes
    5F 1F 04 00, the bitmask and the PDU size, found after the six bytes
    that open the user-information contents written by the encoder of the
    server [server]. *)
Definition encoded_conformance_block (server : csm_asso_state) (ber : csm_ber)
  : list Z :=
  let reply :=
    res_array (acse_user_info_encoder server ber (mk_array (repeat 0 17) 0 0)) in
  firstn 9 (skipn 6 (buff reply)).

(** An InitiateRequest carrying a given conformance block: octet string
    header, discriminator, no dedicated key, null response-allowed and
    quality of service, version 6. *)
Definition initiate_request_with (block : list Z) : list Z :=
  [BER_TYPE_OCTET_STRING; 14; AXDR_INITIATE_REQUEST;
   AXDR_TAG_NULL; AXDR_TAG_NULL; AXDR_TAG_NULL; 6] ++ block.

(** The conformance block encoded for [server] is decoded back by the
    user-information decoder into the handshake of [client]. *)
Definition conformance_round_trip (server client : csm_asso_state)
  (ber : csm_ber) : acse_result :=
  let request := initiate_request_with (encoded_conformance_block server ber) in
  acse_user_info_decoder client ber (mk_array request 0 (length request)).

(* ---------------------------------------------------------------------- *)
(** ** Notions used to state what the decoders do on the bytes of a packet *)
(* ---------------------------------------------------------------------- *)

(** [holds a bs]: the bytes still to be read from [a] are [bs], and the
    write position lies inside the storage. *)
Definition holds (a : csm_array) (bs : list Z) : Prop :=
  unread_bytes a = bs /\ (wr_index a <= array_size a)%nat.

(** [consumes a a']: between [a] and [a'] only the read position moved,
    forward, and not past the write position unless it was there
    already. *)
Definition consumes (a a' : csm_array) : Prop :=
  buff a' = buff a /\ wr_index a' = wr_index a
  /\ (rd_index a <= rd_index a')%nat
  /\ (rd_index a' <= Nat.max (rd_index a) (wr_index a))%nat.

(** [decoded_from s s']: what the decoding of a packet can have done to
    the association state [s].  The connection state, the configuration,
    the server-to-client challenge and the result of the handshake are as
    they were; the referencing is as it was or one of the four known
    application contexts; the authentication level is as it was or one of
    the two known mechanisms; the client-to-server challenge is as it was
    or has a size within the bounds of the configuration. *)
Definition decoded_from (s s' : csm_asso_state) : Prop :=
  state_cf s' = state_cf s
  /\ config s' = config s
  /\ stoc (handshake s') = stoc (handshake s)
  /\ result (handshake s') = result (handshake s)
  /\ (ref s' = ref s \/ ref s' = LN_REF \/ ref s' = SN_REF
      \/ ref s' = LN_REF_WITH_CYPHERING \/ ref s' = SN_REF_WITH_CYPHERING)
  /\ (auth_level s' = auth_level s \/ auth_level s' = CSM_AUTH_LOW_LEVEL
      \/ auth_level s' = CSM_AUTH_HIGH_LEVEL_GMAC)
  /\ (ctos (handshake s') = ctos (handshake s)
      \/ CSM_DEF_LLS_SIZE <= chal_size (ctos (handshake s'))
                          <= CSM_DEF_CHALLENGE_SIZE).

(** [fits a]: the write position of [a] lies inside its storage. *)
Definition fits (a : csm_array) : Prop := (wr_index a <= array_size a)%nat.

(** The bytes of an AARQ on the wire: the tag 60, the length of the
    fields on one byte, and the fields. *)
Definition aarq_bytes (fields : list Z) : list Z :=
  CSM_ASSO_AARQ :: Z.of_nat (length fields) :: fields.

(** The fields of an AARQ as the decoders read them: the
    application-context-name with the object identifier of the referencing
    [r]; the sender ACSE requirements selecting the authentication unit;
    the mechanism name of the authentication level [level]; the calling
    authentication value [value]; a user-information field that declares
    [n] bytes and holds [info]. *)
Definition context_name_field (r : Z) : list Z :=
  [CSM_ASSO_APP_CONTEXT_NAME; 9; BER_TYPE_OBJECT_IDENTIFIER; 7]
    ++ cOidHeader ++ [APP_CONTEXT_NAME; r].

Definition sender_requirements_field : list Z :=
  [CSM_ASSO_SENDER_ACSE_REQU; 2; 7; 0x80].

Definition mechanism_name_field (level : Z) : list Z :=
  [CSM_ASSO_REQ_MECHANISM_NAME; 7] ++ cOidHeader
    ++ [SECURITY_MECHANISM_NAME; level].

Definition authentication_value_field (value : list Z) : list Z :=
  [CSM_ASSO_CALLING_AUTH_VALUE; Z.of_nat (length value) + 2;
   TAG_CONTEXT_SPECIFIC; Z.of_nat (length value)] ++ value.

Definition user_information_field (n : Z) (info : list Z) : list Z :=
  [CSM_ASSO_USER_INFORMATION; n] ++ info.




(** The object identifier of an application context written by the encoder
    of [server], read back by the decoder into [client]: the encoder
    writes the length byte 07 and the seven bytes of the identifier; the
    decoder is entered, as in the decoding loop, once the header has been
    read, on those seven bytes. *)
Definition oid_context_round_trip (server client : csm_asso_state)
  (ber : csm_ber) : acse_result :=
  let reply :=
    res_array (acse_oid_context_encoder server ber (mk_array (repeat 0 8) 0 0)) in
  acse_oid_decoder client ber (mk_array (buff reply) 1 (wr_index reply)).

(** The same for the object identifier of a security mechanism. *)
Definition oid_mechanism_round_trip (server client : csm_asso_state)
  (ber : csm_ber) : acse_result :=
  let reply :=
    res_array (acse_oid_mechanism_encoder server ber (mk_array (repeat 0 8) 0 0)) in
  acse_oid_decoder client ber (mk_array (buff reply) 1 (wr_index reply)).

(* ====================================================================== *)
(** * Reasoning about the cursor *)
(* ====================================================================== *)

Lemma list_set_length (l : list Z) (i : nat) (v : Z) :
  length (list_set l i v) = length l.
Proof.
  revert i; induction l as [|h t IH]; intros [|j]; simpl; auto.
Qed.

Lemma list_set_split (l : list Z) (i : nat) (v : Z) :
  (i < length l)%nat ->
  list_set l i v = firstn i l ++ v :: skipn (S i) l.
Proof.
  revert i; induction l as [|h t IH]; intros [|j] H; simpl in *; try lia; auto.
  f_equal. apply IH. lia.
Qed.

Lemma nth_error_list_set_eq (l : list Z) (i : nat) (v : Z) :
  (i < length l)%nat -> nth_error (list_set l i v) i = Some v.
Proof.
  revert i; induction l as [|h t IH]; intros [|j] H; simpl in *; try lia; auto.
  apply IH. lia.
Qed.

Lemma nth_error_list_set_neq (l : list Z) (i j : nat) (v : Z) :
  i <> j -> nth_error (list_set l i v) j = nth_error l j.
Proof.
  revert i j; induction l as [|h t IH]; intros [|i] [|j] H; simpl; auto; try lia.
Qed.

Lemma firstn_list_set (l : list Z) (i n : nat) (v : Z) :
  (n <= i)%nat -> firstn n (list_set l i v) = firstn n l.
Proof.
  revert i n; induction l as [|h t IH]; intros [|i] [|n] H; simpl; auto; try lia.
  f_equal. apply IH. lia.
Qed.

Lemma list_blit_length (src l : list Z) (i : nat) :
  length (list_blit l i src) = length l.
Proof.
  revert l i; induction src as [|b bs IH]; intros l i; simpl; auto.
  rewrite IH. apply list_set_length.
Qed.

Lemma firstn_list_blit (src l : list Z) (i n : nat) :
  (n <= i)%nat -> firstn n (list_blit l i src) = firstn n l.
Proof.
  revert l i; induction src as [|b bs IH]; intros l i H; simpl; auto.
  rewrite IH by lia. apply firstn_list_set. lia.
Qed.

Lemma list_blit_split (src l : list Z) (i : nat) :
  (i + length src <= length l)%nat ->
  list_blit l i src = firstn i l ++ src ++ skipn (i + length src) l.
Proof.
  revert l i; induction src as [|b bs IH]; intros l i H; simpl in *.
  - rewrite Nat.add_0_r. symmetry. apply firstn_skipn.
  - rewrite IH by (rewrite list_set_length; lia).
    rewrite list_set_split by lia.
    replace (S i) with (i + 1)%nat by lia.
    rewrite firstn_app, firstn_length_le by lia.
    replace (i + 1 - i)%nat with 1%nat by lia.
    rewrite firstn_all2 by (rewrite firstn_length_le; lia).
    simpl firstn at 2.
    rewrite <- app_assoc. f_equal. simpl. f_equal. f_equal.
    rewrite skipn_app, firstn_length_le by lia.
    rewrite (skipn_all2 (firstn i l)) by (rewrite firstn_length_le; lia).
    simpl.
    replace (i + 1 + length bs - i)%nat with (S (length bs)) by lia.
    simpl. rewrite skipn_skipn. f_equal. lia.
Qed.

Lemma wrote_size (a a' : csm_array) (bs : list Z) :
  wrote a bs a' -> array_size a' = array_size a.
Proof.
  unfold wrote, array_size. intros (Hb & Hw & Hr & Hc). rewrite Hb.
  unfold array_size in Hc.
  rewrite !length_app, firstn_length_le, length_skipn by lia. lia.
Qed.

Lemma wrote_nil (a : csm_array) : (wr_index a <= array_size a)%nat -> wrote a [] a.
Proof.
  unfold wrote. intros H. simpl. rewrite Nat.add_0_r, firstn_skipn. auto.
Qed.

Lemma firstn_skipn_sandwich (X post cs : list Z) :
  firstn (length X) (X ++ post) ++ cs ++ skipn (length X + length cs) (X ++ post)
  = X ++ cs ++ skipn (length cs) post.
Proof.
  rewrite firstn_app, firstn_all, Nat.sub_diag. simpl firstn.
  rewrite app_nil_r. f_equal. f_equal.
  rewrite skipn_app, skipn_all2 by lia. simpl. f_equal. lia.
Qed.

Lemma wrote_trans (a a1 a2 : csm_array) (bs cs : list Z) :
  wrote a bs a1 -> wrote a1 cs a2 -> wrote a (bs ++ cs) a2.
Proof.
  intros H1 H2. pose proof (wrote_size _ _ _ H1) as Hs.
  destruct H1 as (Hb1 & Hw1 & Hr1 & Hc1), H2 as (Hb2 & Hw2 & Hr2 & Hc2).
  unfold array_size in *.
  assert (Hf : length (firstn (wr_index a) (buff a)) = wr_index a)
    by (apply firstn_length_le; lia).
  unfold wrote. rewrite length_app. repeat split; try lia.
  - rewrite Hb2, Hw1, Hb1.
    replace (skipn (wr_index a + (length bs + length cs)) (buff a))
      with (skipn (length cs) (skipn (wr_index a + length bs) (buff a)))
      by (rewrite skipn_skipn; f_equal; lia).
    revert Hf.
    generalize (skipn (wr_index a + length bs) (buff a)) as post.
    generalize (firstn (wr_index a) (buff a)) as pre.
    intros pre post Hf.
    rewrite (app_assoc pre bs post).
    assert (Hl : length (pre ++ bs) = (wr_index a + length bs)%nat)
      by (rewrite length_app; lia).
    rewrite <- Hl, firstn_skipn_sandwich, <- !app_assoc. reflexivity.
  - unfold array_size. rewrite Hs in Hc2. lia.
Qed.

Lemma emits_write_u8 (v : Z) :
  emits (fun a => csm_array_write_u8 a v) [uint8 v].
Proof.
  intros a H. simpl in H. unfold csm_array_write_u8.
  destruct (Nat.ltb_spec (wr_index a) (array_size a)); [|lia].
  simpl. split; auto. unfold wrote; simpl. repeat split; auto; try lia.
  unfold array_size in *. rewrite list_set_split by lia.
  do 2 f_equal. f_equal. lia.
Qed.

Lemma emits_write_buff (buffer : list Z) (size : nat) :
  (size <= length buffer)%nat ->
  emits (fun a => csm_array_write_buff a buffer size)
        (map uint8 (firstn size buffer)).
Proof.
  intros Hl a H. rewrite length_map, firstn_length_le in H by lia.
  unfold csm_array_write_buff.
  destruct (Nat.leb_spec (wr_index a + size) (array_size a)); [|lia].
  simpl. split; auto. unfold wrote; simpl.
  rewrite length_map, firstn_length_le by lia. repeat split; auto.
  unfold array_size in *. rewrite list_blit_split.
  - rewrite length_map, firstn_length_le by lia. reflexivity.
  - rewrite length_map, firstn_length_le by lia. lia.
Qed.

Lemma and_then_emits (a : csm_array) (va : bool * csm_array)
  (g : csm_array -> bool * csm_array) (bs cs : list Z) :
  fst va = true /\ wrote a bs (snd va) ->
  emits g cs ->
  (wr_index a + length bs + length cs <= array_size a)%nat ->
  fst (va &&> g) = true /\ wrote a (bs ++ cs) (snd (va &&> g)).
Proof.
  intros [Hv Hw] Hg Hc. unfold and_then. rewrite Hv.
  pose proof (wrote_size _ _ _ Hw) as Hs.
  destruct (Hg (snd va)) as [Hg1 Hg2].
  - destruct Hw as (_ & Hwr & _). rewrite Hwr, Hs. lia.
  - split; auto. eapply wrote_trans; eauto.
Qed.

Lemma emits_and_then (f g : csm_array -> bool * csm_array) (bs cs : list Z) :
  emits f bs -> emits g cs -> emits (fun a => f a &&> g) (bs ++ cs).
Proof.
  intros Hf Hg a H. rewrite length_app in H.
  apply and_then_emits; auto; try lia. apply Hf. lia.
Qed.

Lemma emits_eq (f : csm_array -> bool * csm_array) (bs cs : list Z) :
  emits f bs -> bs = cs -> emits f cs.
Proof. intros H <-. exact H. Qed.

(** Patching a byte that was appended since [a]. *)
Lemma set_wrote (a a1 : csm_array) (bs : list Z) (i : nat) (v : Z) :
  wrote a bs a1 -> (i < length bs)%nat ->
  fst (csm_array_set a1 (wr_index a + i) v) = true
  /\ wrote a (list_set bs i (uint8 v)) (snd (csm_array_set a1 (wr_index a + i) v)).
Proof.
  intros Hw Hi. pose proof (wrote_size _ _ _ Hw) as Hs.
  destruct Hw as (Hb & Hwr & Hr & Hc).
  unfold csm_array_set.
  destruct (Nat.ltb_spec (wr_index a + i) (array_size a1)); [|lia].
  simpl. split; auto. unfold wrote; simpl. rewrite list_set_length.
  repeat split; auto. rewrite Hb.
  unfold array_size in *.
  assert (Hf : length (firstn (wr_index a) (buff a)) = wr_index a)
    by (apply firstn_length_le; lia).
  clear Hb. revert Hf. generalize (firstn (wr_index a) (buff a)) as pre.
  generalize (skipn (wr_index a + length bs) (buff a)) as post.
  generalize (wr_index a) as n. clear - Hi.
  intros n post pre; revert n. induction pre as [|p pre IH]; intros n Hf; simpl in *.
  - subst n. simpl. revert i Hi. induction bs as [|b bs IHb]; intros [|i] Hi;
      simpl in *; try lia; auto. f_equal. apply IHb. lia.
  - destruct n as [|n]; [discriminate|]. simpl. f_equal. apply IH. lia.
Qed.

(* ---------------------------------------------------------------------- *)
(** ** Writers: what they append *)
(* ---------------------------------------------------------------------- *)

Lemma uint8_small (v : Z) : 0 <= v < 256 -> uint8 v = v.
Proof. intros H. unfold uint8. apply Z.mod_small. exact H. Qed.

Lemma uint8_range (v : Z) : 0 <= uint8 v < 256.
Proof. unfold uint8. apply Z.mod_pos_bound. lia. Qed.

Lemma land_255_range (v : Z) : 0 <= Z.land v 0xFF < 256.
Proof.
  change 0xFF with (Z.ones 8). rewrite Z.land_ones by lia.
  apply Z.mod_pos_bound. reflexivity.
Qed.

Lemma uint8_land_255 (v : Z) : uint8 (Z.land v 0xFF) = Z.land v 0xFF.
Proof. apply uint8_small, land_255_range. Qed.

Lemma emits_write_len (len : Z) :
  emits (fun a => csm_ber_write_len a len) (ber_len_bytes len).
Proof.
  unfold csm_ber_write_len, ber_len_bytes.
  destruct (len <? 128); [apply emits_write_u8|].
  destruct (len <? 256).
  - apply (emits_and_then _ _ [uint8 0x81] [uint8 len]); apply emits_write_u8.
  - apply (emits_and_then _ _ [uint8 0x82; uint8 (Z.shiftr len 8)] [uint8 len]);
      [|apply emits_write_u8].
    apply (emits_and_then _ _ [uint8 0x82] [uint8 (Z.shiftr len 8)]);
      apply emits_write_u8.
Qed.

Lemma emits_write_integer (value : Z) :
  emits (fun a => csm_ber_write_integer a value) [3; 2; 1; uint8 value].
Proof.
  unfold csm_ber_write_integer.
  apply (emits_and_then _ _ [3; 2; 1] [uint8 value]); [|apply emits_write_u8].
  apply (emits_and_then _ _ [3; 2] [1]); [|apply (emits_write_len 1)].
  apply (emits_and_then _ _ [3] [2]); [|apply (emits_write_u8 2)].
  apply (emits_write_len 3).
Qed.

Lemma emits_oid_encoder (name id : Z) :
  emits (fun a => acse_oid_encoder a name id)
        (7 :: cOidHeader ++ [uint8 name; uint8 id]).
Proof.
  unfold acse_oid_encoder.
  apply (emits_and_then _ _ [7; 0x60; 0x85; 0x74; 0x05; 0x08; uint8 name] [uint8 id]);
    [|apply emits_write_u8].
  apply (emits_and_then _ _ [7; 0x60; 0x85; 0x74; 0x05; 0x08] [uint8 name]);
    [|apply emits_write_u8].
  apply (emits_and_then _ _ [7] [0x60; 0x85; 0x74; 0x05; 0x08]);
    [apply (emits_write_len 7)|].
  apply (emits_write_buff cOidHeader 5). simpl. lia.
Qed.

Lemma field_of_emits (w : csm_array -> bool * csm_array) (bs : list Z)
  (state : csm_asso_state) (ber : csm_ber) (a : csm_array) :
  emits w bs -> (wr_index a + length bs <= array_size a)%nat ->
  let r := (let '(ret, array1) := w a in (acse_code_of ret, state, ber, array1))
  in res_code r = CSM_ACSE_OK /\ res_state r = state /\ res_ber r = ber
     /\ wrote a bs (res_array r).
Proof.
  intros Hw Hc. destruct (Hw a Hc) as [H1 H2]. destruct (w a) as [ret a1].
  simpl in *. subst ret. auto.
Qed.

Lemma acse_app_context_encoder_emits (state : csm_asso_state) :
  field_emits acse_app_context_encoder state state [9].
Proof.
  intros ber a H. apply (field_of_emits (fun a => csm_ber_write_len a 9)); auto.
  apply (emits_write_len 9).
Qed.

Lemma acse_oid_context_encoder_emits (state : csm_asso_state) :
  field_emits acse_oid_context_encoder state state
    (7 :: cOidHeader ++ [uint8 APP_CONTEXT_NAME; uint8 (ref state)]).
Proof.
  intros ber a H.
  apply (field_of_emits (fun a => acse_oid_encoder a APP_CONTEXT_NAME (ref state)));
    auto.
  apply emits_oid_encoder.
Qed.

Lemma acse_result_encoder_emits (state : csm_asso_state) :
  field_emits acse_result_encoder state state
    [3; 2; 1; if cf_eqb (state_cf state) CF_IDLE then 1 else 0].
Proof.
  intros ber a H. unfold acse_result_encoder.
  apply (field_of_emits (fun a => csm_ber_write_integer a _)); auto.
  eapply emits_eq; [apply emits_write_integer|].
  destruct (cf_eqb (state_cf state) CF_IDLE); reflexivity.
Qed.

Lemma acse_result_src_diag_encoder_emits (state : csm_asso_state) :
  field_emits acse_result_src_diag_encoder state state
    [5; CSM_ASSO_RESULT_SERVICE_USER; 3; 2; 1; uint8 (result (handshake state))].
Proof.
  intros ber a H. unfold acse_result_src_diag_encoder.
  apply (field_of_emits
           (fun a => csm_ber_write_len a 5
                       &&> (fun a => csm_array_write_u8 a CSM_ASSO_RESULT_SERVICE_USER)
                       &&> (fun a => csm_ber_write_integer a (result (handshake state)))));
    auto.
  apply (emits_and_then _ _ [5; CSM_ASSO_RESULT_SERVICE_USER]
           [3; 2; 1; uint8 (result (handshake state))]);
    [|apply emits_write_integer].
  apply (emits_and_then _ _ [5] [CSM_ASSO_RESULT_SERVICE_USER]);
    [apply (emits_write_len 5)|apply (emits_write_u8 CSM_ASSO_RESULT_SERVICE_USER)].
Qed.

Lemma wrote_result_eq (a : csm_array) (va : bool * csm_array) (bs cs : list Z) :
  fst va = true /\ wrote a bs (snd va) -> bs = cs ->
  fst va = true /\ wrote a cs (snd va).
Proof. intros H <-. exact H. Qed.

Lemma wrote_eq (a a' : csm_array) (bs cs : list Z) :
  wrote a bs a' -> bs = cs -> wrote a cs a'.
Proof. intros H <-. exact H. Qed.

Lemma and_then_set (a : csm_array) (va : bool * csm_array) (bs : list Z)
  (i index : nat) (v : Z) :
  fst va = true /\ wrote a bs (snd va) ->
  (i < length bs)%nat -> index = (wr_index a + i)%nat ->
  fst (va &&> (fun x => csm_array_set x index v)) = true
  /\ wrote a (list_set bs i (uint8 v))
       (snd (va &&> (fun x => csm_array_set x index v))).
Proof.
  intros [Hv Hw] Hi ->. unfold and_then. rewrite Hv. apply set_wrote; auto.
Qed.

Ltac emit_one :=
  first [ apply emits_write_u8
        | apply emits_write_len
        | apply emits_write_integer
        | apply emits_oid_encoder ].

Ltac emit_chain :=
  lazymatch goal with
  | |- fst (and_then _ _) = true /\ wrote _ _ (snd (and_then _ _)) =>
      eapply and_then_emits;
      [ emit_chain | emit_one | cbn [length app Nat.add] in *; lia ]
  | |- fst (csm_array_write_u8 ?a ?v) = true /\ _ =>
      apply (emits_write_u8 v a); cbn [length app Nat.add] in *; lia
  | |- fst (csm_ber_write_len ?a ?v) = true /\ _ =>
      apply (emits_write_len v a); cbn [length app Nat.add] in *; lia
  end.

(** The seventeen bytes of the user-information contents: the two sizes
    patched at the end, the InitiateResponse, the conformance block, the
    PDU size and the object name. *)
Lemma acse_user_info_encoder_emits (state : csm_asso_state) :
  field_emits acse_user_info_encoder state state
    ([16; BER_TYPE_OCTET_STRING; 14; AXDR_INITIATE_RESPONSE; 0; 6;
      0x5F; 0x1F; 4; 0]
       ++ conformance_bytes (conformance (config state))
       ++ pdu_size_bytes CSM_DEF_PDU_SIZE
       ++ vaa_name_bytes (ref state)).
Proof.
  intros ber a H.
  assert (Hlen : length (vaa_name_bytes (ref state)) = 2%nat)
    by (unfold vaa_name_bytes; destruct (_ || _); reflexivity).
  rewrite !length_app, Hlen in H. cbn [length conformance_bytes pdu_size_bytes Nat.add] in H.
  unfold acse_user_info_encoder.
  match goal with
  | |- context [ if _ then ?va &&> _ &&> _ else _ ] => set (va15 := va)
  end.
  assert (H15 : fst va15 = true
                /\ wrote a ([0; BER_TYPE_OCTET_STRING; 0; AXDR_INITIATE_RESPONSE;
                             0; 6; 0x5F; 0x1F; 4; 0]
                              ++ conformance_bytes (conformance (config state))
                              ++ pdu_size_bytes CSM_DEF_PDU_SIZE) (snd va15)).
  { subst va15. eapply wrote_result_eq; [emit_chain|].
    unfold conformance_bytes, pdu_size_bytes. cbn [app].
    rewrite !uint8_land_255. reflexivity. }
  clearbody va15.
  match goal with
  | |- context [ Z.of_nat (wr_index (snd ?v)) ] => set (va17 := v)
  end.
  assert (H17 : fst va17 = true
                /\ wrote a (([0; BER_TYPE_OCTET_STRING; 0; AXDR_INITIATE_RESPONSE;
                             0; 6; 0x5F; 0x1F; 4; 0]
                              ++ conformance_bytes (conformance (config state))
                              ++ pdu_size_bytes CSM_DEF_PDU_SIZE)
                              ++ vaa_name_bytes (ref state)) (snd va17)).
  { subst va17. unfold vaa_name_bytes.
    destruct ((ref state =? LN_REF) || (ref state =? LN_REF_WITH_CYPHERING)).
    - eapply wrote_result_eq.
      + eapply and_then_emits; [eapply and_then_emits; [exact H15|emit_one|]
                               |emit_one|];
          unfold conformance_bytes, pdu_size_bytes; cbn [length app Nat.add]; lia.
      + rewrite <- app_assoc. reflexivity.
    - eapply wrote_result_eq.
      + eapply and_then_emits; [eapply and_then_emits; [exact H15|emit_one|]
                               |emit_one|];
          unfold conformance_bytes, pdu_size_bytes; cbn [length app Nat.add]; lia.
      + rewrite <- app_assoc. reflexivity. }
  clearbody va17. clear H15 va15.
  assert (Hwr : wr_index (snd va17) = (wr_index a + 17)%nat).
  { destruct H17 as (_ & _ & Hw & _). rewrite Hw, !length_app, Hlen. reflexivity. }
  rewrite Hwr.
  replace (Z.of_nat (wr_index a + 17) - Z.of_nat (wr_index a)) with 17 by lia.
  cbv zeta.
  match goal with
  | |- context [ let '(_, _) := ?v in _ ] => set (vaf := v)
  end.
  assert (Hf : fst vaf = true
               /\ wrote a ([16; BER_TYPE_OCTET_STRING; 14; AXDR_INITIATE_RESPONSE;
                            0; 6; 0x5F; 0x1F; 4; 0]
                             ++ conformance_bytes (conformance (config state))
                             ++ pdu_size_bytes CSM_DEF_PDU_SIZE
                             ++ vaa_name_bytes (ref state)) (snd vaf)).
  { subst vaf. eapply wrote_result_eq.
    - eapply (and_then_set a _ _ 2);
        [eapply (and_then_set a _ _ 0); [exact H17| |]| |].
      + rewrite !length_app, Hlen. simpl. lia.
      + lia.
      + rewrite list_set_length, !length_app, Hlen. simpl. lia.
      + reflexivity.
    - rewrite <- app_assoc. reflexivity. }
  clearbody vaf. destruct vaf as [valid a1]. destruct Hf as [Hv Hw].
  simpl in Hv. subst valid. unfold res_code, res_state, res_ber, res_array.
  simpl. auto.
Qed.

(* ---------------------------------------------------------------------- *)
(** ** The encoding loop *)
(* ---------------------------------------------------------------------- *)

Lemma encoder_loop_skip_none (codec : csm_asso_codec) (rest : list csm_asso_codec)
  (state : csm_asso_state) (ber : csm_ber) (a : csm_array) :
  context codec = ACSE_NONE ->
  encoder_loop (codec :: rest) state ber a = encoder_loop rest state ber a.
Proof.
  intros H. simpl. rewrite H. simpl. destruct (insert_func codec); reflexivity.
Qed.

Lemma encoder_loop_skip_sec (codec : csm_asso_codec) (rest : list csm_asso_codec)
  (state : csm_asso_state) (ber : csm_ber) (a : csm_array) :
  context codec = ACSE_SEC ->
  auth_level state <> CSM_AUTH_HIGH_LEVEL_GMAC ->
  encoder_loop (codec :: rest) state ber a = encoder_loop rest state ber a.
Proof.
  intros H Hl. apply Z.eqb_neq in Hl. simpl. rewrite H, Hl. simpl.
  destruct (insert_func codec); reflexivity.
Qed.

Lemma encoder_loop_emit (codec : csm_asso_codec) (rest : list csm_asso_codec)
  (state state' : csm_asso_state) (ber : csm_ber) (a : csm_array)
  (f : insert_param) (bs : list Z) :
  insert_func codec = Some f ->
  context codec = ACSE_ANY
  \/ (context codec = ACSE_SEC /\ auth_level state = CSM_AUTH_HIGH_LEVEL_GMAC) ->
  field_emits f state state' bs ->
  (wr_index a + S (length bs) <= array_size a)%nat ->
  exists a', wrote a (uint8 (codec_tag codec) :: bs) a'
             /\ encoder_loop (codec :: rest) state ber a
                = encoder_loop rest state' ber a'.
Proof.
  intros Hf Hctx Hem Hcap.
  destruct (emits_write_u8 (codec_tag codec) a) as [Ht Hw];
    [cbn [length]; lia|].
  pose proof (wrote_size _ _ _ Hw) as Hs.
  destruct (Hem ber (snd (csm_array_write_u8 a (codec_tag codec))))
    as (Hc & Hst & Hb & Hw2).
  { destruct Hw as (_ & Hwr & _). rewrite Hwr, Hs. cbn [length]. lia. }
  exists (res_array (f state ber (snd (csm_array_write_u8 a (codec_tag codec))))).
  split.
  - apply (wrote_trans _ _ _ [uint8 (codec_tag codec)] bs Hw Hw2).
  - cbn [encoder_loop]. rewrite Hf.
    assert (Hsel : (negb (acse_context_eqb (context codec) ACSE_NONE) = true)
                   /\ (negb (auth_level state =? CSM_AUTH_HIGH_LEVEL_GMAC)
                       && acse_context_eqb (context codec) ACSE_SEC = false)).
    { destruct Hctx as [-> | [-> ->]]; split; try reflexivity.
      apply andb_false_r. }
    destruct Hsel as [-> ->].
    destruct (csm_array_write_u8 a (codec_tag codec)) as [ok a1].
    simpl in Ht. subst ok. simpl snd in *.
    unfold res_code, res_state, res_ber, res_array in *.
    destruct (f state ber a1) as [[[code st1] b1] a2]. simpl in *.
    subst code st1 b1. reflexivity.
Qed.

Lemma wrote_firstn (a a' : csm_array) (bs : list Z) :
  wrote a bs a' -> wr_index a = 0%nat ->
  firstn (length bs) (buff a') = bs.
Proof.
  intros (Hb & _) H0. rewrite Hb, H0. simpl.
  rewrite firstn_app, firstn_all, Nat.sub_diag. simpl. apply app_nil_r.
Qed.

Lemma vaa_name_bytes_length (r : Z) : length (vaa_name_bytes r) = 2%nat.
Proof. unfold vaa_name_bytes. destruct (_ || _); reflexivity. Qed.

Lemma aare_user_info_bytes_length (p : Z) (state : csm_asso_state) :
  length (aare_user_info_bytes p state) = 18%nat.
Proof.
  unfold aare_user_info_bytes, conformance_bytes, pdu_size_bytes.
  cbn [app length]. rewrite vaa_name_bytes_length. reflexivity.
Qed.

(** The encoder starts with the AARE tag and a length byte to be patched. *)
Lemma csm_asso_encoder_header (state : csm_asso_state) (ber : csm_ber)
  (array : csm_array) :
  (2 <= array_size array)%nat ->
  exists a2,
    wrote (set_wr_index array 0) [CSM_ASSO_AARE; 0] a2
    /\ csm_asso_encoder state ber array
       = (let '(completed, state1, _, a3) :=
            encoder_loop aare_codec_chain state ber a2 in
          if completed
          then (true, state1,
                snd (csm_array_set a3 1 (Z.of_nat (wr_index a3) - 2)))
          else (false, state1, a3)).
Proof.
  intros Hcap. unfold csm_asso_encoder. cbv zeta.
  set (a0 := set_wr_index array 0).
  assert (H2 : fst (csm_array_write_u8 a0 CSM_ASSO_AARE
                      &&> (fun a => csm_array_write_u8 a 0)) = true
               /\ wrote a0 [CSM_ASSO_AARE; 0]
                    (snd (csm_array_write_u8 a0 CSM_ASSO_AARE
                            &&> (fun a => csm_array_write_u8 a 0)))).
  { eapply (wrote_result_eq _ _ ([uint8 CSM_ASSO_AARE] ++ [uint8 0]));
      [|reflexivity].
    eapply and_then_emits; [apply (emits_write_u8 CSM_ASSO_AARE a0)
                           |apply emits_write_u8|];
      cbn [length Nat.add]; subst a0; unfold array_size in *; cbn; lia. }
  unfold and_then in H2.
  destruct (csm_array_write_u8 a0 CSM_ASSO_AARE) as [ok1 a1].
  cbn [fst snd] in H2.
  destruct ok1; [|destruct H2; discriminate].
  destruct (csm_array_write_u8 a1 0) as [ok2 a2]. cbn [fst snd] in H2.
  destruct H2 as [-> H2]. exists a2. split; [exact H2|reflexivity].
Qed.

(** The five entries at the end of the AARE table. *)
Lemma encoder_loop_kernel (state : csm_asso_state) (ber : csm_ber)
  (a2 : csm_array) :
  (wr_index a2 + 23 <= array_size a2)%nat ->
  exists a6,
    wrote a2 (aare_kernel_bytes state) a6
    /\ encoder_loop aare_codec_chain state ber a2
       = encoder_loop (skipn 5 aare_codec_chain) state ber a6.
Proof.
  intros Hcap. unfold aare_codec_chain.
  rewrite encoder_loop_skip_none by reflexivity.
  match goal with
  | |- context [ encoder_loop (?c :: ?r) _ _ a2 ] =>
      destruct (encoder_loop_emit c r state state ber a2 _ _ eq_refl
                  (or_introl eq_refl) (acse_app_context_encoder_emits state))
        as (a3 & H3 & E3); [cbn [length]; lia|]
  end.
  pose proof (wrote_size _ _ _ H3) as Hs3.
  assert (Hwr3 : wr_index a3 = (wr_index a2 + 2)%nat) by (destruct H3 as (_ & -> & _); reflexivity).
  match type of E3 with
  | _ = encoder_loop (?c :: ?r) _ _ _ =>
      destruct (encoder_loop_emit c r state state ber a3 _ _ eq_refl
                  (or_introl eq_refl) (acse_oid_context_encoder_emits state))
        as (a4 & Hw4 & E4); [cbn [length app cOidHeader]; lia|]
  end.
  pose proof (wrote_trans _ _ _ _ _ H3 Hw4) as H4. clear Hw4.
  pose proof (wrote_size _ _ _ H4) as Hs4.
  assert (Hwr4 : wr_index a4 = (wr_index a2 + 11)%nat) by (destruct H4 as (_ & -> & _); reflexivity).
  match type of E4 with
  | _ = encoder_loop (?c :: ?r) _ _ _ =>
      destruct (encoder_loop_emit c r state state ber a4 _ _ eq_refl
                  (or_introl eq_refl) (acse_result_encoder_emits state))
        as (a5 & Hw5 & E5); [cbn [length app]; lia|]
  end.
  pose proof (wrote_trans _ _ _ _ _ H4 Hw5) as H5. clear Hw5.
  pose proof (wrote_size _ _ _ H5) as Hs5.
  assert (Hwr5 : wr_index a5 = (wr_index a2 + 16)%nat) by (destruct H5 as (_ & -> & _); reflexivity).
  match type of E5 with
  | _ = encoder_loop (?c :: ?r) _ _ _ =>
      destruct (encoder_loop_emit c r state state ber a5 _ _ eq_refl
                  (or_introl eq_refl) (acse_result_src_diag_encoder_emits state))
        as (a6 & Hw6 & E6); [cbn [length app]; lia|]
  end.
  pose proof (wrote_trans _ _ _ _ _ H5 Hw6) as H6. clear Hw6.
  exists a6. split.
  - unfold aare_kernel_bytes. exact H6.
  - rewrite E3, E4, E5, E6. reflexivity.
Qed.

(** Without high-level security the rest of the table is the
    user-information field alone. *)
Lemma encoder_loop_tail_plain (state : csm_asso_state) (ber : csm_ber)
  (a6 : csm_array) :
  auth_level state <> CSM_AUTH_HIGH_LEVEL_GMAC ->
  (wr_index a6 + 18 <= array_size a6)%nat ->
  exists a7,
    wrote a6 (aare_user_info_bytes CSM_DEF_PDU_SIZE state) a7
    /\ encoder_loop (skipn 5 aare_codec_chain) state ber a6
       = (true, state, ber, a7).
Proof.
  intros Hlvl Hcap. unfold aare_codec_chain. cbn [skipn].
  do 4 (rewrite encoder_loop_skip_sec by (reflexivity || assumption)).
  match goal with
  | |- context [ encoder_loop (?c :: ?r) _ _ _ ] =>
      destruct (encoder_loop_emit c r state state ber a6 _ _ eq_refl
                  (or_introl eq_refl) (acse_user_info_encoder_emits state))
        as (a7 & Hw7 & ->)
  end.
  { unfold conformance_bytes, pdu_size_bytes. cbn [length app].
    rewrite vaa_name_bytes_length. lia. }
  exists a7. split; [exact Hw7|reflexivity].
Qed.

(** The length byte is patched once all the fields are written. *)
Lemma aare_finish (a0 a3 : csm_array) (fields : list Z) :
  wr_index a0 = 0%nat ->
  wrote a0 ([CSM_ASSO_AARE; 0] ++ fields) a3 ->
  let aare := snd (csm_array_set a3 1 (Z.of_nat (wr_index a3) - 2)) in
  wr_index aare = (2 + length fields)%nat
  /\ rd_index aare = rd_index a0
  /\ firstn (2 + length fields) (buff aare)
     = [CSM_ASSO_AARE; uint8 (Z.of_nat (length fields))] ++ fields.
Proof.
  intros Hw0 H3 aare.
  assert (Hwr3 : wr_index a3 = (2 + length fields)%nat).
  { destruct H3 as (_ & -> & _). rewrite Hw0, length_app. reflexivity. }
  destruct (set_wrote a0 a3 _ 1 (Z.of_nat (wr_index a3) - 2) H3) as [_ Hf].
  { rewrite length_app. cbn [length]. lia. }
  rewrite Hw0 in Hf. cbn [Nat.add] in Hf. fold aare in Hf.
  pose proof (wrote_firstn _ _ _ Hf Hw0) as Hfn.
  rewrite list_set_length, length_app in Hfn. cbn [length] in Hfn.
  destruct Hf as (_ & Hw & Hr & _).
  rewrite list_set_length, length_app, Hw0 in Hw. cbn [length] in Hw.
  split; [exact Hw|]. split; [exact Hr|].
  cbn [Nat.add] in Hfn |- *. rewrite Hfn. cbn [app list_set].
  rewrite Hwr3. do 3 f_equal. lia.
Qed.

(** When the authentication is not the high-level one and the buffer has
    room for 43 bytes, the encoder succeeds and the AARE is
    [aare_plain_bytes]. *)
Lemma csm_asso_encoder_plain (state : csm_asso_state) (ber : csm_ber)
  (array : csm_array) :
  auth_level state <> CSM_AUTH_HIGH_LEVEL_GMAC ->
  (43 <= array_size array)%nat ->
  exists array',
    csm_asso_encoder state ber array = (true, state, array')
    /\ wr_index array' = 43%nat
    /\ rd_index array' = rd_index array
    /\ firstn 43 (buff array') = aare_plain_bytes CSM_DEF_PDU_SIZE state.
Proof.
  intros Hlvl Hcap.
  destruct (csm_asso_encoder_header state ber array) as (a2 & H2 & ->); [lia|].
  pose proof (wrote_size _ _ _ H2) as Hs2.
  assert (Hwr2 : wr_index a2 = 2%nat) by (destruct H2 as (_ & -> & _); reflexivity).
  change (array_size (set_wr_index array 0)) with (array_size array) in Hs2.
  destruct (encoder_loop_kernel state ber a2) as (a6 & Hw6 & ->); [lia|].
  pose proof (wrote_trans _ _ _ _ _ H2 Hw6) as H6.
  pose proof (wrote_size _ _ _ H6) as Hs6.
  change (array_size (set_wr_index array 0)) with (array_size array) in Hs6.
  assert (Hwr6 : wr_index a6 = 25%nat) by (destruct H6 as (_ & -> & _); reflexivity).
  destruct (encoder_loop_tail_plain state ber a6 Hlvl) as (a7 & Hw7 & ->); [lia|].
  pose proof (wrote_trans _ _ _ _ _ H6 Hw7) as H7.
  rewrite <- app_assoc in H7.
  destruct (aare_finish (set_wr_index array 0) a7 _ eq_refl H7) as (Hw & Hr & Hb).
  rewrite length_app, aare_user_info_bytes_length in Hw, Hb.
  cbn [length aare_kernel_bytes Nat.add] in Hw, Hb.
  eexists. split; [reflexivity|]. split; [exact Hw|]. split; [exact Hr|].
  rewrite Hb. reflexivity.
Qed.

(* ---------------------------------------------------------------------- *)
(** ** The fields of the high-level security *)
(* ---------------------------------------------------------------------- *)

Lemma acse_resp_system_title_encoder_emits (state : csm_asso_state) :
  (Z.to_nat CSM_DEF_APP_TITLE_SIZE <= length csm_sys_get_system_title)%nat ->
  field_emits acse_resp_system_title_encoder state state
    (ber_len_bytes (CSM_DEF_APP_TITLE_SIZE + 2)
       ++ [BER_TYPE_OCTET_STRING; uint8 CSM_DEF_APP_TITLE_SIZE]
       ++ map uint8 (firstn (Z.to_nat CSM_DEF_APP_TITLE_SIZE)
                       csm_sys_get_system_title)).
Proof.
  intros Ht ber a H. unfold acse_resp_system_title_encoder.
  apply (field_of_emits
           (fun a => csm_ber_write_len a (CSM_DEF_APP_TITLE_SIZE + 2)
                       &&> (fun a => csm_array_write_u8 a BER_TYPE_OCTET_STRING)
                       &&> (fun a => csm_array_write_u8 a CSM_DEF_APP_TITLE_SIZE)
                       &&> (fun a => csm_array_write_buff a csm_sys_get_system_title
                                       (Z.to_nat CSM_DEF_APP_TITLE_SIZE))));
    auto.
  eapply emits_eq.
  - apply emits_and_then; [apply emits_and_then; [apply emits_and_then|]|].
    + apply emits_write_len.
    + apply emits_write_u8.
    + apply emits_write_u8.
    + apply emits_write_buff. exact Ht.
  - rewrite <- !app_assoc. reflexivity.
Qed.

Lemma acse_responder_requirements_encoder_emits (state : csm_asso_state) :
  field_emits acse_responder_requirements_encoder state state [2; 7; 0x80].
Proof.
  intros ber a H. unfold acse_responder_requirements_encoder.
  apply (field_of_emits
           (fun a => csm_ber_write_len a 2
                       &&> (fun a => csm_array_write_u8 a 7)
                       &&> (fun a => csm_array_write_u8 a 0x80))); auto.
  apply (emits_and_then _ _ [2; 7] [0x80]); [|apply (emits_write_u8 0x80)].
  apply (emits_and_then _ _ [2] [7]);
    [apply (emits_write_len 2)|apply (emits_write_u8 7)].
Qed.

Lemma acse_oid_mechanism_encoder_emits (state : csm_asso_state) :
  field_emits acse_oid_mechanism_encoder state state
    (7 :: cOidHeader ++ [uint8 SECURITY_MECHANISM_NAME; uint8 (auth_level state)]).
Proof.
  intros ber a H.
  apply (field_of_emits
           (fun a => acse_oid_encoder a SECURITY_MECHANISM_NAME (auth_level state)));
    auto.
  apply emits_oid_encoder.
Qed.

Lemma stoc_challenge_loop_emits (n : nat) :
  forall (i : nat) (a : csm_array) (va : bool * csm_array) (bs value : list Z),
    fst va = true /\ wrote a bs (snd va) ->
    (wr_index a + length bs + n <= array_size a)%nat ->
    let r := stoc_challenge_loop n i va value in
    fst (fst r) = true
    /\ wrote a (bs ++ map (fun j => uint8 (csm_sys_get_random_u8 j)) (seq i n))
         (snd (fst r))
    /\ snd r = stoc_value csm_sys_get_random_u8 n i value.
Proof.
  induction n as [|n IH]; intros i a va bs value Hva Hcap.
  - cbn. rewrite app_nil_r. destruct Hva; auto.
  - cbn [stoc_challenge_loop seq map stoc_value].
    assert (Hstep : fst (va &&> (fun a0 => csm_array_write_u8 a0
                                     (uint8 (csm_sys_get_random_u8 i)))) = true
                    /\ wrote a (bs ++ [uint8 (uint8 (csm_sys_get_random_u8 i))])
                         (snd (va &&> (fun a0 => csm_array_write_u8 a0
                                         (uint8 (csm_sys_get_random_u8 i)))))).
    { apply and_then_emits; auto; [apply emits_write_u8|cbn [length]; lia]. }
    destruct (IH (S i) a _ _ (list_set value i (uint8 (csm_sys_get_random_u8 i)))
                Hstep) as (H1 & H2 & H3).
    { rewrite length_app. cbn [length]. lia. }
    split; [exact H1|]. split; [|exact H3].
    rewrite <- app_assoc in H2. cbn [app] in H2.
    replace (uint8 (uint8 (csm_sys_get_random_u8 i)))
      with (uint8 (csm_sys_get_random_u8 i)) in H2
      by (symmetry; apply uint8_small, uint8_range).
    exact H2.
Qed.

Lemma acse_responder_auth_value_encoder_emits (state : csm_asso_state) :
  let size := uint8 (chal_size (ctos (handshake state))) in
  field_emits acse_responder_auth_value_encoder state
    (set_stoc state
       {| chal_value := stoc_value csm_sys_get_random_u8 (Z.to_nat size) 0
                          (chal_value (stoc (handshake state)));
          chal_size := size |})
    (ber_len_bytes (size + 2)
       ++ [TAG_CONTEXT_SPECIFIC; uint8 size]
       ++ map (fun i => uint8 (csm_sys_get_random_u8 i)) (seq 0 (Z.to_nat size))).
Proof.
  intros size ber a H. unfold acse_responder_auth_value_encoder. fold size.
  cbv zeta.
  rewrite !length_app, length_map, length_seq in H. cbn [length] in H.
  match goal with
  | |- context [ stoc_challenge_loop _ _ ?v _ ] => set (va := v)
  end.
  assert (Hva : fst va = true
                /\ wrote a (ber_len_bytes (size + 2)
                              ++ [TAG_CONTEXT_SPECIFIC; uint8 size]) (snd va)).
  { subst va. eapply wrote_result_eq.
    - eapply and_then_emits; [eapply and_then_emits|apply emits_write_u8|].
      + apply (emits_write_len (size + 2) a). lia.
      + apply emits_write_u8.
      + cbn [length]. lia.
      + rewrite length_app. cbn [length]. lia.
    - rewrite <- app_assoc. reflexivity. }
  clearbody va.
  destruct (stoc_challenge_loop_emits (Z.to_nat size) 0 a va _
              (chal_value (stoc (handshake state))) Hva) as (H1 & H2 & H3).
  { rewrite length_app. cbn [length]. lia. }
  destruct (stoc_challenge_loop (Z.to_nat size) 0 va
              (chal_value (stoc (handshake state)))) as [[valid a1] value].
  cbn [fst snd] in H1, H2, H3. subst valid value.
  unfold res_code, res_state, res_ber, res_array. cbn [fst snd acse_code_of].
  split; [reflexivity|]. split; [reflexivity|]. split; [reflexivity|].
  rewrite <- app_assoc in H2. exact H2.
Qed.

Lemma aare_security_bytes_length (state : csm_asso_state) (size : Z) :
  length (aare_security_bytes CSM_DEF_APP_TITLE_SIZE csm_sys_get_system_title
            csm_sys_get_random_u8 size state)
  = (1 + length (ber_len_bytes (CSM_DEF_APP_TITLE_SIZE + 2)) + 2
     + length (firstn (Z.to_nat CSM_DEF_APP_TITLE_SIZE) csm_sys_get_system_title)
     + 4 + 9 + 1 + length (ber_len_bytes (size + 2)) + 2 + Z.to_nat size)%nat.
Proof.
  unfold aare_security_bytes.
  repeat (rewrite ?length_app, ?length_map, ?length_seq; cbn [length]).
  lia.
Qed.

(** With high-level security the rest of the table writes the four
    security fields and the user-information field. *)
Lemma encoder_loop_tail_secure (state : csm_asso_state) (ber : csm_ber)
  (a6 : csm_array) :
  auth_level state = CSM_AUTH_HIGH_LEVEL_GMAC ->
  (Z.to_nat CSM_DEF_APP_TITLE_SIZE <= length csm_sys_get_system_title)%nat ->
  let size := uint8 (chal_size (ctos (handshake state))) in
  let state' :=
    set_stoc state
      {| chal_value := stoc_value csm_sys_get_random_u8 (Z.to_nat size) 0
                         (chal_value (stoc (handshake state)));
         chal_size := size |} in
  let bs := aare_security_bytes CSM_DEF_APP_TITLE_SIZE csm_sys_get_system_title
              csm_sys_get_random_u8 size state
            ++ aare_user_info_bytes CSM_DEF_PDU_SIZE state in
  (wr_index a6 + length bs <= array_size a6)%nat ->
  exists a7,
    wrote a6 bs a7
    /\ encoder_loop (skipn 5 aare_codec_chain) state ber a6
       = (true, state', ber, a7).
Proof.
  intros Hlvl Ht size state' bs Hcap. subst bs.
  rewrite length_app, aare_security_bytes_length, aare_user_info_bytes_length in Hcap.
  assert (Hfl : length (firstn (Z.to_nat CSM_DEF_APP_TITLE_SIZE)
                          csm_sys_get_system_title)
                = Z.to_nat CSM_DEF_APP_TITLE_SIZE) by (apply firstn_length_le; lia).
  rewrite Hfl in Hcap.
  unfold aare_codec_chain. cbn [skipn].
  (* responding-AP-title *)
  match goal with
  | |- context [ encoder_loop (?c :: ?r) _ _ a6 ] =>
      destruct (encoder_loop_emit c r state state ber a6 _ _ eq_refl
                  (or_intror (conj eq_refl Hlvl))
                  (acse_resp_system_title_encoder_emits state Ht))
        as (a7 & H7 & E7)
  end.
  { rewrite !length_app, length_map, Hfl. cbn [length]. lia. }
  pose proof (wrote_size _ _ _ H7) as Hs7.
  assert (Hwr7 : wr_index a7
                 = (wr_index a6 + (1 + length (ber_len_bytes (CSM_DEF_APP_TITLE_SIZE + 2))
                                   + 2 + Z.to_nat CSM_DEF_APP_TITLE_SIZE))%nat).
  { destruct H7 as (_ & -> & _). cbn [length].
    rewrite !length_app, length_map, Hfl. cbn [length]. lia. }
  (* responder-acse-requirements *)
  match type of E7 with
  | _ = encoder_loop (?c :: ?r) _ _ _ =>
      destruct (encoder_loop_emit c r state state ber a7 _ _ eq_refl
                  (or_intror (conj eq_refl Hlvl))
                  (acse_responder_requirements_encoder_emits state))
        as (a8 & Hw8 & E8); [cbn [length]; lia|]
  end.
  pose proof (wrote_trans _ _ _ _ _ H7 Hw8) as H8. clear Hw8.
  pose proof (wrote_size _ _ _ H8) as Hs8.
  assert (Hwr8 : wr_index a8 = (wr_index a7 + 4)%nat).
  { destruct H8 as (_ & -> & _). rewrite Hwr7, length_app. cbn [length].
    rewrite !length_app, length_map, Hfl. cbn [length]. lia. }
  (* mechanism-name *)
  match type of E8 with
  | _ = encoder_loop (?c :: ?r) _ _ _ =>
      destruct (encoder_loop_emit c r state state ber a8 _ _ eq_refl
                  (or_intror (conj eq_refl Hlvl))
                  (acse_oid_mechanism_encoder_emits state))
        as (a9 & Hw9 & E9); [cbn [length app cOidHeader]; lia|]
  end.
  pose proof (wrote_trans _ _ _ _ _ H8 Hw9) as H9.
  pose proof (wrote_size _ _ _ H9) as Hs9.
  assert (Hwr9 : wr_index a9 = (wr_index a8 + 9)%nat)
    by (destruct Hw9 as (_ & -> & _); reflexivity).
  clear Hw9.
  (* responding-authentication-value *)
  match type of E9 with
  | _ = encoder_loop (?c :: ?r) _ _ _ =>
      destruct (encoder_loop_emit c r state state' ber a9 _ _ eq_refl
                  (or_intror (conj eq_refl Hlvl))
                  (acse_responder_auth_value_encoder_emits state))
        as (a10 & Hw10 & E10)
  end.
  { fold size. rewrite !length_app, length_map, length_seq. cbn [length]. lia. }
  pose proof (wrote_trans _ _ _ _ _ H9 Hw10) as H10.
  pose proof (wrote_size _ _ _ H10) as Hs10.
  assert (Hwr10 : wr_index a10
                  = (wr_index a9 + (1 + length (ber_len_bytes (size + 2)) + 2
                                    + Z.to_nat size))%nat).
  { destruct Hw10 as (_ & -> & _). fold size. cbn [length].
    rewrite !length_app, length_map, length_seq. cbn [length]. lia. }
  clear Hw10.
  (* user-information *)
  match type of E10 with
  | _ = encoder_loop (?c :: ?r) _ _ _ =>
      destruct (encoder_loop_emit c r state' state' ber a10 _ _ eq_refl
                  (or_introl eq_refl) (acse_user_info_encoder_emits state'))
        as (a11 & Hw11 & E11)
  end.
  { unfold conformance_bytes, pdu_size_bytes. cbn [length app].
    rewrite vaa_name_bytes_length. lia. }
  pose proof (wrote_trans _ _ _ _ _ H10 Hw11) as H11. clear Hw11.
  exists a11. split.
  - unfold aare_security_bytes, aare_user_info_bytes. fold size.
    eapply wrote_eq; [exact H11|].
    repeat (rewrite <- ?app_assoc; cbn [app]).
    reflexivity.
  - rewrite E7, E8, E9, E10, E11. reflexivity.
Qed.

(** Under high-level security, in a buffer with room for it, the encoder
    succeeds and the AARE is its tag, its length and
    [aare_secure_fields]. *)
Lemma csm_asso_encoder_secure (state : csm_asso_state) (ber : csm_ber)
  (array : csm_array) :
  auth_level state = CSM_AUTH_HIGH_LEVEL_GMAC ->
  (Z.to_nat CSM_DEF_APP_TITLE_SIZE <= length csm_sys_get_system_title)%nat ->
  let size := uint8 (chal_size (ctos (handshake state))) in
  let state' :=
    set_stoc state
      {| chal_value := stoc_value csm_sys_get_random_u8 (Z.to_nat size) 0
                         (chal_value (stoc (handshake state)));
         chal_size := size |} in
  let fields := aare_secure_fields CSM_DEF_APP_TITLE_SIZE
                  csm_sys_get_system_title csm_sys_get_random_u8
                  CSM_DEF_PDU_SIZE state in
  (2 + length fields <= array_size array)%nat ->
  exists aare,
    csm_asso_encoder state ber array = (true, state', aare)
    /\ wr_index aare = (2 + length fields)%nat
    /\ rd_index aare = rd_index array
    /\ firstn (2 + length fields) (buff aare)
       = [CSM_ASSO_AARE; uint8 (Z.of_nat (length fields))] ++ fields.
Proof.
  intros Hlvl Ht size state' fields Hcap.
  assert (Hlen : length fields
                 = (23 + length (aare_security_bytes CSM_DEF_APP_TITLE_SIZE
                                   csm_sys_get_system_title csm_sys_get_random_u8
                                   size state) + 18)%nat).
  { subst fields. unfold aare_secure_fields. fold size.
    rewrite !length_app, aare_user_info_bytes_length. reflexivity. }
  destruct (csm_asso_encoder_header state ber array) as (a2 & H2 & ->); [lia|].
  pose proof (wrote_size _ _ _ H2) as Hs2.
  assert (Hwr2 : wr_index a2 = 2%nat) by (destruct H2 as (_ & -> & _); reflexivity).
  change (array_size (set_wr_index array 0)) with (array_size array) in Hs2.
  destruct (encoder_loop_kernel state ber a2) as (a6 & Hw6 & ->); [lia|].
  pose proof (wrote_trans _ _ _ _ _ H2 Hw6) as H6.
  pose proof (wrote_size _ _ _ H6) as Hs6.
  change (array_size (set_wr_index array 0)) with (array_size array) in Hs6.
  assert (Hwr6 : wr_index a6 = 25%nat) by (destruct H6 as (_ & -> & _); reflexivity).
  destruct (encoder_loop_tail_secure state ber a6 Hlvl Ht) as (a7 & Hw7 & ->).
  { fold size. rewrite length_app, aare_user_info_bytes_length. lia. }
  pose proof (wrote_trans _ _ _ _ _ H6 Hw7) as H7.
  rewrite <- app_assoc in H7.
  destruct (aare_finish (set_wr_index array 0) a7 _ eq_refl H7) as (Hw & Hr & Hb).
  exists (snd (csm_array_set a7 1 (Z.of_nat (wr_index a7) - 2))).
  split; [reflexivity|]. split; [exact Hw|]. split; [exact Hr|]. exact Hb.
Qed.

(* ---------------------------------------------------------------------- *)
(** ** Readers: what they leave alone *)
(* ---------------------------------------------------------------------- *)

Lemma reads_refl (a : csm_array) : reads a a.
Proof. split; reflexivity. Qed.

Lemma reads_trans (a b c : csm_array) : reads a b -> reads b c -> reads a c.
Proof. unfold reads. intros [? ?] [? ?]. split; congruence. Qed.

Lemma read_u8_reads (a : csm_array) (byte : Z) :
  reads a (snd (csm_array_read_u8 a byte)).
Proof.
  unfold csm_array_read_u8.
  destruct (_ <? _)%nat; [destruct (nth_error _ _)|]; split; reflexivity.
Qed.

Lemma read_u16_reads (a : csm_array) (v : Z) :
  reads a (snd (csm_array_read_u16 a v)).
Proof.
  unfold csm_array_read_u16.
  destruct (_ <=? _)%nat; [destruct (nth_error _ _); [destruct (nth_error _ _)|]|];
    split; reflexivity.
Qed.

Lemma read_buff_reads (a : csm_array) (dst : list Z) (n : nat) :
  reads a (snd (csm_array_read_buff a dst n)).
Proof.
  unfold csm_array_read_buff. destruct (_ && _); split; reflexivity.
Qed.

Lemma reader_jump_reads (a : csm_array) (n : nat) :
  reads a (snd (csm_array_reader_jump a n)).
Proof.
  unfold csm_array_reader_jump. destruct (_ <=? _)%nat; split; reflexivity.
Qed.

Lemma read_be_reads (n : nat) (acc : Z) (a : csm_array) :
  reads a (snd (read_be n acc a)).
Proof.
  revert acc a; induction n as [|n IH]; intros acc a; simpl.
  - apply reads_refl.
  - pose proof (read_u8_reads a 0) as H.
    destruct (csm_array_read_u8 a 0) as [[ok b] a1]. simpl in H.
    destruct ok; [|exact H]. eapply reads_trans; [exact H|apply IH].
Qed.

Ltac reads_step :=
  match goal with
  | |- context [csm_array_read_u8 ?a ?b] =>
      let H := fresh "Hr" in
      pose proof (read_u8_reads a b) as H;
      destruct (csm_array_read_u8 a b) as [[? ?] ?]; cbn [fst snd] in H
  | |- context [csm_array_read_u16 ?a ?b] =>
      let H := fresh "Hr" in
      pose proof (read_u16_reads a b) as H;
      destruct (csm_array_read_u16 a b) as [[? ?] ?]; cbn [fst snd] in H
  | |- context [csm_array_read_buff ?a ?b ?n] =>
      let H := fresh "Hr" in
      pose proof (read_buff_reads a b n) as H;
      destruct (csm_array_read_buff a b n) as [[? ?] ?]; cbn [fst snd] in H
  | |- context [csm_array_reader_jump ?a ?n] =>
      let H := fresh "Hr" in
      pose proof (reader_jump_reads a n) as H;
      destruct (csm_array_reader_jump a n) as [? ?]; cbn [fst snd] in H
  | |- context [read_be ?n ?acc ?a] =>
      let H := fresh "Hr" in
      pose proof (read_be_reads n acc a) as H;
      destruct (read_be n acc a) as [[? ?] ?]; cbn [fst snd] in H
  | |- context [if ?c then _ else _] => destruct c
  end; cbv beta iota zeta.

Ltac reads_done :=
  cbn [fst snd res_array res_state res_code res_ber state_cf config
       set_ref set_auth_level set_ctos set_client_app_title set_handshake
       set_proposed_conformance set_client_max_receive_pdu_size];
  unfold reads in *;
  repeat match goal with H : _ /\ _ |- _ => destruct H end;
  repeat split; congruence.

Lemma ber_decode_reads (ber : csm_ber) (a : csm_array) :
  reads a (snd (csm_ber_decode ber a)).
Proof.
  unfold csm_ber_decode. cbv beta iota zeta.
  repeat reads_step; reads_done.
Qed.

Lemma decode_object_identifier_reads (oid : ber_object_identifier)
  (a : csm_array) :
  reads a (snd (csm_ber_decode_object_identifier oid a)).
Proof.
  unfold csm_ber_decode_object_identifier. cbv beta iota zeta.
  repeat reads_step; reads_done.
Qed.

Lemma axdr_rd_null_reads (a : csm_array) :
  reads a (snd (csm_axdr_rd_null a)).
Proof.
  unfold csm_axdr_rd_null. cbv beta iota zeta.
  repeat reads_step; reads_done.
Qed.

Ltac reads_step2 :=
  match goal with
  | |- context [csm_ber_decode ?b ?a] =>
      let H := fresh "Hr" in
      pose proof (ber_decode_reads b a) as H;
      destruct (csm_ber_decode b a) as [[? ?] ?]; cbn [fst snd] in H
  | |- context [csm_ber_decode_object_identifier ?b ?a] =>
      let H := fresh "Hr" in
      pose proof (decode_object_identifier_reads b a) as H;
      destruct (csm_ber_decode_object_identifier b a) as [[? ?] ?];
      cbn [fst snd] in H
  | |- context [csm_axdr_rd_null ?a] =>
      let H := fresh "Hr" in
      pose proof (axdr_rd_null_reads a) as H;
      destruct (csm_axdr_rd_null a) as [? ?]; cbn [fst snd] in H
  end; cbv beta iota zeta.

Ltac reads_auto :=
  cbv beta iota zeta;
  repeat first [reads_step2 | reads_step];
  reads_done.

Lemma acse_proto_version_decoder_frame : extract_frame acse_proto_version_decoder.
Proof. intros st b a. unfold acse_proto_version_decoder. reads_auto. Qed.

Lemma acse_app_context_decoder_frame : extract_frame acse_app_context_decoder.
Proof. intros st b a. unfold acse_app_context_decoder. reads_auto. Qed.

Lemma acse_oid_decoder_frame : extract_frame acse_oid_decoder.
Proof. intros st b a. unfold acse_oid_decoder. reads_auto. Qed.

Lemma acse_req_decoder_frame : extract_frame acse_req_decoder.
Proof. intros st b a. unfold acse_req_decoder. reads_auto. Qed.

Lemma acse_auth_value_decoder_frame : extract_frame acse_auth_value_decoder.
Proof. intros st b a. unfold acse_auth_value_decoder. reads_auto. Qed.

Lemma acse_client_system_title_decoder_frame :
  extract_frame acse_client_system_title_decoder.
Proof. intros st b a. unfold acse_client_system_title_decoder. reads_auto. Qed.

Lemma acse_skip_decoder_frame : extract_frame acse_skip_decoder.
Proof.
  intros st b a. unfold acse_skip_decoder.
  pose proof (reader_jump_reads a (Z.to_nat (length_length b))).
  destruct (tag_isPrimitive b); reads_done.
Qed.

Ltac frame_solve :=
  cbn [fst snd] in *; unfold reads in *;
  repeat match goal with H : _ /\ _ |- _ => destruct H end;
  repeat split; congruence.

Lemma initiate_request_tail_frame (state : csm_asso_state) (ber : csm_ber)
  (a : csm_array) (byte : Z) :
  reads a (res_array (initiate_request_tail state ber a byte))
  /\ state_cf (res_state (initiate_request_tail state ber a byte)) = state_cf state
  /\ config (res_state (initiate_request_tail state ber a byte)) = config state.
Proof.
  unfold initiate_request_tail, and_read_u8, and_then. reads_auto.
Qed.

Lemma acse_user_info_decoder_frame : extract_frame acse_user_info_decoder.
Proof.
  intros st b a. unfold acse_user_info_decoder. cbv beta iota zeta.
  pose proof (ber_decode_reads b a) as H1.
  destruct (csm_ber_decode b a) as [[ok b1] a1]. cbn [snd] in H1.
  destruct ok; [|reads_done].
  destruct (tag_id b1 =? BER_TYPE_OCTET_STRING); [|reads_done].
  pose proof (read_u8_reads a1 0) as H2.
  destruct (csm_array_read_u8 a1 0) as [[ok1 byte] a2]. cbn [snd] in H2.
  destruct ok1; [|reads_done].
  destruct (byte =? AXDR_INITIATE_REQUEST); [|reads_done].
  pose proof (read_u8_reads a2 byte) as H3.
  destruct (csm_array_read_u8 a2 byte) as [[ok2 byte2] a3]. cbn [snd] in H3.
  destruct (initiate_request_tail_frame st b1 a3 byte2) as (H4 & H5 & H6).
  frame_solve.
Qed.

Lemma aarq_codec_chain_frame :
  Forall (fun codec => forall f, extract_func codec = Some f -> extract_frame f)
         aarq_codec_chain.
Proof.
  unfold aarq_codec_chain.
  repeat (apply Forall_cons;
          [ cbn [extract_func]; intros f [= <-];
            first [ apply acse_proto_version_decoder_frame
                  | apply acse_app_context_decoder_frame
                  | apply acse_oid_decoder_frame
                  | apply acse_skip_decoder_frame
                  | apply acse_client_system_title_decoder_frame
                  | apply acse_req_decoder_frame
                  | apply acse_auth_value_decoder_frame
                  | apply acse_user_info_decoder_frame ] | ]).
  apply Forall_nil.
Qed.

Lemma decoder_body_frame (codec : csm_asso_codec) (more ret : bool)
  (state : csm_asso_state) (ber : csm_ber) (a : csm_array) :
  (forall f, extract_func codec = Some f -> extract_frame f) ->
  reads a (res_array (decoder_body codec more ret state ber a))
  /\ state_cf (res_state (decoder_body codec more ret state ber a)) = state_cf state
  /\ config (res_state (decoder_body codec more ret state ber a)) = config state.
Proof.
  intros Hf. unfold decoder_body.
  destruct ret; [|reads_done].
  destruct (tag_tag ber =? codec_tag codec); [|reads_done].
  destruct (extract_func codec) as [f|].
  - destruct (Hf f eq_refl state ber a) as (H1 & H2 & H3).
    unfold res_array, res_state in *.
    destruct (f state ber a) as [[[code s] b] a1]. cbn [fst snd] in *.
    cbv beta iota zeta.
    destruct (_ && more).
    + pose proof (ber_decode_reads b a1) as H4.
      destruct (csm_ber_decode b a1) as [[? ?] ?]. frame_solve.
    + frame_solve.
  - cbv beta iota zeta.
    destruct (_ && more).
    + pose proof (ber_decode_reads ber a) as H4.
      destruct (csm_ber_decode ber a) as [[? ?] ?]. unfold res_array, res_state.
      frame_solve.
    + reads_done.
Qed.

Lemma decoder_loop_frame (chain : list csm_asso_codec) :
  Forall (fun codec => forall f, extract_func codec = Some f -> extract_frame f)
         chain ->
  forall ret state ber a,
    reads a (res_array (decoder_loop chain ret state ber a))
    /\ state_cf (res_state (decoder_loop chain ret state ber a)) = state_cf state
    /\ config (res_state (decoder_loop chain ret state ber a)) = config state.
Proof.
  induction 1 as [|codec rest Hc Hr IH]; intros ret state ber a.
  - cbn. repeat split; reflexivity.
  - cbn [decoder_loop].
    destruct (decoder_body_frame codec (negb (Nat.eqb (length rest) 0)) ret
                state ber a Hc) as (H1 & H2 & H3).
    unfold res_array, res_state in *.
    destruct (decoder_body _ _ ret state ber a) as [[[ret1 s1] b1] a1].
    cbn [fst snd] in *.
    destruct ret1; cbn [negb].
    + destruct (IH true s1 b1 a1) as (H4 & H5 & H6). frame_solve.
    + frame_solve.
Qed.

(** The decoder only moves the read position of the packet; it never
    touches the connection state nor the configuration. *)
Lemma csm_asso_decoder_frame (state : csm_asso_state) (ber : csm_ber)
  (a : csm_array) :
  reads a (snd (csm_asso_decoder state ber a))
  /\ state_cf (snd (fst (csm_asso_decoder state ber a))) = state_cf state
  /\ config (snd (fst (csm_asso_decoder state ber a))) = config state.
Proof.
  unfold csm_asso_decoder.
  pose proof (ber_decode_reads ber a) as H1.
  destruct (csm_ber_decode ber a) as [[ok b1] a1]. cbn [snd] in H1.
  destruct (_ || _); [frame_solve|].
  pose proof (ber_decode_reads b1 a1) as H2.
  destruct (csm_ber_decode b1 a1) as [[ret b2] a2]. cbn [snd] in H2.
  destruct (decoder_loop_frame _ aarq_codec_chain_frame ret state b2 a2)
    as (H3 & H4 & H5).
  unfold res_array, res_state in *.
  destruct (decoder_loop aarq_codec_chain ret state b2 a2) as [[[r s] b] a3].
  frame_solve.
Qed.

(* ---------------------------------------------------------------------- *)
(** ** Authorization, dispatch *)
(* ---------------------------------------------------------------------- *)

Lemma nth_error_of_firstn (l bs : list Z) (n i : nat) :
  firstn n l = bs -> (i < n)%nat -> nth_error l i = nth_error bs i.
Proof.
  intros <- H. revert l i H. induction n as [|n IH]; intros l i H; [lia|].
  destruct l as [|h t]; [destruct i; reflexivity|].
  destruct i as [|i]; simpl; [reflexivity|]. apply IH. lia.
Qed.

(** From IDLE, a decoded packet goes through authorization and encoding. *)
Lemma csm_asso_execute_idle (asso asso1 : csm_asso_state)
  (ber_dec ber_enc : csm_ber) (packet packet1 : csm_array) :
  state_cf asso = CF_IDLE ->
  csm_asso_decoder asso ber_dec packet = (true, asso1, packet1) ->
  csm_asso_execute asso ber_dec ber_enc packet =
  let '(encoded, asso3, packet2) :=
    csm_asso_encoder (snd (csm_asso_is_granted asso1)) ber_enc packet1 in
  if encoded then (Z.of_nat (wr_index packet2), asso3, packet2)
  else (0, asso3, packet2).
Proof.
  intros Hcf Hdec. unfold csm_asso_execute. rewrite Hcf, Hdec. cbn [cf_eqb].
  destruct (csm_asso_is_granted asso1) as [g asso2]. reflexivity.
Qed.

Lemma csm_asso_decoder_size (state : csm_asso_state) (ber : csm_ber)
  (a : csm_array) :
  array_size (snd (csm_asso_decoder state ber a)) = array_size a.
Proof.
  destruct (csm_asso_decoder_frame state ber a) as ([Hb _] & _).
  unfold array_size. rewrite Hb. reflexivity.
Qed.

(* ---------------------------------------------------------------------- *)
(** ** Writers: how far they can go, whatever their outcome *)
(* ---------------------------------------------------------------------- *)

Lemma grows_refl (a : csm_array) : grows 0 a a.
Proof. unfold grows. repeat split; lia. Qed.

Lemma grows_weaken (k k' : nat) (a a' : csm_array) :
  grows k a a' -> (k <= k')%nat -> grows k' a a'.
Proof. unfold grows. intros (H1 & H2 & H3 & H4) Hk. repeat split; auto; lia. Qed.

Lemma grows_trans (k j : nat) (a b c : csm_array) :
  grows k a b -> grows j b c -> grows (k + j) a c.
Proof.
  unfold grows. intros (H1 & H2 & H3 & H4) (G1 & G2 & G3 & G4).
  repeat split; try congruence; try lia.
  rewrite <- H4.
  replace (wr_index a) with (Nat.min (wr_index a) (wr_index b)) by lia.
  rewrite <- !firstn_firstn. f_equal. exact G4.
Qed.

Lemma write_u8_grows (a : csm_array) (v : Z) :
  grows 1 a (snd (csm_array_write_u8 a v)).
Proof.
  unfold csm_array_write_u8. destruct (_ <? _)%nat.
  - unfold grows, array_size. cbn. rewrite list_set_length.
    repeat split; try lia. apply firstn_list_set. lia.
  - eapply grows_weaken; [apply grows_refl|lia].
Qed.

Lemma write_buff_grows (a : csm_array) (buffer : list Z) (n : nat) :
  grows n a (snd (csm_array_write_buff a buffer n)).
Proof.
  unfold csm_array_write_buff. destruct (_ <=? _)%nat.
  - unfold grows, array_size. cbn. rewrite list_blit_length.
    repeat split; try lia. apply firstn_list_blit. lia.
  - eapply grows_weaken; [apply grows_refl|lia].
Qed.

Lemma set_grows (k : nat) (a a1 : csm_array) (i : nat) (v : Z) :
  grows k a a1 -> (wr_index a <= i)%nat ->
  grows k a (snd (csm_array_set a1 i v)).
Proof.
  intros (H1 & H2 & H3 & H4) Hi. unfold csm_array_set.
  destruct (_ <? _)%nat; [|exact (conj H1 (conj H2 (conj H3 H4)))].
  unfold grows, array_size in *. cbn. rewrite list_set_length.
  repeat split; auto; try lia. rewrite firstn_list_set by lia. exact H4.
Qed.

Lemma and_then_grows (k j : nat) (a : csm_array) (va : bool * csm_array)
  (g : csm_array -> bool * csm_array) :
  grows k a (snd va) -> (forall x, grows j x (snd (g x))) ->
  grows (k + j) a (snd (va &&> g)).
Proof.
  intros Hk Hg. unfold and_then. destruct (fst va).
  - eapply grows_trans; [exact Hk|apply Hg].
  - cbn [snd]. eapply grows_weaken; [exact Hk|lia].
Qed.

Lemma and_then_set_grows (k : nat) (a : csm_array) (va : bool * csm_array)
  (i : nat) (v : Z) :
  grows k a (snd va) -> (wr_index a <= i)%nat ->
  grows k a (snd (va &&> (fun x => csm_array_set x i v))).
Proof.
  intros Hk Hi. unfold and_then. destruct (fst va); [|exact Hk].
  apply set_grows; assumption.
Qed.

Lemma write_len_grows (a : csm_array) (len : Z) :
  grows (length (ber_len_bytes len)) a (snd (csm_ber_write_len a len)).
Proof.
  unfold csm_ber_write_len, ber_len_bytes.
  destruct (len <? 128); [apply write_u8_grows|].
  destruct (len <? 256).
  - apply (and_then_grows 1 1); [apply write_u8_grows|intros; apply write_u8_grows].
  - apply (and_then_grows 2 1); [|intros; apply write_u8_grows].
    apply (and_then_grows 1 1); [apply write_u8_grows|intros; apply write_u8_grows].
Qed.

Lemma write_integer_grows (a : csm_array) (v : Z) :
  grows 4 a (snd (csm_ber_write_integer a v)).
Proof.
  unfold csm_ber_write_integer.
  apply (and_then_grows 3 1); [|intros; apply write_u8_grows].
  apply (and_then_grows 2 1); [|intros; apply (write_len_grows _ 1)].
  apply (and_then_grows 1 1); [|intros; apply write_u8_grows].
  apply (write_len_grows _ 3).
Qed.

Lemma oid_encoder_grows (a : csm_array) (name id : Z) :
  grows 8 a (snd (acse_oid_encoder a name id)).
Proof.
  unfold acse_oid_encoder.
  apply (and_then_grows 7 1); [|intros; apply write_u8_grows].
  apply (and_then_grows 6 1); [|intros; apply write_u8_grows].
  apply (and_then_grows 1 5); [|intros; apply write_buff_grows].
  apply (write_len_grows _ 7).
Qed.

Lemma same_core_refl (s : csm_asso_state) : same_core s s.
Proof.
  unfold same_core. destruct s as [cf r al t [c s r0 p m] cfg]. reflexivity.
Qed.

Lemma same_core_set_stoc (s : csm_asso_state) (v : csm_challenge) :
  same_core s (set_stoc s v).
Proof. reflexivity. Qed.

Lemma same_core_trans (s1 s2 s3 : csm_asso_state) :
  same_core s1 s2 -> same_core s2 s3 -> same_core s1 s3.
Proof. unfold same_core. intros H1 H2. rewrite H2, H1 at 1. reflexivity. Qed.

Lemma same_core_fields (s s' : csm_asso_state) :
  same_core s s' ->
  auth_level s' = auth_level s /\ ctos (handshake s') = ctos (handshake s)
  /\ state_cf s' = state_cf s.
Proof. unfold same_core. intros ->. repeat split. Qed.

Lemma insert_grows_of_writer (w : csm_asso_state -> csm_array -> bool * csm_array)
  (k : csm_asso_state -> nat) (f : insert_param) :
  (forall state ber a,
     f state ber a = (let '(ret, a1) := w state a in
                      (acse_code_of ret, state, ber, a1))) ->
  (forall state a, grows (k state) a (snd (w state a))) ->
  insert_grows k f.
Proof.
  intros Hf Hw state ber a. rewrite Hf. specialize (Hw state a).
  destruct (w state a) as [ret a1]. split; [apply same_core_refl|exact Hw].
Qed.

Lemma acse_proto_version_encoder_grows :
  insert_grows (fun _ => 3%nat) acse_proto_version_encoder.
Proof.
  apply (insert_grows_of_writer
           (fun _ a => csm_ber_write_len a 2
                         &&> (fun a => csm_array_write_u8 a 7)
                         &&> (fun a => csm_array_write_u8 a 0x80)));
    [reflexivity|].
  intros _ a.
  apply (and_then_grows 2 1); [|intros; apply write_u8_grows].
  apply (and_then_grows 1 1); [|intros; apply write_u8_grows].
  apply (write_len_grows _ 2).
Qed.

Lemma acse_app_context_encoder_grows :
  insert_grows (fun _ => 1%nat) acse_app_context_encoder.
Proof.
  apply (insert_grows_of_writer (fun _ a => csm_ber_write_len a 9));
    [reflexivity|].
  intros _ a. apply (write_len_grows _ 9).
Qed.

Lemma acse_oid_context_encoder_grows :
  insert_grows (fun _ => 8%nat) acse_oid_context_encoder.
Proof.
  apply (insert_grows_of_writer
           (fun s a => acse_oid_encoder a APP_CONTEXT_NAME (ref s)));
    [reflexivity|].
  intros s a. apply oid_encoder_grows.
Qed.

Lemma acse_result_encoder_grows :
  insert_grows (fun _ => 4%nat) acse_result_encoder.
Proof.
  apply (insert_grows_of_writer
           (fun s a => csm_ber_write_integer a
                         (if cf_eqb (state_cf s) CF_IDLE then 1 else 0)));
    [reflexivity|].
  intros s a. apply write_integer_grows.
Qed.

Lemma acse_result_src_diag_encoder_grows :
  insert_grows (fun _ => 6%nat) acse_result_src_diag_encoder.
Proof.
  apply (insert_grows_of_writer
           (fun s a => csm_ber_write_len a 5
                         &&> (fun a => csm_array_write_u8 a CSM_ASSO_RESULT_SERVICE_USER)
                         &&> (fun a => csm_ber_write_integer a (result (handshake s)))));
    [reflexivity|].
  intros s a.
  apply (and_then_grows 2 4); [|intros; apply write_integer_grows].
  apply (and_then_grows 1 1); [|intros; apply write_u8_grows].
  apply (write_len_grows _ 5).
Qed.

Lemma acse_resp_system_title_encoder_grows :
  insert_grows
    (fun _ => (length (ber_len_bytes (CSM_DEF_APP_TITLE_SIZE + 2)) + 2
               + Z.to_nat CSM_DEF_APP_TITLE_SIZE)%nat)
    acse_resp_system_title_encoder.
Proof.
  apply (insert_grows_of_writer
           (fun _ a => csm_ber_write_len a (CSM_DEF_APP_TITLE_SIZE + 2)
                         &&> (fun a => csm_array_write_u8 a BER_TYPE_OCTET_STRING)
                         &&> (fun a => csm_array_write_u8 a CSM_DEF_APP_TITLE_SIZE)
                         &&> (fun a => csm_array_write_buff a csm_sys_get_system_title
                                         (Z.to_nat CSM_DEF_APP_TITLE_SIZE))));
    [reflexivity|].
  intros _ a.
  apply and_then_grows; [|intros; apply write_buff_grows].
  replace (length (ber_len_bytes (CSM_DEF_APP_TITLE_SIZE + 2)) + 2)%nat
    with (length (ber_len_bytes (CSM_DEF_APP_TITLE_SIZE + 2)) + 1 + 1)%nat by lia.
  apply and_then_grows; [|intros; apply write_u8_grows].
  apply and_then_grows; [|intros; apply write_u8_grows].
  apply write_len_grows.
Qed.

Lemma acse_responder_requirements_encoder_grows :
  insert_grows (fun _ => 3%nat) acse_responder_requirements_encoder.
Proof.
  apply (insert_grows_of_writer
           (fun _ a => csm_ber_write_len a 2
                         &&> (fun a => csm_array_write_u8 a 7)
                         &&> (fun a => csm_array_write_u8 a 0x80)));
    [reflexivity|].
  intros _ a.
  apply (and_then_grows 2 1); [|intros; apply write_u8_grows].
  apply (and_then_grows 1 1); [|intros; apply write_u8_grows].
  apply (write_len_grows _ 2).
Qed.

Lemma acse_oid_mechanism_encoder_grows :
  insert_grows (fun _ => 8%nat) acse_oid_mechanism_encoder.
Proof.
  apply (insert_grows_of_writer
           (fun s a => acse_oid_encoder a SECURITY_MECHANISM_NAME (auth_level s)));
    [reflexivity|].
  intros s a. apply oid_encoder_grows.
Qed.

Lemma stoc_challenge_loop_grows (n : nat) :
  forall (i k : nat) (a : csm_array) (va : bool * csm_array) (value : list Z),
    grows k a (snd va) ->
    grows (k + n) a (snd (fst (stoc_challenge_loop n i va value))).
Proof.
  induction n as [|n IH]; intros i k a va value H.
  - cbn. rewrite Nat.add_0_r. exact H.
  - cbn [stoc_challenge_loop].
    replace (k + S n)%nat with (k + 1 + n)%nat by lia.
    apply IH. apply and_then_grows; [exact H|intros; apply write_u8_grows].
Qed.

Lemma acse_responder_auth_value_encoder_grows :
  insert_grows
    (fun s => let size := uint8 (chal_size (ctos (handshake s))) in
              (length (ber_len_bytes (size + 2)) + 2 + Z.to_nat size)%nat)
    acse_responder_auth_value_encoder.
Proof.
  intros state ber a. unfold acse_responder_auth_value_encoder. cbv zeta.
  set (size := uint8 (chal_size (ctos (handshake state)))).
  match goal with
  | |- context [ stoc_challenge_loop _ _ ?v _ ] => set (va := v)
  end.
  assert (Hva : grows (length (ber_len_bytes (size + 2)) + 2) a (snd va)).
  { subst va.
    replace (length (ber_len_bytes (size + 2)) + 2)%nat
      with (length (ber_len_bytes (size + 2)) + 1 + 1)%nat by lia.
    apply and_then_grows; [|intros; apply write_u8_grows].
    apply and_then_grows; [|intros; apply write_u8_grows].
    apply write_len_grows. }
  pose proof (stoc_challenge_loop_grows (Z.to_nat size) 0 _ a va
                (chal_value (stoc (handshake state))) Hva) as H.
  destruct (stoc_challenge_loop (Z.to_nat size) 0 va
              (chal_value (stoc (handshake state)))) as [[valid a1] value].
  cbn [fst snd] in H. unfold res_state, res_array. cbn [fst snd].
  split; [apply same_core_set_stoc|exact H].
Qed.

Ltac grow_chain k :=
  lazymatch k with
  | 1%nat => apply write_u8_grows
  | S ?m => apply (and_then_grows m 1);
            [grow_chain m|intros; apply write_u8_grows]
  end.

Lemma acse_user_info_encoder_grows :
  insert_grows (fun _ => 17%nat) acse_user_info_encoder.
Proof.
  intros state ber a. unfold acse_user_info_encoder. cbv zeta.
  match goal with
  | |- context [ if _ then ?va &&> _ &&> _ else _ ] => set (va15 := va)
  end.
  assert (H15 : grows 15 a (snd va15)).
  { subst va15.
    grow_chain 15%nat. }
  clearbody va15.
  match goal with
  | |- context [ Z.of_nat (wr_index (snd ?v)) ] => set (va17 := v)
  end.
  assert (H17 : grows 17 a (snd va17)).
  { subst va17. destruct (_ || _);
      (apply (and_then_grows 16 1); [|intros; apply write_u8_grows];
       apply (and_then_grows 15 1); [exact H15|intros; apply write_u8_grows]). }
  clearbody va17.
  match goal with
  | |- context [ let '(_, _) := ?v in _ ] =>
      assert (Hf : grows 17 a (snd v))
  end.
  { apply and_then_set_grows; [|lia]. apply and_then_set_grows; [exact H17|lia]. }
  match type of Hf with
  | grows _ _ (snd ?v) => destruct v as [valid a1]
  end.
  unfold res_state, res_array. cbn [fst snd].
  split; [apply same_core_refl|exact Hf].
Qed.

(* ---------------------------------------------------------------------- *)
(** ** The length of the AARE *)
(* ---------------------------------------------------------------------- *)

Lemma sum_bounds_stable (ks : list (csm_asso_state -> nat))
  (s s' : csm_asso_state) :
  Forall (fun k => forall s s', same_core s s' -> k s' = k s) ks ->
  same_core s s' -> sum_bounds s' ks = sum_bounds s ks.
Proof.
  induction 1 as [|k ks Hk Hks IH]; intros Hs; cbn; [reflexivity|].
  rewrite (Hk s s' Hs), (IH Hs). reflexivity.
Qed.

Lemma encoder_loop_grows (chain : list csm_asso_codec)
  (ks : list (csm_asso_state -> nat)) :
  Forall2 (fun codec k => forall f, insert_func codec = Some f -> insert_grows k f)
          chain ks ->
  Forall (fun k => forall s s', same_core s s' -> k s' = k s) ks ->
  forall state ber a,
    same_core state (res_state (encoder_loop chain state ber a))
    /\ grows (sum_bounds state ks) a
         (res_array (encoder_loop chain state ber a)).
Proof.
  induction 1 as [|codec k chain ks Hk Hrest IH]; intros Hst state ber a.
  - cbn. split; [apply same_core_refl|apply grows_refl].
  - inversion Hst as [|? ? Hk_stable Hks_stable]; subst.
    specialize (IH Hks_stable).
    cbn [encoder_loop sum_bounds].
    assert (Hskip : same_core state (res_state (encoder_loop chain state ber a))
                    /\ grows (S (k state) + sum_bounds state ks) a
                         (res_array (encoder_loop chain state ber a))).
    { destruct (IH state ber a) as [H1 H2]. split; [exact H1|].
      eapply grows_weaken; [exact H2|lia]. }
    destruct (insert_func codec) as [f|]; [|exact Hskip].
    destruct (negb (acse_context_eqb (context codec) ACSE_NONE)); [|exact Hskip].
    destruct (negb (auth_level state =? CSM_AUTH_HIGH_LEVEL_GMAC)
              && acse_context_eqb (context codec) ACSE_SEC); [exact Hskip|].
    pose proof (write_u8_grows a (codec_tag codec)) as Htag.
    destruct (csm_array_write_u8 a (codec_tag codec)) as [ok a1].
    cbn [snd] in Htag.
    destruct ok.
    + destruct (Hk f eq_refl state ber a1) as [Hc Hg].
      unfold res_state, res_array in Hc, Hg.
      destruct (f state ber a1) as [[[code st1] b1] a2]. cbn [fst snd] in Hc, Hg.
      destruct (negb (acse_code_true code)).
      * unfold res_state, res_array. cbn [fst snd]. split; [exact Hc|].
        eapply grows_weaken; [eapply grows_trans; [exact Htag|exact Hg]|lia].
      * destruct (IH st1 b1 a2) as [H1 H2]. split.
        -- eapply same_core_trans; eauto.
        -- rewrite (sum_bounds_stable ks state st1 Hks_stable Hc) in H2.
           eapply grows_weaken;
             [eapply grows_trans; [eapply grows_trans; [exact Htag|exact Hg]
                                  |exact H2]|lia].
    + destruct (IH state ber a1) as [H1 H2]. split; [exact H1|].
      eapply grows_weaken; [eapply grows_trans; [exact Htag|exact H2]|lia].
Qed.

Lemma aare_codec_chain_grows :
  Forall2 (fun codec k => forall f, insert_func codec = Some f -> insert_grows k f)
          aare_codec_chain (aare_field_bounds CSM_DEF_APP_TITLE_SIZE).
Proof.
  unfold aare_codec_chain, aare_field_bounds.
  repeat (apply Forall2_cons;
          [ cbn [insert_func]; intros f [= <-];
            first [ apply acse_proto_version_encoder_grows
                  | apply acse_app_context_encoder_grows
                  | apply acse_oid_context_encoder_grows
                  | apply acse_result_encoder_grows
                  | apply acse_result_src_diag_encoder_grows
                  | apply acse_resp_system_title_encoder_grows
                  | apply acse_responder_requirements_encoder_grows
                  | apply acse_oid_mechanism_encoder_grows
                  | apply acse_responder_auth_value_encoder_grows
                  | apply acse_user_info_encoder_grows ] | ]).
  apply Forall2_nil.
Qed.

Lemma aare_field_bounds_stable (title_size : Z) :
  Forall (fun k => forall s s', same_core s s' -> k s' = k s)
         (aare_field_bounds title_size).
Proof.
  unfold aare_field_bounds.
  repeat (apply Forall_cons; [intros s s' H; try reflexivity|]);
    [|apply Forall_nil].
  destruct (same_core_fields _ _ H) as (_ & -> & _). reflexivity.
Qed.

Lemma ber_len_bytes_length (len : Z) : (length (ber_len_bytes len) <= 3)%nat.
Proof.
  unfold ber_len_bytes. destruct (len <? 128); [cbn; lia|].
  destruct (len <? 256); cbn; lia.
Qed.

Lemma ber_len_bytes_length_small (len : Z) :
  len < 256 -> (length (ber_len_bytes len) <= 2)%nat.
Proof.
  intros H. unfold ber_len_bytes. destruct (len <? 128); [cbn; lia|].
  destruct (Z.ltb_spec len 256); [cbn; lia|lia].
Qed.

(** A successful encoding patched the length byte last, with the number of
    bytes written after the 2-byte header, reduced to a byte. *)
Lemma csm_asso_encoder_length_byte (state state' : csm_asso_state)
  (ber : csm_ber) (array aare : csm_array) :
  csm_asso_encoder state ber array = (true, state', aare) ->
  (2 <= wr_index aare
   <= 2 + sum_bounds state (aare_field_bounds CSM_DEF_APP_TITLE_SIZE))%nat
  /\ nth_error (buff aare) 1 = Some (uint8 (Z.of_nat (wr_index aare) - 2)).
Proof.
  unfold csm_asso_encoder. cbv zeta.
  set (a0 := set_wr_index array 0).
  pose proof (write_u8_grows a0 CSM_ASSO_AARE) as G1.
  assert (A1 : fst (csm_array_write_u8 a0 CSM_ASSO_AARE) = true ->
               wr_index (snd (csm_array_write_u8 a0 CSM_ASSO_AARE)) = 1%nat).
  { unfold csm_array_write_u8. destruct (_ <? _)%nat; [reflexivity|discriminate]. }
  destruct (csm_array_write_u8 a0 CSM_ASSO_AARE) as [ok1 a1].
  cbn [fst snd] in G1, A1.
  destruct ok1; [|discriminate]. specialize (A1 eq_refl).
  pose proof (write_u8_grows a1 0) as G2.
  assert (A2 : fst (csm_array_write_u8 a1 0) = true ->
               wr_index (snd (csm_array_write_u8 a1 0)) = 2%nat
               /\ (2 <= array_size a1)%nat).
  { unfold csm_array_write_u8. destruct (Nat.ltb_spec (wr_index a1) (array_size a1));
      [cbn; intros _; split; lia|discriminate]. }
  destruct (csm_array_write_u8 a1 0) as [ok2 a2]. cbn [fst snd] in G2, A2.
  destruct ok2; [|discriminate]. destruct (A2 eq_refl) as [Hwr2 Hsz1].
  destruct (encoder_loop_grows _ _ aare_codec_chain_grows
              (aare_field_bounds_stable CSM_DEF_APP_TITLE_SIZE) state ber a2)
    as [_ G3].
  unfold res_array in G3.
  destruct (encoder_loop aare_codec_chain state ber a2) as [[[completed st1] b1] a3].
  cbn [snd] in G3.
  destruct completed; [|discriminate].
  intros [= <- <-].
  destruct G2 as (S2 & _), G3 as (S3 & W3 & _).
  unfold csm_array_set.
  destruct (Nat.ltb_spec 1 (array_size a3)); [|lia].
  cbn [snd buff wr_index]. split; [lia|].
  apply nth_error_list_set_eq. unfold array_size in *. lia.
Qed.

Lemma and_then_true (va : bool * csm_array) (g : csm_array -> bool * csm_array) :
  fst (va &&> g) = true -> fst va = true.
Proof. unfold and_then. destruct (fst va); [reflexivity|discriminate]. Qed.

Lemma write_u8_advanced (a : csm_array) (v : Z) :
  advanced 1 a (csm_array_write_u8 a v).
Proof.
  unfold advanced, csm_array_write_u8.
  destruct (Nat.ltb_spec (wr_index a) (array_size a)); [|discriminate].
  intros _. unfold array_size in *. cbn. rewrite list_set_length. lia.
Qed.

Lemma and_then_advanced (k : nat) (a : csm_array) (va : bool * csm_array)
  (v : Z) :
  advanced k a va ->
  advanced (S k) a (va &&> (fun x => csm_array_write_u8 x v)).
Proof.
  intros Hk Hs. pose proof (and_then_true _ _ Hs) as Hv.
  destruct (Hk Hv) as (H1 & H2 & H3).
  unfold and_then in *. rewrite Hv in *.
  destruct (write_u8_advanced (snd va) v Hs) as (G1 & G2 & G3). lia.
Qed.

Ltac advance_chain k :=
  lazymatch k with
  | 1%nat => apply write_u8_advanced
  | S ?m => apply (and_then_advanced m); advance_chain m
  end.

(** The user-information encoder succeeds only when its 17 bytes fit. *)
Lemma acse_user_info_encoder_ok_room (state : csm_asso_state) (ber : csm_ber)
  (a : csm_array) :
  res_code (acse_user_info_encoder state ber a) = CSM_ACSE_OK ->
  (wr_index a + 17 <= array_size a)%nat.
Proof.
  unfold acse_user_info_encoder. cbv zeta.
  match goal with
  | |- context [ if _ then ?va &&> _ &&> _ else _ ] => set (va15 := va)
  end.
  assert (H15 : advanced 15 a va15) by (subst va15; advance_chain 15%nat).
  clearbody va15.
  match goal with
  | |- context [ Z.of_nat (wr_index (snd ?v)) ] => set (va17 := v)
  end.
  assert (H17 : advanced 17 a va17).
  { subst va17. destruct (_ || _);
      (apply (and_then_advanced 16); apply (and_then_advanced 15); exact H15). }
  clearbody va17.
  match goal with
  | |- context [ let '(_, _) := and_then (and_then ?v ?g1) ?g2 in _ ] =>
      assert (T : fst (and_then (and_then v g1) g2) = true -> fst v = true)
        by (intros T; apply and_then_true in T; apply and_then_true in T;
            exact T);
      destruct (and_then (and_then v g1) g2) as [valid a1]
  end.
  unfold res_code. cbn [fst] in *. intros Hok.
  destruct valid; [|discriminate].
  destruct (H17 (T eq_refl)) as (_ & H & _). exact H.
Qed.

Lemma wrote_nth_error (a a' : csm_array) (bs : list Z) (i : nat) :
  wrote a bs a' -> (i < length bs)%nat ->
  nth_error (buff a') (wr_index a + i) = nth_error bs i.
Proof.
  intros (Hb & _ & _ & Hc) Hi. rewrite Hb. unfold array_size in Hc.
  rewrite nth_error_app2 by (rewrite firstn_length_le; lia).
  rewrite firstn_length_le by lia.
  replace (wr_index a + i - wr_index a)%nat with i by lia.
  apply nth_error_app1. exact Hi.
Qed.

Lemma encoder_loop_app (pre post : list csm_asso_codec) :
  forall state ber a,
    encoder_loop (pre ++ post) state ber a
    = (let r := encoder_loop pre state ber a in
       if res_code r
       then encoder_loop post (res_state r) (res_ber r) (res_array r)
       else r).
Proof.
  induction pre as [|codec pre IH]; intros state ber a; [reflexivity|].
  cbn [app encoder_loop].
  destruct (insert_func codec) as [f|]; [|apply IH].
  destruct (negb (acse_context_eqb (context codec) ACSE_NONE)); [|apply IH].
  destruct (negb (auth_level state =? CSM_AUTH_HIGH_LEVEL_GMAC)
            && acse_context_eqb (context codec) ACSE_SEC); [apply IH|].
  destruct (csm_array_write_u8 a (codec_tag codec)) as [ok a1].
  destruct ok; [|apply IH].
  destruct (f state ber a1) as [[[code st1] b1] a2].
  destruct (negb (acse_code_true code)); [reflexivity|apply IH].
Qed.

Lemma write_u8_full (a : csm_array) (v : Z) :
  fst (csm_array_write_u8 a v) = false ->
  snd (csm_array_write_u8 a v) = a /\ (array_size a <= wr_index a)%nat.
Proof.
  unfold csm_array_write_u8.
  destruct (Nat.ltb_spec (wr_index a) (array_size a)); [discriminate|].
  intros _. split; [reflexivity|assumption].
Qed.

(** In a successfully encoded AARE whose buffer was not filled up, the
    last 17 bytes are the contents of the user-information field, with the
    two sizes patched. *)
Lemma csm_asso_encoder_user_info (state state' : csm_asso_state)
  (ber : csm_ber) (array aare : csm_array) :
  csm_asso_encoder state ber array = (true, state', aare) ->
  (wr_index aare < array_size aare)%nat ->
  (19 <= wr_index aare)%nat
  /\ nth_error (buff aare) (wr_index aare - 17) = Some 16
  /\ nth_error (buff aare) (wr_index aare - 15) = Some 14.
Proof.
  unfold csm_asso_encoder. cbv zeta.
  set (a0 := set_wr_index array 0).
  assert (A1 : fst (csm_array_write_u8 a0 CSM_ASSO_AARE) = true ->
               wr_index (snd (csm_array_write_u8 a0 CSM_ASSO_AARE)) = 1%nat).
  { unfold csm_array_write_u8. destruct (_ <? _)%nat; [reflexivity|discriminate]. }
  destruct (csm_array_write_u8 a0 CSM_ASSO_AARE) as [ok1 a1].
  cbn [fst snd] in A1.
  destruct ok1; [|discriminate]. specialize (A1 eq_refl).
  pose proof (write_u8_advanced a1 0) as A2.
  destruct (csm_array_write_u8 a1 0) as [ok2 a2].
  destruct ok2; [|discriminate].
  destruct (A2 eq_refl) as (Hwr2 & _ & _). cbn [snd] in Hwr2. clear A2.
  change aare_codec_chain
    with (firstn 9 aare_codec_chain ++ skipn 9 aare_codec_chain).
  rewrite encoder_loop_app. cbv zeta.
  assert (G9 : grows (sum_bounds state
                        (firstn 9 (aare_field_bounds CSM_DEF_APP_TITLE_SIZE)))
                 a2 (res_array (encoder_loop (firstn 9 aare_codec_chain)
                                  state ber a2))).
  { apply encoder_loop_grows.
    - pose proof aare_codec_chain_grows as H.
      unfold aare_codec_chain, aare_field_bounds in *. cbn [firstn].
      repeat match type of H with
             | Forall2 _ (_ :: _) (_ :: _) =>
                 let H1 := fresh in let H2 := fresh in
                 inversion H as [|? ? ? ? H1 H2]; subst; clear H;
                 rename H2 into H; apply Forall2_cons; [exact H1|]
             end.
      apply Forall2_nil.
    - pose proof (aare_field_bounds_stable CSM_DEF_APP_TITLE_SIZE) as H.
      unfold aare_field_bounds in *. cbn [firstn].
      repeat match type of H with
             | Forall _ (_ :: _) =>
                 let H1 := fresh in let H2 := fresh in
                 inversion H as [|? ? H1 H2]; subst; clear H;
                 rename H2 into H; apply Forall_cons; [exact H1|]
             end.
      apply Forall_nil. }
  destruct (encoder_loop (firstn 9 aare_codec_chain) state ber a2)
    as [[[ok9 st9] b9] a9].
  unfold res_code, res_state, res_ber, res_array in *. cbn [fst snd] in *.
  destruct G9 as (_ & W9 & _).
  destruct ok9; [|discriminate].
  cbn [skipn aare_codec_chain encoder_loop insert_func context
       acse_context_eqb negb andb codec_tag].
  rewrite andb_false_r.
  pose proof (write_u8_advanced a9 CSM_ASSO_USER_INFORMATION) as A10.
  pose proof (write_u8_full a9 CSM_ASSO_USER_INFORMATION) as F10.
  destruct (csm_array_write_u8 a9 CSM_ASSO_USER_INFORMATION) as [ok10 a10].
  cbn [fst snd] in A10, F10.
  destruct ok10.
  - destruct (A10 eq_refl) as (Hwr10 & _ & _). clear A10 F10.
    cbn [snd] in Hwr10.
    pose proof (acse_user_info_encoder_ok_room st9 b9 a10) as Hroom.
    pose proof (acse_user_info_encoder_emits st9 b9 a10) as Hem.
    unfold res_code, res_array in Hroom, Hem.
    destruct (acse_user_info_encoder st9 b9 a10) as [[[code st11] b11] a11].
    cbn [fst snd] in Hroom, Hem.
    destruct code; cbn [acse_code_true negb]; [discriminate|].
    intros [= <- <-] _.
    specialize (Hroom eq_refl).
    destruct Hem as (_ & _ & _ & Hw).
    { unfold conformance_bytes, pdu_size_bytes. cbn [length app].
      rewrite vaa_name_bytes_length. lia. }
    assert (Hwr11 : wr_index a11 = (wr_index a10 + 17)%nat).
    { destruct Hw as (_ & -> & _). unfold conformance_bytes, pdu_size_bytes.
      cbn [length app]. rewrite vaa_name_bytes_length. reflexivity. }
    pose proof (wrote_nth_error _ _ _ 0 Hw) as N0.
    pose proof (wrote_nth_error _ _ _ 2 Hw) as N2.
    cbn [length app nth_error] in N0, N2.
    rewrite Nat.add_0_r in N0.
    specialize (N0 ltac:(lia)). specialize (N2 ltac:(lia)).
    unfold csm_array_set. destruct (_ <? _)%nat; cbn [snd buff wr_index].
    + rewrite !nth_error_list_set_neq by lia.
      replace (wr_index a11 - 17)%nat with (wr_index a10) by lia.
      replace (wr_index a11 - 15)%nat with (wr_index a10 + 2)%nat by lia.
      repeat split; [lia|exact N0|exact N2].
    + replace (wr_index a11 - 17)%nat with (wr_index a10) by lia.
      replace (wr_index a11 - 15)%nat with (wr_index a10 + 2)%nat by lia.
      repeat split; [lia|exact N0|exact N2].
  - destruct (F10 eq_refl) as [-> Hfull]. clear A10 F10.
    intros [= <- <-]. unfold csm_array_set, array_size in *.
    destruct (_ <? _)%nat; cbn [snd buff wr_index];
      rewrite ?list_set_length; lia.
Qed.

(* ---------------------------------------------------------------------- *)
(** ** Readers: the cursor as a stream of bytes *)
(* ---------------------------------------------------------------------- *)

Lemma skipn_nth_error_cons (l : list Z) (n : nat) (b : Z) :
  nth_error l n = Some b -> skipn n l = b :: skipn (S n) l.
Proof.
  revert n; induction l as [|h t IH]; intros [|n] H; simpl in *; try discriminate.
  - injection H as ->. reflexivity.
  - apply IH. exact H.
Qed.

Lemma unread_bytes_length (a : csm_array) :
  length (unread_bytes a)
  = Nat.min (csm_array_unread a) (array_size a - rd_index a).
Proof.
  unfold unread_bytes, array_size. rewrite length_firstn, length_skipn.
  reflexivity.
Qed.

Lemma read_u8_stream (a : csm_array) (byte : Z) :
  match unread_bytes a with
  | [] => csm_array_read_u8 a byte = (false, byte, a)
  | b :: rest =>
      csm_array_read_u8 a byte = (true, b, set_rd_index a (S (rd_index a)))
      /\ unread_bytes (set_rd_index a (S (rd_index a))) = rest
  end.
Proof.
  pose proof (unread_bytes_length a) as Hl.
  unfold unread_bytes, csm_array_read_u8, csm_array_unread, array_size in *.
  destruct (Nat.ltb_spec (rd_index a) (wr_index a)) as [Hlt|Hge].
  - destruct (nth_error (buff a) (rd_index a)) as [b|] eqn:E.
    + rewrite (skipn_nth_error_cons _ _ _ E).
      replace (wr_index a - rd_index a)%nat
        with (S (wr_index a - S (rd_index a))) by lia.
      cbn [firstn]. split; reflexivity.
    + apply nth_error_None in E.
      rewrite skipn_all2 by lia. rewrite firstn_nil. reflexivity.
  - replace (wr_index a - rd_index a)%nat with 0%nat by lia. reflexivity.
Qed.

Lemma read_u8_agree (a a' : csm_array) (byte : Z) :
  agree a a' ->
  fst (csm_array_read_u8 a byte) = fst (csm_array_read_u8 a' byte)
  /\ agree (snd (csm_array_read_u8 a byte)) (snd (csm_array_read_u8 a' byte)).
Proof.
  unfold agree. intros H.
  pose proof (read_u8_stream a byte) as H1.
  pose proof (read_u8_stream a' byte) as H2.
  rewrite <- H in H2.
  destruct (unread_bytes a) as [|b rest] eqn:E.
  - rewrite H1, H2. cbn [fst snd]. split; [reflexivity|unfold agree; congruence].
  - destruct H1 as [-> H1], H2 as [-> H2]. cbn [fst snd]. split; [reflexivity|unfold agree; congruence].
Qed.

Lemma read_u16_stream (a : csm_array) (value : Z) :
  match unread_bytes a with
  | hi :: lo :: rest =>
      csm_array_read_u16 a value
      = (true, Z.shiftl hi 8 + lo, set_rd_index a (2 + rd_index a))
      /\ unread_bytes (set_rd_index a (2 + rd_index a)) = rest
  | _ => csm_array_read_u16 a value = (false, value, a)
  end.
Proof.
  pose proof (unread_bytes_length a) as Hl.
  unfold unread_bytes, csm_array_read_u16, csm_array_unread, array_size in *.
  destruct (Nat.leb_spec 2 (wr_index a - rd_index a)) as [Hle|Hgt].
  - destruct (nth_error (buff a) (rd_index a)) as [hi|] eqn:E1.
    + rewrite (skipn_nth_error_cons _ _ _ E1).
      destruct (nth_error (buff a) (S (rd_index a))) as [lo|] eqn:E2.
      * rewrite (skipn_nth_error_cons _ _ _ E2).
        replace (wr_index a - rd_index a)%nat
          with (S (S (wr_index a - (2 + rd_index a)))) by lia.
        cbn [firstn]. split; reflexivity.
      * apply nth_error_None in E2. rewrite (skipn_all2 (n := S _)) by lia.
        replace (wr_index a - rd_index a)%nat
          with (S (S (wr_index a - (2 + rd_index a)))) by lia.
        cbn [firstn]. reflexivity.
    + apply nth_error_None in E1.
      rewrite skipn_all2 by lia. rewrite firstn_nil. reflexivity.
  - destruct (wr_index a - rd_index a)%nat as [|[|n]] eqn:E; try lia.
    + reflexivity.
    + cbn [firstn]. destruct (skipn (rd_index a) (buff a)); reflexivity.
Qed.

Lemma read_u16_agree (a a' : csm_array) (value : Z) :
  agree a a' ->
  fst (csm_array_read_u16 a value) = fst (csm_array_read_u16 a' value)
  /\ agree (snd (csm_array_read_u16 a value)) (snd (csm_array_read_u16 a' value)).
Proof.
  unfold agree. intros H.
  pose proof (read_u16_stream a value) as H1.
  pose proof (read_u16_stream a' value) as H2.
  rewrite <- H in H2.
  destruct (unread_bytes a) as [|hi [|lo rest]] eqn:E.
  - rewrite H1, H2. cbn [fst snd]. split; [reflexivity|unfold agree; congruence].
  - rewrite H1, H2. cbn [fst snd]. split; [reflexivity|unfold agree; congruence].
  - destruct H1 as [-> H1], H2 as [-> H2]. cbn [fst snd]. split; [reflexivity|unfold agree; congruence].
Qed.

Lemma read_buff_stream (a : csm_array) (dst : list Z) (n : nat) :
  (0 < n)%nat ->
  if (n <=? length (unread_bytes a))%nat
  then csm_array_read_buff a dst n
       = (true, firstn n (unread_bytes a) ++ skipn n dst,
          set_rd_index a (rd_index a + n))
       /\ unread_bytes (set_rd_index a (rd_index a + n))
          = skipn n (unread_bytes a)
  else csm_array_read_buff a dst n = (false, dst, a).
Proof.
  intros Hn. pose proof (unread_bytes_length a) as Hl.
  unfold csm_array_read_buff.
  destruct (Nat.leb_spec n (length (unread_bytes a))) as [Hle|Hgt].
  - destruct (Nat.leb_spec n (csm_array_unread a)); [|lia].
    destruct (Nat.leb_spec (rd_index a + n) (array_size a)); [|lia].
    cbn [andb]. unfold unread_bytes, csm_array_unread in *. cbn.
    split.
    + rewrite firstn_firstn. replace (Nat.min n (wr_index a - rd_index a)) with n by lia.
      reflexivity.
    + rewrite skipn_firstn_comm, skipn_skipn. f_equal; [lia|f_equal; lia].
  - destruct (Nat.leb_spec n (csm_array_unread a));
      destruct (Nat.leb_spec (rd_index a + n) (array_size a));
      try reflexivity; lia.
Qed.

Lemma read_be_agree (n : nat) :
  forall (acc : Z) (a a' : csm_array),
    agree a a' ->
    fst (read_be n acc a) = fst (read_be n acc a')
    /\ agree (snd (read_be n acc a)) (snd (read_be n acc a')).
Proof.
  induction n as [|n IH]; intros acc a a' H; cbn [read_be].
  - split; [reflexivity|exact H].
  - destruct (read_u8_agree a a' 0 H) as [H1 H2].
    destruct (csm_array_read_u8 a 0) as [[ok b] a1].
    destruct (csm_array_read_u8 a' 0) as [[ok' b'] a1'].
    cbn [fst snd] in *. injection H1 as <- <-.
    destruct ok; [apply IH; exact H2|]. cbn. split; [reflexivity|exact H2].
Qed.

Ltac agree_step :=
  match goal with
  | H : agree ?a ?a' |- context [csm_array_read_u8 ?a ?b] =>
      let H1 := fresh "E" in let H2 := fresh "G" in
      destruct (read_u8_agree a a' b H) as [H1 H2];
      destruct (csm_array_read_u8 a b) as [[? ?] ?];
      destruct (csm_array_read_u8 a' b) as [[? ?] ?];
      cbn [fst snd] in H1, H2; injection H1 as <- <-
  | H : agree ?a ?a' |- context [csm_array_read_u16 ?a ?b] =>
      let H1 := fresh "E" in let H2 := fresh "G" in
      destruct (read_u16_agree a a' b H) as [H1 H2];
      destruct (csm_array_read_u16 a b) as [[? ?] ?];
      destruct (csm_array_read_u16 a' b) as [[? ?] ?];
      cbn [fst snd] in H1, H2; injection H1 as <- <-
  | H : agree ?a ?a' |- context [read_be ?n ?acc ?a] =>
      let H1 := fresh "E" in let H2 := fresh "G" in
      destruct (read_be_agree n acc a a' H) as [H1 H2];
      destruct (read_be n acc a) as [[? ?] ?];
      destruct (read_be n acc a') as [[? ?] ?];
      cbn [fst snd] in H1, H2; injection H1 as <- <-
  | |- context [if ?c then _ else _] => destruct c
  end; cbv beta iota zeta.

Lemma ber_decode_agree (ber : csm_ber) (a a' : csm_array) :
  agree a a' ->
  fst (csm_ber_decode ber a) = fst (csm_ber_decode ber a')
  /\ agree (snd (csm_ber_decode ber a)) (snd (csm_ber_decode ber a')).
Proof.
  intros H. unfold csm_ber_decode. cbv beta iota zeta.
  repeat agree_step; cbn [fst snd]; split; solve [reflexivity|assumption].
Qed.

Lemma axdr_rd_null_agree (a a' : csm_array) :
  agree a a' ->
  fst (csm_axdr_rd_null a) = fst (csm_axdr_rd_null a')
  /\ agree (snd (csm_axdr_rd_null a)) (snd (csm_axdr_rd_null a')).
Proof.
  intros H. unfold csm_axdr_rd_null. cbv beta iota zeta.
  repeat agree_step; cbn [fst snd]; split; solve [reflexivity|assumption].
Qed.

Lemma and_read_u8_agree (valid : bool) (byte : Z) (a a' : csm_array) :
  agree a a' ->
  fst (and_read_u8 valid byte a) = fst (and_read_u8 valid byte a')
  /\ agree (snd (and_read_u8 valid byte a)) (snd (and_read_u8 valid byte a')).
Proof.
  intros H. unfold and_read_u8. destruct valid; [apply read_u8_agree; exact H|].
  split; [reflexivity|exact H].
Qed.

Lemma and_then_rd_null_agree (valid : bool) (a a' : csm_array) :
  agree a a' ->
  fst ((valid, a) &&> csm_axdr_rd_null) = fst ((valid, a') &&> csm_axdr_rd_null)
  /\ agree (snd ((valid, a) &&> csm_axdr_rd_null))
           (snd ((valid, a') &&> csm_axdr_rd_null)).
Proof.
  intros H. unfold and_then. cbn [fst snd].
  destruct valid; [apply axdr_rd_null_agree; exact H|].
  split; [reflexivity|exact H].
Qed.

Lemma cond_ber_decode_agree (valid : bool) (ber : csm_ber) (a a' : csm_array) :
  agree a a' ->
  let r := if valid then csm_ber_decode ber a else (false, ber, a) in
  let r' := if valid then csm_ber_decode ber a' else (false, ber, a') in
  fst r = fst r' /\ agree (snd r) (snd r').
Proof.
  intros H. destruct valid; cbv zeta; [apply ber_decode_agree; exact H|].
  split; [reflexivity|exact H].
Qed.

Lemma cond_read_u16_agree (valid : bool) (value : Z) (a a' : csm_array) :
  agree a a' ->
  let r := if valid then csm_array_read_u16 a value else (false, value, a) in
  let r' := if valid then csm_array_read_u16 a' value else (false, value, a') in
  fst r = fst r' /\ agree (snd r) (snd r').
Proof.
  intros H. destruct valid; cbv zeta; [apply read_u16_agree; exact H|].
  split; [reflexivity|exact H].
Qed.

(** What the InitiateRequest decoder returns, state and header included,
    depends on the cursor only through the bytes still to be read. *)
Lemma initiate_request_tail_agree (state : csm_asso_state) (ber : csm_ber)
  (a a' : csm_array) (byte : Z) :
  agree a a' ->
  fst (initiate_request_tail state ber a byte)
  = fst (initiate_request_tail state ber a' byte)
  /\ agree (snd (initiate_request_tail state ber a byte))
           (snd (initiate_request_tail state ber a' byte)).
Proof.
  intros H. unfold initiate_request_tail.
  destruct (axdr_rd_null_agree a a' H) as [E1 G1].
  destruct (csm_axdr_rd_null a) as [v1 a1].
  destruct (csm_axdr_rd_null a') as [v1' a1'].
  cbn [fst snd] in E1, G1. subst v1'.
  destruct (and_then_rd_null_agree v1 a1 a1' G1) as [E2 G2].
  destruct ((v1, a1) &&> csm_axdr_rd_null) as [v2 a2].
  destruct ((v1, a1') &&> csm_axdr_rd_null) as [v2' a2'].
  cbn [fst snd] in E2, G2. subst v2'.
  destruct (and_read_u8_agree v2 byte a2 a2' G2) as [E3 G3].
  destruct (and_read_u8 v2 byte a2) as [[v3 byte3] a3].
  destruct (and_read_u8 v2 byte a2') as [[v3' byte3'] a3'].
  cbn [fst snd] in E3, G3. injection E3 as <- <-.
  cbv zeta.
  destruct (cond_ber_decode_agree (v3 && (byte3 =? 6)) ber a3 a3' G3) as [E4 G4].
  destruct (if v3 && (byte3 =? 6) then csm_ber_decode ber a3 else (false, ber, a3))
    as [[v4 ber4] a4].
  destruct (if v3 && (byte3 =? 6) then csm_ber_decode ber a3' else (false, ber, a3'))
    as [[v4' ber4'] a4'].
  cbn [fst snd] in E4, G4. injection E4 as <- <-.
  destruct ((tag_tag ber4 =? 0x5F) && (tag_ext ber4 =? 31));
    [|split; [reflexivity|exact G4]].
  destruct (length_length ber4 =? 4); [|split; [reflexivity|exact G4]].
  destruct (and_read_u8_agree v4 byte3 a4 a4' G4) as [E5 G5].
  destruct (and_read_u8 v4 byte3 a4) as [[v5 byte5] a5].
  destruct (and_read_u8 v4 byte3 a4') as [[v5' byte5'] a5'].
  cbn [fst snd] in E5, G5. injection E5 as <- <-.
  destruct (and_read_u8_agree (v5 && (byte5 =? 0)) byte5 a5 a5' G5) as [E6 G6].
  destruct (and_read_u8 (v5 && (byte5 =? 0)) byte5 a5) as [[v6 byte6] a6].
  destruct (and_read_u8 (v5 && (byte5 =? 0)) byte5 a5') as [[v6' byte6'] a6'].
  cbn [fst snd] in E6, G6. injection E6 as <- <-.
  destruct (and_read_u8_agree v6 byte6 a6 a6' G6) as [E7 G7].
  destruct (and_read_u8 v6 byte6 a6) as [[v7 byte7] a7].
  destruct (and_read_u8 v6 byte6 a6') as [[v7' byte7'] a7'].
  cbn [fst snd] in E7, G7. injection E7 as <- <-.
  match goal with
  | |- context [ csm_array_read_u16 a7 ?v ] =>
      destruct (cond_read_u16_agree v7 v a7 a7' G7) as [E8 G8];
      destruct (if v7 then csm_array_read_u16 a7 v else (false, v, a7))
        as [[v8 pdu] a8];
      destruct (if v7 then csm_array_read_u16 a7' v else (false, v, a7'))
        as [[v8' pdu'] a8']
  end.
  cbn [fst snd] in E8, G8. injection E8 as <- <-.
  split; [reflexivity|exact G8].
Qed.

Lemma ber_decode_tag_id (ber ber1 : csm_ber) (a a1 : csm_array) :
  csm_ber_decode ber a = (true, ber1, a1) ->
  tag_id ber1 = Z.land (tag_tag ber1) 0x1F.
Proof.
  unfold csm_ber_decode. cbv beta iota zeta.
  destruct (csm_array_read_u8 a 0) as [[ok b] a2].
  destruct ok; cbn [negb]; [|discriminate].
  cbn [tag_id tag_tag tag_ext tag_isPrimitive length_length].
  destruct (Z.land b 31 =? 31).
  - destruct (csm_array_read_u8 a2 0) as [[ok2 e] a3].
    destruct ok2; cbn [negb]; [|discriminate].
    destruct (csm_array_read_u8 a3 0) as [[ok3 l] a4].
    destruct ok3; cbn [negb]; [|discriminate].
    destruct (l <? 128); [intros [= <- _]; reflexivity|].
    destruct (_ || _); [discriminate|].
    destruct (read_be _ 0 a4) as [[ok4 v] a5].
    destruct ok4; [intros [= <- _]; reflexivity|discriminate].
  - cbn [negb].
    destruct (csm_array_read_u8 a2 0) as [[ok3 l] a4].
    destruct ok3; cbn [negb]; [|discriminate].
    destruct (l <? 128); [intros [= <- _]; reflexivity|].
    destruct (_ || _); [discriminate|].
    destruct (read_be _ 0 a4) as [[ok4 v] a5].
    destruct ok4; [intros [= <- _]; reflexivity|discriminate].
Qed.

(** The value left in the local [byte] by the dedicated-key marker never
    reaches the result: it is overwritten by the next successful read, and
    when that read is not made or fails the conformance block is not
    entered. *)
Lemma initiate_request_tail_byte (state : csm_asso_state) (ber : csm_ber)
  (a : csm_array) (byte byte' : Z) :
  tag_tag ber <> 0x5F ->
  initiate_request_tail state ber a byte
  = initiate_request_tail state ber a byte'.
Proof.
  intros Htag. apply Z.eqb_neq in Htag. unfold initiate_request_tail.
  destruct (csm_axdr_rd_null a) as [v1 a1].
  destruct ((v1, a1) &&> csm_axdr_rd_null) as [v2 a2].
  unfold and_read_u8 at 1 5.
  destruct v2.
  - pose proof (read_u8_stream a2 byte) as S1.
    pose proof (read_u8_stream a2 byte') as S2.
    destruct (unread_bytes a2) as [|b rest].
    + rewrite S1, S2. cbn [andb]. cbv zeta. rewrite Htag. reflexivity.
    + destruct S1 as [-> _], S2 as [-> _]. reflexivity.
  - cbn [andb]. cbv zeta. rewrite Htag. reflexivity.
Qed.

(** The InitiateRequest is accepted only when the byte read first, the
    response-allowed field, is null. *)
Lemma initiate_request_tail_ok (state : csm_asso_state) (ber : csm_ber)
  (a : csm_array) (byte : Z) :
  res_code (initiate_request_tail state ber a byte) = CSM_ACSE_OK ->
  exists rest, unread_bytes a = AXDR_TAG_NULL :: rest.
Proof.
  unfold initiate_request_tail, csm_axdr_rd_null at 1.
  pose proof (read_u8_stream a 0) as S1.
  destruct (unread_bytes a) as [|b rest].
  - rewrite S1. unfold and_then, and_read_u8. cbn [fst snd andb]. cbv zeta.
    destruct (_ && _); [destruct (_ =? 4)|]; cbn; discriminate.
  - destruct S1 as [-> _].
    destruct (Z.eqb_spec b AXDR_TAG_NULL) as [->|Hb]; [intros _; eauto|].
    unfold and_then, and_read_u8. cbn [fst snd andb]. cbv zeta.
    destruct (_ && _); [destruct (_ =? 4)|]; cbn; discriminate.
Qed.

(* ---------------------------------------------------------------------- *)
(** ** The object identifier decoder *)
(* ---------------------------------------------------------------------- *)

(** The matcher reads seven bytes: the prefix, the name and the id. *)
Lemma decode_object_identifier_stream (a : csm_array) :
  let oid := {| oid_header := cOidHeader; oid_size := 5;
                oid_name := 0; oid_id := 0 |} in
  (forall name id rest,
      unread_bytes a = cOidHeader ++ name :: id :: rest ->
      exists a',
        csm_ber_decode_object_identifier oid a
        = (true, {| oid_header := cOidHeader; oid_size := 5;
                    oid_name := name; oid_id := id |}, a')
        /\ unread_bytes a' = rest)
  /\ ((forall name id rest, unread_bytes a <> cOidHeader ++ name :: id :: rest) ->
      fst (fst (csm_ber_decode_object_identifier oid a)) = false).
Proof.
  intros oid. unfold csm_ber_decode_object_identifier.
  cbn [oid_size oid_header oid_name oid_id oid].
  pose proof (read_buff_stream a [] 5 ltac:(lia)) as S0.
  split.
  - intros name id rest Hu. rewrite Hu in S0.
    cbn [length app cOidHeader Nat.leb firstn skipn] in S0.
    destruct S0 as [-> S0]. cbn [negb].
    destruct (list_eq_dec Z.eq_dec _ _) as [_|Hne];
      [|exfalso; apply Hne; reflexivity].
    cbn [negb].
    pose proof (read_u8_stream (set_rd_index a (rd_index a + 5)) 0) as S1.
    rewrite S0 in S1. destruct S1 as [-> S1]. cbn [negb].
    match goal with
    | |- context [ csm_array_read_u8 ?x 0 ] =>
        pose proof (read_u8_stream x 0) as S2
    end.
    rewrite S1 in S2. destruct S2 as [-> S2]. cbn [negb].
    eexists. split; [reflexivity|exact S2].
  - intros Hno.
    destruct (Nat.leb_spec 5 (length (unread_bytes a))) as [Hle|Hgt].
    + destruct S0 as [-> S0]. cbn [negb].
      destruct (list_eq_dec Z.eq_dec _ _) as [Heq|Hne]; [|reflexivity].
      cbn [negb].
      change (skipn 5 (@nil Z)) with (@nil Z) in Heq.
      rewrite app_nil_r in Heq.
      change (firstn 5 cOidHeader) with cOidHeader in Heq.
      assert (Hu : unread_bytes a = cOidHeader ++ skipn 5 (unread_bytes a)).
      { rewrite <- (firstn_skipn 5 (unread_bytes a)) at 1. rewrite Heq.
        reflexivity. }
      pose proof (read_u8_stream (set_rd_index a (rd_index a + 5)) 0) as S1.
      rewrite S0 in S1.
      destruct (skipn 5 (unread_bytes a)) as [|name rest1] eqn:E1.
      * rewrite S1. reflexivity.
      * destruct S1 as [-> S1]. cbn [negb].
        match goal with
        | |- context [ csm_array_read_u8 ?x 0 ] =>
            pose proof (read_u8_stream x 0) as S2
        end.
        rewrite S1 in S2.
        destruct rest1 as [|id rest].
        -- rewrite S2. reflexivity.
        -- exfalso. apply (Hno name id rest). exact Hu.
    + rewrite S0. reflexivity.
Qed.

Lemma acse_oid_decoder_accepts (state : csm_asso_state) (ber : csm_ber)
  (a : csm_array) (name id : Z) (rest : list Z) :
  unread_bytes a = cOidHeader ++ name :: id :: rest ->
  oid_recognized name id = true ->
  res_code (acse_oid_decoder state ber a) = CSM_ACSE_OK
  /\ res_state (acse_oid_decoder state ber a)
     = (if name =? APP_CONTEXT_NAME then set_ref state id
        else set_auth_level state id)
  /\ unread_bytes (res_array (acse_oid_decoder state ber a)) = rest.
Proof.
  intros Hu Hrec. unfold acse_oid_decoder.
  destruct (decode_object_identifier_stream a) as [Hyes _].
  destruct (Hyes name id rest Hu) as (a' & -> & Hrest).
  cbn [oid_name oid_id]. unfold oid_recognized in Hrec.
  destruct (Z.eqb_spec name APP_CONTEXT_NAME) as [->|Hn1].
  - cbn [andb orb] in Hrec.
    destruct (Z.eqb_spec id LN_REF) as [->|]; [repeat split; assumption|].
    destruct (Z.eqb_spec id SN_REF) as [->|]; [repeat split; assumption|].
    destruct (Z.eqb_spec id LN_REF_WITH_CYPHERING) as [->|];
      [repeat split; assumption|].
    destruct (Z.eqb_spec id SN_REF_WITH_CYPHERING) as [->|];
      [repeat split; assumption|].
    discriminate.
  - cbn [andb orb] in Hrec.
    destruct (Z.eqb_spec name SECURITY_MECHANISM_NAME) as [->|]; [|discriminate].
    cbn [andb] in Hrec.
    destruct (Z.eqb_spec id CSM_AUTH_LOW_LEVEL) as [->|];
      [repeat split; assumption|].
    destruct (Z.eqb_spec id CSM_AUTH_HIGH_LEVEL_GMAC) as [->|];
      [repeat split; assumption|].
    discriminate.
Qed.

Lemma acse_oid_decoder_rejects (state : csm_asso_state) (ber : csm_ber)
  (a : csm_array) :
  (forall name id rest,
      unread_bytes a = cOidHeader ++ name :: id :: rest ->
      oid_recognized name id = false) ->
  res_code (acse_oid_decoder state ber a) = CSM_ACSE_ERR
  /\ res_state (acse_oid_decoder state ber a) = state.
Proof.
  intros Hno. unfold acse_oid_decoder.
  destruct (decode_object_identifier_stream a) as [Hyes Hfail].
  destruct (list_eq_dec Z.eq_dec (firstn 5 (unread_bytes a)) cOidHeader)
    as [Hpre|Hpre].
  - destruct (skipn 5 (unread_bytes a)) as [|name [|id rest]] eqn:E.
    + rewrite <- (firstn_skipn 5 (unread_bytes a)), Hpre, E in Hfail.
      specialize (Hfail ltac:(intros ? ? ?; discriminate)).
      destruct (csm_ber_decode_object_identifier _ a) as [[ok o] a'].
      cbn [fst] in Hfail. subst ok. split; reflexivity.
    + rewrite <- (firstn_skipn 5 (unread_bytes a)), Hpre, E in Hfail.
      specialize (Hfail ltac:(intros ? ? ?; discriminate)).
      destruct (csm_ber_decode_object_identifier _ a) as [[ok o] a'].
      cbn [fst] in Hfail. subst ok. split; reflexivity.
    + assert (Hu : unread_bytes a = cOidHeader ++ name :: id :: rest).
      { rewrite <- (firstn_skipn 5 (unread_bytes a)), Hpre, E. reflexivity. }
      destruct (Hyes name id rest Hu) as (a' & -> & _).
      specialize (Hno name id rest Hu). unfold oid_recognized in Hno.
      cbn [oid_name oid_id].
      destruct (name =? APP_CONTEXT_NAME).
      * cbn [andb orb] in Hno.
        destruct (id =? LN_REF); [discriminate|].
        destruct (id =? SN_REF); [discriminate|].
        destruct (id =? LN_REF_WITH_CYPHERING); [discriminate|].
        destruct (id =? SN_REF_WITH_CYPHERING); [discriminate|].
        split; reflexivity.
      * cbn [andb orb] in Hno.
        destruct (name =? SECURITY_MECHANISM_NAME); [|split; reflexivity].
        cbn [andb] in Hno.
        destruct (id =? CSM_AUTH_LOW_LEVEL); [discriminate|].
        destruct (id =? CSM_AUTH_HIGH_LEVEL_GMAC); [discriminate|].
        split; reflexivity.
  - assert (Hf : fst (fst (csm_ber_decode_object_identifier
                             {| oid_header := cOidHeader; oid_size := 5;
                                oid_name := 0; oid_id := 0 |} a)) = false).
    { apply Hfail. intros name id rest Hu. apply Hpre. rewrite Hu. reflexivity. }
    destruct (csm_ber_decode_object_identifier _ a) as [[ok o] a'].
    cbn [fst] in Hf. subst ok. split; reflexivity.
Qed.

(* ---------------------------------------------------------------------- *)
(** ** The conformance block, there and back *)
(* ---------------------------------------------------------------------- *)

Lemma encoded_conformance_block_bytes (server : csm_asso_state) (ber : csm_ber) :
  encoded_conformance_block server ber
  = [0x5F; 0x1F; 4; 0] ++ conformance_bytes (conformance (config server))
      ++ pdu_size_bytes CSM_DEF_PDU_SIZE.
Proof.
  unfold encoded_conformance_block. cbv zeta.
  destruct (acse_user_info_encoder_emits server ber (mk_array (repeat 0 17) 0 0))
    as (_ & _ & _ & (Hb & _)).
  { unfold conformance_bytes, pdu_size_bytes. cbn [length app].
    rewrite vaa_name_bytes_length. reflexivity. }
  rewrite Hb. unfold conformance_bytes, pdu_size_bytes, vaa_name_bytes.
  destruct (_ || _); reflexivity.
Qed.

(** Decoding an InitiateRequest whose conformance block holds the bitmask
    bytes [c2 c1 c0] and the PDU size bytes [p1 p0]: the bitmask stored is
    built from the unused-bits byte, [c2] and [c1], and the PDU size from
    [c0] and [p1]. *)
Lemma acse_user_info_decoder_block (client : csm_asso_state) (ber : csm_ber)
  (c2 c1 c0 p1 p0 : Z) :
  let request := initiate_request_with [0x5F; 0x1F; 4; 0; c2; c1; c0; p1; p0] in
  let r := acse_user_info_decoder client ber
             (mk_array request 0 (length request)) in
  res_code r = CSM_ACSE_OK
  /\ proposed_conformance (handshake (res_state r))
     = Z.shiftl 0 16 + Z.shiftl c2 8 + c1
  /\ client_max_receive_pdu_size (handshake (res_state r)) = Z.shiftl c0 8 + p1
  /\ unread_bytes (res_array r) = [p0].
Proof.
  cbv -[Z.shiftl Z.add]. repeat split.
Qed.

Lemma conformance_high_bytes (c : Z) :
  0 <= c < 2 ^ 24 ->
  Z.shiftl 0 16 + Z.shiftl (Z.land (Z.shiftr c 16) 0xFF) 8
  + Z.land (Z.shiftr c 8) 0xFF
  = Z.shiftr c 8.
Proof.
  intros Hc. change 0xFF with (Z.ones 8).
  rewrite !Z.land_ones, !Z.shiftr_div_pow2, !Z.shiftl_mul_pow2 by lia.
  change (2 ^ 16) with (2 ^ 8 * 2 ^ 8). rewrite <- Z.div_div by lia.
  assert (H1 : 0 <= c / 2 ^ 8 / 2 ^ 8 < 2 ^ 8).
  { split; [apply Z.div_pos; [apply Z.div_pos|]; lia|].
    apply Z.div_lt_upper_bound; [lia|].
    apply Z.div_lt_upper_bound; lia. }
  rewrite (Z.mod_small (c / 2 ^ 8 / 2 ^ 8)) by exact H1.
  pose proof (Z.div_mod (c / 2 ^ 8) (2 ^ 8) ltac:(lia)). lia.
Qed.

(* ====================================================================== *)
(** * Properties of the association layer *)
(* ====================================================================== *)

(** C1.  The conformance bitmask, encoded and decoded back: what the code
    does.  The encoder serializes the 24-bit bitmask [c] of the
    configuration on three bytes, most significant first, followed by the
    two bytes of the PDU size.  The decoder, given that block, reads one
    byte less than the encoder wrote: it builds the bitmask from the
    unused-bits byte and the two high bytes, storing [c >> 8] instead of
    [c], and takes the PDU size from the low byte of the bitmask and the
    first byte of the PDU size.  The bitmask that comes back is [c] only
    when [c] is 0. *)
Theorem conformance_round_trip_loses_low_byte (server client : csm_asso_state)
  (ber : csm_ber) :
  0 <= conformance (config server) < 2 ^ 24 ->
  let c := conformance (config server) in
  let r := conformance_round_trip server client ber in
  res_code r = CSM_ACSE_OK
  /\ proposed_conformance (handshake (res_state r)) = Z.shiftr c 8
  /\ client_max_receive_pdu_size (handshake (res_state r))
     = Z.shiftl (Z.land c 0xFF) 8 + Z.land (Z.shiftr CSM_DEF_PDU_SIZE 8) 0xFF
  /\ (proposed_conformance (handshake (res_state r)) = c <-> c = 0).
Proof.
  intros Hc c r. subst r. unfold conformance_round_trip.
  rewrite encoded_conformance_block_bytes.
  unfold conformance_bytes, pdu_size_bytes. cbn [app].
  destruct (acse_user_info_decoder_block client ber
              (Z.land (Z.shiftr c 16) 0xFF) (Z.land (Z.shiftr c 8) 0xFF)
              (Z.land c 0xFF) (Z.land (Z.shiftr CSM_DEF_PDU_SIZE 8) 0xFF)
              (Z.land CSM_DEF_PDU_SIZE 0xFF)) as (H1 & H2 & H3 & _).
  fold c. rewrite (conformance_high_bytes c Hc) in H2.
  split; [exact H1|]. split; [exact H2|]. split; [exact H3|].
  rewrite H2. rewrite Z.shiftr_div_pow2 by lia. split.
  - intros E. assert (Hle : c / 2 ^ 8 * 2 ^ 8 <= c).
    { rewrite Z.mul_comm. apply Z.mul_div_le. lia. }
    lia.
  - intros ->. reflexivity.
Qed.

(** C2.  In the decoding loop, when the tag of the buffered TLV header
    differs from the tag of the current table entry, the pass through the
    loop body consumes nothing: state, header and cursor are unchanged, the
    loop goes on and only the table index advances, the same buffered tag
    being compared with the next entry.  The requirement of the entry
    (NONE, ANY, OPT, SEC) plays no part, so a whole run of entries whose
    tags do not appear, required ones included, is skipped and the
    decoding continues with the entries that remain. *)
Theorem tag_mismatch_skips_entry (pre rest : list csm_asso_codec)
  (state : csm_asso_state) (ber : csm_ber) (array : csm_array) :
  Forall (fun codec => tag_tag ber <> codec_tag codec) pre ->
  (forall codec more, In codec pre ->
     decoder_body codec more true state ber array = (true, state, ber, array))
  /\ decoder_loop (pre ++ rest) true state ber array
     = decoder_loop rest true state ber array.
Proof.
  intros Hpre. split.
  - intros codec more Hin.
    rewrite Forall_forall in Hpre. specialize (Hpre codec Hin).
    apply Z.eqb_neq in Hpre. unfold decoder_body. rewrite Hpre. reflexivity.
  - induction Hpre as [|codec pre Hc Hp IH]; [reflexivity|].
    apply Z.eqb_neq in Hc.
    cbn [app decoder_loop]. unfold decoder_body. rewrite Hc. cbn [negb].
    exact IH.
Qed.

(** C3.  Low-level authentication, from IDLE.  When the password check
    accepts the client-to-server challenge for the configured destination
    access point, the association is granted: ASSOCIATED, result NULL.
    When it rejects, the state stays IDLE with result AUTH_FAILURE, and the
    AARE encoded for that state in a buffer with room for its 43 bytes
    carries the association-result field A2 03 02 01 with the value 1
    (rejected-permanent). *)
Theorem low_level_authorization (state : csm_asso_state) (ber : csm_ber)
  (array : csm_array) :
  state_cf state = CF_IDLE ->
  auth_level state = CSM_AUTH_LOW_LEVEL ->
  (43 <= array_size array)%nat ->
  (csm_sys_test_lls_password (llc_dsap (config state))
     (chal_value (ctos (handshake state)))
     (chal_size (ctos (handshake state))) = true ->
   csm_asso_is_granted state
   = (true, set_result (set_state_cf state CF_ASSOCIATED) CSM_ASSO_ERR_NULL))
  /\ (csm_sys_test_lls_password (llc_dsap (config state))
        (chal_value (ctos (handshake state)))
        (chal_size (ctos (handshake state))) = false ->
      let rejected := set_result state CSM_ASSO_ERR_AUTH_FAILURE in
      csm_asso_is_granted state = (false, rejected)
      /\ state_cf rejected = CF_IDLE
      /\ result (handshake rejected) = CSM_ASSO_ERR_AUTH_FAILURE
      /\ exists aare,
           csm_asso_encoder rejected ber array = (true, rejected, aare)
           /\ wr_index aare = 43%nat
           /\ firstn 43 (buff aare) = aare_plain_bytes CSM_DEF_PDU_SIZE rejected
           /\ nth_error (buff aare) 13 = Some CSM_ASSO_RESULT_FIELD
           /\ nth_error (buff aare) 17 = Some 1).
Proof.
  intros Hcf Hlvl Hcap. split; intros Hpw.
  - unfold csm_asso_is_granted. rewrite Hcf, Hlvl, Hpw. reflexivity.
  - cbv zeta. split; [|split; [|split]].
    + unfold csm_asso_is_granted. rewrite Hcf, Hlvl, Hpw. reflexivity.
    + exact Hcf.
    + reflexivity.
    + destruct (csm_asso_encoder_plain (set_result state CSM_ASSO_ERR_AUTH_FAILURE)
                  ber array) as (aare & He & Hw & _ & Hb); auto.
      { cbn. rewrite Hlvl. discriminate. }
      exists aare. repeat split; auto.
      * rewrite (nth_error_of_firstn _ _ 43 13 Hb) by lia. reflexivity.
      * rewrite (nth_error_of_firstn _ _ 43 17 Hb) by lia.
        cbn. rewrite Hcf. reflexivity.
Qed.

(** C4.  Dispatch while ASSOCIATED.  When the first byte of the packet is
    the release-request tag 0x62, the state returns to IDLE and the return
    value is 5; the packet, whose buffer has room for the reply, is
    overwritten from its start with exactly the five bytes 63 03 80 01 00.
    For any other first byte the return value is 0 and neither the
    association state nor the packet changes. *)
Theorem associated_release_request (asso : csm_asso_state)
  (ber_dec ber_enc : csm_ber) (packet : csm_array) (byte : Z) :
  state_cf asso = CF_ASSOCIATED ->
  nth_error (buff packet) 0 = Some byte ->
  (byte = CSM_ASSO_RLRQ ->
   exists reply,
     csm_asso_execute asso ber_dec ber_enc packet
     = (5, set_state_cf asso CF_IDLE, reply)
     /\ state_cf (set_state_cf asso CF_IDLE) = CF_IDLE
     /\ ((5 <= array_size packet)%nat ->
         wr_index reply = 5%nat
         /\ buff reply = [0x63; 0x03; 0x80; 0x01; 0x00] ++ skipn 5 (buff packet)))
  /\ (byte <> CSM_ASSO_RLRQ ->
      csm_asso_execute asso ber_dec ber_enc packet = (0, asso, packet)).
Proof.
  intros Hcf Hb. unfold csm_asso_execute, csm_array_get.
  rewrite Hcf, Hb. cbn [cf_eqb]. split; intros Hbyte.
  - subst byte. cbn [Z.eqb CSM_ASSO_RLRQ Pos.eqb].
    eexists; split; [reflexivity|]. split; [reflexivity|]. intros Hcap.
    destruct (emits_write_buff rlre 5 (Nat.le_refl 5) (set_wr_index packet 0))
      as [_ (Hbf & Hw & _)]; [exact Hcap|].
    split; [exact Hw|]. rewrite Hbf. reflexivity.
  - apply Z.eqb_neq in Hbyte. rewrite Hbyte. reflexivity.
Qed.

(** C5.  High-level GMAC authentication, from IDLE.  The authorization
    step moves the state to ASSOCIATION_PENDING with result AUTH_REQUIRED.
    The AARE encoded for that state, in a buffer with room for it, carries
    the association-result field A2 03 02 01 with the value 0 (accepted)
    and the result-source-diagnostic field A3 05 A1 03 02 01 with the value
    AUTH_REQUIRED (14). *)
Theorem high_level_gmac_authorization (state : csm_asso_state) (ber : csm_ber)
  (array : csm_array) :
  state_cf state = CF_IDLE ->
  auth_level state = CSM_AUTH_HIGH_LEVEL_GMAC ->
  (Z.to_nat CSM_DEF_APP_TITLE_SIZE <= length csm_sys_get_system_title)%nat ->
  let pending :=
    set_result (set_state_cf state CF_ASSOCIATION_PENDING) CSM_ASSO_AUTH_REQUIRED in
  let fields := aare_secure_fields CSM_DEF_APP_TITLE_SIZE
                  csm_sys_get_system_title csm_sys_get_random_u8
                  CSM_DEF_PDU_SIZE pending in
  (2 + length fields <= array_size array)%nat ->
  csm_asso_is_granted state = (true, pending)
  /\ state_cf pending = CF_ASSOCIATION_PENDING
  /\ result (handshake pending) = CSM_ASSO_AUTH_REQUIRED
  /\ exists state' aare,
       csm_asso_encoder pending ber array = (true, state', aare)
       /\ wr_index aare = (2 + length fields)%nat
       /\ firstn (2 + length fields) (buff aare)
          = [CSM_ASSO_AARE; uint8 (Z.of_nat (length fields))] ++ fields
       /\ nth_error (buff aare) 13 = Some CSM_ASSO_RESULT_FIELD
       /\ nth_error (buff aare) 17 = Some 0
       /\ nth_error (buff aare) 18 = Some CSM_ASSO_RESULT_SRC_DIAG
       /\ nth_error (buff aare) 24 = Some CSM_ASSO_AUTH_REQUIRED.
Proof.
  intros Hcf Hlvl Ht pending fields Hcap.
  split; [|split; [reflexivity|split; [reflexivity|]]].
  - unfold csm_asso_is_granted. rewrite Hcf, Hlvl. reflexivity.
  - destruct (csm_asso_encoder_secure pending ber array Hlvl Ht Hcap)
      as (aare & He & Hw & _ & Hb).
    subst fields. cbv zeta in *.
    match type of Hw with
    | _ = (2 + length ?f)%nat => assert (Hlen : (25 <= 2 + length f)%nat)
    end.
    { unfold aare_secure_fields. rewrite !length_app.
      cbn [length aare_kernel_bytes]. lia. }
    eexists. exists aare. split; [exact He|]. split; [exact Hw|].
    split; [exact Hb|].
    repeat split.
    + rewrite (nth_error_of_firstn _ _ _ 13 Hb) by lia. reflexivity.
    + rewrite (nth_error_of_firstn _ _ _ 17 Hb) by lia. reflexivity.
    + rewrite (nth_error_of_firstn _ _ _ 18 Hb) by lia. reflexivity.
    + rewrite (nth_error_of_firstn _ _ _ 24 Hb) by lia. reflexivity.
Qed.

(** C6.  Length invariant of the AARE.  For every successfully encoded
    AARE -- the challenge of the client being no longer than the configured
    maximum, and the title and challenge sizes of the profile small enough
    for the count to fit the one length byte -- the byte at offset 1 is the
    number of bytes written after the 2-byte header.  The user-information
    encoder, when it succeeds, has written 17 bytes from the first reserved
    size byte, and its two patched size bytes hold that total minus one and
    minus three; in an AARE whose buffer was not filled up they are the
    bytes 17 and 15 places before the end. *)
Theorem aare_length_invariant (state state' : csm_asso_state) (ber : csm_ber)
  (array aare : csm_array) :
  0 <= CSM_DEF_APP_TITLE_SIZE ->
  0 <= chal_size (ctos (handshake state)) <= CSM_DEF_CHALLENGE_SIZE ->
  CSM_DEF_APP_TITLE_SIZE + CSM_DEF_CHALLENGE_SIZE <= 180 ->
  csm_asso_encoder state ber array = (true, state', aare) ->
  nth_error (buff aare) 1 = Some (Z.of_nat (wr_index aare) - 2)
  /\ ((wr_index aare < array_size aare)%nat ->
      nth_error (buff aare) (wr_index aare - 17) = Some (17 - 1)
      /\ nth_error (buff aare) (wr_index aare - 15) = Some (17 - 3))
  /\ (forall st b a st1 b1 a1,
        acse_user_info_encoder st b a = (CSM_ACSE_OK, st1, b1, a1) ->
        let total := Z.of_nat (wr_index a1) - Z.of_nat (wr_index a) in
        total = 17
        /\ nth_error (buff a1) (wr_index a) = Some (total - 1)
        /\ nth_error (buff a1) (wr_index a + 2) = Some (total - 3)).
Proof.
  intros Ht Hc Hsum Henc. split; [|split].
  - destruct (csm_asso_encoder_length_byte _ _ _ _ _ Henc) as [Hwr Hn].
    rewrite Hn. f_equal. apply uint8_small.
    cbn [sum_bounds aare_field_bounds] in Hwr.
    rewrite (uint8_small (chal_size (ctos (handshake state)))) in Hwr by lia.
    pose proof (ber_len_bytes_length_small (CSM_DEF_APP_TITLE_SIZE + 2)).
    pose proof (ber_len_bytes_length_small
                  (chal_size (ctos (handshake state)) + 2)).
    lia.
  - intros Hroom.
    destruct (csm_asso_encoder_user_info _ _ _ _ _ Henc Hroom) as (_ & H1 & H2).
    split; assumption.
  - intros st b a st1 b1 a1 E total.
    pose proof (acse_user_info_encoder_ok_room st b a) as Hroom.
    rewrite E in Hroom. specialize (Hroom eq_refl).
    destruct (acse_user_info_encoder_emits st b a) as (_ & _ & _ & Hw).
    { unfold conformance_bytes, pdu_size_bytes. cbn [length app].
      rewrite vaa_name_bytes_length. lia. }
    rewrite E in Hw. unfold res_array in Hw. cbn [snd] in Hw.
    assert (Hwr : wr_index a1 = (wr_index a + 17)%nat).
    { destruct Hw as (_ & -> & _). unfold conformance_bytes, pdu_size_bytes.
      cbn [length app]. rewrite vaa_name_bytes_length. reflexivity. }
    assert (Htot : total = 17) by (subst total; lia).
    rewrite Htot.
    pose proof (wrote_nth_error _ _ _ 0 Hw) as N0.
    pose proof (wrote_nth_error _ _ _ 2 Hw) as N2.
    cbn [length app nth_error] in N0, N2. rewrite Nat.add_0_r in N0.
    repeat split; [apply N0|apply N2]; lia.
Qed.

(** C7.  From IDLE, a packet whose outer header is malformed -- its tag is
    not the AARQ tag 0x60, or its declared length is not the number of
    bytes left in the cursor -- fails to decode: the decoder returns 0, the
    dispatcher returns 0 reply bytes, the association state is unchanged,
    and no AARE is written (only the read position of the packet has
    moved). *)
Theorem malformed_outer_header_is_dropped (asso : csm_asso_state)
  (ber_dec ber_enc : csm_ber) (packet : csm_array) :
  state_cf asso = CF_IDLE ->
  let header := snd (fst (csm_ber_decode ber_dec packet)) in
  let packet1 := snd (csm_ber_decode ber_dec packet) in
  tag_tag header <> CSM_ASSO_AARQ
  \/ length_length header <> Z.of_nat (csm_array_unread packet1) ->
  csm_asso_decoder asso ber_dec packet = (false, asso, packet1)
  /\ csm_asso_execute asso ber_dec ber_enc packet = (0, asso, packet1)
  /\ buff packet1 = buff packet
  /\ wr_index packet1 = wr_index packet.
Proof.
  intros Hcf header packet1 Hbad.
  assert (Hdec : csm_asso_decoder asso ber_dec packet = (false, asso, packet1)).
  { unfold csm_asso_decoder. subst header packet1.
    destruct (csm_ber_decode ber_dec packet) as [[ok hdr] p1]. cbn [fst snd] in *.
    destruct Hbad as [Ht | Hl].
    - apply Z.eqb_neq in Ht. rewrite Ht. cbn [negb]. rewrite orb_true_r.
      reflexivity.
    - apply Z.eqb_neq in Hl. rewrite Hl. reflexivity. }
  split; [exact Hdec|]. split.
  - unfold csm_asso_execute. rewrite Hcf, Hdec. reflexivity.
  - apply (ber_decode_reads ber_dec packet).
Qed.


(** C10.  The dedicated-key marker of the InitiateRequest.  Take two
    user-information fields that decode to the same header and differ only
    in the byte that follows the InitiateRequest discriminator.  Whatever
    the two markers are, null or not, the decoder consumes exactly one byte
    for the marker and goes on with the InitiateRequest at the byte right
    after it; its return code, the association state and the header it
    leaves, and the bytes left to read are the same for both: a non-null
    marker neither fails the decoding nor stores anything nor skips key
    bytes.  The decoding succeeds only if the byte right after the marker,
    read as the response-allowed field, is null. *)
Theorem dedicated_key_marker_is_skipped (state : csm_asso_state)
  (ber ber1 : csm_ber) (array array' a1 a1' : csm_array)
  (marker marker' : Z) (rest : list Z) :
  csm_ber_decode ber array = (true, ber1, a1) ->
  csm_ber_decode ber array' = (true, ber1, a1') ->
  tag_id ber1 = BER_TYPE_OCTET_STRING ->
  unread_bytes a1 = AXDR_INITIATE_REQUEST :: marker :: rest ->
  unread_bytes a1' = AXDR_INITIATE_REQUEST :: marker' :: rest ->
  let r := acse_user_info_decoder state ber array in
  let r' := acse_user_info_decoder state ber array' in
  (exists a3, rd_index a3 = (2 + rd_index a1)%nat
              /\ unread_bytes a3 = rest
              /\ r = initiate_request_tail state ber1 a3 AXDR_TAG_NULL)
  /\ res_code r = res_code r'
  /\ res_state r = res_state r'
  /\ res_ber r = res_ber r'
  /\ unread_bytes (res_array r) = unread_bytes (res_array r')
  /\ (res_code r = CSM_ACSE_OK -> exists rest', rest = AXDR_TAG_NULL :: rest').
Proof.
  intros Hd Hd' Hid Hu Hu' r r'.
  assert (Htag : tag_tag ber1 <> 0x5F).
  { intros E. pose proof (ber_decode_tag_id _ _ _ _ Hd) as H.
    rewrite E, Hid in H. discriminate. }
  assert (Hr : forall arr b1 m,
             csm_ber_decode ber arr = (true, ber1, b1) ->
             unread_bytes b1 = AXDR_INITIATE_REQUEST :: m :: rest ->
             exists a3, rd_index a3 = (2 + rd_index b1)%nat
                        /\ unread_bytes a3 = rest
                        /\ acse_user_info_decoder state ber arr
                           = initiate_request_tail state ber1 a3 AXDR_TAG_NULL).
  { intros arr b1 m Hdec Hun. unfold acse_user_info_decoder.
    rewrite Hdec, Hid. cbn [Z.eqb BER_TYPE_OCTET_STRING Pos.eqb].
    pose proof (read_u8_stream b1 0) as S1. rewrite Hun in S1.
    destruct S1 as [-> S1].
    cbn [Z.eqb AXDR_INITIATE_REQUEST Pos.eqb].
    pose proof (read_u8_stream (set_rd_index b1 (S (rd_index b1)))
                  AXDR_INITIATE_REQUEST) as S2.
    rewrite S1 in S2. destruct S2 as [-> S2].
    eexists. split; [|split; [exact S2|]].
    - reflexivity.
    - apply initiate_request_tail_byte. exact Htag. }
  destruct (Hr array a1 marker Hd Hu) as (a3 & Hrd & Hun & E).
  destruct (Hr array' a1' marker' Hd' Hu') as (a3' & Hrd' & Hun' & E').
  fold r in E. fold r' in E'.
  destruct (initiate_request_tail_agree state ber1 a3 a3' AXDR_TAG_NULL)
    as [F G]; [unfold agree; congruence|].
  rewrite <- E, <- E' in F, G.
  split; [exists a3; auto|].
  unfold res_code, res_state, res_ber, res_array.
  split; [congruence|]. split; [congruence|]. split; [congruence|].
  split; [exact G|].
  intros Hok. rewrite E in Hok.
  destruct (initiate_request_tail_ok _ _ _ _ Hok) as (rest' & Hrest).
  exists rest'. congruence.
Qed.

(** C9, as amended.  The object identifier decoder looks at the seven
    bytes at the cursor and not at the length the header declares.  When
    those bytes are not the fixed 5-byte prefix followed by a recognized
    (name-selector, id) pair -- fewer than seven bytes left, another
    prefix, or a pair that is not known -- the decoding fails and the
    association state, [ref] and [auth_level] included, is unchanged.
    When they are, the decoding succeeds and assigns [ref], for an
    application context, or [auth_level], for a security mechanism, and
    nothing else. *)
Theorem oid_decoder_recognized_or_unchanged (state : csm_asso_state)
  (ber : csm_ber) (array : csm_array) :
  ((forall name id rest,
       unread_bytes array = cOidHeader ++ name :: id :: rest ->
       oid_recognized name id = false) ->
   res_code (acse_oid_decoder state ber array) = CSM_ACSE_ERR
   /\ res_state (acse_oid_decoder state ber array) = state
   /\ ref (res_state (acse_oid_decoder state ber array)) = ref state
   /\ auth_level (res_state (acse_oid_decoder state ber array))
      = auth_level state)
  /\ (forall name id rest,
        unread_bytes array = cOidHeader ++ name :: id :: rest ->
        oid_recognized name id = true ->
        res_code (acse_oid_decoder state ber array) = CSM_ACSE_OK
        /\ res_state (acse_oid_decoder state ber array)
           = (if name =? APP_CONTEXT_NAME then set_ref state id
              else set_auth_level state id)).
Proof.
  split.
  - intros Hno. destruct (acse_oid_decoder_rejects state ber array Hno) as [H1 H2].
    rewrite H2. auto.
  - intros name id rest Hu Hrec.
    destruct (acse_oid_decoder_accepts state ber array name id rest Hu Hrec)
      as (H1 & H2 & _).
    auto.
Qed.

(* ---------------------------------------------------------------------- *)
(** ** Readers on the bytes of a packet *)
(* ---------------------------------------------------------------------- *)

Lemma holds_start (bs : list Z) : holds (mk_array bs 0 (length bs)) bs.
Proof.
  split; [|cbn; lia].
  unfold unread_bytes, csm_array_unread. cbn [rd_index wr_index buff skipn].
  rewrite Nat.sub_0_r. apply firstn_all.
Qed.

Lemma holds_unread (a : csm_array) (bs : list Z) :
  holds a bs -> csm_array_unread a = length bs.
Proof.
  intros [H Hw]. pose proof (unread_bytes_length a) as Hl.
  rewrite H in Hl. unfold csm_array_unread in *. lia.
Qed.

Lemma reads_holds (a a' : csm_array) (bs bs' : list Z) :
  holds a bs -> reads a a' -> unread_bytes a' = bs' -> holds a' bs'.
Proof.
  intros [_ Hw] [Hb Hwr] Hu. split; [exact Hu|].
  unfold array_size in *. rewrite Hb, Hwr. exact Hw.
Qed.

Lemma unread_bytes_advance (a : csm_array) (n : nat) :
  unread_bytes (set_rd_index a (rd_index a + n)) = skipn n (unread_bytes a).
Proof.
  unfold unread_bytes, csm_array_unread. cbn [set_rd_index rd_index wr_index buff].
  rewrite skipn_firstn_comm, skipn_skipn. f_equal; [lia|f_equal; lia].
Qed.

Lemma read_u8_holds (a : csm_array) (byte b : Z) (rest : list Z) :
  holds a (b :: rest) ->
  exists a', csm_array_read_u8 a byte = (true, b, a')
             /\ holds a' rest /\ reads a a'.
Proof.
  intros H. pose proof (read_u8_stream a byte) as S.
  rewrite (proj1 H) in S. destruct S as [E U].
  exists (set_rd_index a (S (rd_index a))). split; [exact E|].
  assert (R : reads a (set_rd_index a (S (rd_index a)))) by (split; reflexivity).
  split; [exact (reads_holds _ _ _ _ H R U)|exact R].
Qed.

Lemma read_u8_holds_nil (a : csm_array) (byte : Z) :
  holds a [] -> csm_array_read_u8 a byte = (false, byte, a).
Proof.
  intros H. pose proof (read_u8_stream a byte) as S.
  rewrite (proj1 H) in S. exact S.
Qed.

Lemma read_u16_holds (a : csm_array) (value hi lo : Z) (rest : list Z) :
  holds a (hi :: lo :: rest) ->
  exists a', csm_array_read_u16 a value = (true, Z.shiftl hi 8 + lo, a')
             /\ holds a' rest /\ reads a a'.
Proof.
  intros H. pose proof (read_u16_stream a value) as S.
  rewrite (proj1 H) in S. destruct S as [E U].
  exists (set_rd_index a (2 + rd_index a)). split; [exact E|].
  assert (R : reads a (set_rd_index a (2 + rd_index a))) by (split; reflexivity).
  split; [exact (reads_holds _ _ _ _ H R U)|exact R].
Qed.

Lemma read_buff_holds (a : csm_array) (dst bs rest : list Z) :
  holds a (bs ++ rest) -> (0 < length bs)%nat ->
  exists a', csm_array_read_buff a dst (length bs)
             = (true, bs ++ skipn (length bs) dst, a')
             /\ holds a' rest /\ reads a a'.
Proof.
  intros H Hn. pose proof (read_buff_stream a dst (length bs) Hn) as S.
  rewrite (proj1 H) in S. rewrite length_app in S.
  destruct (Nat.leb_spec (length bs) (length bs + length rest)) as [_|]; [|lia].
  destruct S as [E U].
  rewrite firstn_app, firstn_all, Nat.sub_diag, firstn_O, app_nil_r in E.
  rewrite skipn_app, skipn_all, Nat.sub_diag in U. cbn [app skipn] in U.
  exists (set_rd_index a (rd_index a + length bs)). split; [exact E|].
  assert (R : reads a (set_rd_index a (rd_index a + length bs)))
    by (split; reflexivity).
  split; [exact (reads_holds _ _ _ _ H R U)|exact R].
Qed.

Lemma read_buff_holds_short (a : csm_array) (dst bs : list Z) (n : nat) :
  holds a bs -> (length bs < n)%nat ->
  csm_array_read_buff a dst n = (false, dst, a).
Proof.
  intros H Hn. pose proof (read_buff_stream a dst n ltac:(lia)) as S.
  rewrite (proj1 H) in S.
  destruct (Nat.leb_spec n (length bs)); [lia|exact S].
Qed.

Lemma reader_jump_holds (a : csm_array) (bs rest : list Z) :
  holds a (bs ++ rest) ->
  exists a', csm_array_reader_jump a (length bs) = (true, a')
             /\ holds a' rest /\ reads a a'.
Proof.
  intros H. pose proof (holds_unread _ _ H) as Hu. rewrite length_app in Hu.
  unfold csm_array_reader_jump.
  destruct (Nat.leb_spec (length bs) (csm_array_unread a)) as [_|]; [|lia].
  exists (set_rd_index a (rd_index a + length bs)). split; [reflexivity|].
  assert (R : reads a (set_rd_index a (rd_index a + length bs)))
    by (split; reflexivity).
  split; [|exact R]. apply (reads_holds _ _ _ _ H R).
  rewrite unread_bytes_advance, (proj1 H), skipn_app, skipn_all, Nat.sub_diag.
  reflexivity.
Qed.

Lemma reader_jump_holds_short (a : csm_array) (bs : list Z) (n : nat) :
  holds a bs -> (length bs < n)%nat ->
  csm_array_reader_jump a n = (false, a).
Proof.
  intros H Hn. pose proof (holds_unread _ _ H) as Hu.
  unfold csm_array_reader_jump.
  destruct (Nat.leb_spec n (csm_array_unread a)); [lia|reflexivity].
Qed.

(** A TLV header in the short forms: a tag number below 31 and a length
    below 128. *)
Lemma ber_decode_holds (ber : csm_ber) (a : csm_array) (t l : Z)
  (rest : list Z) :
  holds a (t :: l :: rest) ->
  Z.land t 0x1F <> 0x1F -> l < 0x80 ->
  exists a',
    csm_ber_decode ber a
    = (true,
       {| tag_tag := t; tag_id := Z.land t 0x1F; tag_ext := tag_ext ber;
          tag_isPrimitive := negb (Z.testbit t 5); length_length := l |}, a')
    /\ holds a' rest /\ reads a a'.
Proof.
  intros H Ht Hl.
  destruct (read_u8_holds a 0 t (l :: rest) H) as (a1 & E1 & H1 & R1).
  destruct (read_u8_holds a1 0 l rest H1) as (a2 & E2 & H2 & R2).
  exists a2. unfold csm_ber_decode. rewrite E1. cbn [negb tag_id].
  apply Z.eqb_neq in Ht. rewrite Ht. cbn [negb]. rewrite E2. cbn [negb].
  apply Z.ltb_lt in Hl. rewrite Hl.
  split; [reflexivity|]. split; [exact H2|exact (reads_trans _ _ _ R1 R2)].
Qed.

(** No header can be decoded from a cursor with nothing left to read. *)
Lemma ber_decode_holds_nil (ber : csm_ber) (a : csm_array) :
  holds a [] -> csm_ber_decode ber a = (false, ber, a).
Proof.
  intros H. unfold csm_ber_decode. rewrite (read_u8_holds_nil a 0 H).
  reflexivity.
Qed.

(* ---------------------------------------------------------------------- *)
(** ** The field decoders on the bytes of a packet *)
(* ---------------------------------------------------------------------- *)

(** X1.  The protocol-version decoder accepts exactly the bit string of
    version 1: a declared length of 2 and the two bytes 07 80 at the
    cursor.  It then consumes those two bytes; whatever the outcome, it
    leaves the association state and the header as they were. *)
Theorem proto_version_decoder_accepts_version1 (state : csm_asso_state)
  (ber : csm_ber) (a : csm_array) :
  (res_code (acse_proto_version_decoder state ber a) = CSM_ACSE_OK
   <-> length_length ber = 2
       /\ exists rest, unread_bytes a = 7 :: 0x80 :: rest)
  /\ (res_code (acse_proto_version_decoder state ber a) = CSM_ACSE_OK ->
      unread_bytes (res_array (acse_proto_version_decoder state ber a))
      = skipn 2 (unread_bytes a))
  /\ res_state (acse_proto_version_decoder state ber a) = state
  /\ res_ber (acse_proto_version_decoder state ber a) = ber.
Proof.
  unfold acse_proto_version_decoder.
  destruct (Z.eqb_spec (length_length ber) 2) as [Hl|Hl].
  2:{ cbn. repeat split; try discriminate. intros [H _]. contradiction. }
  pose proof (read_u8_stream a 0) as S1.
  destruct (unread_bytes a) as [|b1 rest1].
  { rewrite S1. cbn. repeat split; try discriminate.
    intros (_ & rest & H). discriminate. }
  destruct S1 as [-> S1].
  pose proof (read_u8_stream (set_rd_index a (S (rd_index a))) 0) as S2.
  rewrite S1 in S2.
  destruct rest1 as [|b2 rest2].
  { rewrite S2. cbn. repeat split; try discriminate.
    intros (_ & rest & H). discriminate. }
  destruct S2 as [-> S2].
  destruct (Z.eqb_spec b1 7) as [->|N1];
    [destruct (Z.eqb_spec b2 0x80) as [->|N2]|]; cbn [andb].
  - cbn [res_code res_state res_ber res_array fst snd skipn].
    repeat split; eauto.
  - cbn [res_code res_state res_ber res_array fst snd].
    repeat split; try discriminate.
    intros (_ & rest & [= E _]). contradiction.
  - cbn [res_code res_state res_ber res_array fst snd].
    repeat split; try discriminate.
    intros (_ & rest & [= E _]). contradiction.
Qed.

(** X2.  The decoder of the sender ACSE requirements accepts exactly the
    bit string that selects the authentication functional unit: a declared
    length of 2 and the two bytes 07 80 at the cursor, which it consumes.
    When the first byte is not 07 the second one is not read.  The
    association state and the header are left as they were. *)
Theorem req_decoder_accepts_authentication_unit (state : csm_asso_state)
  (ber : csm_ber) (a : csm_array) :
  (res_code (acse_req_decoder state ber a) = CSM_ACSE_OK
   <-> length_length ber = 2
       /\ exists rest, unread_bytes a = 7 :: 0x80 :: rest)
  /\ (res_code (acse_req_decoder state ber a) = CSM_ACSE_OK ->
      unread_bytes (res_array (acse_req_decoder state ber a))
      = skipn 2 (unread_bytes a))
  /\ (forall b rest, unread_bytes a = b :: rest -> b <> 7 ->
      length_length ber = 2 ->
      unread_bytes (res_array (acse_req_decoder state ber a)) = rest)
  /\ res_state (acse_req_decoder state ber a) = state
  /\ res_ber (acse_req_decoder state ber a) = ber.
Proof.
  unfold acse_req_decoder.
  destruct (Z.eqb_spec (length_length ber) 2) as [Hl|Hl].
  2:{ cbn. repeat split; try discriminate; try contradiction.
      intros [H _]. contradiction. }
  pose proof (read_u8_stream a 0) as S1.
  destruct (unread_bytes a) as [|b1 rest1].
  { rewrite S1. cbn. repeat split; try discriminate.
    intros (_ & rest & H). discriminate. }
  destruct S1 as [-> S1].
  destruct (Z.eqb_spec b1 7) as [->|N1].
  - pose proof (read_u8_stream (set_rd_index a (S (rd_index a))) 7) as S2.
    rewrite S1 in S2.
    destruct rest1 as [|b2 rest2].
    { rewrite S2. cbn. repeat split; try discriminate.
      - intros (_ & rest & H). discriminate.
      - intros b rest [= <- _] H. contradiction. }
    destruct S2 as [-> S2].
    destruct (Z.eqb_spec b2 0x80) as [->|N2];
      cbn [res_code res_state res_ber res_array fst snd skipn].
    + repeat split; eauto. intros b rest [= <- _] H. contradiction.
    + repeat split; try discriminate.
      * intros (_ & rest & [= E]). contradiction.
      * intros b rest [= <- _] H. contradiction.
  - cbn [res_code res_state res_ber res_array fst snd].
    repeat split; try discriminate.
    + intros (_ & rest & [= E _]). contradiction.
    + intros b rest [= _ <-] _ _. exact S1.
Qed.

(** X3.  A calling authentication value on the wire: the context-specific
    tag 80, a length [n] between the sizes allowed for a password and for
    a challenge, and [n] bytes.  The decoder stores those bytes at the
    start of [ctos.value] with [n] as [ctos.size], consumes the field to
    its end, and changes nothing else in the association state. *)
Theorem auth_value_decoder_stores_challenge (state : csm_asso_state)
  (ber : csm_ber) (a : csm_array) (n : Z) (value rest : list Z) :
  holds a (TAG_CONTEXT_SPECIFIC :: n :: value ++ rest) ->
  n = Z.of_nat (length value) -> 0 < n < 0x80 ->
  CSM_DEF_LLS_SIZE <= n <= CSM_DEF_CHALLENGE_SIZE ->
  exists ber' a',
    acse_auth_value_decoder state ber a
    = (CSM_ACSE_OK,
       set_ctos state
         {| chal_value :=
              value ++ skipn (length value) (chal_value (ctos (handshake state)));
            chal_size := n |},
       ber', a')
    /\ holds a' rest.
Proof.
  intros H Hn Hr Hb. unfold acse_auth_value_decoder.
  destruct (ber_decode_holds ber a TAG_CONTEXT_SPECIFIC n (value ++ rest) H)
    as (a1 & E1 & H1 & _); [cbn; discriminate|lia|].
  rewrite E1. cbn [length_length tag_tag].
  destruct (Z.leb_spec CSM_DEF_LLS_SIZE n) as [_|]; [|lia].
  destruct (Z.leb_spec n CSM_DEF_CHALLENGE_SIZE) as [_|]; [|lia].
  cbn [andb]. rewrite Z.eqb_refl.
  destruct (read_buff_holds a1 (chal_value (ctos (handshake state))) value rest H1)
    as (a2 & E2 & H2 & _); [lia|].
  replace (Z.to_nat n) with (length value) by lia.
  rewrite E2. eexists; eexists; split; [reflexivity|exact H2].
Qed.

(** X4.  What the authentication value decoder accepts and what it leaves
    on a failure.  When it succeeds, the size it has stored lies between
    the password size and the challenge size of the configuration, and the
    client-to-server challenge is all it has changed.  When it fails -- a
    header that cannot be decoded, a size out of those bounds, a tag other
    than 80, fewer bytes than declared -- the association state is as it
    was: no part of a refused value is kept. *)
Theorem auth_value_decoder_bounds (state : csm_asso_state) (ber : csm_ber)
  (a : csm_array) :
  let r := acse_auth_value_decoder state ber a in
  (res_code r = CSM_ACSE_OK ->
   CSM_DEF_LLS_SIZE <= chal_size (ctos (handshake (res_state r)))
                    <= CSM_DEF_CHALLENGE_SIZE
   /\ chal_size (ctos (handshake (res_state r))) = length_length (res_ber r)
   /\ tag_tag (res_ber r) = TAG_CONTEXT_SPECIFIC
   /\ res_state r = set_ctos state (ctos (handshake (res_state r))))
  /\ (res_code r = CSM_ACSE_ERR -> res_state r = state).
Proof.
  unfold acse_auth_value_decoder.
  destruct (csm_ber_decode ber a) as [[ok ber1] a1].
  destruct ok; [|cbn; split; [discriminate|reflexivity]].
  destruct (Z.leb_spec CSM_DEF_LLS_SIZE (length_length ber1));
    [|cbn; split; [discriminate|reflexivity]].
  destruct (Z.leb_spec (length_length ber1) CSM_DEF_CHALLENGE_SIZE);
    [|cbn; split; [discriminate|reflexivity]].
  cbn [andb].
  destruct (Z.eqb_spec (tag_tag ber1) TAG_CONTEXT_SPECIFIC);
    [|cbn; split; [discriminate|reflexivity]].
  destruct (csm_array_read_buff a1 _ _) as [[okb value] a2].
  destruct okb; cbn; (split; [|try discriminate; reflexivity]).
  - intros _. repeat split; auto.
  - discriminate.
Qed.

(** X5.  A calling AP title on the wire: an octet string (any tag byte
    whose low five bits are 4) of [n] bytes.  When [n] is the title size
    of the configuration the decoder stores the bytes as the client
    application title and consumes the field; when it is another size the
    decoder fails and the association state is as it was. *)
Theorem client_system_title_decoder_stores_title (state : csm_asso_state)
  (ber : csm_ber) (a : csm_array) (t n : Z) (title rest : list Z) :
  holds a (t :: n :: title ++ rest) ->
  Z.land t 0x1F = BER_TYPE_OCTET_STRING ->
  n = Z.of_nat (length title) -> 0 < n < 0x80 ->
  (n = CSM_DEF_APP_TITLE_SIZE ->
   exists ber' a',
     acse_client_system_title_decoder state ber a
     = (CSM_ACSE_OK,
        set_client_app_title state
          (title ++ skipn (length title) (client_app_title state)),
        ber', a')
     /\ holds a' rest)
  /\ (n <> CSM_DEF_APP_TITLE_SIZE ->
      res_code (acse_client_system_title_decoder state ber a) = CSM_ACSE_ERR
      /\ res_state (acse_client_system_title_decoder state ber a) = state).
Proof.
  intros H Ht Hn Hr. unfold acse_client_system_title_decoder.
  destruct (ber_decode_holds ber a t n (title ++ rest) H)
    as (a1 & E1 & H1 & _); [rewrite Ht; discriminate|lia|].
  rewrite E1. cbn [length_length tag_id]. split; intros Hs.
  - rewrite <- Hs, Z.eqb_refl, Ht. cbn [Z.eqb BER_TYPE_OCTET_STRING Pos.eqb].
    destruct (read_buff_holds a1 (client_app_title state) title rest H1)
      as (a2 & E2 & H2 & _); [lia|].
    replace (Z.to_nat n) with (length title) by lia.
    rewrite E2. eexists; eexists; split; [reflexivity|exact H2].
  - apply Z.eqb_neq in Hs. rewrite Hs. split; reflexivity.
Qed.

(** X6.  The skip decoder never fails and never touches the association
    state or the header.  For a primitive header it moves the read
    position over the declared length, when that many bytes are left; a
    declared length that exceeds what is left is not skipped at all, and
    the failure of the jump is not reported.  For a constructed header
    nothing is consumed: the decoding goes on inside the field. *)
Theorem skip_decoder_jumps_over_primitive_fields (state : csm_asso_state)
  (ber : csm_ber) (a : csm_array) :
  res_code (acse_skip_decoder state ber a) = CSM_ACSE_OK
  /\ res_state (acse_skip_decoder state ber a) = state
  /\ res_ber (acse_skip_decoder state ber a) = ber
  /\ (tag_isPrimitive ber = true ->
      forall content rest,
        holds a (content ++ rest) ->
        length_length ber = Z.of_nat (length content) ->
        holds (res_array (acse_skip_decoder state ber a)) rest)
  /\ (tag_isPrimitive ber = true ->
      forall bs,
        holds a bs -> Z.of_nat (length bs) < length_length ber ->
        res_array (acse_skip_decoder state ber a) = a)
  /\ (tag_isPrimitive ber = false ->
      res_array (acse_skip_decoder state ber a) = a).
Proof.
  unfold acse_skip_decoder.
  destruct (tag_isPrimitive ber); cbn [res_code res_state res_ber res_array fst snd];
    (split; [reflexivity|split; [reflexivity|split; [reflexivity|]]]);
    (split; [|split]); try discriminate; try reflexivity.
  - intros _ content rest H Hl. rewrite Hl, Nat2Z.id.
    destruct (reader_jump_holds a content rest H) as (a' & -> & H' & _).
    exact H'.
  - intros _ bs H Hl.
    rewrite (reader_jump_holds_short a bs _ H) by lia. reflexivity.
Qed.

(* ---------------------------------------------------------------------- *)
(** ** The user-information decoder on the bytes of a packet *)
(* ---------------------------------------------------------------------- *)

(** A TLV header whose tag number is 31: the tag takes a second byte. *)
Lemma ber_decode_holds_long (ber : csm_ber) (a : csm_array) (t e l : Z)
  (rest : list Z) :
  holds a (t :: e :: l :: rest) ->
  Z.land t 0x1F = 0x1F -> l < 0x80 ->
  exists a',
    csm_ber_decode ber a
    = (true,
       {| tag_tag := t; tag_id := Z.land t 0x1F; tag_ext := e;
          tag_isPrimitive := negb (Z.testbit t 5); length_length := l |}, a')
    /\ holds a' rest /\ reads a a'.
Proof.
  intros H Ht Hl.
  destruct (read_u8_holds a 0 t (e :: l :: rest) H) as (a1 & E1 & H1 & R1).
  destruct (read_u8_holds a1 0 e (l :: rest) H1) as (a2 & E2 & H2 & R2).
  destruct (read_u8_holds a2 0 l rest H2) as (a3 & E3 & H3 & R3).
  exists a3. unfold csm_ber_decode. rewrite E1. cbn [negb tag_id].
  rewrite Ht. cbn [Z.eqb Pos.eqb]. rewrite E2. cbn [negb]. rewrite E3.
  cbn [negb]. apply Z.ltb_lt in Hl. rewrite Hl.
  split; [cbn; try rewrite Ht; reflexivity|].
  split; [exact H3|exact (reads_trans _ _ _ R1 (reads_trans _ _ _ R2 R3))].
Qed.

(** The bytes a decoded header was read from. *)
Lemma ber_decode_ok_stream (ber ber1 : csm_ber) (a a1 : csm_array) :
  csm_ber_decode ber a = (true, ber1, a1) ->
  exists rest,
    unread_bytes a = tag_tag ber1 :: rest
    /\ (Z.land (tag_tag ber1) 0x1F = 0x1F ->
        exists rest', rest = tag_ext ber1 :: rest').
Proof.
  unfold csm_ber_decode. cbv beta iota zeta.
  pose proof (read_u8_stream a 0) as S1.
  destruct (unread_bytes a) as [|t rest]; [rewrite S1; discriminate|].
  destruct S1 as [-> S1]. cbn [negb tag_id tag_tag tag_ext tag_isPrimitive
                                 length_length].
  destruct (Z.eqb_spec (Z.land t 31) 31) as [Ht|Ht].
  - pose proof (read_u8_stream (set_rd_index a (S (rd_index a))) 0) as S2.
    rewrite S1 in S2.
    destruct rest as [|e rest]; [rewrite S2; discriminate|].
    destruct S2 as [-> S2]. cbn [negb].
    match goal with
    | |- context [csm_array_read_u8 ?x 0] => destruct (csm_array_read_u8 x 0)
                                                as [[ok3 l] a4]
    end.
    destruct ok3; cbn [negb]; [|discriminate].
    destruct (l <? 128).
    + intros [= <- _]. cbn. eexists; split; [reflexivity|eauto].
    + destruct (_ || _); [discriminate|].
      destruct (read_be _ 0 a4) as [[ok4 v] a5].
      destruct ok4; [|discriminate].
      intros [= <- _]. cbn. eexists; split; [reflexivity|eauto].
  - cbn [negb].
    match goal with
    | |- context [csm_array_read_u8 ?x 0] => destruct (csm_array_read_u8 x 0)
                                                as [[ok3 l] a4]
    end.
    destruct ok3; cbn [negb]; [|discriminate].
    destruct (l <? 128).
    + intros [= <- _]. cbn. eexists; split; [reflexivity|].
      intros C. contradiction.
    + destruct (_ || _); [discriminate|].
      destruct (read_be _ 0 a4) as [[ok4 v] a5].
      destruct ok4; [|discriminate].
      intros [= <- _]. cbn. eexists; split; [reflexivity|].
      intros C. contradiction.
Qed.

Lemma axdr_rd_null_stream (a : csm_array) :
  match unread_bytes a with
  | [] => csm_axdr_rd_null a = (false, a)
  | b :: rest =>
      csm_axdr_rd_null a
      = (b =? AXDR_TAG_NULL, set_rd_index a (S (rd_index a)))
      /\ unread_bytes (set_rd_index a (S (rd_index a))) = rest
  end.
Proof.
  unfold csm_axdr_rd_null. pose proof (read_u8_stream a 0) as S.
  destruct (unread_bytes a) as [|b rest]; [rewrite S; reflexivity|].
  destruct S as [-> S]. split; [reflexivity|exact S].
Qed.

(** Once [valid] is 0 the InitiateRequest is refused. *)
Lemma initiate_request_invalid (state : csm_asso_state) (ber1 : csm_ber)
  (a' : csm_array) (byte : Z) (P : Prop) :
  res_code
    (let '(valid, ber1, array4) := (false, ber1, a') in
     if (tag_tag ber1 =? 0x5F) && (tag_ext ber1 =? 31) then
       if length_length ber1 =? 4 then
         let '(valid, byte, array5) := and_read_u8 valid byte array4 in
         let valid := valid && (byte =? 0) in
         let state1 := set_proposed_conformance state (Z.shiftl byte 16) in
         let '(valid, byte, array6) := and_read_u8 valid byte array5 in
         let state2 :=
           set_proposed_conformance state1
             (proposed_conformance (handshake state1) + Z.shiftl byte 8) in
         let '(valid, byte, array7) := and_read_u8 valid byte array6 in
         let state3 :=
           set_proposed_conformance state2
             (proposed_conformance (handshake state2) + byte) in
         let '(valid, pdu_size, array8) :=
           if valid
           then csm_array_read_u16 array7
                  (client_max_receive_pdu_size (handshake state3))
           else (false, client_max_receive_pdu_size (handshake state3), array7) in
         (acse_code_of valid,
          set_client_max_receive_pdu_size state3 pdu_size, ber1, array8)
       else (acse_code_of valid, state, ber1, array4)
     else (CSM_ACSE_ERR, state, ber1, array4)) = CSM_ACSE_OK -> P.
Proof.
  cbv beta iota zeta. unfold and_read_u8. cbn [andb fst snd].
  destruct (_ && _); [destruct (_ =? 4)|]; cbn; discriminate.
Qed.

(** The InitiateRequest is accepted only when, after the dedicated-key
    marker, it goes on with a null response-allowed, a null quality of
    service, the version 6 and the tag 5F 1F of the conformance block. *)
Lemma initiate_request_tail_shape (state : csm_asso_state) (ber : csm_ber)
  (a : csm_array) (byte : Z) :
  res_code (initiate_request_tail state ber a byte) = CSM_ACSE_OK ->
  exists rest,
    unread_bytes a = AXDR_TAG_NULL :: AXDR_TAG_NULL :: 6 :: 0x5F :: 0x1F :: rest.
Proof.
  unfold initiate_request_tail.
  pose proof (axdr_rd_null_stream a) as S1.
  destruct (unread_bytes a) as [|b1 r1].
  { rewrite S1. unfold and_then. cbn [fst snd]. unfold and_read_u8 at 1.
    cbn [andb]. apply initiate_request_invalid. }
  destruct S1 as [-> S1].
  destruct (Z.eqb_spec b1 AXDR_TAG_NULL) as [->|N1].
  2:{ unfold and_then. cbn [fst snd]. unfold and_read_u8 at 1.
      cbn [andb]. apply initiate_request_invalid. }
  unfold and_then. cbn [fst snd].
  pose proof (axdr_rd_null_stream (set_rd_index a (S (rd_index a)))) as S2.
  rewrite S1 in S2.
  destruct r1 as [|b2 r2].
  { rewrite S2. unfold and_read_u8 at 1. cbn [andb].
    apply initiate_request_invalid. }
  destruct S2 as [-> S2].
  destruct (Z.eqb_spec b2 AXDR_TAG_NULL) as [->|N2].
  2:{ unfold and_read_u8 at 1. cbn [andb]. apply initiate_request_invalid. }
  unfold and_read_u8 at 1.
  match goal with
  | |- context [csm_array_read_u8 ?x byte] =>
      pose proof (read_u8_stream x byte) as S3
  end.
  rewrite S2 in S3.
  destruct r2 as [|b3 r3].
  { rewrite S3. cbn [andb]. apply initiate_request_invalid. }
  destruct S3 as [-> S3]. cbn [andb].
  destruct (Z.eqb_spec b3 6) as [->|N3]; [|apply initiate_request_invalid].
  match goal with
  | |- context [csm_ber_decode ber ?x] =>
      pose proof (ber_decode_ok_stream ber) as D;
      destruct (csm_ber_decode ber x) as [[ok ber1] a4] eqn:E;
      specialize (D ber1 x a4)
  end.
  destruct ok; [|apply initiate_request_invalid].
  rewrite E in D. destruct (D eq_refl) as (r4 & U4 & Hext).
  rewrite S3 in U4.
  destruct (Z.eqb_spec (tag_tag ber1) 0x5F) as [T|T]; [|cbn; discriminate].
  destruct (Z.eqb_spec (tag_ext ber1) 31) as [X|X]; [|cbn; discriminate].
  intros _. rewrite T in *. destruct (Hext eq_refl) as (r5 & ->).
  rewrite X in U4. exists r5. rewrite U4. reflexivity.
Qed.

(** X7.  What a user-information field must hold to be accepted.  The
    decoder succeeds only on an octet string that opens with the
    discriminator of the InitiateRequest, any byte as dedicated-key
    marker, a null response-allowed, a null quality of service, the
    DLMS version 6 and the two tag bytes 5F 1F of the conformance
    block. *)
Theorem user_info_decoder_requires_version_6 (state : csm_asso_state)
  (ber : csm_ber) (a : csm_array) :
  res_code (acse_user_info_decoder state ber a) = CSM_ACSE_OK ->
  exists ber1 a1 marker rest,
    csm_ber_decode ber a = (true, ber1, a1)
    /\ tag_id ber1 = BER_TYPE_OCTET_STRING
    /\ unread_bytes a1
       = [AXDR_INITIATE_REQUEST; marker; AXDR_TAG_NULL; AXDR_TAG_NULL; 6;
          0x5F; 0x1F] ++ rest.
Proof.
  unfold acse_user_info_decoder.
  destruct (csm_ber_decode ber a) as [[ok ber1] a1] eqn:ED.
  destruct ok; [|cbn; discriminate].
  destruct (Z.eqb_spec (tag_id ber1) BER_TYPE_OCTET_STRING) as [Hid|];
    [|cbn; discriminate].
  pose proof (read_u8_stream a1 0) as S1.
  destruct (unread_bytes a1) as [|d r1] eqn:U1; [rewrite S1; cbn; discriminate|].
  destruct S1 as [-> S1].
  destruct (Z.eqb_spec d AXDR_INITIATE_REQUEST) as [->|]; [|cbn; discriminate].
  match goal with
  | |- context [csm_array_read_u8 ?x ?b] =>
      pose proof (read_u8_stream x b) as S2
  end.
  rewrite S1 in S2.
  destruct r1 as [|m r2].
  - rewrite S2. intros Hok.
    destruct (initiate_request_tail_shape _ _ _ _ Hok) as (rest & Hu).
    rewrite S1 in Hu. discriminate.
  - destruct S2 as [-> S2]. intros Hok.
    destruct (initiate_request_tail_shape _ _ _ _ Hok) as (rest & Hu).
    rewrite S2 in Hu. subst r2.
    exists ber1, a1, m, rest.
    split; [reflexivity|]. split; [exact Hid|].
    rewrite U1, Hu. reflexivity.
Qed.

(** X8.  The user-information decoder writes to the proposed conformance
    and to the PDU size of the client, and to nothing else of the
    association state, whether it succeeds or fails. *)
Theorem user_info_decoder_touches_only_the_proposal (state : csm_asso_state)
  (ber : csm_ber) (a : csm_array) :
  let state' := res_state (acse_user_info_decoder state ber a) in
  state_cf state' = state_cf state
  /\ ref state' = ref state
  /\ auth_level state' = auth_level state
  /\ client_app_title state' = client_app_title state
  /\ config state' = config state
  /\ ctos (handshake state') = ctos (handshake state)
  /\ stoc (handshake state') = stoc (handshake state)
  /\ result (handshake state') = result (handshake state).
Proof.
  unfold acse_user_info_decoder.
  destruct (csm_ber_decode ber a) as [[ok ber1] a1].
  destruct ok; [|cbn; repeat split].
  destruct (tag_id ber1 =? BER_TYPE_OCTET_STRING); [|cbn; repeat split].
  destruct (csm_array_read_u8 a1 0) as [[ok1 byte] a2].
  destruct ok1; [|cbn; repeat split].
  destruct (byte =? AXDR_INITIATE_REQUEST); [|cbn; repeat split].
  destruct (csm_array_read_u8 a2 byte) as [[ok2 byte2] a3].
  unfold initiate_request_tail.
  destruct (csm_axdr_rd_null a3) as [v1 a4].
  destruct ((v1, a4) &&> csm_axdr_rd_null) as [v2 a5].
  destruct (and_read_u8 v2 byte2 a5) as [[v3 b3] a6].
  destruct (if v3 && (b3 =? 6) then csm_ber_decode ber1 a6 else (false, ber1, a6))
    as [[v4 ber2] a7].
  destruct (_ && _); [|cbn; repeat split].
  destruct (_ =? 4); [|cbn; repeat split].
  destruct (and_read_u8 v4 b3 a7) as [[v5 b5] a8].
  destruct (and_read_u8 (v5 && (b5 =? 0)) b5 a8) as [[v6 b6] a9].
  cbv zeta.
  destruct (and_read_u8 v6 b6 a9) as [[v7 b7] a10].
  match goal with
  | |- context [if v7 then ?x else ?y] => destruct (if v7 then x else y)
                                             as [[v8 p] a11]
  end.
  cbn. repeat split.
Qed.

Lemma axdr_rd_null_holds (a : csm_array) (b : Z) (rest : list Z) :
  holds a (b :: rest) ->
  exists a', csm_axdr_rd_null a = (b =? AXDR_TAG_NULL, a')
             /\ holds a' rest /\ reads a a'.
Proof.
  intros H. destruct (read_u8_holds a 0 b rest H) as (a' & E & H' & R).
  exists a'. unfold csm_axdr_rd_null. rewrite E. auto.
Qed.

(** X9.  A refused user-information field can leave its mark.  When the
    conformance block announces a number [u] of unused bits that is not 0,
    the decoding fails, yet the proposed conformance of the association
    has been overwritten: by then the local byte holds [u], the two reads
    that follow are not made, and the three bytes added up are [u] three
    times.  The PDU size of the client is not read. *)
Theorem user_info_decoder_failure_overwrites_proposal
  (state : csm_asso_state) (ber : csm_ber) (a : csm_array)
  (t l marker u : Z) (rest : list Z) :
  holds a (t :: l :: AXDR_INITIATE_REQUEST :: marker :: AXDR_TAG_NULL
             :: AXDR_TAG_NULL :: 6 :: 0x5F :: 0x1F :: 4 :: u :: rest) ->
  Z.land t 0x1F = BER_TYPE_OCTET_STRING -> l < 0x80 -> u <> 0 ->
  let r := acse_user_info_decoder state ber a in
  res_code r = CSM_ACSE_ERR
  /\ proposed_conformance (handshake (res_state r))
     = Z.shiftl u 16 + Z.shiftl u 8 + u
  /\ client_max_receive_pdu_size (handshake (res_state r))
     = client_max_receive_pdu_size (handshake state)
  /\ holds (res_array r) rest.
Proof.
  intros H Ht Hl Hu.
  assert (E : exists s' b' a',
             acse_user_info_decoder state ber a = (CSM_ACSE_ERR, s', b', a')
             /\ proposed_conformance (handshake s')
                = Z.shiftl u 16 + Z.shiftl u 8 + u
             /\ client_max_receive_pdu_size (handshake s')
                = client_max_receive_pdu_size (handshake state)
             /\ holds a' rest);
    [|destruct E as (s' & b' & a' & E0 & E1 & E2 & E3); cbv zeta; rewrite E0;
      split; [reflexivity|split; [exact E1|split; [exact E2|exact E3]]]].
  unfold acse_user_info_decoder.
  destruct (ber_decode_holds ber a t l _ H) as (a1 & E1 & H1 & _);
    [rewrite Ht; discriminate|lia|].
  rewrite E1. cbn [tag_id]. rewrite Ht.
  cbn [Z.eqb BER_TYPE_OCTET_STRING Pos.eqb].
  destruct (read_u8_holds a1 0 _ _ H1) as (a2 & E2 & H2 & _).
  rewrite E2. rewrite Z.eqb_refl.
  match goal with
  | |- context [csm_array_read_u8 a2 ?b] =>
      destruct (read_u8_holds a2 b _ _ H2) as (a3 & E3 & H3 & _)
  end.
  rewrite E3. unfold initiate_request_tail.
  destruct (axdr_rd_null_holds a3 _ _ H3) as (a4 & E4 & H4 & _).
  rewrite E4. unfold and_then. cbn [fst snd Z.eqb AXDR_TAG_NULL].
  destruct (axdr_rd_null_holds a4 _ _ H4) as (a5 & E5 & H5 & _).
  rewrite E5. cbn [fst snd Z.eqb AXDR_TAG_NULL]. unfold and_read_u8 at 1.
  match goal with
  | |- context [csm_array_read_u8 a5 ?b] =>
      destruct (read_u8_holds a5 b _ _ H5) as (a6 & E6 & H6 & _)
  end.
  rewrite E6. cbn [andb Z.eqb Pos.eqb].
  match goal with
  | |- context [csm_ber_decode ?b a6] =>
      destruct (ber_decode_holds_long b a6 0x5F 0x1F 4 _ H6)
        as (a7 & E7 & H7 & _); [reflexivity|lia|]
  end.
  rewrite E7. cbn [tag_tag tag_ext length_length Z.eqb Pos.eqb andb].
  unfold and_read_u8 at 1.
  match goal with
  | |- context [csm_array_read_u8 a7 ?b] =>
      destruct (read_u8_holds a7 b _ _ H7) as (a8 & E8 & H8 & _)
  end.
  rewrite E8. apply Z.eqb_neq in Hu. rewrite Hu. cbn [andb].
  unfold and_read_u8. cbv beta iota zeta.
  eexists; eexists; eexists. split; [reflexivity|].
  split; [reflexivity|]. split; [reflexivity|exact H8].
Qed.

(* ---------------------------------------------------------------------- *)
(** ** What the decoding keeps *)
(* ---------------------------------------------------------------------- *)

(** A property of the pair of the association state and the cursor that
    is kept by the header decoder and by every field decoder of a table is
    kept by the decoding loop over that table. *)
Lemma decoder_loop_keeps
  (R : csm_asso_state -> csm_array -> csm_asso_state -> csm_array -> Prop) :
  (forall s a, R s a s a) ->
  (forall s a s1 a1 s2 a2, R s a s1 a1 -> R s1 a1 s2 a2 -> R s a s2 a2) ->
  (forall s b a, R s a s (snd (csm_ber_decode b a))) ->
  forall chain,
    Forall (fun codec => forall f, extract_func codec = Some f ->
              forall s b a, R s a (res_state (f s b a)) (res_array (f s b a)))
           chain ->
    forall ret s b a,
      R s a (res_state (decoder_loop chain ret s b a))
            (res_array (decoder_loop chain ret s b a)).
Proof.
  intros Rrefl Rtrans Rhdr chain Hall.
  induction Hall as [|codec rest Hc Hrest IH]; intros ret s b a.
  - apply Rrefl.
  - cbn [decoder_loop].
    assert (Hbody : forall more,
               R s a (res_state (decoder_body codec more ret s b a))
                     (res_array (decoder_body codec more ret s b a))).
    { intros more. unfold decoder_body.
      destruct ret; [|apply Rrefl].
      destruct (tag_tag b =? codec_tag codec); [|apply Rrefl].
      destruct (extract_func codec) as [f|].
      - specialize (Hc f eq_refl s b a). unfold res_state, res_array in *.
        destruct (f s b a) as [[[code s1] b1] a1]. cbn [fst snd] in *.
        cbv beta iota zeta.
        destruct (_ && more).
        + pose proof (Rhdr s1 b1 a1) as Hh.
          destruct (csm_ber_decode b1 a1) as [[r3 b2] a2]. cbn [fst snd] in *.
          exact (Rtrans _ _ _ _ _ _ Hc Hh).
        + exact Hc.
      - cbv beta iota zeta.
        destruct (_ && more).
        + pose proof (Rhdr s b a) as Hh.
          destruct (csm_ber_decode b a) as [[r3 b2] a2]. exact Hh.
        + apply Rrefl. }
    specialize (Hbody (negb (Nat.eqb (length rest) 0))).
    unfold res_state, res_array in *.
    destruct (decoder_body codec _ ret s b a) as [[[r1 s1] b1] a1].
    cbn [fst snd] in *.
    destruct r1; cbn [negb]; [|exact Hbody].
    exact (Rtrans _ _ _ _ _ _ Hbody (IH true s1 b1 a1)).
Qed.

Lemma csm_asso_decoder_keeps
  (R : csm_asso_state -> csm_array -> csm_asso_state -> csm_array -> Prop) :
  (forall s a, R s a s a) ->
  (forall s a s1 a1 s2 a2, R s a s1 a1 -> R s1 a1 s2 a2 -> R s a s2 a2) ->
  (forall s b a, R s a s (snd (csm_ber_decode b a))) ->
  Forall (fun codec => forall f, extract_func codec = Some f ->
            forall s b a, R s a (res_state (f s b a)) (res_array (f s b a)))
         aarq_codec_chain ->
  forall state ber a,
    R state a (snd (fst (csm_asso_decoder state ber a)))
              (snd (csm_asso_decoder state ber a)).
Proof.
  intros Rrefl Rtrans Rhdr Hall state ber a. unfold csm_asso_decoder.
  pose proof (Rhdr state ber a) as H1.
  destruct (csm_ber_decode ber a) as [[r0 ber1] a1]. cbn [snd] in H1.
  destruct (_ || _); [exact H1|].
  pose proof (Rhdr state ber1 a1) as H2.
  destruct (csm_ber_decode ber1 a1) as [[r ber2] a2]. cbn [snd] in H2.
  pose proof (decoder_loop_keeps R Rrefl Rtrans Rhdr _ Hall r state ber2 a2) as H3.
  unfold res_state, res_array in H3.
  destruct (decoder_loop aarq_codec_chain r state ber2 a2) as [[[r1 s1] b1] a3].
  cbn [fst snd] in *.
  exact (Rtrans _ _ _ _ _ _ (Rtrans _ _ _ _ _ _ H1 H2) H3).
Qed.

(* ---------------------------------------------------------------------- *)
(** ** The decoders only consume *)
(* ---------------------------------------------------------------------- *)

Lemma consumes_refl (a : csm_array) : consumes a a.
Proof. unfold consumes. repeat split; lia. Qed.

Lemma consumes_trans (a b c : csm_array) :
  consumes a b -> consumes b c -> consumes a c.
Proof.
  unfold consumes. intros (B1 & W1 & L1 & U1) (B2 & W2 & L2 & U2).
  repeat split; try congruence; lia.
Qed.

Lemma read_u8_consumes (a : csm_array) (byte : Z) :
  consumes a (snd (csm_array_read_u8 a byte)).
Proof.
  unfold csm_array_read_u8.
  destruct (Nat.ltb_spec (rd_index a) (wr_index a)); [|apply consumes_refl].
  destruct (nth_error _ _); [|apply consumes_refl].
  unfold consumes. cbn. repeat split; lia.
Qed.

Lemma read_u16_consumes (a : csm_array) (v : Z) :
  consumes a (snd (csm_array_read_u16 a v)).
Proof.
  unfold csm_array_read_u16, csm_array_unread.
  destruct (Nat.leb_spec 2 (wr_index a - rd_index a)); [|apply consumes_refl].
  destruct (nth_error _ _); [|apply consumes_refl].
  destruct (nth_error _ _); [|apply consumes_refl].
  unfold consumes. cbn. repeat split; lia.
Qed.

Lemma read_buff_consumes (a : csm_array) (dst : list Z) (n : nat) :
  consumes a (snd (csm_array_read_buff a dst n)).
Proof.
  unfold csm_array_read_buff, csm_array_unread.
  destruct (Nat.leb_spec n (wr_index a - rd_index a)); [|apply consumes_refl].
  destruct (_ <=? _)%nat; [|apply consumes_refl].
  unfold consumes. cbn. repeat split; lia.
Qed.

Lemma reader_jump_consumes (a : csm_array) (n : nat) :
  consumes a (snd (csm_array_reader_jump a n)).
Proof.
  unfold csm_array_reader_jump, csm_array_unread.
  destruct (Nat.leb_spec n (wr_index a - rd_index a)); [|apply consumes_refl].
  unfold consumes. cbn. repeat split; lia.
Qed.

Lemma read_be_consumes (n : nat) (acc : Z) (a : csm_array) :
  consumes a (snd (read_be n acc a)).
Proof.
  revert acc a. induction n as [|n IH]; intros acc a; cbn [read_be].
  - apply consumes_refl.
  - pose proof (read_u8_consumes a 0) as H.
    destruct (csm_array_read_u8 a 0) as [[ok b] a1]. cbn [snd] in H.
    destruct ok; [|exact H].
    exact (consumes_trans _ _ _ H (IH _ a1)).
Qed.

Ltac consumes_step :=
  match goal with
  | |- context [csm_array_read_u8 ?a ?b] =>
      let H := fresh "Hc" in
      pose proof (read_u8_consumes a b) as H;
      destruct (csm_array_read_u8 a b) as [[? ?] ?]; cbn [fst snd] in H
  | |- context [csm_array_read_u16 ?a ?b] =>
      let H := fresh "Hc" in
      pose proof (read_u16_consumes a b) as H;
      destruct (csm_array_read_u16 a b) as [[? ?] ?]; cbn [fst snd] in H
  | |- context [csm_array_read_buff ?a ?b ?n] =>
      let H := fresh "Hc" in
      pose proof (read_buff_consumes a b n) as H;
      destruct (csm_array_read_buff a b n) as [[? ?] ?]; cbn [fst snd] in H
  | |- context [csm_array_reader_jump ?a ?n] =>
      let H := fresh "Hc" in
      pose proof (reader_jump_consumes a n) as H;
      destruct (csm_array_reader_jump a n) as [? ?]; cbn [fst snd] in H
  | |- context [read_be ?n ?acc ?a] =>
      let H := fresh "Hc" in
      pose proof (read_be_consumes n acc a) as H;
      destruct (read_be n acc a) as [[? ?] ?]; cbn [fst snd] in H
  | |- context [if ?c then _ else _] => destruct c
  end; cbv beta iota zeta.

Ltac consumes_done :=
  cbn [fst snd res_array];
  repeat match goal with
         | H : consumes ?x ?y, H' : consumes ?y ?z |- _ =>
             pose proof (consumes_trans _ _ _ H H'); clear H'
         end;
  first [ assumption | apply consumes_refl
        | unfold consumes in *;
          repeat match goal with H : _ /\ _ |- _ => destruct H end;
          repeat split; first [congruence | lia] ].

Lemma ber_decode_consumes (ber : csm_ber) (a : csm_array) :
  consumes a (snd (csm_ber_decode ber a)).
Proof.
  unfold csm_ber_decode. cbv beta iota zeta.
  repeat consumes_step; consumes_done.
Qed.

Lemma decode_object_identifier_consumes (oid : ber_object_identifier)
  (a : csm_array) :
  consumes a (snd (csm_ber_decode_object_identifier oid a)).
Proof.
  unfold csm_ber_decode_object_identifier. cbv beta iota zeta.
  repeat consumes_step; consumes_done.
Qed.

Lemma axdr_rd_null_consumes (a : csm_array) :
  consumes a (snd (csm_axdr_rd_null a)).
Proof.
  unfold csm_axdr_rd_null. cbv beta iota zeta.
  repeat consumes_step; consumes_done.
Qed.

Ltac consumes_step2 :=
  match goal with
  | |- context [csm_ber_decode ?b ?a] =>
      let H := fresh "Hc" in
      pose proof (ber_decode_consumes b a) as H;
      destruct (csm_ber_decode b a) as [[? ?] ?]; cbn [fst snd] in H
  | |- context [csm_ber_decode_object_identifier ?b ?a] =>
      let H := fresh "Hc" in
      pose proof (decode_object_identifier_consumes b a) as H;
      destruct (csm_ber_decode_object_identifier b a) as [[? ?] ?];
      cbn [fst snd] in H
  | |- context [csm_axdr_rd_null ?a] =>
      let H := fresh "Hc" in
      pose proof (axdr_rd_null_consumes a) as H;
      destruct (csm_axdr_rd_null a) as [? ?]; cbn [fst snd] in H
  end; cbv beta iota zeta.

Ltac consumes_auto :=
  cbv beta iota zeta;
  repeat first [consumes_step2 | consumes_step];
  consumes_done.

Lemma acse_proto_version_decoder_consumes (s : csm_asso_state) (b : csm_ber)
  (a : csm_array) : consumes a (res_array (acse_proto_version_decoder s b a)).
Proof. unfold acse_proto_version_decoder. consumes_auto. Qed.

Lemma acse_app_context_decoder_consumes (s : csm_asso_state) (b : csm_ber)
  (a : csm_array) : consumes a (res_array (acse_app_context_decoder s b a)).
Proof. unfold acse_app_context_decoder. consumes_auto. Qed.

Lemma acse_oid_decoder_consumes (s : csm_asso_state) (b : csm_ber)
  (a : csm_array) : consumes a (res_array (acse_oid_decoder s b a)).
Proof. unfold acse_oid_decoder. consumes_auto. Qed.

Lemma acse_req_decoder_consumes (s : csm_asso_state) (b : csm_ber)
  (a : csm_array) : consumes a (res_array (acse_req_decoder s b a)).
Proof. unfold acse_req_decoder. consumes_auto. Qed.

Lemma acse_auth_value_decoder_consumes (s : csm_asso_state) (b : csm_ber)
  (a : csm_array) : consumes a (res_array (acse_auth_value_decoder s b a)).
Proof. unfold acse_auth_value_decoder. consumes_auto. Qed.

Lemma acse_client_system_title_decoder_consumes (s : csm_asso_state)
  (b : csm_ber) (a : csm_array) :
  consumes a (res_array (acse_client_system_title_decoder s b a)).
Proof. unfold acse_client_system_title_decoder. consumes_auto. Qed.

Lemma acse_skip_decoder_consumes (s : csm_asso_state) (b : csm_ber)
  (a : csm_array) : consumes a (res_array (acse_skip_decoder s b a)).
Proof.
  unfold acse_skip_decoder. destruct (tag_isPrimitive b); cbn [res_array snd].
  - apply reader_jump_consumes.
  - apply consumes_refl.
Qed.

Lemma acse_user_info_decoder_consumes (s : csm_asso_state) (b : csm_ber)
  (a : csm_array) : consumes a (res_array (acse_user_info_decoder s b a)).
Proof.
  unfold acse_user_info_decoder, initiate_request_tail, and_read_u8, and_then.
  cbv beta iota zeta.
  pose proof (ber_decode_consumes b a) as H1.
  destruct (csm_ber_decode b a) as [[ok b1] a1]. cbn [snd] in H1.
  destruct ok; [|consumes_done].
  destruct (tag_id b1 =? BER_TYPE_OCTET_STRING); [|consumes_done].
  pose proof (read_u8_consumes a1 0) as H2.
  destruct (csm_array_read_u8 a1 0) as [[ok1 byte] a2]. cbn [snd] in H2.
  destruct ok1; [|consumes_done].
  destruct (byte =? AXDR_INITIATE_REQUEST); [|consumes_done].
  pose proof (read_u8_consumes a2 byte) as H3.
  destruct (csm_array_read_u8 a2 byte) as [[ok2 byte2] a3]. cbn [snd] in H3.
  pose proof (consumes_trans _ _ _ H1 (consumes_trans _ _ _ H2 H3)) as H4.
  clear H1 H2 H3.
  apply (consumes_trans _ _ _ H4). clear H4.
  consumes_auto.
Qed.

(* ---------------------------------------------------------------------- *)
(** ** What the decoders do to the association state *)
(* ---------------------------------------------------------------------- *)

Lemma decoded_from_refl (s : csm_asso_state) : decoded_from s s.
Proof. unfold decoded_from. repeat split; auto. Qed.

Lemma decoded_from_trans (s1 s2 s3 : csm_asso_state) :
  decoded_from s1 s2 -> decoded_from s2 s3 -> decoded_from s1 s3.
Proof.
  unfold decoded_from.
  intros (A1 & A2 & A3 & A4 & A5 & A6 & A7) (B1 & B2 & B3 & B4 & B5 & B6 & B7).
  split; [congruence|]. split; [congruence|]. split; [congruence|].
  split; [congruence|]. split; [|split].
  - destruct B5 as [B5|B5]; [rewrite B5; exact A5|right; exact B5].
  - destruct B6 as [B6|B6]; [rewrite B6; exact A6|right; exact B6].
  - destruct B7 as [B7|B7]; [rewrite B7; exact A7|right; exact B7].
Qed.

Ltac break_match :=
  match goal with
  | |- context [match ?x with _ => _ end] => destruct x
  end; cbv beta iota zeta.

Ltac one_of :=
  first [ reflexivity | assumption | lia | left; one_of | right; one_of ].

Ltac decoded_done :=
  first [ apply decoded_from_refl
        | unfold decoded_from; cbn;
          repeat match goal with |- _ /\ _ => split end; one_of ].

Lemma acse_proto_version_decoder_state (s : csm_asso_state) (b : csm_ber)
  (a : csm_array) : decoded_from s (res_state (acse_proto_version_decoder s b a)).
Proof. unfold acse_proto_version_decoder. repeat break_match; decoded_done. Qed.

Lemma acse_app_context_decoder_state (s : csm_asso_state) (b : csm_ber)
  (a : csm_array) : decoded_from s (res_state (acse_app_context_decoder s b a)).
Proof. unfold acse_app_context_decoder. repeat break_match; decoded_done. Qed.

Lemma acse_oid_decoder_state (s : csm_asso_state) (b : csm_ber)
  (a : csm_array) : decoded_from s (res_state (acse_oid_decoder s b a)).
Proof.
  unfold acse_oid_decoder. cbv beta iota zeta.
  destruct (csm_ber_decode_object_identifier _ a) as [[ok oid1] a1].
  repeat break_match; decoded_done.
Qed.

Lemma acse_req_decoder_state (s : csm_asso_state) (b : csm_ber)
  (a : csm_array) : decoded_from s (res_state (acse_req_decoder s b a)).
Proof. unfold acse_req_decoder. repeat break_match; decoded_done. Qed.

Lemma acse_auth_value_decoder_state (s : csm_asso_state) (b : csm_ber)
  (a : csm_array) : decoded_from s (res_state (acse_auth_value_decoder s b a)).
Proof.
  unfold acse_auth_value_decoder.
  destruct (csm_ber_decode b a) as [[ok b1] a1].
  destruct ok; [|decoded_done].
  destruct (Z.leb_spec CSM_DEF_LLS_SIZE (length_length b1)); [|decoded_done].
  destruct (Z.leb_spec (length_length b1) CSM_DEF_CHALLENGE_SIZE);
    [|decoded_done].
  cbn [andb].
  destruct (tag_tag b1 =? TAG_CONTEXT_SPECIFIC); [|decoded_done].
  destruct (csm_array_read_buff a1 _ _) as [[okb value] a2].
  destruct okb; [|decoded_done].
  unfold decoded_from. cbn.
  repeat match goal with |- _ /\ _ => split end; one_of.
Qed.

Lemma acse_client_system_title_decoder_state (s : csm_asso_state)
  (b : csm_ber) (a : csm_array) :
  decoded_from s (res_state (acse_client_system_title_decoder s b a)).
Proof.
  unfold acse_client_system_title_decoder.
  destruct (csm_ber_decode b a) as [[ok b1] a1].
  repeat break_match; decoded_done.
Qed.

Lemma acse_skip_decoder_state (s : csm_asso_state) (b : csm_ber)
  (a : csm_array) : decoded_from s (res_state (acse_skip_decoder s b a)).
Proof. unfold acse_skip_decoder. repeat break_match; decoded_done. Qed.

Lemma acse_user_info_decoder_state (s : csm_asso_state) (b : csm_ber)
  (a : csm_array) : decoded_from s (res_state (acse_user_info_decoder s b a)).
Proof.
  unfold acse_user_info_decoder.
  destruct (csm_ber_decode b a) as [[ok ber1] a1].
  destruct ok; [|decoded_done].
  destruct (tag_id ber1 =? BER_TYPE_OCTET_STRING); [|decoded_done].
  destruct (csm_array_read_u8 a1 0) as [[ok1 byte] a2].
  destruct ok1; [|decoded_done].
  destruct (byte =? AXDR_INITIATE_REQUEST); [|decoded_done].
  destruct (csm_array_read_u8 a2 byte) as [[ok2 byte2] a3].
  unfold initiate_request_tail.
  destruct (csm_axdr_rd_null a3) as [v1 a4].
  destruct ((v1, a4) &&> csm_axdr_rd_null) as [v2 a5].
  destruct (and_read_u8 v2 byte2 a5) as [[v3 b3] a6].
  destruct (if v3 && (b3 =? 6) then csm_ber_decode ber1 a6 else (false, ber1, a6))
    as [[v4 ber2] a7].
  destruct (_ && _); [|decoded_done].
  destruct (_ =? 4); [|decoded_done].
  destruct (and_read_u8 v4 b3 a7) as [[v5 b5] a8].
  destruct (and_read_u8 (v5 && (b5 =? 0)) b5 a8) as [[v6 b6] a9].
  cbv zeta.
  destruct (and_read_u8 v6 b6 a9) as [[v7 b7] a10].
  match goal with
  | |- context [if v7 then ?x else ?y] => destruct (if v7 then x else y)
                                             as [[v8 p] a11]
  end.
  unfold decoded_from. cbn.
  repeat match goal with |- _ /\ _ => split end; one_of.
Qed.

Lemma aarq_codec_chain_keeps :
  Forall (fun codec => forall f, extract_func codec = Some f ->
            forall s b a,
              decoded_from s (res_state (f s b a))
              /\ consumes a (res_array (f s b a)))
         aarq_codec_chain.
Proof.
  unfold aarq_codec_chain.
  repeat (apply Forall_cons;
          [ cbn [extract_func]; intros f [= <-] s b a; split;
            [ first [ apply acse_proto_version_decoder_state
                    | apply acse_app_context_decoder_state
                    | apply acse_oid_decoder_state
                    | apply acse_skip_decoder_state
                    | apply acse_client_system_title_decoder_state
                    | apply acse_req_decoder_state
                    | apply acse_auth_value_decoder_state
                    | apply acse_user_info_decoder_state ]
            | first [ apply acse_proto_version_decoder_consumes
                    | apply acse_app_context_decoder_consumes
                    | apply acse_oid_decoder_consumes
                    | apply acse_skip_decoder_consumes
                    | apply acse_client_system_title_decoder_consumes
                    | apply acse_req_decoder_consumes
                    | apply acse_auth_value_decoder_consumes
                    | apply acse_user_info_decoder_consumes ] ] | ]).
  apply Forall_nil.
Qed.

Lemma csm_asso_decoder_keeps_both (state : csm_asso_state) (ber : csm_ber)
  (a : csm_array) :
  decoded_from state (snd (fst (csm_asso_decoder state ber a)))
  /\ consumes a (snd (csm_asso_decoder state ber a)).
Proof.
  apply (csm_asso_decoder_keeps
           (fun s a s' a' => decoded_from s s' /\ consumes a a')).
  - intros s x. split; [apply decoded_from_refl|apply consumes_refl].
  - intros s x s1 x1 s2 x2 [A1 A2] [B1 B2].
    split; [exact (decoded_from_trans _ _ _ A1 B1)
           |exact (consumes_trans _ _ _ A2 B2)].
  - intros s b x. split; [apply decoded_from_refl|apply ber_decode_consumes].
  - exact aarq_codec_chain_keeps.
Qed.

(** X10.  The decoding of a packet only consumes it.  Whatever the packet
    and whatever the outcome, the decoder leaves the bytes of the buffer
    and the write position as they were, and moves the read position
    forward only, never past the write position (when it was before it). *)
Theorem decoder_only_consumes (state : csm_asso_state) (ber : csm_ber)
  (a : csm_array) :
  let a' := snd (csm_asso_decoder state ber a) in
  buff a' = buff a
  /\ wr_index a' = wr_index a
  /\ (rd_index a <= rd_index a')%nat
  /\ ((rd_index a <= wr_index a)%nat -> (rd_index a' <= wr_index a)%nat).
Proof.
  destruct (csm_asso_decoder_keeps_both state ber a) as [_ (B & W & L & U)].
  cbv zeta. split; [exact B|]. split; [exact W|]. split; [exact L|].
  intros Hle. lia.
Qed.

(** X11.  What the decoding of a packet can negotiate.  Whatever the
    packet and whatever the outcome, the decoder leaves the connection
    state, the configuration, the server-to-client challenge and the
    result of the handshake as they were.  The referencing it leaves is
    the former one or one of the four known application contexts; the
    authentication level is the former one, low-level or high-level GMAC;
    the client-to-server challenge is the former one or has a size within
    the bounds of the configuration, so a challenge size that fitted the
    buffer of the challenge still fits it. *)
Theorem decoder_negotiates_only_known_values (state : csm_asso_state)
  (ber : csm_ber) (a : csm_array) :
  let state' := snd (fst (csm_asso_decoder state ber a)) in
  decoded_from state state'
  /\ (In (ref state) [NO_REF; LN_REF; SN_REF; LN_REF_WITH_CYPHERING;
                      SN_REF_WITH_CYPHERING] ->
      In (ref state') [NO_REF; LN_REF; SN_REF; LN_REF_WITH_CYPHERING;
                       SN_REF_WITH_CYPHERING])
  /\ (In (auth_level state) [CSM_AUTH_LOWEST_LEVEL; CSM_AUTH_LOW_LEVEL;
                             CSM_AUTH_HIGH_LEVEL_GMAC] ->
      In (auth_level state') [CSM_AUTH_LOWEST_LEVEL; CSM_AUTH_LOW_LEVEL;
                              CSM_AUTH_HIGH_LEVEL_GMAC])
  /\ (chal_size (ctos (handshake state)) <= CSM_DEF_CHALLENGE_SIZE ->
      chal_size (ctos (handshake state')) <= CSM_DEF_CHALLENGE_SIZE).
Proof.
  destruct (csm_asso_decoder_keeps_both state ber a) as [D _].
  cbv zeta. split; [exact D|].
  destruct D as (_ & _ & _ & _ & R & L & C).
  split; [|split].
  - intros Hin. destruct R as [->|[->|[->|[->| ->]]]];
      [exact Hin|cbn [In]; one_of ..].
  - intros Hin. destruct L as [->|[->| ->]];
      [exact Hin|cbn [In]; one_of ..].
  - intros Hle. destruct C as [->|C]; [exact Hle|lia].
Qed.

(* ---------------------------------------------------------------------- *)
(** ** The writers stay inside the storage *)
(* ---------------------------------------------------------------------- *)

Lemma write_u8_fits (a : csm_array) (v : Z) :
  fits a -> fits (snd (csm_array_write_u8 a v)).
Proof.
  unfold fits, csm_array_write_u8, array_size. intros H.
  destruct (Nat.ltb_spec (wr_index a) (length (buff a))); [|exact H].
  cbn. rewrite list_set_length. lia.
Qed.

Lemma write_buff_fits (a : csm_array) (buffer : list Z) (n : nat) :
  fits a -> fits (snd (csm_array_write_buff a buffer n)).
Proof.
  unfold fits, csm_array_write_buff, array_size. intros H.
  destruct (Nat.leb_spec (wr_index a + n) (length (buff a))); [|exact H].
  cbn. rewrite list_blit_length. lia.
Qed.

Lemma set_fits (a : csm_array) (i : nat) (v : Z) :
  fits a -> fits (snd (csm_array_set a i v)).
Proof.
  unfold fits, csm_array_set, array_size. intros H.
  destruct (_ <? _)%nat; [|exact H].
  cbn. rewrite list_set_length. exact H.
Qed.

Lemma and_then_fits (va : bool * csm_array)
  (g : csm_array -> bool * csm_array) :
  fits (snd va) -> (forall x, fits x -> fits (snd (g x))) ->
  fits (snd (va &&> g)).
Proof.
  intros H Hg. unfold and_then. destruct (fst va); [apply Hg|]; exact H.
Qed.

Lemma write_len_fits (a : csm_array) (len : Z) :
  fits a -> fits (snd (csm_ber_write_len a len)).
Proof.
  intros H. unfold csm_ber_write_len.
  destruct (len <? 128); [apply write_u8_fits; exact H|].
  destruct (len <? 256);
    repeat (apply and_then_fits; [|intros x Hx; apply write_u8_fits; exact Hx]);
    apply write_u8_fits; exact H.
Qed.

Lemma write_integer_fits (a : csm_array) (v : Z) :
  fits a -> fits (snd (csm_ber_write_integer a v)).
Proof.
  intros H. unfold csm_ber_write_integer.
  apply and_then_fits; [|intros x Hx; apply write_u8_fits; exact Hx].
  apply and_then_fits; [|intros x Hx; apply write_len_fits; exact Hx].
  apply and_then_fits; [|intros x Hx; apply write_u8_fits; exact Hx].
  apply write_len_fits; exact H.
Qed.

Lemma oid_encoder_fits (a : csm_array) (name id : Z) :
  fits a -> fits (snd (acse_oid_encoder a name id)).
Proof.
  intros H. unfold acse_oid_encoder.
  apply and_then_fits; [|intros x Hx; apply write_u8_fits; exact Hx].
  apply and_then_fits; [|intros x Hx; apply write_u8_fits; exact Hx].
  apply and_then_fits; [|intros x Hx; apply write_buff_fits; exact Hx].
  apply write_len_fits; exact H.
Qed.

Ltac fits_solve :=
  cbv beta;
  lazymatch goal with
  | |- fits (snd (and_then _ _)) =>
      apply and_then_fits; [fits_solve | intros ? ?; fits_solve]
  | |- fits (snd (csm_array_write_u8 _ _)) => apply write_u8_fits; fits_solve
  | |- fits (snd (csm_array_write_buff _ _ _)) =>
      apply write_buff_fits; fits_solve
  | |- fits (snd (csm_array_set _ _ _)) => apply set_fits; fits_solve
  | |- fits (snd (csm_ber_write_len _ _)) => apply write_len_fits; fits_solve
  | |- fits (snd (csm_ber_write_integer _ _)) =>
      apply write_integer_fits; fits_solve
  | |- fits (snd (acse_oid_encoder _ _ _)) => apply oid_encoder_fits; fits_solve
  | |- fits (snd (if ?c then _ else _)) => destruct c; fits_solve
  | |- _ => assumption
  end.

Lemma insert_fits_of_writer
  (w : csm_asso_state -> csm_array -> bool * csm_array) (f : insert_param) :
  (forall state ber a,
     f state ber a = (let '(ret, a1) := w state a in
                      (acse_code_of ret, state, ber, a1))) ->
  (forall state a, fits a -> fits (snd (w state a))) ->
  forall state ber a, fits a -> fits (res_array (f state ber a)).
Proof.
  intros Hf Hw state ber a Ha. rewrite Hf. specialize (Hw state a Ha).
  destruct (w state a) as [ret a1]. exact Hw.
Qed.

Lemma stoc_challenge_loop_fits (n : nat) :
  forall (i : nat) (va : bool * csm_array) (value : list Z),
    fits (snd va) -> fits (snd (fst (stoc_challenge_loop n i va value))).
Proof.
  induction n as [|n IH]; intros i va value H; cbn [stoc_challenge_loop].
  - exact H.
  - apply IH. fits_solve.
Qed.

Lemma aare_codec_chain_fits :
  Forall (fun codec => forall f, insert_func codec = Some f ->
            forall state ber a, fits a -> fits (res_array (f state ber a)))
         aare_codec_chain.
Proof.
  unfold aare_codec_chain.
  repeat (apply Forall_cons; [cbn [insert_func]; intros f [= <-]|]);
    [ .. | apply Forall_nil].
  - apply (insert_fits_of_writer
             (fun _ a => csm_ber_write_len a 2
                           &&> (fun a => csm_array_write_u8 a 7)
                           &&> (fun a => csm_array_write_u8 a 0x80)));
      [reflexivity|]. intros _ a H. fits_solve.
  - apply (insert_fits_of_writer (fun _ a => csm_ber_write_len a 9));
      [reflexivity|]. intros _ a H. fits_solve.
  - apply (insert_fits_of_writer
             (fun s a => acse_oid_encoder a APP_CONTEXT_NAME (ref s)));
      [reflexivity|]. intros s a H. fits_solve.
  - apply (insert_fits_of_writer
             (fun s a => csm_ber_write_integer a
                           (if cf_eqb (state_cf s) CF_IDLE then 1 else 0)));
      [reflexivity|]. intros s a H. fits_solve.
  - apply (insert_fits_of_writer
             (fun s a => csm_ber_write_len a 5
                           &&> (fun a => csm_array_write_u8 a
                                           CSM_ASSO_RESULT_SERVICE_USER)
                           &&> (fun a => csm_ber_write_integer a
                                           (result (handshake s)))));
      [reflexivity|]. intros s a H. fits_solve.
  - apply (insert_fits_of_writer
             (fun _ a => csm_ber_write_len a (CSM_DEF_APP_TITLE_SIZE + 2)
                           &&> (fun a => csm_array_write_u8 a BER_TYPE_OCTET_STRING)
                           &&> (fun a => csm_array_write_u8 a CSM_DEF_APP_TITLE_SIZE)
                           &&> (fun a => csm_array_write_buff a
                                           csm_sys_get_system_title
                                           (Z.to_nat CSM_DEF_APP_TITLE_SIZE))));
      [reflexivity|]. intros _ a H. fits_solve.
  - apply (insert_fits_of_writer
             (fun _ a => csm_ber_write_len a 2
                           &&> (fun a => csm_array_write_u8 a 7)
                           &&> (fun a => csm_array_write_u8 a 0x80)));
      [reflexivity|]. intros _ a H. fits_solve.
  - apply (insert_fits_of_writer
             (fun s a => acse_oid_encoder a SECURITY_MECHANISM_NAME
                           (auth_level s)));
      [reflexivity|]. intros s a H. fits_solve.
  - intros state ber a H. unfold acse_responder_auth_value_encoder. cbv zeta.
    match goal with
    | |- context [stoc_challenge_loop ?n ?i ?va ?value] =>
        pose proof (stoc_challenge_loop_fits n i va value) as L;
        destruct (stoc_challenge_loop n i va value) as [[valid a1] v]
    end.
    cbn [fst snd res_array] in *. apply L. fits_solve.
  - intros state ber a H. unfold acse_user_info_encoder. cbv zeta.
    match goal with
    | |- context [let '(_, _) := ?v in _] => assert (Hf : fits (snd v))
    end.
    { fits_solve. }
    match type of Hf with
    | fits (snd ?v) => destruct v as [valid a1]
    end.
    exact Hf.
Qed.

Lemma encoder_loop_fits (chain : list csm_asso_codec) :
  Forall (fun codec => forall f, insert_func codec = Some f ->
            forall state ber a, fits a -> fits (res_array (f state ber a)))
         chain ->
  forall state ber a,
    fits a -> fits (res_array (encoder_loop chain state ber a)).
Proof.
  induction 1 as [|codec chain Hc Hrest IH]; intros state ber a Ha.
  - exact Ha.
  - cbn [encoder_loop].
    destruct (insert_func codec) as [f|]; [|apply IH; exact Ha].
    destruct (negb _); [|apply IH; exact Ha].
    destruct (_ && _); [apply IH; exact Ha|].
    pose proof (write_u8_fits a (codec_tag codec) Ha) as H1.
    destruct (csm_array_write_u8 a (codec_tag codec)) as [ok a1].
    cbn [snd] in H1.
    destruct ok; [|apply IH; exact H1].
    pose proof (Hc f eq_refl state ber a1 H1) as H2. unfold res_array in H2.
    destruct (f state ber a1) as [[[code st1] b1] a2]. cbn [snd] in H2.
    destruct (negb _); [exact H2|apply IH; exact H2].
Qed.

(** What the encoder keeps, whatever its outcome: the capacity of the
    buffer and its read position; the association state up to the
    server-to-client challenge; a write position inside the storage. *)
Lemma csm_asso_encoder_frame (state : csm_asso_state) (ber : csm_ber)
  (array : csm_array) :
  let r := csm_asso_encoder state ber array in
  same_core state (snd (fst r))
  /\ array_size (snd r) = array_size array
  /\ rd_index (snd r) = rd_index array
  /\ fits (snd r).
Proof.
  unfold csm_asso_encoder.
  pose proof aare_codec_chain_grows as HG.
  pose proof aare_codec_chain_fits as HF.
  revert HG HF. generalize aare_codec_chain as chain. intros chain HG HF.
  cbv zeta.
  set (a0 := set_wr_index array 0).
  assert (F0 : fits a0) by (unfold fits; cbn; lia).
  assert (S0 : array_size a0 = array_size array) by reflexivity.
  assert (R0 : rd_index a0 = rd_index array) by reflexivity.
  clearbody a0.
  pose proof (write_u8_grows a0 CSM_ASSO_AARE) as G1.
  pose proof (write_u8_fits a0 CSM_ASSO_AARE F0) as F1.
  destruct (csm_array_write_u8 a0 CSM_ASSO_AARE) as [ok1 a1].
  cbn [fst snd] in G1, F1.
  destruct G1 as (S1 & _ & R1 & _).
  destruct ok1;
    [|cbn [fst snd]; split; [apply same_core_refl|];
      split; [congruence|split; [congruence|exact F1]]].
  pose proof (write_u8_grows a1 0) as G2.
  pose proof (write_u8_fits a1 0 F1) as F2.
  destruct (csm_array_write_u8 a1 0) as [ok2 a2]. cbn [fst snd] in G2, F2.
  destruct G2 as (S2 & _ & R2 & _).
  destruct ok2;
    [|cbn [fst snd]; split; [apply same_core_refl|];
      split; [congruence|split; [congruence|exact F2]]].
  destruct (encoder_loop_grows _ _ HG
              (aare_field_bounds_stable CSM_DEF_APP_TITLE_SIZE) state ber a2)
    as [C3 (S3 & _ & R3 & _)].
  pose proof (encoder_loop_fits _ HF state ber a2 F2) as F3.
  unfold res_state, res_array in C3, S3, R3, F3.
  destruct (encoder_loop chain state ber a2) as [[[completed st1] b1] a3].
  cbn [fst snd] in C3, S3, R3, F3.
  destruct completed; cbn [fst snd].
  - split; [exact C3|].
    pose proof (set_fits a3 1 (Z.of_nat (wr_index a3) - 2) F3) as F4.
    revert F4. unfold csm_array_set.
    destruct (_ <? _)%nat; cbn [snd]; intros F4.
    + unfold array_size in *. cbn [buff rd_index]. rewrite list_set_length.
      split; [congruence|split; [congruence|exact F4]].
    + split; [congruence|split; [congruence|exact F4]].
  - split; [exact C3|]. split; [congruence|split; [congruence|exact F3]].
Qed.

(* ---------------------------------------------------------------------- *)
(** ** The encoder and the association state *)
(* ---------------------------------------------------------------------- *)

(** When the authentication is not the high-level GMAC one, a run through
    a table whose encoders outside the security fields leave the
    association state alone leaves it alone. *)
Lemma encoder_loop_plain_state (chain : list csm_asso_codec) :
  Forall (fun codec =>
            context codec = ACSE_SEC
            \/ forall f, insert_func codec = Some f ->
                 forall s b a, res_state (f s b a) = s)
         chain ->
  forall state ber a,
    auth_level state <> CSM_AUTH_HIGH_LEVEL_GMAC ->
    res_state (encoder_loop chain state ber a) = state.
Proof.
  induction 1 as [|codec chain Hc Hrest IH]; intros state ber a Hlvl.
  - reflexivity.
  - cbn [encoder_loop].
    destruct (insert_func codec) as [f|]; [|apply IH; exact Hlvl].
    destruct (negb (acse_context_eqb (context codec) ACSE_NONE));
      [|apply IH; exact Hlvl].
    apply Z.eqb_neq in Hlvl. rewrite Hlvl. cbn [negb andb].
    apply Z.eqb_neq in Hlvl.
    destruct Hc as [Hsec|Hf].
    + rewrite Hsec. cbn [acse_context_eqb]. apply IH; exact Hlvl.
    + destruct (acse_context_eqb (context codec) ACSE_SEC);
        [apply IH; exact Hlvl|].
      destruct (csm_array_write_u8 a (codec_tag codec)) as [ok a1].
      destruct ok; [|apply IH; exact Hlvl].
      pose proof (Hf f eq_refl state ber a1) as Hs. unfold res_state in Hs.
      destruct (f state ber a1) as [[[code st1] b1] a2]. cbn [fst snd] in Hs.
      subst st1.
      destruct (negb _); [reflexivity|apply IH; exact Hlvl].
Qed.

Lemma aare_codec_chain_plain_state :
  Forall (fun codec =>
            context codec = ACSE_SEC
            \/ forall f, insert_func codec = Some f ->
                 forall s b a, res_state (f s b a) = s)
         aare_codec_chain.
Proof.
  unfold aare_codec_chain.
  repeat (apply Forall_cons;
          [first [ left; reflexivity
                 | right; cbn [insert_func]; intros f [= <-] s b a ]|]);
    [ .. | apply Forall_nil].
  - unfold acse_proto_version_encoder. destruct (_ &&> _). reflexivity.
  - unfold acse_app_context_encoder. destruct (csm_ber_write_len _ _).
    reflexivity.
  - unfold acse_oid_context_encoder. destruct (acse_oid_encoder _ _ _).
    reflexivity.
  - unfold acse_result_encoder. cbv zeta.
    destruct (csm_ber_write_integer _ _). reflexivity.
  - unfold acse_result_src_diag_encoder. destruct (_ &&> _). reflexivity.
  - unfold acse_user_info_encoder. cbv zeta. destruct (_ &&> _). reflexivity.
Qed.

(** X12.  What the AARE encoder keeps.  Whatever the association state and
    the buffer, and whether the encoding succeeds or not, the encoder
    leaves the capacity of the buffer and its read position as they were
    and a write position inside the storage.  Of the association state it
    changes at most the server-to-client challenge, and nothing at all
    when the authentication is not the high-level GMAC one. *)
Theorem encoder_changes_only_the_server_challenge (state : csm_asso_state)
  (ber : csm_ber) (array : csm_array) :
  let state' := snd (fst (csm_asso_encoder state ber array)) in
  let aare := snd (csm_asso_encoder state ber array) in
  state' = set_stoc state (stoc (handshake state'))
  /\ (auth_level state <> CSM_AUTH_HIGH_LEVEL_GMAC -> state' = state)
  /\ array_size aare = array_size array
  /\ rd_index aare = rd_index array
  /\ (wr_index aare <= array_size array)%nat.
Proof.
  destruct (csm_asso_encoder_frame state ber array) as (C & S & R & F).
  cbv zeta. split; [exact C|]. split; [|split; [exact S|split; [exact R|]]].
  - intros Hlvl. unfold csm_asso_encoder.
    pose proof aare_codec_chain_plain_state as HP. revert HP.
    generalize aare_codec_chain as chain. intros chain HP. cbv zeta.
    destruct (csm_array_write_u8 _ CSM_ASSO_AARE) as [ok1 a1].
    destruct ok1; [|reflexivity].
    destruct (csm_array_write_u8 a1 0) as [ok2 a2].
    destruct ok2; [|reflexivity].
    pose proof (encoder_loop_plain_state chain HP state ber a2 Hlvl) as Hs.
    unfold res_state in Hs.
    destruct (encoder_loop chain state ber a2) as [[[completed st1] b1] a3].
    cbn [fst snd] in Hs. subst st1.
    destruct completed; reflexivity.
  - unfold fits in F. rewrite S in F. exact F.
Qed.

(* ---------------------------------------------------------------------- *)
(** ** The dispatcher *)
(* ---------------------------------------------------------------------- *)

Lemma csm_asso_is_granted_config (state : csm_asso_state) :
  config (snd (csm_asso_is_granted state)) = config state.
Proof.
  unfold csm_asso_is_granted.
  repeat match goal with
         | |- context [if ?c then _ else _] => destruct c
         end; reflexivity.
Qed.

(** X13.  The dispatcher never touches the configuration of the
    association and never changes the capacity of the packet buffer,
    whatever the connection state, the packet and the outcome. *)
Theorem dispatcher_keeps_configuration_and_capacity (asso : csm_asso_state)
  (ber_dec ber_enc : csm_ber) (packet : csm_array) :
  let r := csm_asso_execute asso ber_dec ber_enc packet in
  config (snd (fst r)) = config asso
  /\ array_size (snd r) = array_size packet.
Proof.
  unfold csm_asso_execute.
  destruct (cf_eqb (state_cf asso) CF_IDLE).
  - destruct (csm_asso_decoder_frame asso ber_dec packet) as (_ & _ & Hc).
    pose proof (csm_asso_decoder_size asso ber_dec packet) as Hs.
    destruct (csm_asso_decoder asso ber_dec packet) as [[decoded asso1] packet1].
    cbn [fst snd] in Hc, Hs.
    destruct decoded; [|cbn; split; assumption].
    pose proof (csm_asso_is_granted_config asso1) as Hg.
    destruct (csm_asso_is_granted asso1) as [g asso2]. cbn [snd] in Hg.
    destruct (csm_asso_encoder_frame asso2 ber_enc packet1) as (C & S & _ & _).
    destruct (csm_asso_encoder asso2 ber_enc packet1) as [[encoded asso3] packet2].
    cbn [fst snd] in C, S.
    assert (Hc3 : config asso3 = config asso2) by (rewrite C; reflexivity).
    destruct encoded; cbn; split; congruence.
  - destruct (cf_eqb (state_cf asso) CF_ASSOCIATED); [|cbn; split; reflexivity].
    destruct (csm_array_get packet 0 0) as [ok byte].
    destruct ok; [|cbn; split; reflexivity].
    destruct (byte =? CSM_ASSO_RLRQ); [|cbn; split; reflexivity].
    cbn [fst snd]. split; [reflexivity|].
    destruct (write_buff_grows (set_wr_index packet 0) rlre 5) as (S & _).
    rewrite S. reflexivity.
Qed.

(** The first byte of an AARE that was encoded with success is its tag. *)
Lemma csm_asso_encoder_tag (state state' : csm_asso_state) (ber : csm_ber)
  (array aare : csm_array) :
  csm_asso_encoder state ber array = (true, state', aare) ->
  nth_error (buff aare) 0 = Some CSM_ASSO_AARE.
Proof.
  unfold csm_asso_encoder.
  pose proof aare_codec_chain_grows as HG. revert HG.
  generalize aare_codec_chain as chain. intros chain HG. cbv zeta.
  set (a0 := set_wr_index array 0).
  assert (W0 : wr_index a0 = 0%nat) by reflexivity. clearbody a0.
  assert (A1 : fst (csm_array_write_u8 a0 CSM_ASSO_AARE) = true ->
               wr_index (snd (csm_array_write_u8 a0 CSM_ASSO_AARE)) = 1%nat
               /\ nth_error (buff (snd (csm_array_write_u8 a0 CSM_ASSO_AARE))) 0
                  = Some CSM_ASSO_AARE).
  { unfold csm_array_write_u8, array_size. rewrite W0.
    destruct (Nat.ltb_spec 0 (length (buff a0))); [|discriminate].
    cbn [fst snd wr_index buff]. intros _. split; [reflexivity|].
    apply nth_error_list_set_eq. assumption. }
  destruct (csm_array_write_u8 a0 CSM_ASSO_AARE) as [ok1 a1].
  cbn [fst snd] in A1. destruct ok1; [|discriminate].
  destruct (A1 eq_refl) as [W1 N1].
  pose proof (write_u8_grows a1 0) as G2.
  destruct (csm_array_write_u8 a1 0) as [ok2 a2]. cbn [snd] in G2.
  destruct ok2; [|discriminate].
  destruct (encoder_loop_grows _ _ HG
              (aare_field_bounds_stable CSM_DEF_APP_TITLE_SIZE) state ber a2)
    as [_ G3].
  unfold res_array in G3.
  destruct (encoder_loop chain state ber a2) as [[[completed st1] b1] a3].
  cbn [snd] in G3.
  destruct completed; [|discriminate].
  intros [= _ <-].
  destruct G2 as (_ & W2 & _ & P2), G3 as (_ & _ & _ & P3).
  assert (N3 : nth_error (buff a3) 0 = Some CSM_ASSO_AARE).
  { rewrite (nth_error_of_firstn _ _ _ 0 P3) by lia.
    rewrite nth_error_firstn.
    destruct (Nat.ltb_spec 0 (wr_index a2)); [|lia].
    rewrite (nth_error_of_firstn _ _ _ 0 P2) by lia.
    rewrite nth_error_firstn.
    destruct (Nat.ltb_spec 0 (wr_index a1)); [|lia].
    exact N1. }
  unfold csm_array_set. destruct (_ <? _)%nat; cbn [snd buff]; [|exact N3].
  rewrite nth_error_list_set_neq by lia. exact N3.
Qed.

(** X14.  The reply to a packet received at rest fits the buffer.  From
    IDLE the dispatcher returns either 0 or the write position of the
    packet, which is at least 2 and never more than the capacity of the
    buffer; a reply starts with the tag 0x61 of the AARE, followed by the
    number of bytes after these two. *)
Theorem idle_reply_fits_buffer (asso : csm_asso_state)
  (ber_dec ber_enc : csm_ber) (packet : csm_array) :
  state_cf asso = CF_IDLE ->
  let r := csm_asso_execute asso ber_dec ber_enc packet in
  let n := fst (fst r) in
  0 <= n <= Z.of_nat (array_size packet)
  /\ (n <> 0 ->
      n = Z.of_nat (wr_index (snd r)) /\ 2 <= n
      /\ nth_error (buff (snd r)) 0 = Some CSM_ASSO_AARE
      /\ nth_error (buff (snd r)) 1 = Some (uint8 (n - 2))).
Proof.
  intros Hcf. unfold csm_asso_execute. rewrite Hcf. cbn [cf_eqb].
  pose proof (csm_asso_decoder_size asso ber_dec packet) as Hs.
  destruct (csm_asso_decoder asso ber_dec packet) as [[decoded asso1] packet1].
  cbn [snd] in Hs.
  destruct decoded; [|cbn; split; [lia|intros C; contradiction]].
  destruct (csm_asso_is_granted asso1) as [g asso2].
  destruct (csm_asso_encoder_frame asso2 ber_enc packet1) as (_ & S & _ & F).
  destruct (csm_asso_encoder asso2 ber_enc packet1)
    as [[encoded asso3] packet2] eqn:E.
  cbn [fst snd] in S, F.
  destruct encoded; [|cbn; split; [lia|intros C; contradiction]].
  pose proof (csm_asso_encoder_tag _ _ _ _ _ E) as T.
  destruct (csm_asso_encoder_length_byte _ _ _ _ _ E) as [[L1 _] L2].
  unfold fits in F. cbn [fst snd]. split; [lia|].
  intros _. split; [reflexivity|]. split; [lia|]. split; [exact T|exact L2].
Qed.

(** X15.  An authentication level that is none of the three the
    association layer manages.  From IDLE the authorization step refuses
    the association: the state stays IDLE and the result of the handshake
    is the code kept for unknown levels.  The AARE encoded for that state,
    in a buffer with room for its 43 bytes, says rejected-permanent and
    carries that code as its diagnostic. *)
Theorem unknown_auth_level_is_refused (state : csm_asso_state) (ber : csm_ber)
  (array : csm_array) :
  state_cf state = CF_IDLE ->
  auth_level state <> CSM_AUTH_LOWEST_LEVEL ->
  auth_level state <> CSM_AUTH_LOW_LEVEL ->
  auth_level state <> CSM_AUTH_HIGH_LEVEL_GMAC ->
  (43 <= array_size array)%nat ->
  let refused := set_result state CSM_ASSO_AUTH_UNKNOWN in
  csm_asso_is_granted state = (false, refused)
  /\ state_cf refused = CF_IDLE
  /\ exists aare,
       csm_asso_encoder refused ber array = (true, refused, aare)
       /\ wr_index aare = 43%nat
       /\ nth_error (buff aare) 13 = Some CSM_ASSO_RESULT_FIELD
       /\ nth_error (buff aare) 17 = Some 1
       /\ nth_error (buff aare) 18 = Some CSM_ASSO_RESULT_SRC_DIAG
       /\ nth_error (buff aare) 24 = Some (uint8 CSM_ASSO_AUTH_UNKNOWN).
Proof.
  intros Hcf H0 H1 H5 Hcap refused.
  split; [|split; [exact Hcf|]].
  - unfold csm_asso_is_granted. rewrite Hcf. cbn [cf_eqb].
    apply Z.eqb_neq in H0, H1, H5. rewrite H0, H1, H5. reflexivity.
  - destruct (csm_asso_encoder_plain refused ber array)
      as (aare & He & Hw & _ & Hb); [exact H5|exact Hcap|].
    exists aare. split; [exact He|]. split; [exact Hw|].
    split; [|split; [|split]].
    + rewrite (nth_error_of_firstn _ _ 43 13 Hb) by lia. reflexivity.
    + rewrite (nth_error_of_firstn _ _ 43 17 Hb) by lia.
      cbn. rewrite Hcf. reflexivity.
    + rewrite (nth_error_of_firstn _ _ 43 18 Hb) by lia. reflexivity.
    + rewrite (nth_error_of_firstn _ _ 43 24 Hb) by lia. reflexivity.
Qed.

(* ---------------------------------------------------------------------- *)
(** ** Packets with nothing to decode *)
(* ---------------------------------------------------------------------- *)

Lemma decoder_loop_false (chain : list csm_asso_codec)
  (state : csm_asso_state) (ber : csm_ber) (a : csm_array) :
  decoder_loop chain false state ber a = (false, state, ber, a).
Proof. destruct chain; reflexivity. Qed.

(** X16.  A packet with nothing to decode is dropped.  From IDLE, a packet
    with no byte to read, or one made of the bare header 60 00 of an AARQ
    without any field, fails to decode whatever the header left from a
    former decoding holds: the dispatcher returns 0 and the association
    state is as it was. *)
Theorem packet_without_fields_is_dropped (asso : csm_asso_state)
  (ber_dec ber_enc : csm_ber) (packet : csm_array) :
  state_cf asso = CF_IDLE ->
  unread_bytes packet = [] \/ holds packet [CSM_ASSO_AARQ; 0] ->
  fst (fst (csm_asso_decoder asso ber_dec packet)) = false
  /\ fst (fst (csm_asso_execute asso ber_dec ber_enc packet)) = 0
  /\ snd (fst (csm_asso_execute asso ber_dec ber_enc packet)) = asso.
Proof.
  intros Hcf Hp.
  assert (Hd : exists packet1,
             csm_asso_decoder asso ber_dec packet = (false, asso, packet1)).
  { unfold csm_asso_decoder. destruct Hp as [He|Hh].
    - assert (E : csm_ber_decode ber_dec packet = (false, ber_dec, packet)).
      { unfold csm_ber_decode. pose proof (read_u8_stream packet 0) as S.
        rewrite He in S. rewrite S. reflexivity. }
      rewrite E. destruct (_ || _); [eauto|].
      rewrite E, decoder_loop_false. eauto.
    - destruct (ber_decode_holds ber_dec packet CSM_ASSO_AARQ 0 [] Hh)
        as (a1 & E1 & H1 & _); [cbn; discriminate|lia|].
      rewrite E1. cbn [length_length tag_tag].
      rewrite (holds_unread _ _ H1). cbn [length Z.of_nat Z.eqb negb orb].
      rewrite Z.eqb_refl. cbn [negb].
      rewrite (ber_decode_holds_nil _ a1 H1), decoder_loop_false. eauto. }
  destruct Hd as (packet1 & Hd).
  unfold csm_asso_execute. rewrite Hcf, Hd. cbn. auto.
Qed.

(* ---------------------------------------------------------------------- *)
(** ** The encoder and the capacity of the buffer *)
(* ---------------------------------------------------------------------- *)

Lemma and_then_advanced_gen (k j : nat) (a : csm_array) (va : bool * csm_array)
  (g : csm_array -> bool * csm_array) :
  advanced k a va -> (forall x, advanced j x (g x)) ->
  advanced (k + j) a (va &&> g).
Proof.
  intros Hk Hg Hs. pose proof (and_then_true _ _ Hs) as Hv.
  destruct (Hk Hv) as (H1 & H2 & H3).
  unfold and_then in *. rewrite Hv in *.
  destruct (Hg (snd va) Hs) as (G1 & G2 & G3). lia.
Qed.

Lemma write_len_advanced (a : csm_array) (len : Z) :
  len < 128 -> advanced 1 a (csm_ber_write_len a len).
Proof.
  intros H. unfold csm_ber_write_len. apply Z.ltb_lt in H. rewrite H.
  apply write_u8_advanced.
Qed.

Lemma write_buff_advanced (a : csm_array) (buffer : list Z) (n : nat) :
  advanced n a (csm_array_write_buff a buffer n).
Proof.
  unfold advanced, csm_array_write_buff.
  destruct (Nat.leb_spec (wr_index a + n) (array_size a)); [|discriminate].
  intros _. unfold array_size in *. cbn. rewrite list_blit_length. lia.
Qed.

Lemma write_integer_advanced (a : csm_array) (v : Z) :
  advanced 4 a (csm_ber_write_integer a v).
Proof.
  unfold csm_ber_write_integer.
  apply (and_then_advanced 3).
  apply (and_then_advanced_gen 2 1);
    [|intros x; apply write_len_advanced; lia].
  apply (and_then_advanced 1).
  apply write_len_advanced; lia.
Qed.

Lemma oid_encoder_advanced (a : csm_array) (name id : Z) :
  advanced 8 a (acse_oid_encoder a name id).
Proof.
  unfold acse_oid_encoder.
  apply (and_then_advanced 7). apply (and_then_advanced 6).
  apply (and_then_advanced_gen 1 5); [|intros x; apply write_buff_advanced].
  apply write_len_advanced; lia.
Qed.

(** A field encoder that succeeds only when its [k] bytes fit. *)
Lemma ok_room_of_writer (w : csm_asso_state -> csm_array -> bool * csm_array)
  (k : nat) (f : insert_param) :
  (forall state ber a,
     f state ber a = (let '(ret, a1) := w state a in
                      (acse_code_of ret, state, ber, a1))) ->
  (forall state a, advanced k a (w state a)) ->
  forall state ber a,
    res_code (f state ber a) = CSM_ACSE_OK ->
    (wr_index a + k <= array_size a)%nat.
Proof.
  intros Hf Hw state ber a. rewrite Hf. specialize (Hw state a).
  destruct (w state a) as [ret a1]. unfold res_code. cbn [fst].
  destruct ret; [|discriminate]. intros _.
  destruct (Hw eq_refl) as (_ & H & _). exact H.
Qed.

(** A buffer that is full lets the loop run to its end: no tag can be
    written, no field encoder is called, and nothing is reported. *)
Lemma encoder_loop_full (chain : list csm_asso_codec)
  (state : csm_asso_state) (ber : csm_ber) (a : csm_array) :
  (array_size a <= wr_index a)%nat ->
  encoder_loop chain state ber a = (true, state, ber, a).
Proof.
  intros Hfull. induction chain as [|codec chain IH]; [reflexivity|].
  cbn [encoder_loop].
  destruct (insert_func codec) as [f|]; [|exact IH].
  destruct (negb _); [|exact IH].
  destruct (_ && _); [exact IH|].
  unfold csm_array_write_u8.
  destruct (Nat.ltb_spec (wr_index a) (array_size a)); [lia|exact IH].
Qed.

(** An entry of the table that is encoded, according to the room left:
    none, some but not enough for the tag and the field, or enough. *)
Lemma encoder_loop_field (codec : csm_asso_codec) (rest : list csm_asso_codec)
  (state : csm_asso_state) (ber : csm_ber) (a : csm_array)
  (f : insert_param) (bs : list Z) :
  insert_func codec = Some f ->
  context codec = ACSE_ANY ->
  field_emits f state state bs ->
  (forall b x, res_code (f state b x) = CSM_ACSE_OK ->
               (wr_index x + length bs <= array_size x)%nat) ->
  ((array_size a <= wr_index a)%nat ->
   encoder_loop (codec :: rest) state ber a = (true, state, ber, a))
  /\ ((wr_index a < array_size a < wr_index a + S (length bs))%nat ->
      res_code (encoder_loop (codec :: rest) state ber a) = false)
  /\ ((wr_index a + S (length bs) <= array_size a)%nat ->
      exists a', wrote a (uint8 (codec_tag codec) :: bs) a'
                 /\ encoder_loop (codec :: rest) state ber a
                    = encoder_loop rest state ber a').
Proof.
  intros Hf Hctx Hem Hroom. split; [|split].
  - apply encoder_loop_full.
  - intros Hr. cbn [encoder_loop]. rewrite Hf, Hctx.
    cbn [acse_context_eqb negb andb]. rewrite andb_false_r.
    pose proof (write_u8_advanced a (codec_tag codec)) as A.
    assert (Hok : fst (csm_array_write_u8 a (codec_tag codec)) = true).
    { unfold csm_array_write_u8.
      destruct (Nat.ltb_spec (wr_index a) (array_size a)); [reflexivity|lia]. }
    destruct (csm_array_write_u8 a (codec_tag codec)) as [ok a1].
    cbn [fst] in Hok. subst ok. destruct (A eq_refl) as (A1 & _ & A3).
    cbn [snd] in A1, A3.
    pose proof (Hroom ber a1) as R. unfold res_code in R.
    destruct (f state ber a1) as [[[code st1] b1] a2]. cbn [fst] in R.
    destruct code; [reflexivity|]. specialize (R eq_refl). lia.
  - intros Hr. apply (encoder_loop_emit codec rest state state ber a f bs Hf);
      auto.
Qed.

(** X17.  When the encoder reports success.  With an authentication that
    is not the high-level GMAC one, the AARE takes 43 bytes, and the
    encoder reports success exactly when the buffer has room for them or
    when its capacity is 2, 4, 13, 18 or 25 bytes: the buffer is then full
    where a field would start, no tag can be written for that field nor
    for those after it, and the loop runs to its end without an error, the
    AARE being cut short.  With any other capacity below 43 the buffer
    runs out inside a field and the encoder fails. *)
Theorem plain_encoder_succeeds_iff (state : csm_asso_state) (ber : csm_ber)
  (array : csm_array) :
  auth_level state <> CSM_AUTH_HIGH_LEVEL_GMAC ->
  (fst (fst (csm_asso_encoder state ber array)) = true
   <-> In (array_size array) [2; 4; 13; 18; 25]%nat
       \/ (43 <= array_size array)%nat).
Proof.
  intros Hlvl.
  destruct (Nat.le_gt_cases 43 (array_size array)) as [Hbig|Hsmall].
  { destruct (csm_asso_encoder_plain state ber array Hlvl Hbig)
      as (aare & -> & _). cbn [fst]. split; auto. }
  assert (Hiff : forall b : bool,
             (b = true <-> In (array_size array) [2; 4; 13; 18; 25]%nat) ->
             (b = true <-> In (array_size array) [2; 4; 13; 18; 25]%nat
                           \/ (43 <= array_size array)%nat)).
  { intros b [H1 H2]. split; [auto|]. intros [H|H]; [auto|lia]. }
  apply Hiff. clear Hiff.
  assert (Hno : ~ In (array_size array) [2; 4; 13; 18; 25]%nat ->
                (false = true <-> In (array_size array) [2; 4; 13; 18; 25]%nat)).
  { intros H. split; [discriminate|contradiction]. }
  assert (Hyes : In (array_size array) [2; 4; 13; 18; 25]%nat ->
                 (true = true <-> In (array_size array) [2; 4; 13; 18; 25]%nat)).
  { intros H. split; auto. }
  destruct (Nat.le_gt_cases 2 (array_size array)) as [H2|H2].
  2:{ unfold csm_asso_encoder. cbv zeta.
      pose proof (write_u8_advanced (set_wr_index array 0) CSM_ASSO_AARE) as A1.
      destruct (csm_array_write_u8 (set_wr_index array 0) CSM_ASSO_AARE)
        as [ok1 a1].
      destruct ok1; [|cbn [fst]; apply Hno; cbn [In]; lia].
      destruct (A1 eq_refl) as (W1 & _ & S1). cbn [fst snd] in W1, S1.
      pose proof (write_u8_advanced a1 0) as A2.
      destruct (csm_array_write_u8 a1 0) as [ok2 a2].
      destruct ok2; [|cbn [fst]; apply Hno; cbn [In]; lia].
      destruct (A2 eq_refl) as (_ & R2 & _).
      change (array_size (set_wr_index array 0)) with (array_size array) in S1.
      change (wr_index (set_wr_index array 0)) with 0%nat in W1.
      lia. }
  destruct (csm_asso_encoder_header state ber array H2) as (a2 & W2 & ->).
  pose proof (wrote_size _ _ _ W2) as S2.
  change (array_size (set_wr_index array 0)) with (array_size array) in S2.
  assert (Wr2 : wr_index a2 = 2%nat) by (destruct W2 as (_ & -> & _); reflexivity).
  clear W2.
  assert (Hfin : forall (r : bool * csm_asso_state * csm_ber * csm_array),
             (res_code r = true
              <-> In (array_size array) [2; 4; 13; 18; 25]%nat) ->
             (fst (fst (let '(completed, state1, _, a3) := r in
                        if completed
                        then (true, state1,
                              snd (csm_array_set a3 1 (Z.of_nat (wr_index a3) - 2)))
                        else (false, state1, a3))) = true
              <-> In (array_size array) [2; 4; 13; 18; 25]%nat)).
  { intros [[[c s1] b1] a3]. unfold res_code. cbn [fst].
    destruct c; cbn [fst]; auto. }
  apply Hfin. clear Hfin.
  unfold aare_codec_chain.
  rewrite encoder_loop_skip_none by reflexivity.
  (* application-context-name *)
  match goal with
  | |- context [encoder_loop (?c :: ?r) state ber a2] =>
      destruct (encoder_loop_field c r state ber a2 _ [9] eq_refl eq_refl
                  (acse_app_context_encoder_emits state)) as (F & N & E)
  end.
  { apply (ok_room_of_writer (fun _ a => csm_ber_write_len a 9) 1);
      [reflexivity|]. intros _ x. apply write_len_advanced. lia. }
  destruct (Nat.le_gt_cases (array_size a2) (wr_index a2)) as [C1|C1].
  { rewrite (F C1). unfold res_code. cbn [fst]. apply Hyes. cbn [In]. lia. }
  destruct (Nat.le_gt_cases (wr_index a2 + S (length [9])) (array_size a2))
    as [D1|D1].
  2:{ rewrite (N (conj C1 D1)). apply Hno. cbn [length] in D1. cbn [In]. lia. }
  cbn [length] in D1. destruct (E D1) as (a3 & W3 & ->). clear F N E.
  pose proof (wrote_size _ _ _ W3) as S3.
  assert (Wr3 : wr_index a3 = 4%nat)
    by (destruct W3 as (_ & -> & _); cbn [length]; lia).
  clear W3.
  (* its object identifier *)
  match goal with
  | |- context [encoder_loop (?c :: ?r) state ber a3] =>
      destruct (encoder_loop_field c r state ber a3 _ _ eq_refl eq_refl
                  (acse_oid_context_encoder_emits state)) as (F & N & E)
  end.
  { apply (ok_room_of_writer
             (fun s a => acse_oid_encoder a APP_CONTEXT_NAME (ref s)) 8);
      [reflexivity|]. intros s x. apply oid_encoder_advanced. }
  cbn [length app cOidHeader] in N, E.
  destruct (Nat.le_gt_cases (array_size a3) (wr_index a3)) as [C2|C2].
  { rewrite (F C2). unfold res_code. cbn [fst]. apply Hyes. cbn [In]. lia. }
  destruct (Nat.le_gt_cases (wr_index a3 + 9) (array_size a3)) as [D2|D2].
  2:{ rewrite (N (conj C2 D2)). apply Hno. cbn [In]. lia. }
  destruct (E D2) as (a4 & W4 & ->). clear F N E.
  pose proof (wrote_size _ _ _ W4) as S4.
  assert (Wr4 : wr_index a4 = 13%nat)
    by (destruct W4 as (_ & -> & _); cbn [length app cOidHeader]; lia).
  clear W4.
  (* association result *)
  match goal with
  | |- context [encoder_loop (?c :: ?r) state ber a4] =>
      destruct (encoder_loop_field c r state ber a4 _ _ eq_refl eq_refl
                  (acse_result_encoder_emits state)) as (F & N & E)
  end.
  { apply (ok_room_of_writer
             (fun s a => csm_ber_write_integer a
                           (if cf_eqb (state_cf s) CF_IDLE then 1 else 0)) 4);
      [reflexivity|]. intros s x. apply write_integer_advanced. }
  cbn [length] in N, E.
  destruct (Nat.le_gt_cases (array_size a4) (wr_index a4)) as [C3|C3].
  { rewrite (F C3). unfold res_code. cbn [fst]. apply Hyes. cbn [In]. lia. }
  destruct (Nat.le_gt_cases (wr_index a4 + 5) (array_size a4)) as [D3|D3].
  2:{ rewrite (N (conj C3 D3)). apply Hno. cbn [In]. lia. }
  destruct (E D3) as (a5 & W5 & ->). clear F N E.
  pose proof (wrote_size _ _ _ W5) as S5.
  assert (Wr5 : wr_index a5 = 18%nat)
    by (destruct W5 as (_ & -> & _); cbn [length]; lia).
  clear W5.
  (* result source diagnostic *)
  match goal with
  | |- context [encoder_loop (?c :: ?r) state ber a5] =>
      destruct (encoder_loop_field c r state ber a5 _ _ eq_refl eq_refl
                  (acse_result_src_diag_encoder_emits state)) as (F & N & E)
  end.
  { apply (ok_room_of_writer
             (fun s a => csm_ber_write_len a 5
                           &&> (fun a => csm_array_write_u8 a
                                           CSM_ASSO_RESULT_SERVICE_USER)
                           &&> (fun a => csm_ber_write_integer a
                                           (result (handshake s)))) 6);
      [reflexivity|]. intros s x.
    apply (and_then_advanced_gen 2 4); [|intros y; apply write_integer_advanced].
    apply (and_then_advanced 1). apply write_len_advanced. lia. }
  cbn [length] in N, E.
  destruct (Nat.le_gt_cases (array_size a5) (wr_index a5)) as [C4|C4].
  { rewrite (F C4). unfold res_code. cbn [fst]. apply Hyes. cbn [In]. lia. }
  destruct (Nat.le_gt_cases (wr_index a5 + 7) (array_size a5)) as [D4|D4].
  2:{ rewrite (N (conj C4 D4)). apply Hno. cbn [In]. lia. }
  destruct (E D4) as (a6 & W6 & ->). clear F N E.
  pose proof (wrote_size _ _ _ W6) as S6.
  assert (Wr6 : wr_index a6 = 25%nat)
    by (destruct W6 as (_ & -> & _); cbn [length]; lia).
  clear W6.
  (* the security fields are passed over *)
  do 4 (rewrite encoder_loop_skip_sec by (reflexivity || exact Hlvl)).
  (* user information *)
  match goal with
  | |- context [encoder_loop (?c :: ?r) state ber a6] =>
      destruct (encoder_loop_field c r state ber a6 _ _ eq_refl eq_refl
                  (acse_user_info_encoder_emits state)) as (F & N & E)
  end.
  { intros b x Hok.
    pose proof (acse_user_info_encoder_ok_room state b x Hok) as R.
    unfold conformance_bytes, pdu_size_bytes. cbn [length app].
    rewrite vaa_name_bytes_length. exact R. }
  assert (L : length ([16; BER_TYPE_OCTET_STRING; 14; AXDR_INITIATE_RESPONSE; 0;
                       6; 0x5F; 0x1F; 4; 0]
                        ++ conformance_bytes (conformance (config state))
                        ++ pdu_size_bytes CSM_DEF_PDU_SIZE
                        ++ vaa_name_bytes (ref state)) = 17%nat).
  { unfold conformance_bytes, pdu_size_bytes. cbn [length app].
    rewrite vaa_name_bytes_length. reflexivity. }
  rewrite L in N, E.
  destruct (Nat.le_gt_cases (array_size a6) (wr_index a6)) as [C6|C6].
  { rewrite (F C6). unfold res_code. cbn [fst]. apply Hyes. cbn [In]. lia. }
  rewrite (N ltac:(lia)). apply Hno. cbn [In]. lia.
Qed.

(* ---------------------------------------------------------------------- *)
(** ** One pass through the decoding loop *)
(* ---------------------------------------------------------------------- *)

Lemma decoder_loop_skip (codec : csm_asso_codec) (rest : list csm_asso_codec)
  (state : csm_asso_state) (ber : csm_ber) (a : csm_array) :
  tag_tag ber <> codec_tag codec ->
  decoder_loop (codec :: rest) true state ber a
  = decoder_loop rest true state ber a.
Proof.
  intros H. apply Z.eqb_neq in H. cbn [decoder_loop]. unfold decoder_body.
  rewrite H. reflexivity.
Qed.

(** A field that is decoded, or that fails where it is optional, by an
    entry that is not the last one: the next header is decoded. *)
Lemma decoder_loop_field (codec : csm_asso_codec) (rest : list csm_asso_codec)
  (f : extract_param) (state state1 : csm_asso_state) (ber ber1 : csm_ber)
  (a a1 : csm_array) (code : csm_acse_code) :
  tag_tag ber = codec_tag codec ->
  extract_func codec = Some f ->
  rest <> [] ->
  f state ber a = (code, state1, ber1, a1) ->
  code = CSM_ACSE_OK \/ context codec = ACSE_OPT ->
  decoder_loop (codec :: rest) true state ber a
  = (let '(r, ber2, a2) := csm_ber_decode ber1 a1 in
     if r then decoder_loop rest true state1 ber2 a2
     else (false, state1, ber2, a2)).
Proof.
  intros Ht Hf Hr He Hc. cbn [decoder_loop]. unfold decoder_body.
  rewrite Ht, Z.eqb_refl, Hf, He.
  assert (Hm : negb (Nat.eqb (length rest) 0) = true)
    by (destruct rest; [contradiction|reflexivity]).
  rewrite Hm.
  assert (H2 : (if acse_context_eqb (context codec) ACSE_OPT
                   && negb (acse_code_true code)
                then true else acse_code_true code) = true).
  { destruct Hc as [->| ->]; [|destruct code]; cbn; try reflexivity.
    destruct (acse_context_eqb _ _); reflexivity. }
  rewrite H2. cbn [andb].
  destruct (csm_ber_decode ber1 a1) as [[r ber2] a2].
  destruct r; reflexivity.
Qed.

(** The last entry of the table: no header is decoded after it. *)
Lemma decoder_loop_last (codec : csm_asso_codec) (f : extract_param)
  (state state1 : csm_asso_state) (ber ber1 : csm_ber) (a a1 : csm_array)
  (code : csm_acse_code) :
  tag_tag ber = codec_tag codec ->
  extract_func codec = Some f ->
  f state ber a = (code, state1, ber1, a1) ->
  code = CSM_ACSE_OK \/ context codec = ACSE_OPT ->
  decoder_loop [codec] true state ber a = (true, state1, ber1, a1).
Proof.
  intros Ht Hf He Hc. cbn [decoder_loop]. unfold decoder_body.
  rewrite Ht, Z.eqb_refl, Hf, He. cbn [length Nat.eqb negb].
  assert (H2 : (if acse_context_eqb (context codec) ACSE_OPT
                   && negb (acse_code_true code)
                then true else acse_code_true code) = true).
  { destruct Hc as [->| ->]; [|destruct code]; cbn; try reflexivity.
    destruct (acse_context_eqb _ _); reflexivity. }
  rewrite H2. reflexivity.
Qed.

(** X18.  A field that ends the packet.  After a field whose tag matched
    an entry of the table other than the last one, the loop decodes the
    next header.  When the field decoder has left nothing to read, that
    header cannot be decoded and the decoding fails, whatever the field
    decoder returned: a packet decodes only if its last field is not
    decoded by an entry before the last one. *)
Theorem field_ending_the_packet_fails (codec : csm_asso_codec)
  (rest : list csm_asso_codec) (f : extract_param) (state : csm_asso_state)
  (ber : csm_ber) (a : csm_array) :
  rest <> [] ->
  tag_tag ber = codec_tag codec ->
  extract_func codec = Some f ->
  unread_bytes (res_array (f state ber a)) = [] ->
  res_code (decoder_loop (codec :: rest) true state ber a) = false.
Proof.
  intros Hr Ht Hf Hu. cbn [decoder_loop]. unfold decoder_body.
  rewrite Ht, Z.eqb_refl, Hf.
  unfold res_array in Hu.
  destruct (f state ber a) as [[[code s1] b1] a1]. cbn [snd] in Hu.
  assert (Hm : negb (Nat.eqb (length rest) 0) = true)
    by (destruct rest; [contradiction|reflexivity]).
  rewrite Hm.
  assert (E : csm_ber_decode b1 a1 = (false, b1, a1)).
  { unfold csm_ber_decode. pose proof (read_u8_stream a1 0) as S.
    rewrite Hu in S. rewrite S. reflexivity. }
  destruct (if acse_context_eqb (context codec) ACSE_OPT
               && negb (acse_code_true code)
            then true else acse_code_true code); cbn [andb].
  - rewrite E. reflexivity.
  - reflexivity.
Qed.

(* ---------------------------------------------------------------------- *)
(** ** Whole packets *)
(* ---------------------------------------------------------------------- *)

(** The user-information decoder leaves the negotiated parameters
    alone. *)
Lemma acse_user_info_decoder_keeps (state : csm_asso_state) (ber : csm_ber)
  (a : csm_array) :
  let state' := res_state (acse_user_info_decoder state ber a) in
  state_cf state' = state_cf state
  /\ ref state' = ref state
  /\ auth_level state' = auth_level state
  /\ config state' = config state
  /\ ctos (handshake state') = ctos (handshake state)
  /\ result (handshake state') = result (handshake state).
Proof.
  unfold acse_user_info_decoder.
  destruct (csm_ber_decode ber a) as [[ok ber1] a1].
  destruct ok; [|cbn; repeat split].
  destruct (tag_id ber1 =? BER_TYPE_OCTET_STRING); [|cbn; repeat split].
  destruct (csm_array_read_u8 a1 0) as [[ok1 byte] a2].
  destruct ok1; [|cbn; repeat split].
  destruct (byte =? AXDR_INITIATE_REQUEST); [|cbn; repeat split].
  destruct (csm_array_read_u8 a2 byte) as [[ok2 byte2] a3].
  unfold initiate_request_tail.
  destruct (csm_axdr_rd_null a3) as [v1 a4].
  destruct ((v1, a4) &&> csm_axdr_rd_null) as [v2 a5].
  destruct (and_read_u8 v2 byte2 a5) as [[v3 b3] a6].
  destruct (if v3 && (b3 =? 6) then csm_ber_decode ber1 a6 else (false, ber1, a6))
    as [[v4 ber2] a7].
  destruct (_ && _); [|cbn; repeat split].
  destruct (_ =? 4); [|cbn; repeat split].
  destruct (and_read_u8 v4 b3 a7) as [[v5 b5] a8].
  destruct (and_read_u8 (v5 && (b5 =? 0)) b5 a8) as [[v6 b6] a9].
  cbv zeta.
  destruct (and_read_u8 v6 b6 a9) as [[v7 b7] a10].
  match goal with
  | |- context [if v7 then ?x else ?y] => destruct (if v7 then x else y)
                                             as [[v8 p] a11]
  end.
  cbn. repeat split.
Qed.

(** The decoding of an AARQ up to the field that follows the
    application-context-name: the outer header, the header A1 09, the
    header 06 07 and the object identifier are consumed, the referencing
    is set, and the loop goes on from the fourth entry of the table with
    the header [t n] of the next field. *)
Lemma csm_asso_decoder_context_name (state : csm_asso_state) (ber : csm_ber)
  (a : csm_array) (r t n : Z) (rest : list Z) :
  holds a (aarq_bytes (context_name_field r ++ t :: n :: rest)) ->
  In r [LN_REF; SN_REF; LN_REF_WITH_CYPHERING; SN_REF_WITH_CYPHERING] ->
  (length rest < 115)%nat -> Z.land t 0x1F <> 0x1F -> n < 0x80 ->
  exists a',
    holds a' rest
    /\ array_size a' = array_size a
    /\ csm_asso_decoder state ber a
       = (let '(ret1, state1, _, a3) :=
            decoder_loop (skipn 3 aarq_codec_chain) true (set_ref state r)
              {| tag_tag := t; tag_id := Z.land t 0x1F; tag_ext := tag_ext ber;
                 tag_isPrimitive := negb (Z.testbit t 5);
                 length_length := n |} a' in
          (ret1, state1, a3)).
Proof.
  intros H Hr Hlen Ht Hn. unfold csm_asso_decoder.
  unfold aarq_bytes, context_name_field in H.
  cbn [app cOidHeader] in H.
  (* the outer header *)
  match type of H with
  | holds a (?t0 :: ?l0 :: ?body) =>
      destruct (ber_decode_holds ber a t0 l0 body H) as (a1 & E1 & H1 & R1);
        [cbn; discriminate|cbn [length]; lia|]
  end.
  rewrite E1. cbn [length_length tag_tag].
  rewrite (holds_unread _ _ H1). rewrite Z.eqb_refl.
  cbn [CSM_ASSO_AARQ Z.eqb Pos.eqb negb orb].
  (* the header of the application-context-name *)
  match type of H1 with
  | holds a1 (?t0 :: ?l0 :: ?body) =>
      match goal with
      | |- context [csm_ber_decode ?b a1] =>
          destruct (ber_decode_holds b a1 t0 l0 body H1) as (a2 & E2 & H2 & R2);
            [cbn; discriminate|lia|]
      end
  end.
  rewrite E2. cbn [tag_ext].
  unfold aarq_codec_chain.
  rewrite decoder_loop_skip by (cbn; discriminate).
  erewrite decoder_loop_field;
    [|reflexivity|reflexivity|discriminate
     |unfold acse_app_context_decoder; cbn [length_length Z.eqb Pos.eqb];
      reflexivity
     |left; reflexivity].
  (* the header of the object identifier *)
  match type of H2 with
  | holds a2 (?t0 :: ?l0 :: ?body) =>
      match goal with
      | |- context [csm_ber_decode ?b a2] =>
          destruct (ber_decode_holds b a2 t0 l0 body H2) as (a3 & E3 & H3 & R3);
            [cbn; discriminate|lia|]
      end
  end.
  rewrite E3. cbn [tag_ext]. cbv beta iota.
  (* the object identifier *)
  match goal with
  | |- context [decoder_loop _ true state ?b a3] =>
      destruct (acse_oid_decoder_accepts state b a3 APP_CONTEXT_NAME r
                  (t :: n :: rest) (proj1 H3)) as (Oc & Os & Ou);
        [cbn [In] in Hr; unfold oid_recognized;
         destruct Hr as [<-|[<-|[<-|[<-|[]]]]]; reflexivity|];
      destruct (acse_oid_decoder_frame state b a3) as (Or & _);
      pose proof (decoder_loop_field
                    (mk_codec BER_TYPE_OBJECT_IDENTIFIER ACSE_ANY
                       (Some acse_oid_decoder) None)) as Step;
      unfold res_code, res_state, res_array in Oc, Os, Ou, Or;
      destruct (acse_oid_decoder state b a3) as [[[code4 s4] b4] a4] eqn:E4;
      cbn [fst snd] in Oc, Os, Ou, Or
  end.
  subst code4. cbn [Z.eqb APP_CONTEXT_NAME Pos.eqb] in Os. subst s4.
  pose proof (reads_holds _ _ _ _ H3 Or Ou) as H4.
  erewrite Step; [|reflexivity|reflexivity|discriminate|exact E4|left; reflexivity].
  clear Step.
  assert (Eb4 : b4 = {| tag_tag := BER_TYPE_OBJECT_IDENTIFIER;
                        tag_id := Z.land BER_TYPE_OBJECT_IDENTIFIER 0x1F;
                        tag_ext := tag_ext ber;
                        tag_isPrimitive :=
                          negb (Z.testbit BER_TYPE_OBJECT_IDENTIFIER 5);
                        length_length := 7 |}).
  { revert E4. unfold acse_oid_decoder. cbv beta iota zeta.
    destruct (csm_ber_decode_object_identifier _ a3) as [[ok oid1] x].
    repeat match goal with
           | |- context [if ?c then _ else _] => destruct c
           end; intros E; inversion E; reflexivity. }
  (* the header of the next field *)
  destruct (ber_decode_holds b4 a4 t n rest H4 Ht Hn) as (a5 & E5 & H5 & R5).
  rewrite E5. rewrite Eb4. cbn [tag_ext]. cbv beta iota.
  exists a5. split; [exact H5|]. split; [|reflexivity].
  unfold array_size.
  rewrite (proj1 R5), (proj1 Or), (proj1 R3), (proj1 R2), (proj1 R1).
  reflexivity.
Qed.

(** X19.  An association without authentication, from the packet to the
    reply.  Take an association just initialised and an AARQ made of the
    application-context-name of one of the four known referencings and of
    a user-information field.  Whatever the user information declares and
    holds, the packet decodes, the association is granted, and the
    dispatcher answers the 43 bytes of an AARE that says accepted: the
    state is ASSOCIATED with the referencing asked for, the lowest
    authentication level and a null result. *)
Theorem association_without_authentication (s : csm_asso_state)
  (ber_dec ber_enc : csm_ber) (packet : csm_array) (r n : Z) (info : list Z) :
  holds packet
    (aarq_bytes (context_name_field r ++ user_information_field n info)) ->
  In r [LN_REF; SN_REF; LN_REF_WITH_CYPHERING; SN_REF_WITH_CYPHERING] ->
  n < 0x80 -> (length info < 115)%nat ->
  (43 <= array_size packet)%nat ->
  exists asso' reply,
    csm_asso_execute (csm_asso_init s) ber_dec ber_enc packet
    = (43, asso', reply)
    /\ state_cf asso' = CF_ASSOCIATED
    /\ ref asso' = r
    /\ auth_level asso' = CSM_AUTH_LOWEST_LEVEL
    /\ result (handshake asso') = CSM_ASSO_ERR_NULL
    /\ firstn 43 (buff reply) = aare_plain_bytes CSM_DEF_PDU_SIZE asso'
    /\ nth_error (buff reply) 17 = Some 0.
Proof.
  intros H Hr Hn Hlen Hcap.
  destruct (csm_asso_decoder_context_name (csm_asso_init s) ber_dec packet r
              CSM_ASSO_USER_INFORMATION n info H Hr Hlen)
    as (a' & H' & S' & Ed); [cbn; discriminate|exact Hn|].
  (* the entries before user-information are passed over *)
  unfold aarq_codec_chain in Ed. cbn [skipn] in Ed.
  do 16 (rewrite decoder_loop_skip in Ed by (cbn; discriminate)).
  match type of Ed with
  | context [decoder_loop _ true ?st ?b a'] =>
      destruct (acse_user_info_decoder_keeps st b a')
        as (K1 & K2 & K3 & _ & _ & _);
      destruct (acse_user_info_decoder st b a') as [[[code s1] b1] a1] eqn:Eu
  end.
  unfold res_state in K1, K2, K3. cbn [fst snd] in K1, K2, K3.
  erewrite decoder_loop_last in Ed;
    [|reflexivity|reflexivity|exact Eu|right; reflexivity].
  cbn [csm_asso_init set_result set_ref set_auth_level set_state_cf set_handshake
       state_cf ref auth_level] in K1, K2, K3.
  (* authorization and reply *)
  assert (Hg : csm_asso_is_granted s1
               = (true, set_result (set_state_cf s1 CF_ASSOCIATED)
                          CSM_ASSO_ERR_NULL)).
  { unfold csm_asso_is_granted. rewrite K1, K3. reflexivity. }
  pose proof (csm_asso_decoder_size (csm_asso_init s) ber_dec packet) as Sz.
  rewrite Ed in Sz. cbn [snd] in Sz.
  destruct (csm_asso_encoder_plain
              (set_result (set_state_cf s1 CF_ASSOCIATED) CSM_ASSO_ERR_NULL)
              ber_enc a1) as (reply & He & Hw & _ & Hb).
  { cbn [auth_level set_result set_state_cf set_handshake]. rewrite K3.
    discriminate. }
  { lia. }
  exists (set_result (set_state_cf s1 CF_ASSOCIATED) CSM_ASSO_ERR_NULL), reply.
  split; [|split; [reflexivity|split; [exact K2|split; [exact K3|split;
          [reflexivity|split; [exact Hb|]]]]]].
  - rewrite (csm_asso_execute_idle (csm_asso_init s) s1 ber_dec ber_enc packet
               a1 eq_refl Ed), Hg. cbn [snd].
    rewrite He, Hw. reflexivity.
  - rewrite (nth_error_of_firstn _ _ 43 17 Hb) by lia. reflexivity.
Qed.

(** The authentication value decoder on a value of [k] bytes, with the
    header it leaves. *)
Lemma acse_auth_value_decoder_holds (state : csm_asso_state) (ber : csm_ber)
  (a : csm_array) (value rest : list Z) :
  holds a (TAG_CONTEXT_SPECIFIC :: Z.of_nat (length value) :: value ++ rest) ->
  (0 < length value < 128)%nat ->
  CSM_DEF_LLS_SIZE <= Z.of_nat (length value) <= CSM_DEF_CHALLENGE_SIZE ->
  exists a',
    acse_auth_value_decoder state ber a
    = (CSM_ACSE_OK,
       set_ctos state
         {| chal_value :=
              value ++ skipn (length value) (chal_value (ctos (handshake state)));
            chal_size := Z.of_nat (length value) |},
       {| tag_tag := TAG_CONTEXT_SPECIFIC;
          tag_id := Z.land TAG_CONTEXT_SPECIFIC 0x1F;
          tag_ext := tag_ext ber;
          tag_isPrimitive := negb (Z.testbit TAG_CONTEXT_SPECIFIC 5);
          length_length := Z.of_nat (length value) |}, a')
    /\ holds a' rest /\ reads a a'.
Proof.
  intros H Hr Hb. unfold acse_auth_value_decoder.
  destruct (ber_decode_holds ber a TAG_CONTEXT_SPECIFIC _ (value ++ rest) H)
    as (a1 & E1 & H1 & R1); [cbn; discriminate|lia|].
  rewrite E1. cbn [length_length tag_tag].
  destruct (Z.leb_spec CSM_DEF_LLS_SIZE (Z.of_nat (length value))) as [_|];
    [|lia].
  destruct (Z.leb_spec (Z.of_nat (length value)) CSM_DEF_CHALLENGE_SIZE)
    as [_|]; [|lia].
  cbn [andb]. rewrite Z.eqb_refl, Nat2Z.id.
  destruct (read_buff_holds a1 (chal_value (ctos (handshake state))) value rest H1)
    as (a2 & E2 & H2 & R2); [lia|].
  rewrite E2. exists a2. split; [reflexivity|].
  split; [exact H2|exact (reads_trans _ _ _ R1 R2)].
Qed.

(** The decoding of an AARQ that asks for an authentication: after the
    application-context-name come the sender ACSE requirements, the
    mechanism name of the level [level], the calling authentication value
    [value] and a user-information field.  The packet decodes; the
    referencing, the authentication level and the client-to-server
    challenge are the ones of the packet. *)
Lemma csm_asso_decoder_authentication (state : csm_asso_state) (ber : csm_ber)
  (a : csm_array) (r level n : Z) (value info : list Z) :
  holds a
    (aarq_bytes (context_name_field r ++ sender_requirements_field
                   ++ mechanism_name_field level
                   ++ authentication_value_field value
                   ++ user_information_field n info)) ->
  In r [LN_REF; SN_REF; LN_REF_WITH_CYPHERING; SN_REF_WITH_CYPHERING] ->
  level = CSM_AUTH_LOW_LEVEL \/ level = CSM_AUTH_HIGH_LEVEL_GMAC ->
  (0 < length value)%nat ->
  CSM_DEF_LLS_SIZE <= Z.of_nat (length value) <= CSM_DEF_CHALLENGE_SIZE ->
  n < 0x80 -> (length value + length info < 98)%nat ->
  exists state' a',
    csm_asso_decoder state ber a = (true, state', a')
    /\ state_cf state' = state_cf state
    /\ config state' = config state
    /\ ref state' = r
    /\ auth_level state' = level
    /\ ctos (handshake state')
       = {| chal_value :=
              value ++ skipn (length value) (chal_value (ctos (handshake state)));
            chal_size := Z.of_nat (length value) |}.
Proof.
  intros H Hr Hlvl Hv Hb Hn Hlen.
  unfold sender_requirements_field in H. cbn [app] in H.
  destruct (csm_asso_decoder_context_name state ber a r
              CSM_ASSO_SENDER_ACSE_REQU 2
              (7 :: 0x80 :: mechanism_name_field level
                 ++ authentication_value_field value
                 ++ user_information_field n info) H Hr)
    as (a1 & H1 & _ & Ed); [|cbn; discriminate|lia|].
  { unfold mechanism_name_field, authentication_value_field,
      user_information_field. cbn [length app cOidHeader].
    rewrite !length_app. cbn [length]. lia. }
  rewrite Ed. clear Ed H.
  exists (res_state
            (decoder_loop (skipn 3 aarq_codec_chain) true (set_ref state r)
               {| tag_tag := CSM_ASSO_SENDER_ACSE_REQU;
                  tag_id := Z.land CSM_ASSO_SENDER_ACSE_REQU 0x1F;
                  tag_ext := tag_ext ber;
                  tag_isPrimitive := negb (Z.testbit CSM_ASSO_SENDER_ACSE_REQU 5);
                  length_length := 2 |} a1)).
  exists (res_array
            (decoder_loop (skipn 3 aarq_codec_chain) true (set_ref state r)
               {| tag_tag := CSM_ASSO_SENDER_ACSE_REQU;
                  tag_id := Z.land CSM_ASSO_SENDER_ACSE_REQU 0x1F;
                  tag_ext := tag_ext ber;
                  tag_isPrimitive := negb (Z.testbit CSM_ASSO_SENDER_ACSE_REQU 5);
                  length_length := 2 |} a1)).
  unfold aarq_codec_chain. cbn [skipn].
  do 12 (rewrite decoder_loop_skip by (cbn; discriminate)).
  (* the sender ACSE requirements *)
  destruct (read_u8_holds a1 0 _ _ H1) as (a2 & E2 & H2 & _).
  destruct (read_u8_holds a2 7 _ _ H2) as (a3 & E3 & H3 & _).
  erewrite decoder_loop_field;
    [|reflexivity|reflexivity|discriminate
     |unfold acse_req_decoder; cbn [length_length Z.eqb Pos.eqb];
      rewrite E2; cbn [Z.eqb Pos.eqb]; rewrite E3; cbn [Z.eqb Pos.eqb];
      reflexivity
     |left; reflexivity].
  clear E2 E3 H1 H2.
  (* the mechanism name *)
  unfold mechanism_name_field in H3. cbn [app] in H3.
  match type of H3 with
  | holds a3 (?t0 :: ?l0 :: ?body) =>
      match goal with
      | |- context [csm_ber_decode ?b a3] =>
          destruct (ber_decode_holds b a3 t0 l0 body H3) as (a4 & E4 & H4 & _);
            [cbn; discriminate|lia|]
      end
  end.
  rewrite E4. cbn [tag_ext]. cbv beta iota. clear E4 H3.
  match goal with
  | |- context [decoder_loop _ true ?st ?b a4] =>
      destruct (acse_oid_decoder_accepts st b a4 SECURITY_MECHANISM_NAME level
                  (authentication_value_field value
                     ++ user_information_field n info) (proj1 H4))
        as (Oc & Os & Ou);
        [unfold oid_recognized; destruct Hlvl as [-> | ->]; reflexivity|];
      destruct (acse_oid_decoder_frame st b a4) as (Or & _);
      pose proof (decoder_loop_field
                    (mk_codec CSM_ASSO_REQ_MECHANISM_NAME ACSE_OPT
                       (Some acse_oid_decoder) None)) as Step;
      assert (Eb : res_ber (acse_oid_decoder st b a4) = b);
        [unfold acse_oid_decoder; cbv beta iota zeta;
         destruct (csm_ber_decode_object_identifier _ a4) as [[ok oid1] x];
         repeat match goal with
                | |- context [if ?c then _ else _] => destruct c
                end; reflexivity|];
      unfold res_code, res_state, res_array, res_ber in Oc, Os, Ou, Or, Eb;
      destruct (acse_oid_decoder st b a4) as [[[code5 s5] b5] a5] eqn:E5;
      cbn [fst snd] in Oc, Os, Ou, Or, Eb
  end.
  subst code5 b5. cbn [Z.eqb SECURITY_MECHANISM_NAME APP_CONTEXT_NAME Pos.eqb] in Os.
  subst s5.
  pose proof (reads_holds _ _ _ _ H4 Or Ou) as H5.
  erewrite Step; [|reflexivity|reflexivity|discriminate|exact E5|left; reflexivity].
  clear Step E5 Or Ou H4.
  (* the calling authentication value *)
  unfold authentication_value_field in H5. cbn [app] in H5.
  match type of H5 with
  | holds a5 (?t0 :: ?l0 :: ?body) =>
      match goal with
      | |- context [csm_ber_decode ?b a5] =>
          destruct (ber_decode_holds b a5 t0 l0 body H5) as (a6 & E6 & H6 & _);
            [cbn; discriminate|lia|]
      end
  end.
  rewrite E6. cbn [tag_ext]. cbv beta iota. clear E6 H5.
  match goal with
  | |- context [decoder_loop _ true ?st ?b a6] =>
      destruct (acse_auth_value_decoder_holds st b a6 value
                  (user_information_field n info) H6)
        as (a7 & E7 & H7 & _); [lia|exact Hb|]
  end.
  erewrite decoder_loop_field;
    [|reflexivity|reflexivity|discriminate|exact E7|left; reflexivity].
  clear E7 H6.
  (* the user information *)
  unfold user_information_field in H7. cbn [app] in H7.
  match goal with
  | |- context [csm_ber_decode ?b a7] =>
      destruct (ber_decode_holds b a7 CSM_ASSO_USER_INFORMATION n info H7)
        as (a8 & E8 & H8 & _); [cbn; discriminate|exact Hn|]
  end.
  rewrite E8. cbn [tag_ext]. cbv beta iota. clear E8 H7.
  rewrite decoder_loop_skip by (cbn; discriminate).
  match goal with
  | |- context [decoder_loop _ true ?st ?b a8] =>
      destruct (acse_user_info_decoder_keeps st b a8)
        as (K1 & K2 & K3 & K4 & K5 & _);
      destruct (acse_user_info_decoder st b a8) as [[[code s9] b9] a9] eqn:Eu
  end.
  unfold res_state in K1, K2, K3, K4, K5. cbn [fst snd] in K1, K2, K3, K4, K5.
  erewrite decoder_loop_last;
    [|reflexivity|reflexivity|exact Eu|right; reflexivity].
  unfold res_state, res_array. cbn [fst snd].
  split; [reflexivity|].
  split; [exact K1|]. split; [exact K4|]. split; [exact K2|].
  split; [exact K3|exact K5].
Qed.

(** X20.  A low-level association, from the packet to the password check.
    Take an association at rest and an AARQ that carries the
    application-context-name, the sender ACSE requirements, the mechanism
    name of the low-level security, a calling authentication value of a
    size allowed by the configuration, and a user-information field.  The
    password check is called for the destination access point of the
    configuration with the bytes of that value and its size, and decides:
    accepted, the state is ASSOCIATED with a null result and the AARE says
    accepted; refused, the state is IDLE with the result
    authentication-failure and the AARE says rejected-permanent.  In both
    cases the reply is the 43 bytes of an AARE without security fields. *)
Theorem low_level_aarq_is_checked_against_the_password
  (asso : csm_asso_state) (ber_dec ber_enc : csm_ber) (packet : csm_array)
  (r n : Z) (value info : list Z) :
  state_cf asso = CF_IDLE ->
  holds packet
    (aarq_bytes (context_name_field r ++ sender_requirements_field
                   ++ mechanism_name_field CSM_AUTH_LOW_LEVEL
                   ++ authentication_value_field value
                   ++ user_information_field n info)) ->
  In r [LN_REF; SN_REF; LN_REF_WITH_CYPHERING; SN_REF_WITH_CYPHERING] ->
  (0 < length value)%nat ->
  CSM_DEF_LLS_SIZE <= Z.of_nat (length value) <= CSM_DEF_CHALLENGE_SIZE ->
  n < 0x80 -> (length value + length info < 98)%nat ->
  (43 <= array_size packet)%nat ->
  let stored :=
    value ++ skipn (length value) (chal_value (ctos (handshake asso))) in
  let accepted :=
    csm_sys_test_lls_password (llc_dsap (config asso)) stored
      (Z.of_nat (length value)) in
  exists asso' reply,
    csm_asso_execute asso ber_dec ber_enc packet = (43, asso', reply)
    /\ state_cf asso' = (if accepted then CF_ASSOCIATED else CF_IDLE)
    /\ result (handshake asso')
       = (if accepted then CSM_ASSO_ERR_NULL else CSM_ASSO_ERR_AUTH_FAILURE)
    /\ ref asso' = r
    /\ auth_level asso' = CSM_AUTH_LOW_LEVEL
    /\ ctos (handshake asso')
       = {| chal_value := stored; chal_size := Z.of_nat (length value) |}
    /\ nth_error (buff reply) 17 = Some (if accepted then 0 else 1).
Proof.
  intros Hcf H Hr Hv Hb Hn Hlen Hcap stored accepted.
  destruct (csm_asso_decoder_authentication asso ber_dec packet r
              CSM_AUTH_LOW_LEVEL n value info H Hr (or_introl eq_refl)
              Hv Hb Hn Hlen)
    as (s1 & a1 & Ed & K1 & K2 & K3 & K4 & K5).
  pose proof (csm_asso_decoder_size asso ber_dec packet) as Sz.
  rewrite Ed in Sz. cbn [snd] in Sz.
  rewrite (csm_asso_execute_idle asso s1 ber_dec ber_enc packet a1 Hcf Ed).
  assert (Hg : csm_asso_is_granted s1
               = if accepted
                 then (true, set_result (set_state_cf s1 CF_ASSOCIATED)
                               CSM_ASSO_ERR_NULL)
                 else (false, set_result s1 CSM_ASSO_ERR_AUTH_FAILURE)).
  { unfold csm_asso_is_granted. rewrite K1, Hcf, K4, K2, K5. reflexivity. }
  rewrite Hg.
  destruct accepted; cbn [snd].
  - destruct (csm_asso_encoder_plain
                (set_result (set_state_cf s1 CF_ASSOCIATED) CSM_ASSO_ERR_NULL)
                ber_enc a1) as (reply & He & Hw & _ & Hbuf).
    { cbn [auth_level set_result set_state_cf set_handshake]. rewrite K4.
      discriminate. }
    { lia. }
    rewrite He, Hw. eexists; exists reply. split; [reflexivity|].
    split; [reflexivity|]. split; [reflexivity|]. split; [exact K3|].
    split; [exact K4|]. split; [exact K5|].
    rewrite (nth_error_of_firstn _ _ 43 17 Hbuf) by lia. reflexivity.
  - destruct (csm_asso_encoder_plain
                (set_result s1 CSM_ASSO_ERR_AUTH_FAILURE) ber_enc a1)
      as (reply & He & Hw & _ & Hbuf).
    { cbn [auth_level set_result set_handshake]. rewrite K4. discriminate. }
    { lia. }
    rewrite He, Hw. eexists; exists reply. split; [reflexivity|].
    split; [cbn; rewrite K1; exact Hcf|]. split; [reflexivity|].
    split; [exact K3|]. split; [exact K4|]. split; [exact K5|].
    rewrite (nth_error_of_firstn _ _ 43 17 Hbuf) by lia.
    cbn. rewrite K1, Hcf. reflexivity.
Qed.

(* ---------------------------------------------------------------------- *)
(** ** The server-to-client challenge *)
(* ---------------------------------------------------------------------- *)

(** The challenge kept by the encoder: [n] random bytes from the offset
    [i] of the buffer of the challenge, when they fit it. *)
Lemma stoc_value_split (random : nat -> Z) (n : nat) :
  forall (i : nat) (value : list Z),
    (i + n <= length value)%nat ->
    stoc_value random n i value
    = firstn i value ++ map (fun j => uint8 (random j)) (seq i n)
        ++ skipn (i + n) value.
Proof.
  induction n as [|n IH]; intros i value Hl; cbn [stoc_value seq map app].
  - rewrite Nat.add_0_r, firstn_skipn. reflexivity.
  - rewrite IH by (rewrite list_set_length; lia).
    rewrite (list_set_split value i (uint8 (random i))) by lia.
    rewrite firstn_app, firstn_firstn, length_firstn.
    replace (Nat.min (S i) i) with i by lia.
    replace (Nat.min i (length value)) with i by lia.
    replace (S i - i)%nat with 1%nat by lia. cbn [firstn].
    rewrite skipn_app, length_firstn.
    replace (Nat.min i (length value)) with i by lia.
    rewrite (skipn_all2 (firstn i value)) by (rewrite length_firstn; lia).
    replace (S i + n - i)%nat with (S n) by lia.
    change (skipn (S n) (uint8 (random i) :: skipn (S i) value))
      with (skipn n (skipn (S i) value)).
    cbn [app]. rewrite skipn_skipn.
    replace (n + S i)%nat with (i + S n)%nat by lia.
    rewrite <- app_assoc. reflexivity.
Qed.

Lemma firstn_skipn_middle (l X c U : list Z) (total : nat) :
  firstn total l = X ++ c ++ U ->
  firstn (length c) (skipn (length X) l) = c.
Proof.
  intros H. rewrite <- (firstn_skipn total l), H.
  rewrite <- !app_assoc.
  rewrite skipn_app, skipn_all, Nat.sub_diag. cbn [skipn app].
  rewrite firstn_app, firstn_all, Nat.sub_diag. cbn [firstn].
  apply app_nil_r.
Qed.

(** X21.  The server-to-client challenge is stored as it is sent.  Under
    the high-level GMAC authentication, in a buffer with room for the
    AARE, the encoder draws as many random bytes as the challenge of the
    client has, writes them as the responding authentication value, the
    last field before the 18 bytes of the user information, and keeps them
    with their count in [stoc], in front of what the buffer of the
    challenge held. *)
Theorem server_challenge_is_stored_as_sent (state : csm_asso_state)
  (ber : csm_ber) (array : csm_array) :
  auth_level state = CSM_AUTH_HIGH_LEVEL_GMAC ->
  (Z.to_nat CSM_DEF_APP_TITLE_SIZE <= length csm_sys_get_system_title)%nat ->
  let size := Z.to_nat (uint8 (chal_size (ctos (handshake state)))) in
  let fields := aare_secure_fields CSM_DEF_APP_TITLE_SIZE
                  csm_sys_get_system_title csm_sys_get_random_u8
                  CSM_DEF_PDU_SIZE state in
  (2 + length fields <= array_size array)%nat ->
  (size <= length (chal_value (stoc (handshake state))))%nat ->
  exists state' aare,
    csm_asso_encoder state ber array = (true, state', aare)
    /\ chal_size (stoc (handshake state'))
       = uint8 (chal_size (ctos (handshake state)))
    /\ firstn size (chal_value (stoc (handshake state')))
       = map (fun i => uint8 (csm_sys_get_random_u8 i)) (seq 0 size)
    /\ skipn size (chal_value (stoc (handshake state')))
       = skipn size (chal_value (stoc (handshake state)))
    /\ firstn size (skipn (wr_index aare - 18 - size) (buff aare))
       = firstn size (chal_value (stoc (handshake state'))).
Proof.
  intros Hlvl Ht size fields Hcap Hroom.
  destruct (csm_asso_encoder_secure state ber array Hlvl Ht Hcap)
    as (aare & He & Hw & _ & Hb).
  destruct (csm_asso_encoder_frame state ber array) as (_ & Hs & _ & _).
  rewrite He in Hs. cbn [snd] in Hs.
  eexists; exists aare. split; [exact He|].
  cbn [handshake set_stoc set_handshake stoc chal_size chal_value].
  fold size.
  rewrite (stoc_value_split csm_sys_get_random_u8 size 0) by (cbn; lia).
  cbn [firstn app Nat.add].
  assert (Hchal : firstn size
                    (map (fun j => uint8 (csm_sys_get_random_u8 j)) (seq 0 size)
                       ++ skipn size (chal_value (stoc (handshake state))))
                  = map (fun j => uint8 (csm_sys_get_random_u8 j)) (seq 0 size)).
  { rewrite firstn_app, length_map, length_seq, Nat.sub_diag. cbn [firstn].
    rewrite app_nil_r. apply firstn_all2.
    rewrite length_map, length_seq. lia. }
  split; [reflexivity|]. split; [exact Hchal|]. split.
  { rewrite skipn_app, length_map, length_seq, Nat.sub_diag. cbn [skipn].
    rewrite skipn_all2 by (rewrite length_map, length_seq; lia). reflexivity. }
  rewrite Hchal.
  (* the bytes of the AARE before the challenge, the challenge, and the
     user information *)
  subst fields.
  assert (Hfit : (wr_index aare <= length (buff aare))%nat)
    by (unfold array_size in *; lia).
  clear Hcap. unfold aare_secure_fields, aare_security_bytes in Hb, Hw.
  fold size in Hb, Hw.
  rewrite !app_assoc in Hb.
  match type of Hb with
  | _ = (?X ++ ?c) ++ ?U =>
      rewrite <- (app_assoc X c U) in Hb;
      pose proof (firstn_skipn_middle _ X c U _ Hb) as Hm;
      assert (HX : length X = (wr_index aare - 18 - size)%nat)
  end.
  { apply (f_equal (@length Z)) in Hb.
    rewrite length_firstn in Hb.
    repeat rewrite length_app in Hb. repeat rewrite length_app in Hw.
    repeat rewrite length_app.
    rewrite ?aare_user_info_bytes_length, ?length_map, ?length_seq in Hb.
    rewrite ?aare_user_info_bytes_length, ?length_map, ?length_seq in Hw.
    rewrite ?length_map, ?length_seq.
    cbn [length] in *. lia. }
  rewrite HX, length_map, length_seq in Hm. exact Hm.
Qed.

(** X22.  A high-level association, from the packet to the challenge.
    Take an association at rest and an AARQ that carries the
    application-context-name, the sender ACSE requirements, the mechanism
    name of the high-level GMAC security, a calling authentication value
    of a size allowed by the configuration, and a user-information field.
    In a buffer with room for the reply, the dispatcher stores the value
    as the client-to-server challenge, leaves the association pending with
    the result authentication-required, and answers an AARE that says
    accepted, carries that diagnostic, and brings a server-to-client
    challenge of the size of the one of the client. *)
Theorem high_level_aarq_is_answered_with_a_challenge
  (asso : csm_asso_state) (ber_dec ber_enc : csm_ber) (packet : csm_array)
  (r n : Z) (value info : list Z) :
  state_cf asso = CF_IDLE ->
  holds packet
    (aarq_bytes (context_name_field r ++ sender_requirements_field
                   ++ mechanism_name_field CSM_AUTH_HIGH_LEVEL_GMAC
                   ++ authentication_value_field value
                   ++ user_information_field n info)) ->
  In r [LN_REF; SN_REF; LN_REF_WITH_CYPHERING; SN_REF_WITH_CYPHERING] ->
  (0 < length value)%nat ->
  CSM_DEF_LLS_SIZE <= Z.of_nat (length value) <= CSM_DEF_CHALLENGE_SIZE ->
  n < 0x80 -> (length value + length info < 98)%nat ->
  (Z.to_nat CSM_DEF_APP_TITLE_SIZE <= length csm_sys_get_system_title)%nat ->
  (68 + Z.to_nat CSM_DEF_APP_TITLE_SIZE + length value
   <= array_size packet)%nat ->
  exists asso' reply,
    csm_asso_execute asso ber_dec ber_enc packet
    = (Z.of_nat (wr_index reply), asso', reply)
    /\ state_cf asso' = CF_ASSOCIATION_PENDING
    /\ result (handshake asso') = CSM_ASSO_AUTH_REQUIRED
    /\ ref asso' = r
    /\ auth_level asso' = CSM_AUTH_HIGH_LEVEL_GMAC
    /\ ctos (handshake asso')
       = {| chal_value :=
              value ++ skipn (length value) (chal_value (ctos (handshake asso)));
            chal_size := Z.of_nat (length value) |}
    /\ chal_size (stoc (handshake asso')) = Z.of_nat (length value)
    /\ (25 <= wr_index reply <= array_size packet)%nat
    /\ nth_error (buff reply) 17 = Some 0
    /\ nth_error (buff reply) 24 = Some CSM_ASSO_AUTH_REQUIRED.
Proof.
  intros Hcf H Hr Hv Hb Hn Hlen Ht Hcap.
  destruct (csm_asso_decoder_authentication asso ber_dec packet r
              CSM_AUTH_HIGH_LEVEL_GMAC n value info H Hr (or_intror eq_refl)
              Hv Hb Hn Hlen)
    as (s1 & a1 & Ed & K1 & K2 & K3 & K4 & K5).
  pose proof (csm_asso_decoder_size asso ber_dec packet) as Sz.
  rewrite Ed in Sz. cbn [snd] in Sz.
  rewrite (csm_asso_execute_idle asso s1 ber_dec ber_enc packet a1 Hcf Ed).
  assert (Hg : csm_asso_is_granted s1
               = (true, set_result (set_state_cf s1 CF_ASSOCIATION_PENDING)
                          CSM_ASSO_AUTH_REQUIRED)).
  { unfold csm_asso_is_granted. rewrite K1, Hcf, K4. reflexivity. }
  rewrite Hg. cbn [snd].
  set (pending := set_result (set_state_cf s1 CF_ASSOCIATION_PENDING)
                    CSM_ASSO_AUTH_REQUIRED).
  assert (Hsize : uint8 (chal_size (ctos (handshake pending)))
                  = Z.of_nat (length value)).
  { subst pending. cbn [handshake set_result set_state_cf set_handshake ctos].
    rewrite K5. cbn [chal_size]. apply uint8_small. lia. }
  assert (Hfields :
            (25 <= 2 + length (aare_secure_fields CSM_DEF_APP_TITLE_SIZE
                                 csm_sys_get_system_title csm_sys_get_random_u8
                                 CSM_DEF_PDU_SIZE pending)
             <= 68 + Z.to_nat CSM_DEF_APP_TITLE_SIZE + length value)%nat).
  { unfold aare_secure_fields.
    rewrite !length_app, aare_security_bytes_length,
      aare_user_info_bytes_length, Hsize, Nat2Z.id, length_firstn.
    pose proof (ber_len_bytes_length (CSM_DEF_APP_TITLE_SIZE + 2)).
    pose proof (ber_len_bytes_length (Z.of_nat (length value) + 2)).
    cbn [length aare_kernel_bytes]. lia. }
  destruct (csm_asso_encoder_secure pending ber_enc a1)
    as (reply & He & Hw & _ & Hbuf); [exact K4|exact Ht|lia|].
  rewrite He. eexists; exists reply. split; [reflexivity|].
  split; [reflexivity|]. split; [reflexivity|]. split; [exact K3|].
  split; [exact K4|]. split; [exact K5|]. split; [exact Hsize|].
  split; [lia|].
  split.
  - rewrite (nth_error_of_firstn _ _ _ 17 Hbuf) by lia. reflexivity.
  - rewrite (nth_error_of_firstn _ _ _ 24 Hbuf) by lia. reflexivity.
Qed.

(* ---------------------------------------------------------------------- *)
(** ** Object identifiers, encoded and decoded back *)
(* ---------------------------------------------------------------------- *)

(** The cursor on the seven bytes of an object identifier that an encoder
    has written after its length byte. *)
Lemma encoded_oid_cursor (f : insert_param) (state : csm_asso_state)
  (ber : csm_ber) (name id : Z) :
  field_emits f state state (7 :: cOidHeader ++ [name; id]) ->
  let reply := res_array (f state ber (mk_array (repeat 0 8) 0 0)) in
  unread_bytes (mk_array (buff reply) 1 (wr_index reply))
  = cOidHeader ++ [name; id].
Proof.
  intros Hem reply.
  destruct (Hem ber (mk_array (repeat 0 8) 0 0)) as (_ & _ & _ & Hb & Hw & _);
    [cbn; lia|].
  fold reply in Hb, Hw. rewrite Hb, Hw. reflexivity.
Qed.

(** X23.  The application context name, encoded and decoded back.  The
    object identifier that the AARE encoder writes for the referencing of
    the association is accepted by the decoder of the AARQ, which restores
    that referencing, when it is one of the four known ones.  For an
    association without referencing (NO_REF, as after the initialisation)
    the identifier written is one the decoder refuses, leaving the state
    it decodes into as it was. *)
Theorem oid_context_round_trip_restores_referencing
  (server client : csm_asso_state) (ber : csm_ber) :
  (In (ref server) [LN_REF; SN_REF; LN_REF_WITH_CYPHERING;
                    SN_REF_WITH_CYPHERING] ->
   res_code (oid_context_round_trip server client ber) = CSM_ACSE_OK
   /\ res_state (oid_context_round_trip server client ber)
      = set_ref client (ref server))
  /\ (ref server = NO_REF ->
      res_code (oid_context_round_trip server client ber) = CSM_ACSE_ERR
      /\ res_state (oid_context_round_trip server client ber) = client).
Proof.
  pose proof (encoded_oid_cursor acse_oid_context_encoder server ber
                (uint8 APP_CONTEXT_NAME) (uint8 (ref server))
                (acse_oid_context_encoder_emits server)) as Hu.
  cbv zeta in Hu. unfold oid_context_round_trip. cbv zeta.
  split.
  - intros Hin.
    assert (Hr : uint8 (ref server) = ref server).
    { cbn [In] in Hin. destruct Hin as [<-|[<-|[<-|[<-|[]]]]]; reflexivity. }
    rewrite Hr in Hu.
    match goal with
    | |- context [acse_oid_decoder client ber ?c] =>
        destruct (acse_oid_decoder_accepts client ber c APP_CONTEXT_NAME
                    (ref server) [] Hu) as (Hc & Hs & _)
    end.
    { unfold oid_recognized. cbn [In] in Hin.
      destruct Hin as [<-|[<-|[<-|[<-|[]]]]]; reflexivity. }
    split; [exact Hc|exact Hs].
  - intros Hno. rewrite Hno in Hu.
    match goal with
    | |- context [acse_oid_decoder client ber ?c] =>
        apply (acse_oid_decoder_rejects client ber c)
    end.
    intros name id rest E. rewrite Hu in E.
    injection E as <- <- _. reflexivity.
Qed.

(** X24.  The mechanism name, encoded and decoded back.  The object
    identifier that the AARE encoder writes for the authentication level
    of the association is accepted by the decoder of the AARQ, which
    restores that level, when it is the low-level or the high-level GMAC
    one.  For the lowest level the identifier written is one the decoder
    refuses, leaving the state it decodes into as it was. *)
Theorem oid_mechanism_round_trip_restores_level
  (server client : csm_asso_state) (ber : csm_ber) :
  (In (auth_level server) [CSM_AUTH_LOW_LEVEL; CSM_AUTH_HIGH_LEVEL_GMAC] ->
   res_code (oid_mechanism_round_trip server client ber) = CSM_ACSE_OK
   /\ res_state (oid_mechanism_round_trip server client ber)
      = set_auth_level client (auth_level server))
  /\ (auth_level server = CSM_AUTH_LOWEST_LEVEL ->
      res_code (oid_mechanism_round_trip server client ber) = CSM_ACSE_ERR
      /\ res_state (oid_mechanism_round_trip server client ber) = client).
Proof.
  pose proof (encoded_oid_cursor acse_oid_mechanism_encoder server ber
                (uint8 SECURITY_MECHANISM_NAME) (uint8 (auth_level server))
                (acse_oid_mechanism_encoder_emits server)) as Hu.
  cbv zeta in Hu. unfold oid_mechanism_round_trip. cbv zeta.
  split.
  - intros Hin.
    assert (Hr : uint8 (auth_level server) = auth_level server).
    { cbn [In] in Hin. destruct Hin as [<-|[<-|[]]]; reflexivity. }
    rewrite Hr in Hu.
    match goal with
    | |- context [acse_oid_decoder client ber ?c] =>
        destruct (acse_oid_decoder_accepts client ber c SECURITY_MECHANISM_NAME
                    (auth_level server) [] Hu) as (Hc & Hs & _)
    end.
    { unfold oid_recognized. cbn [In] in Hin.
      destruct Hin as [<-|[<-|[]]]; reflexivity. }
    split; [exact Hc|exact Hs].
  - intros Hno. rewrite Hno in Hu.
    match goal with
    | |- context [acse_oid_decoder client ber ?c] =>
        apply (acse_oid_decoder_rejects client ber c)
    end.
    intros name id rest E. rewrite Hu in E.
    injection E as <- <- _. reflexivity.
Qed.

(* ---------------------------------------------------------------------- *)
(** ** What decides the authorization *)
(* ---------------------------------------------------------------------- *)

(** The authorization step looks at the connection state, the
    authentication level, the destination access point and the
    client-to-server challenge, and at nothing else; it sets the
    connection state and the result, and nothing else. *)
Lemma csm_asso_is_granted_depends (s s' : csm_asso_state) :
  state_cf s' = state_cf s ->
  auth_level s' = auth_level s ->
  config s' = config s ->
  ctos (handshake s') = ctos (handshake s) ->
  result (handshake s') = result (handshake s) ->
  fst (csm_asso_is_granted s') = fst (csm_asso_is_granted s)
  /\ state_cf (snd (csm_asso_is_granted s'))
     = state_cf (snd (csm_asso_is_granted s))
  /\ result (handshake (snd (csm_asso_is_granted s')))
     = result (handshake (snd (csm_asso_is_granted s)))
  /\ auth_level (snd (csm_asso_is_granted s')) = auth_level s'
  /\ ref (snd (csm_asso_is_granted s')) = ref s'.
Proof.
  intros H1 H2 H3 H4 H5. unfold csm_asso_is_granted.
  rewrite H1, H2, H3, H4.
  repeat match goal with
         | |- context [if ?c then _ else _] => destruct c
         end; cbn; auto.
Qed.

(** From IDLE the connection state is left exactly when the association is
    granted. *)
Lemma csm_asso_is_granted_idle (s : csm_asso_state) :
  state_cf s = CF_IDLE ->
  cf_eqb (state_cf (snd (csm_asso_is_granted s))) CF_IDLE
  = negb (fst (csm_asso_is_granted s)).
Proof.
  intros H. unfold csm_asso_is_granted. rewrite H. cbn [cf_eqb].
  repeat match goal with
         | |- context [if ?c then _ else _] => destruct c
         end; cbn; try reflexivity; rewrite H; reflexivity.
Qed.

(** X25.  An AARQ without authentication fields is decided on what the
    state holds.  Take an association at rest, whose authentication level
    is not the high-level GMAC one, and an AARQ made of the
    application-context-name and of a user-information field.  The packet
    decodes, the referencing becomes the one asked for, and the
    authentication level and the client-to-server challenge stay the ones
    the state held before the packet: the dispatcher, which does not
    initialise the association, grants or refuses as the authorization
    step would have done before the packet, and answers the 43 bytes of an
    AARE. *)
Theorem aarq_without_mechanism_is_decided_on_the_former_level
  (asso : csm_asso_state) (ber_dec ber_enc : csm_ber) (packet : csm_array)
  (r n : Z) (info : list Z) :
  state_cf asso = CF_IDLE ->
  auth_level asso <> CSM_AUTH_HIGH_LEVEL_GMAC ->
  holds packet
    (aarq_bytes (context_name_field r ++ user_information_field n info)) ->
  In r [LN_REF; SN_REF; LN_REF_WITH_CYPHERING; SN_REF_WITH_CYPHERING] ->
  n < 0x80 -> (length info < 115)%nat ->
  (43 <= array_size packet)%nat ->
  exists asso' reply,
    csm_asso_execute asso ber_dec ber_enc packet = (43, asso', reply)
    /\ state_cf asso' = state_cf (snd (csm_asso_is_granted asso))
    /\ result (handshake asso')
       = result (handshake (snd (csm_asso_is_granted asso)))
    /\ ref asso' = r
    /\ auth_level asso' = auth_level asso
    /\ ctos (handshake asso') = ctos (handshake asso)
    /\ nth_error (buff reply) 17
       = Some (if fst (csm_asso_is_granted asso) then 0 else 1).
Proof.
  intros Hcf Hlvl H Hr Hn Hlen Hcap.
  destruct (csm_asso_decoder_context_name asso ber_dec packet r
              CSM_ASSO_USER_INFORMATION n info H Hr Hlen)
    as (a' & H' & S' & Ed); [cbn; discriminate|exact Hn|].
  unfold aarq_codec_chain in Ed. cbn [skipn] in Ed.
  do 16 (rewrite decoder_loop_skip in Ed by (cbn; discriminate)).
  match type of Ed with
  | context [decoder_loop _ true ?st ?b a'] =>
      destruct (acse_user_info_decoder_keeps st b a')
        as (K1 & K2 & K3 & K4 & K5 & K6);
      destruct (acse_user_info_decoder st b a') as [[[code s1] b1] a1] eqn:Eu
  end.
  unfold res_state in K1, K2, K3, K4, K5, K6.
  cbn [fst snd] in K1, K2, K3, K4, K5, K6.
  erewrite decoder_loop_last in Ed;
    [|reflexivity|reflexivity|exact Eu|right; reflexivity].
  cbn [set_ref state_cf ref auth_level config handshake] in K1, K2, K3, K4, K5, K6.
  destruct (csm_asso_is_granted_depends asso s1 K1 K3 K4 K5 K6)
    as (G1 & G2 & G3 & G4 & G5).
  pose proof (csm_asso_decoder_size asso ber_dec packet) as Sz.
  rewrite Ed in Sz. cbn [snd] in Sz.
  rewrite (csm_asso_execute_idle asso s1 ber_dec ber_enc packet a1 Hcf Ed).
  assert (G6 : ctos (handshake (snd (csm_asso_is_granted s1)))
               = ctos (handshake s1)).
  { unfold csm_asso_is_granted.
    repeat match goal with
           | |- context [if ?c then _ else _] => destruct c
           end; reflexivity. }
  destruct (csm_asso_encoder_plain (snd (csm_asso_is_granted s1)) ber_enc a1)
    as (reply & He & Hw & _ & Hb); [congruence|lia|].
  rewrite He, Hw.
  exists (snd (csm_asso_is_granted s1)), reply.
  split; [reflexivity|]. split; [exact G2|]. split; [exact G3|].
  split; [congruence|]. split; [congruence|]. split; [congruence|].
  rewrite (nth_error_of_firstn _ _ 43 17 Hb) by lia.
  cbn [aare_plain_bytes aare_kernel_bytes app nth_error]. f_equal.
  rewrite (csm_asso_is_granted_idle s1) by congruence. rewrite G1.
  destruct (fst (csm_asso_is_granted asso)); reflexivity.
Qed.

(* ---------------------------------------------------------------------- *)
(** ** An AARQ without authentication fields *)
(* ---------------------------------------------------------------------- *)








End Association.

(* ====================================================================== *)
(** * The properties on sample data *)
(* ====================================================================== *)

(** With the bitmask 00 50 1F of the sample configuration, the bitmask
    that comes back is 00 00 50. *)
Lemma conformance_round_trip_loses_low_byte_witness :
  0 <= conformance (config sample_idle) < 2 ^ 24
  /\ proposed_conformance
       (handshake (res_state (conformance_round_trip 0x01F4 sample_idle
                                sample_idle sample_ber))) = 0x50
  /\ conformance (config sample_idle) = 0x00501F.
Proof.
  assert (H : 0 <= conformance (config sample_idle) < 2 ^ 24)
    by (cbn; lia).
  split; [exact H|]. split; [|reflexivity].
  destruct (conformance_round_trip_loses_low_byte 0x01F4 sample_idle sample_idle
              sample_ber H) as (_ & E & _).
  rewrite E. reflexivity.
Defined.

(** The AARQ without application-context-name decodes: the nineteen
    entries before user-information are skipped. *)
Lemma tag_mismatch_skips_entry_witness :
  let header := mk_ber 0xBE 30 0 false 16 in
  let cursor := mk_array (sample_aarq_no_context ++ repeat 0 44%nat) 4 20 in
  decoder_loop (aarq_codec_chain 8 8 64) true sample_idle header cursor
  = decoder_loop (skipn 19 (aarq_codec_chain 8 8 64)) true sample_idle
      header cursor
  /\ fst (fst (csm_asso_decoder 8 8 64 sample_idle sample_ber
                 (sample_packet sample_aarq_no_context 64))) = true.
Proof.
  intros header cursor. split; [|vm_compute; reflexivity].
  apply (proj2 (tag_mismatch_skips_entry (firstn 19 (aarq_codec_chain 8 8 64))
                  (skipn 19 (aarq_codec_chain 8 8 64)) sample_idle header cursor
                  ltac:(unfold aarq_codec_chain; cbn [firstn];
                        repeat (apply Forall_cons; [cbn; discriminate|]);
                        apply Forall_nil))).
Defined.

(** The password of [sample_low_level] is not the one of the table: the
    AARE says rejected-permanent. *)
Lemma low_level_authorization_witness :
  state_cf sample_low_level = CF_IDLE
  /\ auth_level sample_low_level = CSM_AUTH_LOW_LEVEL
  /\ csm_asso_is_granted 11 sample_password sample_low_level
     = (false, set_result sample_low_level CSM_ASSO_ERR_AUTH_FAILURE)
  /\ exists aare,
       csm_asso_encoder 8 0x01F4 sample_title sample_random
         (set_result sample_low_level CSM_ASSO_ERR_AUTH_FAILURE) sample_ber
         (sample_packet sample_aarq 64)
       = (true, set_result sample_low_level CSM_ASSO_ERR_AUTH_FAILURE, aare)
       /\ nth_error (buff aare) 17 = Some 1.
Proof.
  split; [reflexivity|]. split; [reflexivity|].
  destruct (low_level_authorization 8 0x01F4 11 sample_title sample_random
              sample_password sample_low_level sample_ber
              (sample_packet sample_aarq 64) eq_refl eq_refl
              ltac:(vm_compute; lia)) as [_ H].
  destruct (H eq_refl) as (Hg & _ & _ & aare & He & _ & _ & _ & Hn).
  split; [exact Hg|]. exists aare. split; assumption.
Defined.

(** A release request while associated. *)
Lemma associated_release_request_witness :
  exists reply,
    csm_asso_execute 8 8 64 0x01F4 11 sample_title sample_random sample_password
      (set_state_cf sample_idle CF_ASSOCIATED) sample_ber sample_ber
      (sample_packet sample_rlrq 64)
    = (5, sample_idle, reply)
    /\ firstn 5 (buff reply) = [0x63; 0x03; 0x80; 0x01; 0x00].
Proof.
  destruct (associated_release_request 8 8 64 0x01F4 11 sample_title
              sample_random sample_password
              (set_state_cf sample_idle CF_ASSOCIATED) sample_ber sample_ber
              (sample_packet sample_rlrq 64) 0x62 eq_refl eq_refl) as [H _].
  destruct (H eq_refl) as (reply & He & _ & Hb).
  exists reply. split; [exact He|].
  destruct (Hb ltac:(vm_compute; lia)) as [_ ->]. reflexivity.
Defined.

(** High-level security on the sample association. *)
Lemma high_level_gmac_authorization_witness :
  exists state' aare,
    csm_asso_encoder 8 0x01F4 sample_title sample_random
      (set_result (set_state_cf sample_high_level CF_ASSOCIATION_PENDING)
         CSM_ASSO_AUTH_REQUIRED) sample_ber (sample_packet sample_aarq 128)
    = (true, state', aare)
    /\ wr_index aare = 80%nat
    /\ nth_error (buff aare) 17 = Some 0
    /\ nth_error (buff aare) 24 = Some 14.
Proof.
  destruct (high_level_gmac_authorization 8 0x01F4 11 sample_title sample_random
              sample_password sample_high_level sample_ber
              (sample_packet sample_aarq 128) eq_refl eq_refl
              ltac:(vm_compute; lia) ltac:(vm_compute; lia))
    as (_ & _ & _ & state' & aare & He & Hw & _ & _ & H17 & _ & H24).
  exists state', aare. repeat split; assumption.
Defined.

(** The AARE of the sample high-level association is 80 bytes long and
    declares 78. *)
Lemma aare_length_invariant_witness :
  let encoded :=
    csm_asso_encoder 8 0x01F4 sample_title sample_random
      (set_state_cf sample_high_level CF_ASSOCIATION_PENDING) sample_ber
      (sample_packet sample_aarq 128) in
  fst (fst encoded) = true
  /\ nth_error (buff (snd encoded)) 1 = Some 78
  /\ wr_index (snd encoded) = 80%nat.
Proof.
  intros encoded. split; [vm_compute; reflexivity|].
  split; [|vm_compute; reflexivity].
  destruct (aare_length_invariant 8 64 0x01F4 sample_title sample_random
              (set_state_cf sample_high_level CF_ASSOCIATION_PENDING)
              (snd (fst encoded)) sample_ber (sample_packet sample_aarq 128)
              (snd encoded) ltac:(lia) ltac:(cbn; lia)
              ltac:(lia) ltac:(vm_compute; reflexivity)) as [H _].
  rewrite H. vm_compute. reflexivity.
Defined.

(** A packet that starts with another tag than 0x60 is dropped. *)
Lemma malformed_outer_header_is_dropped_witness :
  fst (fst (csm_asso_execute 8 8 64 0x01F4 11 sample_title sample_random
              sample_password sample_idle sample_ber sample_ber
              (sample_packet sample_not_aarq 64))) = 0
  /\ snd (fst (csm_asso_execute 8 8 64 0x01F4 11 sample_title sample_random
                 sample_password sample_idle sample_ber sample_ber
                 (sample_packet sample_not_aarq 64))) = sample_idle.
Proof.
  destruct (malformed_outer_header_is_dropped 8 8 64 0x01F4 11 sample_title
              sample_random sample_password sample_idle sample_ber sample_ber
              (sample_packet sample_not_aarq 64) eq_refl
              ltac:(left; vm_compute; discriminate)) as (_ & -> & _).
  split; reflexivity.
Defined.



(** C9, as stated, fails on a mechanism-name field declared 8 bytes long.
    Its contents are not the 5-byte prefix followed by a pair, being one
    byte too long; yet the decoder, which does not look at the declared
    length, accepts the first seven bytes and sets the authentication
    level. *)
Lemma oid_declared_length_is_not_checked :
  length_length sample_oversized_header = 8
  /\ (forall name id,
        field_content sample_oversized_header sample_oversized_oid
        <> cOidHeader ++ [name; id])
  /\ res_code (acse_oid_decoder sample_idle sample_oversized_header
                 sample_oversized_oid) = CSM_ACSE_OK
  /\ auth_level sample_idle = CSM_AUTH_LOWEST_LEVEL
  /\ auth_level (res_state (acse_oid_decoder sample_idle sample_oversized_header
                              sample_oversized_oid)) = CSM_AUTH_LOW_LEVEL.
Proof.
  split; [reflexivity|]. split; [intros name id; vm_compute; discriminate|].
  repeat split.
Qed.

(** The seven bytes of low-level security are recognized. *)
Lemma oid_decoder_recognized_or_unchanged_witness :
  res_code (acse_oid_decoder sample_idle sample_oversized_header
              sample_oversized_oid) = CSM_ACSE_OK
  /\ res_state (acse_oid_decoder sample_idle sample_oversized_header
                  sample_oversized_oid)
     = set_auth_level sample_idle CSM_AUTH_LOW_LEVEL.
Proof.
  apply (proj2 (oid_decoder_recognized_or_unchanged sample_idle
                  sample_oversized_header sample_oversized_oid)
           SECURITY_MECHANISM_NAME CSM_AUTH_LOW_LEVEL [0xFF] eq_refl eq_refl).
Defined.

(** A marker 09 where a null marker is expected changes nothing. *)
Lemma dedicated_key_marker_is_skipped_witness :
  let field marker :=
    mk_array (sample_user_information marker) 2 18 in
  res_code (acse_user_info_decoder sample_idle sample_ber (field 9)) = CSM_ACSE_OK
  /\ res_state (acse_user_info_decoder sample_idle sample_ber (field 9))
     = res_state (acse_user_info_decoder sample_idle sample_ber (field 0)).
Proof.
  intros field.
  destruct (dedicated_key_marker_is_skipped sample_idle sample_ber
              (mk_ber 4 4 0 true 14) (field 9) (field 0)
              (mk_array (sample_user_information 9) 4 18)
              (mk_array (sample_user_information 0) 4 18)
              9 0 [0; 0; 6; 0x5F; 0x1F; 4; 0; 0; 0x7E; 0x1F; 4; 0xB0]
              eq_refl eq_refl eq_refl eq_refl eq_refl)
    as (_ & _ & Hs & _).
  split; [vm_compute; reflexivity|exact Hs].
Defined.

(* ====================================================================== *)
(** * The decoders, the encoder and the dispatcher on sample data *)
(* ====================================================================== *)

(** The 8-byte password of the table, as a calling authentication value. *)
Lemma auth_value_decoder_stores_challenge_witness :
  exists ber' a',
    acse_auth_value_decoder 8 64 sample_idle sample_ber
      (sample_packet ([0x80; 0x08] ++ sample_password_value ++ [0xBE]) 16)
    = (CSM_ACSE_OK,
       set_ctos sample_idle
         (mk_challenge (sample_password_value ++ repeat 0 56%nat) 8),
       ber', a')
    /\ unread_bytes a' = [0xBE].
Proof.
  destruct (auth_value_decoder_stores_challenge 8 64 sample_idle sample_ber
              (sample_packet ([0x80; 0x08] ++ sample_password_value ++ [0xBE]) 16)
              8 sample_password_value [0xBE]
              ltac:(split; [reflexivity | vm_compute; lia])
              eq_refl ltac:(lia) ltac:(lia)) as (ber' & a' & E & H).
  exists ber', a'. split; [exact E | exact (proj1 H)].
Defined.

(** An 8-byte calling AP title, for a server whose titles have 8 bytes. *)
Lemma client_system_title_decoder_stores_title_witness :
  exists ber' a',
    acse_client_system_title_decoder 8 sample_idle sample_ber
      (sample_packet ([0x04; 0x08] ++ sample_title ++ [0xBE]) 16)
    = (CSM_ACSE_OK, set_client_app_title sample_idle sample_title, ber', a')
    /\ unread_bytes a' = [0xBE].
Proof.
  destruct (client_system_title_decoder_stores_title 8 sample_idle sample_ber
              (sample_packet ([0x04; 0x08] ++ sample_title ++ [0xBE]) 16)
              0x04 8 sample_title [0xBE]
              ltac:(split; [reflexivity | vm_compute; lia])
              eq_refl eq_refl ltac:(lia)) as [H _].
  destruct (H eq_refl) as (ber' & a' & E & Hr).
  exists ber', a'. split; [exact E | exact (proj1 Hr)].
Defined.

(** The InitiateRequest of the sample AARQ is accepted: it says version 6. *)
Lemma user_info_decoder_requires_version_6_witness :
  exists ber1 a1 marker rest,
    csm_ber_decode sample_ber (sample_packet (sample_initiate_request 0) 16)
    = (true, ber1, a1)
    /\ tag_id ber1 = BER_TYPE_OCTET_STRING
    /\ unread_bytes a1
       = [AXDR_INITIATE_REQUEST; marker; AXDR_TAG_NULL; AXDR_TAG_NULL; 6; 95; 31]
           ++ rest.
Proof.
  exact (user_info_decoder_requires_version_6 sample_idle sample_ber
           (sample_packet (sample_initiate_request 0) 16) eq_refl).
Defined.

(** Seven unused bits declared in the conformance block: the request is
    refused, and the proposal reads 07 07 07. *)
Lemma user_info_decoder_failure_overwrites_proposal_witness :
  let r := acse_user_info_decoder sample_idle sample_ber
             (sample_packet (sample_initiate_request 7) 16) in
  res_code r = CSM_ACSE_ERR
  /\ proposed_conformance (handshake (res_state r)) = 0x070707.
Proof.
  destruct (user_info_decoder_failure_overwrites_proposal sample_idle sample_ber
              (sample_packet (sample_initiate_request 7) 16)
              0x04 0x0E 0 7 [0x00; 0x7E; 0x1F; 0x04; 0xB0]
              ltac:(split; [reflexivity | vm_compute; lia])
              eq_refl ltac:(lia) ltac:(lia)) as (E & C & _).
  split; [exact E | exact C].
Defined.

(** The reply to the sample AARQ, in a buffer of 64 bytes. *)
Lemma idle_reply_fits_buffer_witness :
  let r := csm_asso_execute 8 8 64 0x01F4 11 sample_title sample_random
             sample_password sample_idle sample_ber sample_ber
             (sample_packet sample_aarq 64) in
  0 <= fst (fst r) <= 64.
Proof.
  exact (proj1 (idle_reply_fits_buffer 8 8 64 0x01F4 11 sample_title
                  sample_random sample_password sample_idle sample_ber
                  sample_ber (sample_packet sample_aarq 64) eq_refl)).
Defined.

(** The level 7 is refused, with the diagnostic of the configuration. *)
Lemma unknown_auth_level_is_refused_witness :
  csm_asso_is_granted 11 sample_password sample_unknown_level
  = (false, set_result sample_unknown_level 11)
  /\ exists aare,
       csm_asso_encoder 8 0x01F4 sample_title sample_random
         (set_result sample_unknown_level 11) sample_ber
         (sample_packet sample_aarq 64)
       = (true, set_result sample_unknown_level 11, aare)
       /\ nth_error (buff aare) 17 = Some 1
       /\ nth_error (buff aare) 24 = Some 11.
Proof.
  destruct (unknown_auth_level_is_refused 8 0x01F4 11 sample_title sample_random
              sample_password sample_unknown_level sample_ber
              (sample_packet sample_aarq 64) eq_refl
              ltac:(vm_compute; discriminate) ltac:(vm_compute; discriminate)
              ltac:(vm_compute; discriminate) ltac:(vm_compute; lia))
    as (G & _ & aare & E & _ & _ & R & _ & D).
  split; [exact G|]. exists aare. split; [exact E|]. split; [exact R | exact D].
Defined.

(** The AARQ without any field. *)
Lemma packet_without_fields_is_dropped_witness :
  let r := csm_asso_execute 8 8 64 0x01F4 11 sample_title sample_random
             sample_password sample_idle sample_ber sample_ber
             (sample_packet sample_aarq_empty 64) in
  fst (fst r) = 0 /\ snd (fst r) = sample_idle.
Proof.
  assert (H : holds (sample_packet sample_aarq_empty 64) [CSM_ASSO_AARQ; 0])
    by (split; [reflexivity | vm_compute; lia]).
  exact (proj2 (packet_without_fields_is_dropped 8 8 64 0x01F4 11 sample_title
                  sample_random sample_password sample_idle sample_ber
                  sample_ber (sample_packet sample_aarq_empty 64) eq_refl
                  (or_intror H))).
Defined.

(** A buffer of 13 bytes is full after the application-context-name: the
    encoder reports success.  A buffer of 42 bytes is one byte short: it
    reports a failure. *)
Lemma plain_encoder_succeeds_iff_witness :
  fst (fst (csm_asso_encoder 8 0x01F4 sample_title sample_random sample_idle
              sample_ber (sample_packet [] 13))) = true
  /\ fst (fst (csm_asso_encoder 8 0x01F4 sample_title sample_random sample_idle
                 sample_ber (sample_packet [] 42))) <> true.
Proof.
  split.
  - apply (proj2 (plain_encoder_succeeds_iff 8 0x01F4 sample_title sample_random
                    sample_idle sample_ber (sample_packet [] 13)
                    ltac:(vm_compute; discriminate))).
    left. vm_compute. tauto.
  - intros E.
    apply (proj1 (plain_encoder_succeeds_iff 8 0x01F4 sample_title sample_random
                    sample_idle sample_ber (sample_packet [] 42)
                    ltac:(vm_compute; discriminate))) in E.
    vm_compute in E. destruct E as [[E|[E|[E|[E|[E|[]]]]]]|E];
      [discriminate E ..| lia].
Defined.

(** The AARQ that ends with its application-context-name: the object
    identifier is matched at the third entry, no header follows, and the
    packet is refused. *)
Lemma field_ending_the_packet_fails_witness :
  res_code (decoder_loop (skipn 2 (aarq_codec_chain 8 8 64)) true sample_idle
              (mk_ber 0x06 6 0 true 7)
              (mk_array (sample_aarq_context_only ++ repeat 0 51%nat) 6 13))
  = false.
Proof.
  apply (field_ending_the_packet_fails
           (mk_codec BER_TYPE_OBJECT_IDENTIFIER ACSE_ANY (Some acse_oid_decoder) None)
           (skipn 3 (aarq_codec_chain 8 8 64)) acse_oid_decoder sample_idle
           (mk_ber 0x06 6 0 true 7)
           (mk_array (sample_aarq_context_only ++ repeat 0 51%nat) 6 13)
           ltac:(vm_compute; discriminate) eq_refl eq_refl eq_refl).
Defined.

(** The sample AARQ without authentication is answered with an AARE of 43
    bytes, and the association is open in logical-name referencing. *)
Lemma association_without_authentication_witness :
  exists asso' reply,
    csm_asso_execute 8 8 64 0x01F4 11 sample_title sample_random sample_password
      (csm_asso_init sample_low_level) sample_ber sample_ber
      (sample_packet sample_aarq 64)
    = (43, asso', reply)
    /\ state_cf asso' = CF_ASSOCIATED
    /\ ref asso' = LN_REF
    /\ auth_level asso' = CSM_AUTH_LOWEST_LEVEL.
Proof.
  destruct (association_without_authentication 8 8 64 0x01F4 11 sample_title
              sample_random sample_password sample_low_level sample_ber
              sample_ber (sample_packet sample_aarq 64) LN_REF 0x10
              (sample_initiate_request 0)
              ltac:(split; [reflexivity | vm_compute; lia])
              ltac:(left; reflexivity) ltac:(lia) ltac:(vm_compute; lia)
              ltac:(vm_compute; lia))
    as (asso' & reply & E & C & R & L & _).
  exists asso', reply. split; [exact E|]. split; [exact C|].
  split; [exact R | exact L].
Defined.

(** The AARQ with the password of the table is accepted. *)
Lemma low_level_aarq_is_checked_against_the_password_witness :
  exists asso' reply,
    csm_asso_execute 8 8 64 0x01F4 11 sample_title sample_random sample_password
      sample_idle sample_ber sample_ber (sample_packet sample_aarq_low_level 64)
    = (43, asso', reply)
    /\ state_cf asso' = CF_ASSOCIATED
    /\ result (handshake asso') = CSM_ASSO_ERR_NULL
    /\ nth_error (buff reply) 17 = Some 0.
Proof.
  destruct (low_level_aarq_is_checked_against_the_password 8 8 64 0x01F4 11
              sample_title sample_random sample_password sample_idle sample_ber
              sample_ber (sample_packet sample_aarq_low_level 64) LN_REF 0x10
              sample_password_value (sample_initiate_request 0) eq_refl
              ltac:(split; [reflexivity | vm_compute; lia])
              ltac:(left; reflexivity) ltac:(vm_compute; lia)
              ltac:(cbn; lia) ltac:(lia) ltac:(vm_compute; lia)
              ltac:(vm_compute; lia))
    as (asso' & reply & E & C & R & _ & _ & _ & B).
  exists asso', reply. split; [exact E|]. split; [exact C|].
  split; [exact R | exact B].
Defined.

(** With high-level security and the sample source of bytes, the
    challenge stored for the server is the one written in the AARE. *)
Lemma server_challenge_is_stored_as_sent_witness :
  exists state' aare,
    csm_asso_encoder 8 0x01F4 sample_title sample_random sample_high_level
      sample_ber (sample_packet [] 128)
    = (true, state', aare)
    /\ chal_size (stoc (handshake state')) = 8
    /\ firstn 8 (chal_value (stoc (handshake state')))
       = [3; 10; 17; 24; 31; 38; 45; 52].
Proof.
  destruct (server_challenge_is_stored_as_sent 8 0x01F4 sample_title
              sample_random sample_high_level sample_ber (sample_packet [] 128)
              eq_refl ltac:(vm_compute; lia) ltac:(vm_compute; lia)
              ltac:(vm_compute; lia))
    as (state' & aare & E & S & V & _).
  exists state', aare. split; [exact E|]. split; [exact S | exact V].
Defined.

(** The AARQ with high-level security is answered with a challenge, and
    the association waits for the reply of the client. *)
Lemma high_level_aarq_is_answered_with_a_challenge_witness :
  exists asso' reply,
    csm_asso_execute 8 8 64 0x01F4 11 sample_title sample_random sample_password
      sample_idle sample_ber sample_ber
      (sample_packet sample_aarq_high_level 128)
    = (Z.of_nat (wr_index reply), asso', reply)
    /\ state_cf asso' = CF_ASSOCIATION_PENDING
    /\ result (handshake asso') = CSM_ASSO_AUTH_REQUIRED
    /\ nth_error (buff reply) 24 = Some CSM_ASSO_AUTH_REQUIRED.
Proof.
  destruct (high_level_aarq_is_answered_with_a_challenge 8 8 64 0x01F4 11
              sample_title sample_random sample_password sample_idle sample_ber
              sample_ber (sample_packet sample_aarq_high_level 128) LN_REF 0x10
              sample_challenge_value (sample_initiate_request 0) eq_refl
              ltac:(split; [reflexivity | vm_compute; lia])
              ltac:(left; reflexivity) ltac:(vm_compute; lia)
              ltac:(cbn; lia) ltac:(lia) ltac:(vm_compute; lia)
              ltac:(vm_compute; lia) ltac:(vm_compute; lia))
    as (asso' & reply & E & C & R & _ & _ & _ & _ & _ & _ & B).
  exists asso', reply. split; [exact E|]. split; [exact C|].
  split; [exact R | exact B].
Defined.

(** The sample AARQ names no mechanism.  Sent to an association at rest
    that still holds the low-level request of a former client, whose
    password was wrong, it is refused. *)
Lemma aarq_without_mechanism_is_decided_on_the_former_level_witness :
  exists asso' reply,
    csm_asso_execute 8 8 64 0x01F4 11 sample_title sample_random sample_password
      sample_low_level sample_ber sample_ber (sample_packet sample_aarq 64)
    = (43, asso', reply)
    /\ state_cf asso' = CF_IDLE
    /\ auth_level asso' = CSM_AUTH_LOW_LEVEL
    /\ nth_error (buff reply) 17 = Some 1.
Proof.
  destruct (aarq_without_mechanism_is_decided_on_the_former_level 8 8 64 0x01F4
              11 sample_title sample_random sample_password sample_low_level
              sample_ber sample_ber (sample_packet sample_aarq 64) LN_REF 0x10
              (sample_initiate_request 0) eq_refl
              ltac:(vm_compute; discriminate)
              ltac:(split; [reflexivity | vm_compute; lia])
              ltac:(left; reflexivity) ltac:(lia) ltac:(vm_compute; lia)
              ltac:(vm_compute; lia))
    as (asso' & reply & E & C & _ & _ & L & _ & B).
  exists asso', reply. split; [exact E|]. split; [exact C|].
  split; [exact L | exact B].
Defined.
